(* ===== verification/_CoqProject ===== *)
-Q . S2P
Prelude.v
Bitmap.v
Pmm.v
PmmTheorems.v
Journal.v
JournalFacts.v
JournalFs.v
JournalFsFacts.v
JournalTheorems.v
JournalHeader.v
JournalTorn.v
JournalTest.v
Vmm.v
VmmFacts.v
VmmTheorems.v
Sched.v
SchedTheorems.v
Sync.v
SyncTheorems.v
Elf.v
ElfTheorems.v
Syscall.v
SyscallTheorems.v
Block.v
BlockFacts.v
BlockTheorems.v
BlockFault.v
Vfs.v
VfsSpec.v
VfsFacts.v
VfsTheorems.v
VfsSys.v
Kmem.v
KmemFacts.v
KmemBlocks.v
KmemTheorems.v
Mcsfs1.v
Mcsfs1Dev.v
Mcsfs1Spec.v
Mcsfs1Dir.v
Mcsfs1Disk.v
Mcsfs1Data.v
Mcsfs1Rep.v
Mcsfs1Format.v
Mcsfs1Images.v
Mcsfs1Ops.v
Mcsfs1Theorems.v
Mcsfs1Fault.v
Mcsfs1FaultOps.v
Mcsfs1FaultTheorems.v
Mcsfs1Total.v
Memory.v
Machine.v
Console.v
ConsoleFacts.v
Interrupt.v
InterruptFacts.v
BootFacts.v
MachineTheorems.v
Boot.v
BootRules.v
BootTheorems.v
