(* ===== verification/Prelude.v ===== *)
(** * MCSOS: a verification of the kernel's core components

    MCSOS is a small x86_64 teaching kernel in C.  It boots with Limine,
    installs its interrupt table and timer ([kernel/core],
    [kernel/arch/x86_64]), and contains a frame allocator, page tables, a
    kernel heap, a round-robin scheduler, locks with a lock-order checker, a
    system-call dispatcher, an ELF loader, a block layer with a write-back
    cache, a RAM file system with file descriptors, and two disk file systems,
    one of them journalled.  This development models these components as Rocq
    functions, one per C function, and proves what makes each of them correct;
    where the code does something its clients would not expect, it proves
    that.

    ** Conventions

    - A [w]-bit unsigned integer is a [Z] between 0 and 2^w; the points where
      C reduces modulo 2^w are written [u8], [u16], [u32], [u64].  Bit
      operations are those of [Z].
    - A computation that C leaves undefined (an access outside an array, a
      null dereference, signed overflow) is [None]; arrays are read and written
      at an index with list lookup or with [arr_get], [arr_set], [le_read] and
      [put_at], which are partial.  A function with an [int] status is a
      computation of the monad [em]: [inl rc] is the early return of an error
      code, [inr x] success.
    - On-disk and in-memory structures are lists of bytes read and written at
      the constant offsets of the C struct ([le_get], [le_put]); so are the
      inode and directory tables of MCSFS1J, whose indices are the counters of
      constant loops or tested by the code before ([JournalFs]).
    - Loops are structural recursions on the number of iterations left, which
      is the loop's own bound; where the C loop has none (walks of linked
      lists), fuel is given and the theorems show that it suffices.
    - Callbacks, devices and the hardware are parameters; what is assumed of
      them is a type class or a named hypothesis with an instance.

    ** Files

    - [Prelude]: integers, the monads, byte strings, search loops, tactics.
      [Bitmap]: bitmaps in byte arrays, shared by three components.
    - [Pmm], [PmmTheorems]: the frame allocator, [kernel/core/pmm.c] (the file
      [src/pmm.c] has the same text).  Every reachable state has exact
      counters, allocation takes the lowest free frame, release is exact,
      boot frees exactly the frames wholly inside usable regions.
    - [Vmm], [VmmFacts], [VmmTheorems]: page tables, [src/vmm.c], over any
      frame source and direct map; mapping and unmapping change exactly one
      page; [vmm_over_pmm] composes them with the frame allocator.
    - [Kmem], [KmemFacts], [KmemBlocks], [KmemTheorems]: the heap,
      [kernel/mm/kmem.c], with its block headers in byte memory; every state
      clients reach validates, live allocations are disjoint, allocation is
      first fit, release merges free neighbours.
    - [Sched], [SchedTheorems]: the scheduler, [kernel/mcsos_thread.c], as a
      step relation; it refines a FIFO queue.
    - [Sync], [SyncTheorems]: [kernel/sync]: the lock-order checker rules out
      circular waits among threads that ask it before every acquisition and
      release; mutex and spin lock exclude each other's threads for any
      interleaving of their atomic actions.
    - [Syscall], [SyscallTheorems]: [kernel/syscall/syscall.c]: the dispatcher
      is total and no call reaches memory outside the user region.
    - [Elf], [ElfTheorems]: [kernel/user/m11_elf_loader.c] accepts exactly the
      images of a declarative definition and never reads outside one.
    - [Block], [BlockFacts], [BlockTheorems], [BlockFault]: [kernel/block]:
      RAM disk and write-back cache; behind the interface [BlkDisk] the cache
      refines uncached disks and a flush makes everything durable; behind the
      weaker [FlakyDisk] (requests may fail) no accepted write is lost.
    - [Vfs], [VfsSpec], [VfsFacts], [VfsTheorems]: [kernel/vfs]: the RAM file
      system and descriptors refine a set of independent files.
    - [Journal], [JournalFacts], [JournalFs], [JournalFsFacts],
      [JournalTheorems]: [kernel/fs/mcsfs1j]: transactions and file creation
      are atomic under a device fault at any write and any number of
      interrupted recoveries.  [JournalHeader], [JournalTorn]: the same for a
      power cut at any byte of a block write, except that a torn journal
      header may be refused by every later mount.
      [JournalTest] is the host test at the end of the source; it passes.
    - [Mcsfs1] and the files [Mcsfs1Dev] (devices, simulation rules),
      [Mcsfs1Spec] (the abstract file system), [Mcsfs1Dir], [Mcsfs1Disk],
      [Mcsfs1Data] (directory, inodes and bitmaps, contents), [Mcsfs1Rep] (sound
      and exact images), [Mcsfs1Format], [Mcsfs1Images] (the images the
      operations produce), [Mcsfs1Ops], [Mcsfs1Theorems]:
      [fs/mcsfs1/mcsfs1.c] refines a map from names to contents with a pool of
      blocks, on every device that reads back what was written.
      [Mcsfs1Fault] (a logic for devices that refuse writes), [Mcsfs1FaultOps],
      [Mcsfs1FaultTheorems]: whatever writes fail, an operation that fails has
      its whole effect, none, or has overwritten a prefix of the file it names;
      no other file changes and the image stays sound.  As every routine stops
      at its first error, this also says what a power failure between two
      writes leaves.  [Mcsfs1Total]: on a device that answers reads with any
      bytes and fails at will no operation leaves an array.
    - [Memory]: [kernel/lib/memory.c]; [memmove] is the reference copy for
      every overlap.
    - [Machine], [Console], [ConsoleFacts], [Interrupt], [InterruptFacts],
      [BootFacts], [MachineTheorems]: serial port, log, panic,
      interrupt table, interrupt controller, timer and trap dispatch, over the
      history of port accesses and any hardware.
    - [Boot], [BootRules], [BootTheorems]: [kmain], in each of its build
      configurations, with the self tests of M11 to M14, over the static
      objects of the components and the machine; timer interrupts may arrive
      between any two actions.
      [kernel_boots] composes the theorems of the components: the RAM file
      system is used through its abstract specification ([VfsSys]), the
      loader, the locks and the block layer through their definitions.

    ** Flaws the theorems show

    [pmm_range_wraps_at_top] (address arithmetic wraps in the last page),
    [read_file_overrun] (a size field is trusted), [sched_double_enqueue]
    (a queued thread may be queued again), [torn_commit_unmountable] (a half
    written commit record blocks every mount), [bcache_write_past_end] (a write
    past the end is accepted and blocks every flush), [vfs_lseek_undefined_iff]
    (signed overflow), [mcsfs1_name27_lost], [mcsfs1_failed_write_leaks],
    [mcsfs1_create_duplicate] (a read error counts as a missing name),
    [mcsfs1_large_device_overrun] and [mcsfs1_read_stale] (fields of the disk
    that mounting does not check), [trap_during_log_spins] (the log lock is
    not safe against interrupts), the second end-of-interrupt command in
    [trap_dispatch_exact] and [validate_result] (the heap's check gives up
    after 2^20 blocks).

    ** Bounds and fuel

    The scheduler's list walk ends for every fuel above the length of the ready
    list; the heap's walks take the length of the heap region as fuel (every
    block has a header), the path walks the length of the path, the frame
    loops the number of pages; the theorems hold with that fuel, so the loops
    end.  The busy wait of the serial port is bounded by the code
    itself.  A spin on a lock that the same processor holds is the outcome
    [Spinning], and a spin lock under contention is a step that stays where it
    is.

    ** Not modelled

    Assembly ([isr.S], [syscall_entry.S], the context switch) and single
    instructions: they appear as addresses, events, frames or parameters.  The
    boot loader's header [limine.h].  The host tests under [tests], which only
    call the modelled components.  Interrupts that arrive inside an action of
    the boot code ([trap_during_log_spins] says what happens inside a log
    call).  The fault theorems of MCSFS1 are about writes and flushes; a read
    that fails ends every operation but [mcsfs1_create]
    ([mcsfs1_create_duplicate]). *)
From stdpp Require Export base numbers list gmap.
From Stdlib Require Export ZArith Lia.

#[global] Open Scope Z_scope.

(** ** Machine integers

    A C unsigned integer of width [w] is a [Z] in [0, 2^w); every operation
    of the source that can leave that range is followed by the conversion
    [wrap w], which is the reduction modulo [2^w] that C prescribes. *)
Definition wrap (w x : Z) : Z := x mod 2 ^ w.
Definition u8 (x : Z) : Z := wrap 8 x.
Definition u16 (x : Z) : Z := wrap 16 x.
Definition u32 (x : Z) : Z := wrap 32 x.
Definition u64 (x : Z) : Z := wrap 64 x.

(** Conversion to a [w]-bit two's complement signed integer. *)
Definition swrap (w x : Z) : Z :=
  let y := x mod 2 ^ w in if y <? 2 ^ (w - 1) then y else y - 2 ^ w.
Definition s32 (x : Z) : Z := swrap 32 x.
Definition s64 (x : Z) : Z := swrap 64 x.

Definition UINT64_MAX : Z := 2 ^ 64 - 1.
Definition UINT32_MAX : Z := 2 ^ 32 - 1.

(** [in_u w x]: [x] is a value of the [w]-bit unsigned type. *)
Definition in_u (w x : Z) : Prop := 0 <= x < 2 ^ w.

Declare Scope cint_scope.
Delimit Scope cint_scope with cint.
Notation "x .& y" := (Z.land x y) (at level 40, left associativity) : cint_scope.
Notation "x .| y" := (Z.lor x y) (at level 50, left associativity) : cint_scope.
Notation "x .^ y" := (Z.lxor x y) (at level 45, left associativity) : cint_scope.
Notation "x .<< y" := (Z.shiftl x y) (at level 38, left associativity) : cint_scope.
Notation "x .>> y" := (Z.shiftr x y) (at level 38, left associativity) : cint_scope.
#[global] Open Scope cint_scope.

(** ** Computations that may be undefined

    [let* x := m in k] runs [m] and continues with its value; the whole is
    [None] when [m] is. *)
Notation "'let*' x ':=' m 'in' k" :=
  (match m with Some x => k | None => None end)
  (at level 10, x name, m at level 100, k at level 200).

(** Computations on a state [S] that return an [int] status:
    [None] is undefined behaviour (an access outside an object), [inl rc] the
    early return of the error code [rc], [inr x] success with the results
    [x]. *)
Definition em (S A : Type) : Type := S -> option ((Z + A) * S).

Definition eret {S A} (x : A) : em S A := fun s => Some (inr x, s).
Definition efail {S A} (rc : Z) : em S A := fun s => Some (inl rc, s).
Definition eundef {S A} : em S A := fun _ => None.
Definition ebind {S A B} (m : em S A) (k : A -> em S B) : em S B := fun s =>
  match m s with
  | Some (inr x, s') => k x s'
  | Some (inl rc, s') => Some (inl rc, s')
  | None => None
  end.
Definition eget {S} : em S S := fun s => Some (inr s, s).
Definition eput {S} (s : S) : em S unit := fun _ => Some (inr tt, s).

Notation "'let?' x ':=' m 'in' k" := (ebind m (fun x => k))
  (at level 10, x name, m at level 100, k at level 200).
Notation "m ';?' k" := (ebind m (fun _ => k)) (at level 60, right associativity).

(** ** Byte strings *)

Definition is_byte (b : Z) : Prop := 0 <= b < 256.

(** C arrays: an access outside the array is [None]. *)
Definition arr_get {A} (l : list A) (i : Z) : option A :=
  if i <? 0 then None else l !! Z.to_nat i.
Definition arr_set {A} (l : list A) (i : Z) (x : A) : option (list A) :=
  if (0 <=? i) && (i <? Z.of_nat (length l)) then Some (<[Z.to_nat i := x]> l) else None.

(** [nthZ l i]: the element at index [i], 0 when [i] is outside the array. *)
Definition nthZ (l : list Z) (i : Z) : Z := default 0 (l !! Z.to_nat i).

(** [sub off n l]: the [n] elements of [l] from index [off]. *)
Definition sub {A} (off n : nat) (l : list A) : list A := take n (drop off l).

(** [splice off new l]: [l] with the elements from index [off] replaced by
    [new] (a copy of [length new] elements into the array at [off]). *)
Definition splice {A} (off : nat) (new l : list A) : list A :=
  take off l ++ new ++ drop (off + length new) l.

(** Little-endian encoding, the layout of the integers of a struct in memory
    on the target. *)
Fixpoint le_bytes (n : nat) (x : Z) : list Z :=
  match n with
  | O => []
  | S n => x mod 256 :: le_bytes n (x / 256)
  end.

Fixpoint le_val (bs : list Z) : Z :=
  match bs with
  | [] => 0
  | b :: bs => b + 256 * le_val bs
  end.

(** [le_get off n blk]: the [n]-byte integer field at offset [off]. *)
Definition le_get (off n : nat) (blk : list Z) : Z := le_val (sub off n blk).
(** The same field at an offset that is computed: [None] outside the buffer. *)
Definition le_read (off n : nat) (blk : list Z) : option Z :=
  if (off + n <=? length blk)%nat then Some (le_get off n blk) else None.

(** Bytes stored at an offset that is computed: [None] outside the buffer. *)
Definition put_at {A} (off : nat) (new l : list A) : option (list A) :=
  if (off + length new <=? length l)%nat then Some (splice off new l) else None.

(** [le_put off n x blk]: the block with the field at [off] set to [x]. *)
Definition le_put (off n : nat) (x : Z) (blk : list Z) : list Z :=
  splice off (le_bytes n x) blk.

(** The bytewise copy loop [for (i = 0; i < n; i++) d[i] = s[i]]; [None] when
    an access is outside one of the two arrays. *)
Fixpoint copy_loop (n : nat) (dst src : list Z) : option (list Z) :=
  match n, dst, src with
  | O, _, _ => Some dst
  | S n, _ :: dst, s :: src => cons s <$> copy_loop n dst src
  | S _, _, _ => None
  end.

(** The fill loop [for (i = 0; i < n; i++) d[i] = v]. *)
Fixpoint fill_loop (n : nat) (v : Z) (dst : list Z) : option (list Z) :=
  match n, dst with
  | O, _ => Some dst
  | S n, _ :: dst => cons v <$> fill_loop n v dst
  | S _, [] => None
  end.

(** The search loop [for (i = lo; i < lo + n; i++) if (p(i)) return i;]. *)
Fixpoint first_from (n : nat) (lo : Z) (p : Z -> bool) : option Z :=
  match n with
  | O => None
  | S n => if p lo then Some lo else first_from n (lo + 1) p
  end.

(** The same loop with a test that can be undefined. *)
Fixpoint first_where (n : nat) (lo : Z) (p : Z -> option bool) : option (option Z) :=
  match n with
  | O => Some None
  | S n => let* b := p lo in if b then Some (Some lo) else first_where n (lo + 1) p
  end.

(** ** Tactics *)

(** Turns boolean comparisons of the context into arithmetic facts. *)
Ltac zbool :=
  repeat match goal with
  | H : (_ && _)%bool = true |- _ => apply andb_true_iff in H; destruct H
  | H : (_ && _)%bool = false |- _ => apply andb_false_iff in H
  | H : (_ || _)%bool = true |- _ => apply orb_true_iff in H
  | H : (_ || _)%bool = false |- _ => apply orb_false_iff in H; destruct H
  | H : negb _ = true |- _ => apply negb_true_iff in H
  | H : negb _ = false |- _ => apply negb_false_iff in H
  | H : (_ <? _) = true |- _ => apply Z.ltb_lt in H
  | H : (_ <? _) = false |- _ => apply Z.ltb_ge in H
  | H : (_ <=? _) = true |- _ => apply Z.leb_le in H
  | H : (_ <=? _) = false |- _ => apply Z.leb_gt in H
  | H : (_ =? _) = true |- _ => apply Z.eqb_eq in H
  | H : (_ =? _) = false |- _ => apply Z.eqb_neq in H
  end.

(** Case analysis on the outermost conditional of the goal. *)
Ltac case_if :=
  match goal with
  | |- context [if ?b then _ else _] =>
      match b with context [if _ then _ else _] => fail 1 | _ => idtac end;
      let E := fresh "Hif" in destruct b eqn:E
  end.

(** Same on a hypothesis. *)
Ltac case_if_in H :=
  match type of H with
  | context [if ?b then _ else _] =>
      match b with context [if _ then _ else _] => fail 1 | _ => idtac end;
      let E := fresh "Hif" in destruct b eqn:E
  end.

(** Destructs the next [match] that blocks a monadic computation in [H]. *)
Ltac bind_inv H :=
  match type of H with
  | context [match ?x with _ => _ end] =>
      match x with context [match _ with _ => _ end] => fail 1 | _ => idtac end;
      let E := fresh "Hx" in destruct x eqn:E; simplify_eq H
  end.

Ltac split_all := repeat match goal with |- _ /\ _ => split end.

Create HintDb mcsos.
Create Rewrite HintDb len.
#[export] Hint Extern 4 (_ <= _) => lia : mcsos.
#[export] Hint Extern 4 (_ < _) => lia : mcsos.
#[export] Hint Extern 4 (@eq Z _ _) => lia : mcsos.

(** ** Machine integers: facts *)

Lemma pow2_pos n : 0 <= n -> 0 < 2 ^ n.
Proof. intros. apply Z.pow_pos_nonneg; lia. Qed.

Lemma wrap_bounds w x : 0 <= w -> in_u w (wrap w x).
Proof. intros. apply Z.mod_pos_bound, pow2_pos; lia. Qed.

Lemma wrap_id w x : in_u w x -> wrap w x = x.
Proof. apply Z.mod_small. Qed.

Lemma u64_id x : 0 <= x < 2 ^ 64 -> u64 x = x.
Proof. apply wrap_id. Qed.

Lemma u32_id x : 0 <= x < 2 ^ 32 -> u32 x = x.
Proof. apply wrap_id. Qed.

Lemma u64_bounds x : 0 <= u64 x < 2 ^ 64.
Proof. apply wrap_bounds; lia. Qed.

Lemma u32_bounds x : 0 <= u32 x < 2 ^ 32.
Proof. apply wrap_bounds; lia. Qed.

Lemma u8_bounds x : 0 <= u8 x < 256.
Proof. apply (wrap_bounds 8); lia. Qed.

(** Sums and differences that leave the range by less than one period. *)
Lemma u64_over x : 2 ^ 64 <= x < 2 * 2 ^ 64 -> u64 x = x - 2 ^ 64.
Proof.
  intros. unfold u64, wrap. symmetry. apply Z.mod_unique with 1; lia.
Qed.

Lemma u64_under x : - 2 ^ 64 <= x < 0 -> u64 x = x + 2 ^ 64.
Proof.
  intros. unfold u64, wrap. symmetry. apply Z.mod_unique with (-1); lia.
Qed.

(** [s32] and [s64] leave a value of the signed type unchanged. *)
Lemma swrap_id w x : 0 < w -> - 2 ^ (w - 1) <= x < 2 ^ (w - 1) -> swrap w x = x.
Proof.
  intros Hw Hx. unfold swrap.
  assert (2 ^ w = 2 * 2 ^ (w - 1)) as Hp
    by (rewrite <- Z.pow_succ_r by lia; f_equal; lia).
  destruct (Z.lt_ge_cases x 0).
  - rewrite <- (Z.mod_unique x (2 ^ w) (-1) (x + 2 ^ w)) by lia.
    rewrite (proj2 (Z.ltb_ge _ _)); lia.
  - rewrite Z.mod_small by lia. rewrite (proj2 (Z.ltb_lt _ _)); lia.
Qed.

(** Bits of a value of the [w]-bit type end at [w]. *)
Lemma in_u_testbit w x i : 0 <= w -> in_u w x -> w <= i -> Z.testbit x i = false.
Proof.
  intros Hw Hx Hi. rewrite <- (wrap_id w x Hx). apply Z.mod_pow2_bits_high. lia.
Qed.

(** [x & ~m] on a [w]-bit value clears the bits of [m]. *)
Lemma land_lnot_wrap w x m :
  0 <= w -> in_u w x -> Z.land x (wrap w (Z.lnot m)) = Z.ldiff x m.
Proof.
  intros Hw Hx. apply Z.bits_inj'. intros i Hi.
  rewrite Z.land_spec, Z.ldiff_spec. unfold wrap.
  rewrite Z.testbit_mod_pow2 by lia. rewrite Z.lnot_spec by lia.
  destruct (Z.ltb_spec i w); simpl; [done|].
  by rewrite (in_u_testbit w x i) by done.
Qed.

(** Clearing the low [k] bits rounds down to a multiple of [2^k]. *)
Lemma ldiff_ones x k : 0 <= k -> Z.ldiff x (2 ^ k - 1) = x / 2 ^ k * 2 ^ k.
Proof.
  intros. replace (2 ^ k - 1) with (Z.ones k) by (rewrite Z.ones_equiv; lia).
  rewrite Z.ldiff_ones_r, Z.shiftl_mul_pow2, Z.shiftr_div_pow2 by lia. done.
Qed.

(** Keeping the low [k] bits is the remainder modulo [2^k]. *)
Lemma land_ones x k : 0 <= k -> Z.land x (2 ^ k - 1) = x mod 2 ^ k.
Proof.
  intros. replace (2 ^ k - 1) with (Z.ones k) by (rewrite Z.ones_equiv; lia).
  apply Z.land_ones; lia.
Qed.

(** A left shift of 1 has exactly one bit set. *)
Lemma testbit_shl1 i j : 0 <= i -> Z.testbit (Z.shiftl 1 i) j = (i =? j).
Proof. intros. rewrite Z.shiftl_1_l. by apply Z.pow2_bits_eqb. Qed.

(** Testing a single bit through a mask, as C code does. *)
Lemma land_shl1_nonzero x i :
  0 <= i -> negb (Z.land x (Z.shiftl 1 i) =? 0) = Z.testbit x i.
Proof.
  intros Hi. destruct (Z.testbit x i) eqn:E.
  - apply negb_true_iff, Z.eqb_neq. intros H.
    assert (Z.testbit (Z.land x (Z.shiftl 1 i)) i = true) as Ht
      by (rewrite Z.land_spec, testbit_shl1, E, Z.eqb_refl; done).
    rewrite H, Z.bits_0 in Ht. done.
  - apply negb_false_iff, Z.eqb_eq, Z.bits_inj'. intros j Hj.
    rewrite Z.land_spec, testbit_shl1, Z.bits_0 by lia.
    destruct (Z.eqb_spec i j); [subst; by rewrite E | by rewrite andb_false_r].
Qed.

#[export] Hint Resolve u64_bounds u32_bounds u8_bounds pow2_pos : mcsos.

(** ** Byte strings: facts *)

Lemma copy_loop_spec n (dst src : list Z) :
  (n <= length dst)%nat -> (n <= length src)%nat ->
  copy_loop n dst src = Some (take n src ++ drop n dst).
Proof.
  revert dst src. induction n as [|n IH]; intros [|d dst] [|s src] Hd Hs;
    simpl in *; try done; try lia.
  rewrite IH by lia. done.
Qed.

Lemma copy_loop_None n (dst src : list Z) :
  (length src < n)%nat -> copy_loop n dst src = None.
Proof.
  revert dst src. induction n as [|n IH]; intros dst src H; [lia|].
  destruct dst, src; simpl in *; try done. rewrite IH by lia. done.
Qed.

Lemma fill_loop_spec n v (dst : list Z) :
  (n <= length dst)%nat -> fill_loop n v dst = Some (replicate n v ++ drop n dst).
Proof.
  revert dst. induction n as [|n IH]; intros [|d dst] Hd; simpl in *; try done; try lia.
  rewrite IH by lia. done.
Qed.

Lemma length_le_bytes n x : length (le_bytes n x) = n.
Proof. revert x. induction n; intros; simpl; auto. Qed.

Lemma le_val_bytes n x :
  0 <= x < 2 ^ (8 * Z.of_nat n) -> le_val (le_bytes n x) = x.
Proof.
  revert x. induction n as [|n IH]; intros x Hx; cbn [le_bytes le_val].
  - change (2 ^ (8 * Z.of_nat 0)) with 1 in Hx. lia.
  - rewrite IH; [pose proof (Z.div_mod x 256); lia|].
    replace (8 * Z.of_nat (S n)) with (8 * Z.of_nat n + 8) in Hx by lia.
    rewrite Z.pow_add_r in Hx by lia.
    split; [apply Z.div_pos; lia | apply Z.div_lt_upper_bound; lia].
Qed.

Lemma le_bytes_is_byte n x : Forall is_byte (le_bytes n x).
Proof.
  revert x. induction n; intros x; constructor; auto.
  apply Z.mod_pos_bound; lia.
Qed.

Lemma le_val_bound bs :
  Forall is_byte bs -> 0 <= le_val bs < 2 ^ (8 * Z.of_nat (length bs)).
Proof.
  unfold is_byte. induction 1 as [|b bs Hb _ IH]; [done|].
  cbn [le_val length].
  replace (8 * Z.of_nat (S (length bs))) with (8 * Z.of_nat (length bs) + 8) by lia.
  rewrite Z.pow_add_r by lia. lia.
Qed.

Lemma le_bytes_0 n : le_bytes n 0 = replicate n 0.
Proof. induction n; simpl; [done|]. change (0 / 256) with 0. by f_equal. Qed.

Lemma le_val_0 n : le_val (replicate n 0) = 0.
Proof. induction n; cbn [replicate le_val]; lia. Qed.

Section splice_facts.
Context {A : Type}.
Implicit Types (l new : list A).

Lemma length_sub off n l :
  (off + n <= length l)%nat -> length (sub off n l) = n.
Proof. intros. unfold sub. rewrite length_take, length_drop. lia. Qed.

Lemma length_splice off new l :
  (off + length new <= length l)%nat -> length (splice off new l) = length l.
Proof.
  intros. unfold splice. rewrite !length_app, length_take, length_drop. lia.
Qed.

Lemma lookup_splice_in off new l i :
  (off + length new <= length l)%nat -> (off <= i < off + length new)%nat ->
  splice off new l !! i = new !! (i - off)%nat.
Proof.
  intros Hl Hi. unfold splice.
  rewrite lookup_app_r by (rewrite length_take; lia).
  rewrite length_take, Nat.min_l by lia.
  by rewrite lookup_app_l by lia.
Qed.

Lemma lookup_splice_out off new l i :
  (off + length new <= length l)%nat -> (i < off \/ off + length new <= i)%nat ->
  splice off new l !! i = l !! i.
Proof.
  intros Hl [Hi|Hi]; unfold splice.
  - rewrite lookup_app_l by (rewrite length_take; lia).
    by rewrite lookup_take_lt by lia.
  - rewrite lookup_app_r by (rewrite length_take; lia).
    rewrite length_take, Nat.min_l by lia.
    rewrite lookup_app_r by lia. rewrite lookup_drop. f_equal. lia.
Qed.

Lemma lookup_sub off n l i : (i < n)%nat -> sub off n l !! i = l !! (off + i)%nat.
Proof. intros. unfold sub. by rewrite lookup_take_lt, lookup_drop. Qed.

Lemma sub_ge off n l i : (n <= i)%nat -> sub off n l !! i = None.
Proof.
  intros. unfold sub. apply lookup_ge_None. rewrite length_take. lia.
Qed.

(** Reading back exactly what was written. *)
Lemma sub_splice_same off new l n :
  (off + length new <= length l)%nat -> n = length new ->
  sub off n (splice off new l) = new.
Proof.
  intros Hl ->. apply list_eq. intros i.
  destruct (decide (i < length new)%nat).
  - rewrite lookup_sub, lookup_splice_in by lia. f_equal. lia.
  - rewrite sub_ge by lia. symmetry. apply lookup_ge_None. lia.
Qed.

(** Reading a range disjoint from what was written. *)
Lemma sub_splice_other off new l off' n :
  (off + length new <= length l)%nat ->
  (off' + n <= off \/ off + length new <= off')%nat ->
  sub off' n (splice off new l) = sub off' n l.
Proof.
  intros Hl Hd. apply list_eq. intros i. destruct (decide (i < n)%nat).
  - rewrite !lookup_sub, lookup_splice_out by lia. done.
  - by rewrite !sub_ge by lia.
Qed.

Lemma splice_id off new l :
  (off + length new <= length l)%nat ->
  sub off (length new) l = new -> splice off new l = l.
Proof.
  intros Hl Hs. apply list_eq. intros i.
  destruct (decide (off <= i < off + length new)%nat).
  - rewrite lookup_splice_in, <- Hs, lookup_sub by lia. f_equal. lia.
  - rewrite lookup_splice_out by lia. done.
Qed.

Lemma splice_splice_same off new1 new2 l :
  (off + length new1 <= length l)%nat -> length new1 = length new2 ->
  splice off new2 (splice off new1 l) = splice off new2 l.
Proof.
  intros Hl Hn. apply list_eq. intros i.
  assert (length (splice off new1 l) = length l) as Hs by (by apply length_splice).
  destruct (decide (off <= i < off + length new2)%nat).
  - by rewrite !lookup_splice_in by lia.
  - by rewrite !lookup_splice_out by lia.
Qed.

(** Writing one more element in front of the copied ones. *)
Lemma splice_cons off x new l :
  (off < length l)%nat -> splice (S off) new (<[off := x]> l) = splice off (x :: new) l.
Proof.
  intros Hl. unfold splice.
  rewrite (take_S_r _ _ x) by (by apply list_lookup_insert_eq).
  rewrite take_insert_ge, drop_insert_lt by lia. cbn [length].
  rewrite <- app_assoc. cbn [app]. by rewrite Nat.add_succ_r.
Qed.

(** A range of a range, and a write inside a range. *)
Lemma sub_sub off n off' n' l :
  (off' + n' <= n)%nat -> sub off' n' (sub off n l) = sub (off + off') n' l.
Proof.
  intros Hn. apply list_eq. intros i. destruct (decide (i < n')%nat).
  - rewrite !lookup_sub by lia. f_equal. lia.
  - by rewrite !sub_ge by lia.
Qed.

Lemma sub_splice_inside off n off' new l :
  (off + n <= length l)%nat -> (off' + length new <= n)%nat ->
  sub off n (splice (off + off') new l) = splice off' new (sub off n l).
Proof.
  intros Hl Hn. apply list_eq. intros i. pose proof (length_sub off n l Hl) as Hs.
  destruct (decide (i < n)%nat).
  - rewrite lookup_sub by lia.
    destruct (decide (off' <= i < off' + length new)%nat).
    + rewrite !lookup_splice_in by lia. f_equal. lia.
    + rewrite !lookup_splice_out, lookup_sub by lia. done.
  - rewrite sub_ge by lia. symmetry. apply lookup_ge_None.
    rewrite length_splice by lia. lia.
Qed.

Lemma Forall_splice (P : A -> Prop) off new l :
  Forall P l -> Forall P new -> Forall P (splice off new l).
Proof.
  intros. unfold splice. rewrite !Forall_app.
  auto using Forall_take, Forall_drop.
Qed.

Lemma Forall_sub (P : A -> Prop) off n l : Forall P l -> Forall P (sub off n l).
Proof. intros. unfold sub. auto using Forall_take, Forall_drop. Qed.

End splice_facts.

(** Filtering by two predicates that agree on the list. *)
Lemma filter_ext_in {A} (P Q : A -> Prop)
    `{!forall x, Decision (P x)} `{!forall x, Decision (Q x)} (l : list A) :
  (forall x, x ∈ l -> P x <-> Q x) -> filter P l = filter Q l.
Proof.
  induction l as [|x l IH]; intros Hl; [done|]. rewrite !filter_cons.
  rewrite IH by (intros; apply Hl; by right).
  assert (P x <-> Q x) by (apply Hl; left).
  destruct (decide (P x)), (decide (Q x)); tauto.
Qed.

(** Reading and writing the integer fields of a struct laid out in a block. *)
Lemma length_le_put off n x blk :
  (off + n <= length blk)%nat -> length (le_put off n x blk) = length blk.
Proof. intros. apply length_splice. by rewrite length_le_bytes. Qed.

Lemma le_get_put off n x blk :
  (off + n <= length blk)%nat -> 0 <= x < 2 ^ (8 * Z.of_nat n) ->
  le_get off n (le_put off n x blk) = x.
Proof.
  intros. unfold le_get, le_put.
  rewrite sub_splice_same by (rewrite ?length_le_bytes; done).
  by apply le_val_bytes.
Qed.

Lemma le_get_put_other off n x blk off' n' :
  (off + n <= length blk)%nat -> (off' + n' <= off \/ off + n <= off')%nat ->
  le_get off' n' (le_put off n x blk) = le_get off' n' blk.
Proof.
  intros. unfold le_get, le_put.
  by rewrite sub_splice_other by (rewrite ?length_le_bytes; done).
Qed.

Lemma le_get_bound off n blk :
  Forall is_byte blk -> (off + n <= length blk)%nat ->
  0 <= le_get off n blk < 2 ^ (8 * Z.of_nat n).
Proof.
  intros Hb Hl. unfold le_get.
  rewrite <- (length_sub off n blk Hl) at 3.
  apply le_val_bound, Forall_sub, Hb.
Qed.

Lemma le_put_bytes off n x blk :
  Forall is_byte blk -> Forall is_byte (le_put off n x blk).
Proof. intros. apply Forall_splice; auto using le_bytes_is_byte. Qed.

Lemma sub_replicate {A} off n m (x : A) :
  (off + n <= m)%nat -> sub off n (replicate m x) = replicate n x.
Proof.
  intros. unfold sub. rewrite drop_replicate, take_replicate. f_equal. lia.
Qed.

Lemma le_get_zero off n m :
  (off + n <= m)%nat -> le_get off n (replicate m 0) = 0.
Proof. intros. unfold le_get. rewrite sub_replicate by done. apply le_val_0. Qed.

Lemma zero_is_byte n : Forall is_byte (replicate n 0).
Proof. apply Forall_replicate. unfold is_byte. lia. Qed.

#[export] Hint Resolve le_put_bytes zero_is_byte le_bytes_is_byte : mcsos.
#[export] Hint Rewrite length_le_bytes @length_replicate @length_insert @length_app
  @length_take @length_drop : len.

(** Computes the lengths of the blocks a goal mentions. *)
Ltac len_solve :=
  repeat first
    [ progress autorewrite with len
    | rewrite length_le_put by len_solve
    | rewrite length_splice by len_solve
    | rewrite length_sub by len_solve ]; lia.

(** Reads struct fields back through the updates that built the block. *)
Ltac le_simpl :=
  repeat first
    [ rewrite le_get_put by first [solve [len_solve] | simpl; lia]
    | rewrite le_get_put_other by first [solve [len_solve] | lia] ].

(** ** Search loops: facts *)

Lemma first_from_Some n lo p i :
  first_from n lo p = Some i ->
  lo <= i < lo + Z.of_nat n /\ p i = true /\ forall j, lo <= j < i -> p j = false.
Proof.
  revert lo. induction n as [|n IH]; intros lo; [done|]. cbn [first_from].
  case_if; intros H.
  - simplify_eq. split_all; [lia..|done|intros; lia].
  - apply IH in H as (H1 & H2 & H3). split_all; [lia..|done|]. intros j Hj.
    destruct (decide (j = lo)) as [->|]; [done|]. apply H3. lia.
Qed.

Lemma first_from_None n lo p :
  first_from n lo p = None <-> forall j, lo <= j < lo + Z.of_nat n -> p j = false.
Proof.
  revert lo. induction n as [|n IH]; intros lo; cbn [first_from].
  - split; [intros _ j Hj; lia|done].
  - case_if.
    + split; [done|]. intros H. rewrite H in Hif by lia. done.
    + rewrite IH. split; intros H j Hj; [|apply H; lia].
      destruct (decide (j = lo)) as [->|]; [done|]. apply H. lia.
Qed.

Lemma le_read_in off n blk :
  (off + n <= length blk)%nat -> le_read off n blk = Some (le_get off n blk).
Proof. intros H. unfold le_read. by rewrite (proj2 (Nat.leb_le _ _)). Qed.

Lemma put_at_in {A} off (new l : list A) :
  (off + length new <= length l)%nat -> put_at off new l = Some (splice off new l).
Proof. intros H. unfold put_at. by rewrite (proj2 (Nat.leb_le _ _)). Qed.

Lemma first_where_total n lo p q :
  (forall j, lo <= j < lo + Z.of_nat n -> p j = Some (q j)) ->
  first_where n lo p = Some (first_from n lo q).
Proof.
  revert lo. induction n as [|n IH]; intros lo H; [done|]. cbn [first_where first_from].
  rewrite H by lia. destruct (q lo); [done|]. apply IH. intros j Hj. apply H. lia.
Qed.

Lemma arr_get_nat {A} (l : list A) k : arr_get l (Z.of_nat k) = l !! k.
Proof. unfold arr_get. by rewrite (proj2 (Z.ltb_ge _ _)), Nat2Z.id by lia. Qed.

Lemma arr_get_pos {A} (l : list A) i : 0 <= i -> arr_get l i = l !! Z.to_nat i.
Proof. intros Hi. unfold arr_get. by rewrite (proj2 (Z.ltb_ge _ _)) by lia. Qed.

Lemma arr_get_Some {A} (l : list A) i x :
  arr_get l i = Some x -> 0 <= i < Z.of_nat (length l) /\ l !! Z.to_nat i = Some x.
Proof.
  unfold arr_get. destruct (Z.ltb_spec i 0); [done|]. intros Hx.
  split; [|done]. apply lookup_lt_Some in Hx. lia.
Qed.

Lemma arr_set_in {A} (l : list A) i x :
  0 <= i < Z.of_nat (length l) -> arr_set l i x = Some (<[Z.to_nat i := x]> l).
Proof.
  intros Hi. unfold arr_set. by rewrite (proj2 (Z.leb_le _ _)), (proj2 (Z.ltb_lt _ _)) by lia.
Qed.

Lemma first_from_ext n lo p q :
  (forall j, lo <= j < lo + Z.of_nat n -> p j = q j) ->
  first_from n lo p = first_from n lo q.
Proof.
  revert lo. induction n as [|n IH]; intros lo H; [done|]. cbn [first_from].
  rewrite H by lia. case_if; [done|]. apply IH. intros. apply H. lia.
Qed.

Lemma first_from_unique n lo p i :
  lo <= i < lo + Z.of_nat n -> p i = true ->
  (forall j, lo <= j < lo + Z.of_nat n -> j <> i -> p j = false) ->
  first_from n lo p = Some i.
Proof.
  intros Hi Hp H. destruct (first_from n lo p) as [k|] eqn:E.
  - apply first_from_Some in E as (Hk & Hpk & _). f_equal.
    destruct (decide (k = i)); [done|]. rewrite H in Hpk; done.
  - rewrite (proj1 (first_from_None _ _ _) E) in Hp; done.
Qed.
