(* ===== verification/Bitmap.v ===== *)
(** * Bitmaps stored in byte arrays

    The frame allocator, MCSFS1 and the M16 journal each keep a bitmap in an
    array of [uint8_t], with bit [i] at bit [i mod 8] of byte [i / 8].  This
    file states that layout once ([bm_get], [bm_set], [bm_clear]); the
    components prove that their own C routines are these functions and
    reuse the facts proved here. *)
From S2P Require Import Prelude.

Definition bm_get (bm : list Z) (i : Z) : bool :=
  Z.testbit (nthZ bm (i / 8)) (i mod 8).

Definition bm_upd (f : Z -> Z -> Z) (bm : list Z) (i : Z) : list Z :=
  <[Z.to_nat (i / 8) := f (nthZ bm (i / 8)) (Z.shiftl 1 (i mod 8))]> bm.

Definition bm_set : list Z -> Z -> list Z := bm_upd Z.lor.
Definition bm_clear : list Z -> Z -> list Z := bm_upd Z.ldiff.

(** [bm_fits bm n]: the array holds the bits [0 .. n-1]. *)
Definition bm_fits (bm : list Z) (n : Z) : Prop := n <= 8 * Z.of_nat (length bm).

(** The indices below [n] whose bit is clear, in increasing order. *)
Definition bm_free_list (bm : list Z) (n : Z) : list Z :=
  filter (fun i => bm_get bm i = false) (seqZ 0 n).

Lemma mod8_bounds i : 0 <= i mod 8 < 8.
Proof. apply Z.mod_pos_bound. lia. Qed.

Lemma byte_index bm n i :
  bm_fits bm n -> 0 <= i < n -> (Z.to_nat (i / 8) < length bm)%nat.
Proof.
  unfold bm_fits. intros Hn Hi.
  assert (i / 8 < Z.of_nat (length bm)) by (apply Z.div_lt_upper_bound; lia).
  assert (0 <= i / 8) by (apply Z.div_pos; lia). lia.
Qed.

Lemma lookup_byte bm n i :
  bm_fits bm n -> 0 <= i < n ->
  bm !! Z.to_nat (i / 8) = Some (nthZ bm (i / 8)).
Proof.
  intros Hn Hi. unfold nthZ.
  destruct (lookup_lt_is_Some_2 bm (Z.to_nat (i / 8))) as [b ->]; [|done].
  by eapply byte_index.
Qed.

Lemma nthZ_byte bm i : Forall is_byte bm -> is_byte (nthZ bm i).
Proof.
  intros H. unfold nthZ. destruct (bm !! Z.to_nat i) eqn:E; simpl.
  - by eapply Forall_lookup_1 in E.
  - unfold is_byte. lia.
Qed.

Lemma length_bm_upd f bm i : length (bm_upd f bm i) = length bm.
Proof. apply length_insert. Qed.

Lemma bm_fits_upd f bm i n : bm_fits bm n -> bm_fits (bm_upd f bm i) n.
Proof. unfold bm_fits. by rewrite length_bm_upd. Qed.

Lemma bm_get_upd_ne f bm n i j :
  bm_fits bm n -> 0 <= i < n -> 0 <= j -> j / 8 <> i / 8 ->
  bm_get (bm_upd f bm i) j = bm_get bm j.
Proof.
  intros. unfold bm_get, bm_upd, nthZ.
  assert (0 <= i / 8) by (apply Z.div_pos; lia).
  assert (0 <= j / 8) by (apply Z.div_pos; lia).
  rewrite list_lookup_insert_ne by lia. done.
Qed.

Lemma nthZ_upd_same f bm n i :
  bm_fits bm n -> 0 <= i < n ->
  nthZ (bm_upd f bm i) (i / 8) = f (nthZ bm (i / 8)) (Z.shiftl 1 (i mod 8)).
Proof.
  intros. unfold nthZ, bm_upd.
  by rewrite list_lookup_insert_eq by (by eapply byte_index).
Qed.

Lemma mod8_neq i j : i / 8 = j / 8 -> i <> j -> i mod 8 <> j mod 8.
Proof.
  intros. pose proof (Z.div_mod i 8). pose proof (Z.div_mod j 8). lia.
Qed.

Lemma bm_get_set bm n i j :
  bm_fits bm n -> 0 <= i < n -> 0 <= j ->
  bm_get (bm_set bm i) j = if i =? j then true else bm_get bm j.
Proof.
  intros Hn Hi Hj. destruct (decide (j / 8 = i / 8)) as [E|E].
  - unfold bm_get, bm_set. rewrite E, (nthZ_upd_same _ _ n) by done.
    rewrite Z.lor_spec, testbit_shl1 by apply mod8_bounds.
    destruct (Z.eqb_spec i j) as [->|Hne]; [rewrite Z.eqb_refl; apply orb_true_r|].
    rewrite (proj2 (Z.eqb_neq _ _)); [apply orb_false_r|].
    apply mod8_neq; congruence.
  - unfold bm_set. rewrite (bm_get_upd_ne _ _ n) by done.
    destruct (Z.eqb_spec i j); [congruence|done].
Qed.

Lemma bm_get_clear bm n i j :
  bm_fits bm n -> 0 <= i < n -> 0 <= j ->
  bm_get (bm_clear bm i) j = if i =? j then false else bm_get bm j.
Proof.
  intros Hn Hi Hj. destruct (decide (j / 8 = i / 8)) as [E|E].
  - unfold bm_get, bm_clear. rewrite E, (nthZ_upd_same _ _ n) by done.
    rewrite Z.ldiff_spec, testbit_shl1 by apply mod8_bounds.
    destruct (Z.eqb_spec i j) as [->|Hne]; [rewrite Z.eqb_refl; apply andb_false_r|].
    rewrite (proj2 (Z.eqb_neq _ _)); [apply andb_true_r|].
    apply mod8_neq; congruence.
  - unfold bm_clear. rewrite (bm_get_upd_ne _ _ n) by done.
    destruct (Z.eqb_spec i j); [congruence|done].
Qed.

(** The updates keep the array an array of bytes. *)
Lemma shl1_byte k : 0 <= k < 8 -> in_u 8 (Z.shiftl 1 k).
Proof.
  intros. rewrite Z.shiftl_1_l. split; [pose proof (pow2_pos k); lia|].
  apply Z.pow_lt_mono_r; lia.
Qed.

Lemma in_u_bits w x :
  0 <= w -> (forall i, w <= i -> Z.testbit x i = false) -> in_u w x.
Proof.
  intros Hw Hb. assert (x = x mod 2 ^ w) as ->.
  { apply Z.bits_inj'. intros i Hi. rewrite Z.testbit_mod_pow2 by done.
    destruct (Z.ltb_spec i w); [done|]. rewrite Hb by done. done. }
  apply Z.mod_pos_bound, pow2_pos, Hw.
Qed.

Lemma lor_in_u w x y : 0 <= w -> in_u w x -> in_u w y -> in_u w (Z.lor x y).
Proof.
  intros Hw Hx Hy. apply in_u_bits; [done|]. intros i Hi.
  rewrite Z.lor_spec, (in_u_testbit w x), (in_u_testbit w y) by done. done.
Qed.

Lemma land_in_u w x y : 0 <= w -> in_u w x -> in_u w (Z.land x y).
Proof.
  intros Hw Hx. apply in_u_bits; [done|]. intros i Hi.
  rewrite Z.land_spec, (in_u_testbit w x) by done. done.
Qed.

Lemma ldiff_in_u w x y : 0 <= w -> in_u w x -> in_u w (Z.ldiff x y).
Proof.
  intros Hw Hx. apply in_u_bits; [done|]. intros i Hi.
  rewrite Z.ldiff_spec, (in_u_testbit w x) by done. done.
Qed.

Lemma lxor_in_u w x y : 0 <= w -> in_u w x -> in_u w y -> in_u w (Z.lxor x y).
Proof.
  intros Hw Hx Hy. apply in_u_bits; [done|]. intros i Hi.
  rewrite Z.lxor_spec, (in_u_testbit w x), (in_u_testbit w y) by done. done.
Qed.

Lemma bm_set_bytes bm i : Forall is_byte bm -> Forall is_byte (bm_set bm i).
Proof.
  intros. apply Forall_insert; [done|]. apply (lor_in_u 8); [lia| |].
  - by apply nthZ_byte.
  - apply shl1_byte, mod8_bounds.
Qed.

Lemma bm_clear_bytes bm i : Forall is_byte bm -> Forall is_byte (bm_clear bm i).
Proof.
  intros. apply Forall_insert; [done|]. apply (ldiff_in_u 8); [lia|].
  by apply nthZ_byte.
Qed.

(** The free list. *)
Lemma elem_of_bm_free_list bm n i :
  i ∈ bm_free_list bm n <-> 0 <= i < n /\ bm_get bm i = false.
Proof.
  unfold bm_free_list. rewrite list_elem_of_filter, elem_of_seqZ. split; naive_solver lia.
Qed.

Lemma NoDup_bm_free_list bm n : NoDup (bm_free_list bm n).
Proof. apply NoDup_filter, NoDup_seqZ. Qed.

Lemma bm_free_list_le bm n : 0 <= n -> Z.of_nat (length (bm_free_list bm n)) <= n.
Proof.
  intros. pose proof (length_filter (fun i => bm_get bm i = false) (seqZ 0 n)) as H1.
  rewrite length_seqZ in H1. unfold bm_free_list. lia.
Qed.

(** Two bitmaps with the same bits below [n] have the same free list. *)
Lemma bm_free_list_ext bm1 bm2 n :
  (forall i, 0 <= i < n -> bm_get bm1 i = bm_get bm2 i) ->
  bm_free_list bm1 n = bm_free_list bm2 n.
Proof.
  intros H. apply filter_ext_in. intros i Hi%elem_of_seqZ.
  rewrite H by lia. done.
Qed.

Lemma bm_free_list_set bm n i :
  bm_fits bm n -> 0 <= i < n ->
  bm_free_list (bm_set bm i) n = filter (fun j => j <> i) (bm_free_list bm n).
Proof.
  intros Hn Hi. unfold bm_free_list. rewrite list_filter_filter.
  apply filter_ext_in. intros j Hj%elem_of_seqZ.
  rewrite (bm_get_set bm n) by (done || lia). destruct (Z.eqb_spec i j); naive_solver.
Qed.

Lemma length_free_set bm n i :
  bm_fits bm n -> 0 <= i < n -> bm_get bm i = false ->
  S (length (bm_free_list (bm_set bm i) n)) = length (bm_free_list bm n).
Proof.
  intros Hn Hi Hc. rewrite bm_free_list_set by done.
  assert (i ∈ bm_free_list bm n) as Hin by (by apply elem_of_bm_free_list).
  pose proof (NoDup_bm_free_list bm n) as Hnd. revert Hin Hnd.
  generalize (bm_free_list bm n). intros l. induction l as [|x l IH]; [set_solver|].
  intros Hin [Hx Hnd]%NoDup_cons. rewrite filter_cons.
  destruct (decide (x <> i)) as [Hne|Heq]; simpl.
  - rewrite IH; [done| |done]. set_solver.
  - assert (x = i) as -> by lia. f_equal. f_equal.
    clear -Hx. induction l as [|y l IH]; [done|]. rewrite filter_cons.
    rewrite decide_True by set_solver. f_equal. set_solver.
Qed.

Lemma length_free_clear bm n i :
  bm_fits bm n -> 0 <= i < n -> bm_get bm i = true ->
  length (bm_free_list (bm_clear bm i) n) = S (length (bm_free_list bm n)).
Proof.
  intros Hn Hi Hc.
  rewrite <- (length_free_set (bm_clear bm i) n i).
  - f_equal. f_equal. apply bm_free_list_ext. intros j Hj.
    rewrite (bm_get_set _ n), (bm_get_clear bm n) by (try apply bm_fits_upd; done || lia).
    destruct (Z.eqb_spec i j); [by subst|done].
  - by apply bm_fits_upd.
  - done.
  - rewrite (bm_get_clear bm n) by (done || lia). by rewrite Z.eqb_refl.
Qed.

#[export] Hint Resolve bm_set_bytes bm_clear_bytes bm_fits_upd : mcsos.
