(* ===== verification/Pmm.v ===== *)
(** * Physical memory manager ([kernel/core/pmm.c], same text as [src/pmm.c])

    The bitmap allocator of 4 KiB frames.  A computation returns [option]:
    [None] is an access outside the bitmap array (or through a NULL bitmap),
    undefined behaviour in C, or a loop that outlives its fuel; the theorems
    show that neither happens.  A pointer parameter that the code compares
    with NULL is an [option].  The definitions come first, then the bitmap
    routines against [Bitmap], the invariant [pmm_ok] and its preservation,
    and the specification of each operation on the list of free frames. *)
From S2P Require Import Prelude Bitmap.

Definition PMM_PAGE_SIZE : Z := 4096.
Definition PMM_INVALID_FRAME : Z := 18446744073709551615.

Definition BOOT_MEM_USABLE : Z := 1.

Record boot_mem_region := mk_region {
  r_base : Z;
  r_length : Z;
  r_type : Z
}.

Record pmm_state := mk_pmm {
  bitmap : option (list Z);
  bitmap_bytes : Z;
  max_phys : Z;
  frame_count : Z;
  free_frames : Z;
  used_frames : Z;
  reserved_frames : Z;
  ignored_frames : Z;
  next_hint : Z;
  initialized : bool
}.

(** Field assignments [pmm->f = v]. *)
Definition set_frames (p : pmm_state) (bm : list Z) (fr us hint : Z) : pmm_state :=
  mk_pmm (Some bm) (bitmap_bytes p) (max_phys p) (frame_count p) fr us
    (reserved_frames p) (ignored_frames p) hint (initialized p).
Definition set_reserved (p : pmm_state) (v : Z) : pmm_state :=
  mk_pmm (bitmap p) (bitmap_bytes p) (max_phys p) (frame_count p) (free_frames p)
    (used_frames p) v (ignored_frames p) (next_hint p) (initialized p).
Definition set_ignored (p : pmm_state) (v : Z) : pmm_state :=
  mk_pmm (bitmap p) (bitmap_bytes p) (max_phys p) (frame_count p) (free_frames p)
    (used_frames p) (reserved_frames p) v (next_hint p) (initialized p).
Definition set_next_hint (p : pmm_state) (v : Z) : pmm_state :=
  mk_pmm (bitmap p) (bitmap_bytes p) (max_phys p) (frame_count p) (free_frames p)
    (used_frames p) (reserved_frames p) (ignored_frames p) v (initialized p).
Definition set_initialized (p : pmm_state) (b : bool) : pmm_state :=
  mk_pmm (bitmap p) (bitmap_bytes p) (max_phys p) (frame_count p) (free_frames p)
    (used_frames p) (reserved_frames p) (ignored_frames p) (next_hint p) b.

(** ** Integer helpers *)

Definition align_down (value align : Z) : Z :=
  value .& u64 (Z.lnot (u64 (align - 1))).

Definition align_up (value align : Z) : Z :=
  u64 (u64 (value + align) - 1) .& u64 (Z.lnot (u64 (align - 1))).

(** [None] is the C result [false]. *)
Definition checked_add_u64 (a b : Z) : option Z :=
  if UINT64_MAX - a <? b then None else Some (u64 (a + b)).

(** ** Bitmap *)

Definition bitmap_set (bm : list Z) (index : Z) : option (list Z) :=
  let* b := bm !! Z.to_nat (index .>> 3) in
  Some (<[Z.to_nat (index .>> 3) := u8 (b .| u8 (1 .<< (index .& 7)))]> bm).

Definition bitmap_clear (bm : list Z) (index : Z) : option (list Z) :=
  let* b := bm !! Z.to_nat (index .>> 3) in
  Some (<[Z.to_nat (index .>> 3) :=
            u8 (b .& u8 (Z.lnot (u8 (1 .<< (index .& 7)))))]> bm).

Definition bitmap_test (bm : list Z) (index : Z) : option bool :=
  let* b := bm !! Z.to_nat (index .>> 3) in
  Some (negb (b .& u8 (1 .<< (index .& 7)) =? 0)).

(** ** Single frames *)

Definition mark_frame_free (p : pmm_state) (frame : Z) : option pmm_state :=
  if frame_count p <=? frame then Some p else
  let* bm := bitmap p in
  let* t := bitmap_test bm frame in
  if negb t then Some p else
  let* bm' := bitmap_clear bm frame in
  Some (set_frames p bm'
          (u64 (free_frames p + 1))
          (if 0 <? used_frames p then used_frames p - 1 else used_frames p)
          (if frame <? next_hint p then frame else next_hint p)).

Definition mark_frame_used (p : pmm_state) (frame : Z) : option pmm_state :=
  if frame_count p <=? frame then Some p else
  let* bm := bitmap p in
  let* t := bitmap_test bm frame in
  if t then Some p else
  let* bm' := bitmap_set bm frame in
  Some (set_frames p bm'
          (if 0 <? free_frames p then free_frames p - 1 else free_frames p)
          (u64 (used_frames p + 1))
          (next_hint p)).

(** ** Ranges

    [for (addr = start; addr < stop; addr += PMM_PAGE_SIZE)]; [stop] is at
    most [max_phys], so [frame_count] iterations are enough. *)
Fixpoint free_loop (fuel : nat) (p : pmm_state) (addr stop : Z) : option pmm_state :=
  if addr <? stop then
    match fuel with
    | O => None
    | S fuel =>
        let* p' := mark_frame_free p (addr / PMM_PAGE_SIZE) in
        free_loop fuel p' (u64 (addr + PMM_PAGE_SIZE)) stop
    end
  else Some p.

Definition mark_range_free (p : pmm_state) (base length : Z) : option pmm_state :=
  if length =? 0 then Some p else
  match checked_add_u64 base length with
  | None => Some p
  | Some end_ =>
      let start := align_up base PMM_PAGE_SIZE in
      let stop := align_down end_ PMM_PAGE_SIZE in
      if stop <=? start then Some p else
      if max_phys p <=? start then Some p else
      if max_phys p <? stop then
        let p' := set_ignored p
          (u64 (ignored_frames p
                + (align_down end_ PMM_PAGE_SIZE - max_phys p) / PMM_PAGE_SIZE)) in
        free_loop (Z.to_nat (frame_count p)) p' start (max_phys p)
      else free_loop (Z.to_nat (frame_count p)) p start stop
  end.

Fixpoint used_loop (fuel : nat) (p : pmm_state) (addr stop : Z) : option pmm_state :=
  if addr <? stop then
    match fuel with
    | O => None
    | S fuel =>
        let* bm := bitmap p in
        let* t := bitmap_test bm (addr / PMM_PAGE_SIZE) in
        let* p' := mark_frame_used p (addr / PMM_PAGE_SIZE) in
        let p'' := if negb t then set_reserved p' (u64 (reserved_frames p' + 1)) else p' in
        used_loop fuel p'' (u64 (addr + PMM_PAGE_SIZE)) stop
    end
  else Some p.

Definition mark_range_used (p : pmm_state) (base length : Z) : option pmm_state :=
  if length =? 0 then Some p else
  match checked_add_u64 base length with
  | None => Some p
  | Some end_ =>
      let start := align_down base PMM_PAGE_SIZE in
      let stop := align_up end_ PMM_PAGE_SIZE in
      if stop <=? start then Some p else
      if max_phys p <=? start then Some p else
      used_loop (Z.to_nat (frame_count p)) p start
        (if max_phys p <? stop then max_phys p else stop)
  end.

(** ** Public operations *)

Definition zero_state : pmm_state := mk_pmm None 0 0 0 0 0 0 0 0 false.

Definition pmm_zero_state (p : option pmm_state) : option pmm_state :=
  match p with None => None | Some _ => Some zero_state end.

(** The two passes of [pmm_init_from_map] over the boot map; [sel] is the
    test on the region type, [mark] the action. *)
Fixpoint init_pass (sel : Z -> bool) (mark : pmm_state -> Z -> Z -> option pmm_state)
    (p : pmm_state) (n : nat) (regions : list boot_mem_region) : option pmm_state :=
  match n, regions with
  | O, _ => Some p
  | S n, r :: regions =>
      let* p' := (if sel (r_type r) then mark p (r_base r) (r_length r) else Some p) in
      init_pass sel mark p' n regions
  | S _, [] => None
  end.

Definition pmm_init_from_map (pmm : option pmm_state)
    (regions : option (list boot_mem_region)) (region_count : Z)
    (bitmap_storage : option (list Z)) (bitmap_storage_bytes max_phys_bytes : Z)
    : option (option pmm_state * bool) :=
  match pmm, regions, bitmap_storage with
  | Some _, Some rs, Some storage =>
      if region_count =? 0 then Some (pmm, false) else
      if (max_phys_bytes =? 0)
         || negb (max_phys_bytes .& (PMM_PAGE_SIZE - 1) =? 0) then Some (pmm, false) else
      let frame_count := max_phys_bytes / PMM_PAGE_SIZE in
      let required := u64 (frame_count + 7) / 8 in
      if bitmap_storage_bytes <? required then Some (pmm, false) else
      let* storage' := fill_loop (Z.to_nat required) 255 storage in
      let p0 := mk_pmm (Some storage') required max_phys_bytes frame_count 0
                  frame_count 0 0 0 false in
      let* p1 := init_pass (fun t => t =? BOOT_MEM_USABLE) mark_range_free p0
             (Z.to_nat region_count) rs in
      let* p2 := mark_range_used p1 0 PMM_PAGE_SIZE in
      let* p3 := init_pass (fun t => negb (t =? BOOT_MEM_USABLE)) mark_range_used p2
             (Z.to_nat region_count) rs in
      Some (Some (set_initialized p3 true), true)
  | _, _, _ => Some (pmm, false)
  end.

(** One of the two scans of [pmm_alloc_frame]: [Some None] when it ends
    without finding a clear bit. *)
Fixpoint alloc_scan (fuel : nat) (p : pmm_state) (frame limit : Z)
    : option (option (pmm_state * Z)) :=
  if frame <? limit then
    match fuel with
    | O => None
    | S fuel =>
        let* bm := bitmap p in
        let* t := bitmap_test bm frame in
        if negb t then
          let* p' := mark_frame_used p frame in
          Some (Some (set_next_hint p' (u64 (frame + 1)), u64 (frame * PMM_PAGE_SIZE)))
        else alloc_scan fuel p (u64 (frame + 1)) limit
    end
  else Some None.

Definition pmm_alloc_frame (pmm : option pmm_state) : option (option pmm_state * Z) :=
  match pmm with
  | None => Some (pmm, PMM_INVALID_FRAME)
  | Some p =>
      if negb (initialized p) || (free_frames p =? 0)
      then Some (pmm, PMM_INVALID_FRAME) else
      let* r1 := alloc_scan (Z.to_nat (frame_count p)) p (next_hint p) (frame_count p) in
      match r1 with
      | Some (p', a) => Some (Some p', a)
      | None =>
          let* r2 := alloc_scan (Z.to_nat (next_hint p)) p 0 (next_hint p) in
          match r2 with
          | Some (p', a) => Some (Some p', a)
          | None => Some (pmm, PMM_INVALID_FRAME)
          end
      end
  end.

Definition pmm_free_frame (pmm : option pmm_state) (phys_addr : Z)
    : option (option pmm_state * bool) :=
  match pmm with
  | None => Some (pmm, false)
  | Some p =>
      if negb (initialized p) then Some (pmm, false) else
      if negb (phys_addr .& (PMM_PAGE_SIZE - 1) =? 0) || (phys_addr =? 0)
         || (max_phys p <=? phys_addr) then Some (pmm, false) else
      let frame := phys_addr / PMM_PAGE_SIZE in
      let* bm := bitmap p in
      let* t := bitmap_test bm frame in
      if negb t then Some (pmm, false) else
      let* p' := mark_frame_free p frame in
      Some (Some p', true)
  end.

Definition pmm_reserve_range (pmm : option pmm_state) (base length : Z)
    : option (option pmm_state * bool) :=
  match pmm with
  | None => Some (pmm, false)
  | Some p =>
      if negb (initialized p) || (length =? 0) then Some (pmm, false) else
      let* p' := mark_range_used p base length in
      Some (Some p', true)
  end.

Definition pmm_is_frame_free (pmm : option pmm_state) (phys_addr : Z) : option bool :=
  match pmm with
  | None => Some false
  | Some p =>
      if negb (initialized p) then Some false else
      if negb (phys_addr .& (PMM_PAGE_SIZE - 1) =? 0) || (max_phys p <=? phys_addr)
      then Some false else
      let* bm := bitmap p in
      let* t := bitmap_test bm (phys_addr / PMM_PAGE_SIZE) in
      Some (negb t)
  end.

Definition pmm_free_count (pmm : option pmm_state) : Z :=
  match pmm with Some p => free_frames p | None => 0 end.
Definition pmm_used_count (pmm : option pmm_state) : Z :=
  match pmm with Some p => used_frames p | None => 0 end.
Definition pmm_frame_count (pmm : option pmm_state) : Z :=
  match pmm with Some p => frame_count p | None => 0 end.

(** ** Specification vocabulary *)

Definition bits (p : pmm_state) : list Z := default [] (bitmap p).

(** The free frames, in increasing order: what the allocator hands out. *)
Definition free_list (p : pmm_state) : list Z := bm_free_list (bits p) (frame_count p).

(** The representation invariant. [ok_low] is what makes the hint sound:
    every frame below it is in use. *)
Record pmm_ok (p : pmm_state) : Prop := mk_pmm_ok {
  ok_bitmap : bitmap p = Some (bits p);
  ok_bytes : Forall is_byte (bits p);
  ok_fits : bm_fits (bits p) (frame_count p);
  ok_size : max_phys p = frame_count p * PMM_PAGE_SIZE;
  ok_pos : 0 < frame_count p;
  ok_max : max_phys p < 2 ^ 64;
  ok_free : free_frames p = Z.of_nat (length (free_list p));
  ok_used : used_frames p = frame_count p - free_frames p;
  ok_hint : 0 <= next_hint p <= frame_count p;
  ok_low : forall i, 0 <= i < next_hint p -> bm_get (bits p) i = true
}.

(** [p'] differs from [p] at most in the bitmap, the counters and the hint. *)
Definition same_dims (p p' : pmm_state) : Prop :=
  max_phys p' = max_phys p /\ frame_count p' = frame_count p
  /\ initialized p' = initialized p.

(** [p'] is [p] with the bits [lo .. hi-1] set to [v]. *)
Definition upd_bits (p p' : pmm_state) (lo hi : Z) (v : bool) : Prop :=
  same_dims p p' /\
  forall j, 0 <= j < frame_count p ->
    bm_get (bits p') j = if (lo <=? j) && (j <? hi) then v else bm_get (bits p) j.

(** A frame lies entirely inside the region, or shares a byte with it. *)
Definition covers (r : boot_mem_region) (j : Z) : Prop :=
  r_base r <= j * PMM_PAGE_SIZE /\ (j + 1) * PMM_PAGE_SIZE <= r_base r + r_length r.
Definition touches (r : boot_mem_region) (j : Z) : Prop :=
  0 < r_length r /\ r_base r < (j + 1) * PMM_PAGE_SIZE
  /\ j * PMM_PAGE_SIZE < r_base r + r_length r.

(** The region ends at least one page below the top of the address space. *)
Definition region_sane (r : boot_mem_region) : Prop :=
  0 <= r_base r /\ 0 <= r_length r /\ r_base r + r_length r <= 2 ^ 64 - PMM_PAGE_SIZE.

(** ** Integer helpers *)

Lemma align_down_spec v : 0 <= v < 2 ^ 64 ->
  align_down v PMM_PAGE_SIZE = v / PMM_PAGE_SIZE * PMM_PAGE_SIZE.
Proof.
  intros. unfold align_down, u64 at 1. rewrite land_lnot_wrap by (done || lia).
  apply (ldiff_ones v 12). lia.
Qed.

Lemma align_up_spec v : 0 <= v <= 2 ^ 64 - PMM_PAGE_SIZE ->
  align_up v PMM_PAGE_SIZE = (v + (PMM_PAGE_SIZE - 1)) / PMM_PAGE_SIZE * PMM_PAGE_SIZE.
Proof.
  unfold PMM_PAGE_SIZE. intros. unfold align_up.
  assert (u64 (u64 (v + 4096) - 1) = v + 4095) as ->.
  { destruct (decide (v = 2 ^ 64 - 4096)) as [->|]; [done|].
    rewrite (u64_id (v + 4096)), u64_id; lia. }
  apply (align_down_spec (v + 4095)). lia.
Qed.

Lemma align_up_wraps v :
  2 ^ 64 - PMM_PAGE_SIZE < v < 2 ^ 64 -> align_up v PMM_PAGE_SIZE = 0.
Proof.
  unfold PMM_PAGE_SIZE. intros.
  change (align_down (u64 (u64 (v + 4096) - 1)) PMM_PAGE_SIZE = 0).
  rewrite (u64_over (v + 4096)), u64_id by lia.
  rewrite align_down_spec by lia. unfold PMM_PAGE_SIZE. rewrite Z.div_small; lia.
Qed.

Lemma page_offset a : a .& (PMM_PAGE_SIZE - 1) = a mod PMM_PAGE_SIZE.
Proof. apply (land_ones a 12). lia. Qed.

(** ** The bitmap routines are the generic ones *)

Lemma shr3 i : i .>> 3 = i / 8.
Proof. by rewrite Z.shiftr_div_pow2 by lia. Qed.

Lemma and7 i : i .& 7 = i mod 8.
Proof. apply (land_ones i 3). lia. Qed.

Lemma bit_mask i : u8 (1 .<< (i mod 8)) = 1 .<< (i mod 8).
Proof. apply wrap_id, shl1_byte, mod8_bounds. Qed.

Lemma bitmap_test_spec bm n i :
  bm_fits bm n -> 0 <= i < n -> bitmap_test bm i = Some (bm_get bm i).
Proof.
  intros Hn Hi. unfold bitmap_test. rewrite shr3, and7, bit_mask.
  rewrite (lookup_byte bm n) by done.
  by rewrite land_shl1_nonzero by apply mod8_bounds.
Qed.

Lemma bitmap_set_spec bm n i :
  Forall is_byte bm -> bm_fits bm n -> 0 <= i < n ->
  bitmap_set bm i = Some (bm_set bm i).
Proof.
  intros Hb Hn Hi. unfold bitmap_set. rewrite shr3, and7, bit_mask.
  rewrite (lookup_byte bm n) by done. f_equal. unfold bm_set, bm_upd. f_equal.
  apply wrap_id, lor_in_u; [lia|by apply nthZ_byte|apply shl1_byte, mod8_bounds].
Qed.

Lemma bitmap_clear_spec bm n i :
  Forall is_byte bm -> bm_fits bm n -> 0 <= i < n ->
  bitmap_clear bm i = Some (bm_clear bm i).
Proof.
  intros Hb Hn Hi. unfold bitmap_clear. rewrite shr3, and7, bit_mask.
  rewrite (lookup_byte bm n) by done. f_equal. unfold bm_clear, bm_upd. f_equal.
  unfold u8 at 2. rewrite land_lnot_wrap by (lia || by apply nthZ_byte).
  apply wrap_id, ldiff_in_u; [lia|by apply nthZ_byte].
Qed.

(** ** Single frames *)

Lemma frame_count_bound p : pmm_ok p -> frame_count p < 2 ^ 52.
Proof. intros []. unfold PMM_PAGE_SIZE in *. lia. Qed.

Lemma free_le p : pmm_ok p -> 0 <= free_frames p <= frame_count p.
Proof.
  intros []. pose proof (bm_free_list_le (bits p) (frame_count p)).
  unfold free_list in *. lia.
Qed.

(** Properties of the counters used by both directions. *)
Lemma free_pos p j :
  pmm_ok p -> 0 <= j < frame_count p -> bm_get (bits p) j = false ->
  0 < free_frames p.
Proof.
  intros Hok Hj Hb. rewrite (ok_free p Hok).
  assert (j ∈ free_list p) as Hin by (by apply elem_of_bm_free_list).
  destruct (free_list p); [by apply not_elem_of_nil in Hin | simpl; lia].
Qed.

Lemma upd_bits_none p lo hi v : hi <= lo -> upd_bits p p lo hi v.
Proof.
  split; [done|]. intros j Hj. case_if; [zbool; lia|done].
Qed.

Lemma upd_bits_same p j v :
  bm_get (bits p) j = v -> upd_bits p p j (j + 1) v.
Proof.
  split; [done|]. intros i Hi. case_if; zbool; [|done].
  by assert (i = j) as -> by lia.
Qed.

Lemma mark_frame_free_spec p j :
  pmm_ok p -> 0 <= j < frame_count p ->
  exists p', mark_frame_free p j = Some p' /\ pmm_ok p' /\ upd_bits p p' j (j + 1) false.
Proof.
  intros Hok Hj. pose proof (frame_count_bound p Hok). pose proof (free_le p Hok).
  unfold mark_frame_free. rewrite (proj2 (Z.leb_gt _ _)) by lia.
  destruct Hok as [Hbm Hby Hfi Hsz Hpo Hmx Hfr Hus Hhi Hlo].
  rewrite Hbm, (bitmap_test_spec _ _ _ Hfi Hj).
  destruct (bm_get (bits p) j) eqn:E; simpl.
  2:{ exists p. split; [done|]. split; [by split|]. by apply upd_bits_same. }
  rewrite (bitmap_clear_spec _ _ _ Hby Hfi Hj).
  pose proof (length_free_clear _ _ _ Hfi Hj E) as Hlen.
  pose proof (bm_free_list_le (bm_clear (bits p) j) (frame_count p)) as Hle.
  fold (free_list p) in Hlen.
  eexists. split; [done|]. split.
  - split; try done; unfold set_frames, free_list, bits in *; simpl in *;
      eauto with mcsos.
    + rewrite u64_id by lia. lia.
    + rewrite u64_id by lia. rewrite (proj2 (Z.ltb_lt _ _)) by lia. lia.
    + case_if; zbool; lia.
    + intros i Hi.
      assert (0 <= i < next_hint p /\ i <> j) by (case_if_in Hi; zbool; lia).
      rewrite (bm_get_clear _ (frame_count p)) by (done || lia).
      rewrite (proj2 (Z.eqb_neq _ _)) by lia. apply Hlo; lia.
  - split; [done|]. intros i Hi. unfold bits; simpl.
    rewrite (bm_get_clear _ (frame_count p)) by (done || lia).
    destruct (Z.eqb_spec j i); case_if; zbool; try done; lia.
Qed.

Lemma mark_frame_used_spec p j :
  pmm_ok p -> 0 <= j < frame_count p ->
  exists p', mark_frame_used p j = Some p' /\ pmm_ok p' /\ upd_bits p p' j (j + 1) true
    /\ next_hint p' = next_hint p.
Proof.
  intros Hok Hj. pose proof (frame_count_bound p Hok). pose proof (free_le p Hok).
  unfold mark_frame_used. rewrite (proj2 (Z.leb_gt _ _)) by lia.
  pose proof (free_pos p j Hok Hj) as Hfp.
  destruct Hok as [Hbm Hby Hfi Hsz Hpo Hmx Hfr Hus Hhi Hlo].
  rewrite Hbm, (bitmap_test_spec _ _ _ Hfi Hj).
  destruct (bm_get (bits p) j) eqn:E; simpl.
  { exists p. split; [done|]. split; [by split|]. split; [by apply upd_bits_same|done]. }
  specialize (Hfp eq_refl).
  rewrite (bitmap_set_spec _ _ _ Hby Hfi Hj).
  pose proof (length_free_set _ _ _ Hfi Hj E) as Hlen.
  fold (free_list p) in Hlen.
  eexists. split; [done|]. split; [|split].
  - split; try done; unfold set_frames, free_list, bits in *; simpl in *;
      eauto with mcsos.
    + rewrite (proj2 (Z.ltb_lt _ _)) by lia. lia.
    + rewrite u64_id by lia. rewrite (proj2 (Z.ltb_lt _ _)) by lia. lia.
    + intros i Hi. rewrite (bm_get_set _ (frame_count p)) by (done || lia).
      case_if; [done|]. by apply Hlo.
  - split; [done|]. intros i Hi. unfold bits; simpl.
    rewrite (bm_get_set _ (frame_count p)) by (done || lia).
    destruct (Z.eqb_spec j i); case_if; zbool; try done; lia.
  - done.
Qed.

(** ** Ranges *)

Lemma same_dims_trans p p1 p2 : same_dims p p1 -> same_dims p1 p2 -> same_dims p p2.
Proof. unfold same_dims. intuition congruence. Qed.

Lemma upd_bits_trans p p1 p2 a b v :
  a < b -> upd_bits p p1 a (a + 1) v -> upd_bits p1 p2 (a + 1) b v ->
  upd_bits p p2 a b v.
Proof.
  intros Hab [Hd1 H1] [Hd2 H2]. split; [by eapply same_dims_trans|]. intros j Hj.
  rewrite H2 by (destruct Hd1 as (_ & -> & _); lia). rewrite H1 by lia.
  repeat case_if; zbool; try done; lia.
Qed.

Lemma addr_lt a b : a < b -> (a * PMM_PAGE_SIZE <? b * PMM_PAGE_SIZE) = true.
Proof. intros. apply Z.ltb_lt. unfold PMM_PAGE_SIZE. lia. Qed.

Lemma addr_ge a b : b <= a -> (a * PMM_PAGE_SIZE <? b * PMM_PAGE_SIZE) = false.
Proof. intros. apply Z.ltb_ge. unfold PMM_PAGE_SIZE. lia. Qed.

Lemma addr_frame a : a * PMM_PAGE_SIZE / PMM_PAGE_SIZE = a.
Proof. by apply Z.div_mul. Qed.

Lemma addr_next p a :
  pmm_ok p -> 0 <= a < frame_count p ->
  u64 (a * PMM_PAGE_SIZE + PMM_PAGE_SIZE) = (a + 1) * PMM_PAGE_SIZE.
Proof.
  intros [] Ha. unfold PMM_PAGE_SIZE in *. rewrite u64_id; lia.
Qed.

Lemma free_loop_done fuel p a b :
  b <= a -> free_loop fuel p (a * PMM_PAGE_SIZE) (b * PMM_PAGE_SIZE) = Some p.
Proof. intros. destruct fuel; simpl; by rewrite addr_ge by done. Qed.

Lemma free_loop_spec fuel p a b :
  pmm_ok p -> 0 <= a -> b <= frame_count p -> (Z.to_nat (b - a) <= fuel)%nat ->
  exists p', free_loop fuel p (a * PMM_PAGE_SIZE) (b * PMM_PAGE_SIZE) = Some p'
    /\ pmm_ok p' /\ upd_bits p p' a b false.
Proof.
  revert p a. induction fuel as [|fuel IH]; intros p a Hok Ha Hb Hf;
    (destruct (Z.lt_ge_cases a b) as [Hab|Hab];
     [|exists p; rewrite free_loop_done by done; auto using upd_bits_none]).
  { lia. }
  cbn [free_loop]. rewrite addr_lt, addr_frame by done.
  destruct (mark_frame_free_spec p a) as (p1 & -> & Hok1 & Hu1); [done|lia|].
  pose proof (proj1 Hu1) as (_ & Hfc & _).
  rewrite (addr_next p) by (done || lia).
  destruct (IH p1 (a + 1)) as (p2 & -> & Hok2 & Hu2); [done|lia|lia|lia|].
  exists p2. split_all; try done. by eapply upd_bits_trans.
Qed.

Lemma set_reserved_ok p v : pmm_ok p -> pmm_ok (set_reserved p v).
Proof. by intros []. Qed.

Lemma set_ignored_ok p v : pmm_ok p -> pmm_ok (set_ignored p v).
Proof. by intros []. Qed.

Lemma used_loop_done fuel p a b :
  b <= a -> used_loop fuel p (a * PMM_PAGE_SIZE) (b * PMM_PAGE_SIZE) = Some p.
Proof. intros. destruct fuel; simpl; by rewrite addr_ge by done. Qed.

Lemma used_loop_spec fuel p a b :
  pmm_ok p -> 0 <= a -> b <= frame_count p -> (Z.to_nat (b - a) <= fuel)%nat ->
  exists p', used_loop fuel p (a * PMM_PAGE_SIZE) (b * PMM_PAGE_SIZE) = Some p'
    /\ pmm_ok p' /\ upd_bits p p' a b true.
Proof.
  revert p a. induction fuel as [|fuel IH]; intros p a Hok Ha Hb Hf;
    (destruct (Z.lt_ge_cases a b) as [Hab|Hab];
     [|exists p; rewrite used_loop_done by done; auto using upd_bits_none]).
  { lia. }
  cbn [used_loop]. rewrite addr_lt, addr_frame by done.
  rewrite (ok_bitmap p Hok), (bitmap_test_spec _ (frame_count p)) by (apply ok_fits || lia; done).
  destruct (mark_frame_used_spec p a) as (p1 & -> & Hok1 & Hu1 & _); [done|lia|].
  rewrite (addr_next p) by (done || lia).
  set (p1' := if negb _ then _ else _).
  assert (pmm_ok p1' /\ upd_bits p p1' a (a + 1) true) as [Hok1' Hu1']
    by (subst p1'; destruct (negb _); auto using set_reserved_ok).
  pose proof (proj1 Hu1') as (_ & Hfc & _).
  destruct (IH p1' (a + 1)) as (p2 & -> & Hok2 & Hu2); [done|lia|lia|lia|].
  exists p2. split_all; try done. by eapply upd_bits_trans.
Qed.

Lemma checked_add_sane r :
  region_sane r -> checked_add_u64 (r_base r) (r_length r) = Some (r_base r + r_length r).
Proof.
  unfold region_sane, checked_add_u64, UINT64_MAX, PMM_PAGE_SIZE. intros.
  rewrite (proj2 (Z.ltb_ge _ _)) by lia. rewrite u64_id by lia. done.
Qed.

(** Rounding a bound up or down to a frame number. *)
Lemma page_floor v j : j < v / PMM_PAGE_SIZE <-> (j + 1) * PMM_PAGE_SIZE <= v.
Proof.
  unfold PMM_PAGE_SIZE. pose proof (Z.div_mod v 4096). pose proof (Z.mod_pos_bound v 4096).
  lia.
Qed.

Lemma page_ceil v j :
  (v + (PMM_PAGE_SIZE - 1)) / PMM_PAGE_SIZE <= j <-> v <= j * PMM_PAGE_SIZE.
Proof.
  unfold PMM_PAGE_SIZE. pose proof (Z.div_mod (v + 4095) 4096).
  pose proof (Z.mod_pos_bound (v + 4095) 4096). change (4096 - 1) with 4095. lia.
Qed.

(** [upd_pred p p' P v]: the bits that read [v] in [p'] are those of the
    frames in [P] and those that read [v] before. *)
Definition upd_pred (p p' : pmm_state) (P : Z -> Prop) (v : bool) : Prop :=
  same_dims p p' /\
  forall j, 0 <= j < frame_count p ->
    bm_get (bits p') j = v <-> P j \/ bm_get (bits p) j = v.

Lemma upd_bits_pred p p' lo hi v (P : Z -> Prop) :
  upd_bits p p' lo hi v ->
  (forall j, 0 <= j < frame_count p -> P j <-> lo <= j < hi) -> upd_pred p p' P v.
Proof.
  intros [Hd Hb] HP. split; [done|]. intros j Hj. rewrite Hb, HP by done.
  case_if; zbool; intuition lia.
Qed.

Lemma upd_pred_trans p p1 p2 P Q v :
  upd_pred p p1 P v -> upd_pred p1 p2 Q v -> upd_pred p p2 (fun j => P j \/ Q j) v.
Proof.
  intros [Hd1 H1] [Hd2 H2]. split; [by eapply same_dims_trans|]. intros j Hj.
  rewrite H2 by (destruct Hd1 as (_ & -> & _); lia). rewrite H1 by done. tauto.
Qed.

Lemma upd_pred_iff p p' P Q v :
  (forall j, P j <-> Q j) -> upd_pred p p' P v -> upd_pred p p' Q v.
Proof. intros HPQ [Hd H]. split; [done|]. intros j Hj. rewrite H, HPQ by done. tauto. Qed.

(** Both kinds of range, once their bounds are frame numbers. *)
Lemma free_span p lo hi ign :
  pmm_ok p -> 0 <= lo ->
  exists p',
    (if hi * PMM_PAGE_SIZE <=? lo * PMM_PAGE_SIZE then Some p else
     if max_phys p <=? lo * PMM_PAGE_SIZE then Some p else
     if max_phys p <? hi * PMM_PAGE_SIZE
     then free_loop (Z.to_nat (frame_count p)) (set_ignored p ign)
            (lo * PMM_PAGE_SIZE) (max_phys p)
     else free_loop (Z.to_nat (frame_count p)) p
            (lo * PMM_PAGE_SIZE) (hi * PMM_PAGE_SIZE)) = Some p'
    /\ pmm_ok p' /\ upd_bits p p' lo hi false.
Proof.
  intros Hok Hlo. rewrite (ok_size p Hok).
  assert (Hnone : hi <= lo \/ frame_count p <= lo -> upd_bits p p lo hi false).
  { split; [done|]. intros j Hj. case_if; [zbool; lia|done]. }
  case_if; zbool; [exists p; split_all; try done; apply Hnone; unfold PMM_PAGE_SIZE in *; lia|].
  case_if; zbool; [exists p; split_all; try done; apply Hnone; unfold PMM_PAGE_SIZE in *; lia|].
  case_if; zbool.
  - destruct (free_loop_spec (Z.to_nat (frame_count p)) (set_ignored p ign) lo (frame_count p))
      as (p' & -> & Hok' & [Hd Hu]); [by apply set_ignored_ok|done|simpl; lia|lia|].
    exists p'. split_all; try done. split; [done|]. intros j Hj. rewrite Hu by done.
    change (bits (set_ignored p ign)) with (bits p).
    unfold PMM_PAGE_SIZE in *. repeat case_if; zbool; try done; lia.
  - destruct (free_loop_spec (Z.to_nat (frame_count p)) p lo hi)
      as (p' & -> & Hok' & Hu); [done|done|unfold PMM_PAGE_SIZE in *; lia..|].
    by exists p'.
Qed.

Lemma used_span p lo hi :
  pmm_ok p -> 0 <= lo ->
  exists p',
    (if hi * PMM_PAGE_SIZE <=? lo * PMM_PAGE_SIZE then Some p else
     if max_phys p <=? lo * PMM_PAGE_SIZE then Some p else
     used_loop (Z.to_nat (frame_count p)) p (lo * PMM_PAGE_SIZE)
       (if max_phys p <? hi * PMM_PAGE_SIZE then max_phys p else hi * PMM_PAGE_SIZE)) = Some p'
    /\ pmm_ok p' /\ upd_bits p p' lo hi true.
Proof.
  intros Hok Hlo. rewrite (ok_size p Hok).
  assert (Hnone : hi <= lo \/ frame_count p <= lo -> upd_bits p p lo hi true).
  { split; [done|]. intros j Hj. case_if; [zbool; lia|done]. }
  case_if; zbool; [exists p; split_all; try done; apply Hnone; unfold PMM_PAGE_SIZE in *; lia|].
  case_if; zbool; [exists p; split_all; try done; apply Hnone; unfold PMM_PAGE_SIZE in *; lia|].
  assert ((if frame_count p * PMM_PAGE_SIZE <? hi * PMM_PAGE_SIZE
     then frame_count p * PMM_PAGE_SIZE else hi * PMM_PAGE_SIZE)
     = Z.min hi (frame_count p) * PMM_PAGE_SIZE) as ->
    by (case_if; zbool; unfold PMM_PAGE_SIZE in *; f_equal; lia).
  destruct (used_loop_spec (Z.to_nat (frame_count p)) p lo (Z.min hi (frame_count p)))
    as (p' & -> & Hok' & [Hd Hu]); [done|done|lia..|].
  exists p'. split_all; try done. split; [done|]. intros j Hj. rewrite Hu by done.
  repeat case_if; zbool; try done; lia.
Qed.

(** Aligned addresses are multiples of the page size, wrap-around included. *)
Lemma align_down_mult v : 0 <= v < 2 ^ 64 ->
  exists q, 0 <= q /\ align_down v PMM_PAGE_SIZE = q * PMM_PAGE_SIZE.
Proof.
  intros. exists (v / PMM_PAGE_SIZE). split; [apply Z.div_pos; [lia|done]|].
  by apply align_down_spec.
Qed.

Lemma align_up_mult v :
  exists q, 0 <= q /\ align_up v PMM_PAGE_SIZE = q * PMM_PAGE_SIZE.
Proof. apply (align_down_mult (u64 _)). apply u64_bounds. Qed.

Lemma checked_add_bound a b e : checked_add_u64 a b = Some e -> 0 <= e < 2 ^ 64.
Proof. unfold checked_add_u64. case_if; [done|]. intros [= <-]. apply u64_bounds. Qed.

(** Whatever the arguments, the range operations keep the invariant. *)
Lemma mark_range_free_ok p base len :
  pmm_ok p ->
  exists p', mark_range_free p base len = Some p' /\ pmm_ok p' /\ same_dims p p'.
Proof.
  intros Hok. unfold mark_range_free. case_if; [by exists p|].
  destruct (checked_add_u64 base len) as [e|] eqn:E; [|by exists p].
  destruct (align_up_mult base) as (lo & Hlo & ->).
  destruct (align_down_mult e) as (hi & _ & ->); [by eapply checked_add_bound|].
  edestruct (free_span p lo hi) as (p' & -> & Hok' & Hu & _); [done|done|].
  by exists p'.
Qed.

Lemma mark_range_used_ok p base len :
  pmm_ok p -> 0 <= base < 2 ^ 64 ->
  exists p', mark_range_used p base len = Some p' /\ pmm_ok p' /\ same_dims p p'
    /\ (forall j, 0 <= j < frame_count p -> bm_get (bits p) j = true ->
                  bm_get (bits p') j = true).
Proof.
  intros Hok Hb. unfold mark_range_used. case_if; [by exists p|].
  destruct (checked_add_u64 base len) as [e|] eqn:E; [|by exists p].
  destruct (align_down_mult base Hb) as (lo & Hlo & ->).
  destruct (align_up_mult e) as (hi & _ & ->).
  edestruct (used_span p lo hi) as (p' & -> & Hok' & Hd & Hu); [done|done|].
  exists p'. split_all; try done. intros j Hj Ht. rewrite Hu by done. by case_if.
Qed.

(** Freeing a region clears exactly the frames it covers. *)
Lemma mark_range_free_spec p r :
  pmm_ok p -> region_sane r ->
  exists p', mark_range_free p (r_base r) (r_length r) = Some p'
    /\ pmm_ok p' /\ upd_pred p p' (covers r) false.
Proof.
  intros Hok Hr. unfold mark_range_free. rewrite checked_add_sane by done.
  destruct Hr as (Hb & Hl & He).
  rewrite align_up_spec, align_down_spec by (unfold PMM_PAGE_SIZE in *; lia).
  set (lo := (r_base r + (PMM_PAGE_SIZE - 1)) / PMM_PAGE_SIZE).
  set (hi := (r_base r + r_length r) / PMM_PAGE_SIZE).
  assert (Hcov : forall j, covers r j <-> lo <= j < hi)
    by (intros j; unfold covers, lo, hi; rewrite page_floor, page_ceil; done).
  assert (Hlo : 0 <= lo) by (apply Z.div_pos; unfold PMM_PAGE_SIZE; lia).
  case_if; zbool.
  { exists p. split_all; try done. eapply (upd_bits_pred _ _ 0 0); [by apply upd_bits_none|].
    intros j Hj. unfold covers, PMM_PAGE_SIZE. lia. }
  edestruct (free_span p lo hi) as (p' & -> & Hok' & Hu); [done|done|].
  exists p'. split_all; try done. eapply upd_bits_pred; [done|]. intros. apply Hcov.
Qed.

(** Reserving a region sets exactly the frames it touches. *)
Lemma mark_range_used_spec p r :
  pmm_ok p -> region_sane r ->
  exists p', mark_range_used p (r_base r) (r_length r) = Some p'
    /\ pmm_ok p' /\ upd_pred p p' (touches r) true.
Proof.
  intros Hok Hr. unfold mark_range_used. rewrite checked_add_sane by done.
  destruct Hr as (Hb & Hl & He).
  rewrite align_up_spec, align_down_spec by (unfold PMM_PAGE_SIZE in *; lia).
  set (lo := r_base r / PMM_PAGE_SIZE).
  set (hi := (r_base r + r_length r + (PMM_PAGE_SIZE - 1)) / PMM_PAGE_SIZE).
  assert (Htch : forall j, touches r j <-> 0 < r_length r /\ lo <= j < hi).
  { intros j. pose proof (page_floor (r_base r) j).
    pose proof (page_ceil (r_base r + r_length r) j). unfold touches, lo, hi. lia. }
  assert (Hlo : 0 <= lo) by (apply Z.div_pos; unfold PMM_PAGE_SIZE; lia).
  case_if; zbool.
  { exists p. split_all; try done. eapply (upd_bits_pred _ _ 0 0); [by apply upd_bits_none|].
    intros j Hj. rewrite Htch. lia. }
  edestruct (used_span p lo hi) as (p' & -> & Hok' & Hu); [done|done|].
  exists p'. split_all; try done. eapply upd_bits_pred; [done|].
  intros j Hj. rewrite Htch. lia.
Qed.

(** ** Initialisation *)

Lemma init_pass_spec sel mark v (good : boot_mem_region -> Prop)
    (P : boot_mem_region -> Z -> Prop) :
  (forall p r, pmm_ok p -> good r ->
     exists p', mark p (r_base r) (r_length r) = Some p' /\ pmm_ok p' /\ upd_pred p p' (P r) v) ->
  forall rs p, pmm_ok p -> Forall good rs ->
  exists p', init_pass sel mark p (length rs) rs = Some p' /\ pmm_ok p'
    /\ upd_pred p p' (fun j => exists r, r ∈ rs /\ sel (r_type r) = true /\ P r j) v.
Proof.
  intros Hmark rs. induction rs as [|r rs IH]; intros p Hok Hg.
  - exists p. split_all; try done. split; [done|]. intros j _. set_solver.
  - apply Forall_cons in Hg as [Hr Hg]. cbn [length init_pass].
    destruct (sel (r_type r)) eqn:Es.
    + destruct (Hmark p r Hok Hr) as (p1 & -> & Hok1 & Hu1).
      destruct (IH p1 Hok1 Hg) as (p2 & -> & Hok2 & Hu2).
      exists p2. split_all; try done.
      eapply upd_pred_iff; [|by eapply upd_pred_trans].
      intros j. setoid_rewrite elem_of_cons. naive_solver.
    + destruct (IH p Hok Hg) as (p2 & -> & Hok2 & Hu2).
      exists p2. split_all; try done. eapply upd_pred_iff; [|exact Hu2].
      intros j. setoid_rewrite elem_of_cons. naive_solver congruence.
Qed.

Lemma init_pass_ok sel mark (good : boot_mem_region -> Prop) (K : pmm_state -> Prop) :
  (forall p r, pmm_ok p -> K p -> good r ->
     exists p', mark p (r_base r) (r_length r) = Some p' /\ pmm_ok p' /\ K p') ->
  forall n rs p, pmm_ok p -> K p -> Forall good rs -> (n <= length rs)%nat ->
  exists p', init_pass sel mark p n rs = Some p' /\ pmm_ok p' /\ K p'.
Proof.
  intros Hmark n. induction n as [|n IH]; intros [|r rs] p Hok HK Hg Hn; simpl in *;
    try lia; [by exists p..|].
  apply Forall_cons in Hg as [Hr Hg]. destruct (sel (r_type r)).
  - destruct (Hmark p r) as (p1 & -> & Hok1 & HK1); [done..|]. apply IH; auto; lia.
  - apply IH; auto; lia.
Qed.

Lemma bm_get_ff n rest j :
  0 <= j < 8 * Z.of_nat n -> bm_get (replicate n 255 ++ rest) j = true.
Proof.
  intros Hj. unfold bm_get, nthZ. pose proof (mod8_bounds j).
  assert (j / 8 < Z.of_nat n) by (apply Z.div_lt_upper_bound; lia).
  assert (0 <= j / 8) by (apply Z.div_pos; lia).
  rewrite lookup_app_l by (rewrite length_replicate; lia).
  rewrite lookup_replicate_2 by lia. simpl.
  apply (Z.ones_spec_low 8). lia.
Qed.

(** The state before the boot map is read: every frame in use. *)
Definition blank (storage : list Z) (mx : Z) : pmm_state :=
  let fc := mx / PMM_PAGE_SIZE in
  let req := (fc + 7) / 8 in
  mk_pmm (Some (replicate (Z.to_nat req) 255 ++ drop (Z.to_nat req) storage)) req mx fc
    0 fc 0 0 0 false.

Lemma blank_used storage mx j :
  0 < mx -> 0 <= j < mx / PMM_PAGE_SIZE -> bm_get (bits (blank storage mx)) j = true.
Proof.
  intros Hm Hj. apply bm_get_ff. revert Hj. generalize (mx / PMM_PAGE_SIZE). intros f Hf.
  pose proof (Z.div_mod (f + 7) 8). pose proof (Z.mod_pos_bound (f + 7) 8). lia.
Qed.

Lemma blank_ok storage mx :
  Forall is_byte storage -> 0 < mx < 2 ^ 64 -> mx mod PMM_PAGE_SIZE = 0 ->
  (mx / PMM_PAGE_SIZE + 7) / 8 <= Z.of_nat (length storage) ->
  pmm_ok (blank storage mx).
Proof.
  intros Hb Hm Ha Hl. pose proof (Z.div_mod mx PMM_PAGE_SIZE) as Hdm.
  pose proof (blank_used storage mx) as Hused.
  assert (Hfl : free_list (blank storage mx) = []).
  { unfold free_list. destruct (bm_free_list _ _) as [|j l] eqn:E; [done|].
    assert (j ∈ j :: l) as Hin by left. rewrite <- E in Hin.
    apply elem_of_bm_free_list in Hin as [Hj Hg]. rewrite Hused in Hg; [done|lia|done]. }
  unfold PMM_PAGE_SIZE in *. set (fc := mx / 4096) in *.
  pose proof (Z.div_mod (fc + 7) 8). pose proof (Z.mod_pos_bound (fc + 7) 8).
  split; try done; rewrite ?Hfl; unfold bits, blank, PMM_PAGE_SIZE; simpl; fold fc; try lia.
  - apply Forall_app. split; [apply Forall_replicate; unfold is_byte; lia|by apply Forall_drop].
  - unfold bm_fits. rewrite length_app, length_replicate. lia.
Qed.

(** Evaluation of [pmm_init_from_map] up to the two passes. *)
Lemma pmm_init_unfold q rs n storage sb mx :
  n <> 0 -> 0 < mx < 2 ^ 64 -> mx mod PMM_PAGE_SIZE = 0 ->
  (mx / PMM_PAGE_SIZE + 7) / 8 <= sb -> sb <= Z.of_nat (length storage) ->
  pmm_init_from_map (Some q) (Some rs) n (Some storage) sb mx =
    (let* p1 := init_pass (fun t => t =? BOOT_MEM_USABLE) mark_range_free (blank storage mx)
                  (Z.to_nat n) rs in
     let* p2 := mark_range_used p1 0 PMM_PAGE_SIZE in
     let* p3 := init_pass (fun t => negb (t =? BOOT_MEM_USABLE)) mark_range_used p2
                  (Z.to_nat n) rs in
     Some (Some (set_initialized p3 true), true)).
Proof.
  intros Hn Hm Ha Hs Hl. unfold pmm_init_from_map.
  rewrite (proj2 (Z.eqb_neq n 0)) by lia. rewrite (proj2 (Z.eqb_neq mx 0)) by lia.
  rewrite page_offset, Ha. cbn [negb orb Z.eqb].
  assert (0 <= mx / PMM_PAGE_SIZE < 2 ^ 52)
    by (split; [apply Z.div_pos|apply Z.div_lt_upper_bound]; unfold PMM_PAGE_SIZE; lia).
  rewrite u64_id by lia. rewrite (proj2 (Z.ltb_ge _ _)) by lia.
  rewrite fill_loop_spec by lia. done.
Qed.

(** ** Allocation *)

Lemma alloc_scan_done fuel p a limit : limit <= a -> alloc_scan fuel p a limit = Some None.
Proof. intros. destruct fuel; simpl; by rewrite (proj2 (Z.ltb_ge _ _)) by done. Qed.

Lemma alloc_scan_spec fuel p a limit :
  pmm_ok p -> 0 <= a -> limit <= frame_count p -> (Z.to_nat (limit - a) <= fuel)%nat ->
  (exists j p', a <= j < limit /\ (forall i, a <= i < j -> bm_get (bits p) i = true)
     /\ bm_get (bits p) j = false /\ mark_frame_used p j = Some p'
     /\ alloc_scan fuel p a limit
        = Some (Some (set_next_hint p' (j + 1), j * PMM_PAGE_SIZE)))
  \/ ((forall i, a <= i < limit -> bm_get (bits p) i = true)
      /\ alloc_scan fuel p a limit = Some None).
Proof.
  intros Hok Ha Hl. pose proof (frame_count_bound p Hok) as Hfc. revert a Ha.
  induction fuel as [|fuel IH]; intros a Ha Hf;
    (destruct (Z.lt_ge_cases a limit) as [Hal|Hal];
     [|right; split; [intros; lia|by apply alloc_scan_done]]); [lia|].
  cbn [alloc_scan]. rewrite (proj2 (Z.ltb_lt _ _)) by done.
  rewrite (ok_bitmap p Hok), (bitmap_test_spec _ (frame_count p)) by (apply ok_fits || lia; done).
  destruct (bm_get (bits p) a) eqn:E; cbn [negb].
  - rewrite u64_id by lia.
    destruct (IH (a + 1)) as [(j & p' & Hj & Hi & Hb & Hm & ->)|[Hi ->]]; [lia|lia|left|right].
    + exists j, p'. split_all; try done; [lia|lia|]. intros i Hi'.
      destruct (decide (i = a)) as [->|]; [done|]. apply Hi; lia.
    + split; [|done]. intros i Hi'. destruct (decide (i = a)) as [->|]; [done|].
      apply Hi; lia.
  - left. destruct (mark_frame_used_spec p a) as (p' & Hm & _); [done|lia|].
    exists a, p'. split_all; try done; try (intros; lia).
    rewrite Hm, !u64_id; [done|unfold PMM_PAGE_SIZE; lia|lia].
Qed.

Lemma filter_tail_ne (l : list Z) (j : Z) :
  NoDup (j :: l) -> filter (fun i => i <> j) (j :: l) = l.
Proof.
  intros [Hj Hn]%NoDup_cons. rewrite filter_cons_False by auto.
  rewrite (filter_ext_in _ (fun _ => True)).
  - clear. induction l as [|x l IH]; [done|]. rewrite filter_cons_True by done. by f_equal.
  - set_solver.
Qed.

Lemma bm_free_list_head bm n j :
  0 <= j < n -> (forall i, 0 <= i < j -> bm_get bm i = true) -> bm_get bm j = false ->
  head (bm_free_list bm n) = Some j.
Proof.
  intros Hj Hlow Hb. unfold bm_free_list.
  replace n with (j + (n - j)) by lia. rewrite seqZ_app by lia.
  rewrite filter_app, (seqZ_cons (0 + j)) by lia.
  rewrite filter_cons_True by (by rewrite Z.add_0_l).
  replace (filter _ (seqZ 0 j)) with (@nil Z); [done|].
  symmetry. rewrite (filter_ext_in _ (fun _ => False)).
  - clear. induction (seqZ 0 j); [done|]. by rewrite filter_cons_False by auto.
  - intros i Hi%elem_of_seqZ. rewrite Hlow by lia. split; [done|tauto].
Qed.

(** Taking the lowest free frame removes the head of the free list. *)
Lemma take_lowest p j :
  pmm_ok p -> 0 <= j < frame_count p ->
  (forall i, 0 <= i < j -> bm_get (bits p) i = true) -> bm_get (bits p) j = false ->
  exists p', mark_frame_used p j = Some p' /\ pmm_ok (set_next_hint p' (j + 1))
    /\ same_dims p p' /\ free_list p = j :: free_list p'.
Proof.
  intros Hok Hj Hlow Hb.
  destruct (mark_frame_used_spec p j) as (p' & -> & Hok' & [Hd Hu] & _); [done..|].
  pose proof (ok_fits p Hok) as Hfit.
  exists p'. split_all; try done.
  - destruct Hd as (_ & Hfc & _). destruct Hok' as []. split; try done; simpl; [lia|].
    intros i Hi. change (bits (set_next_hint p' (j + 1))) with (bits p').
    rewrite Hu by lia. case_if; [done|]. apply Hlow. zbool. lia.
  - destruct Hd as (_ & Hfc & _). unfold free_list. rewrite Hfc.
    pose proof (bm_free_list_head (bits p) _ j Hj Hlow Hb) as Hhd.
    rewrite (bm_free_list_ext (bits p') (bm_set (bits p) j)).
    2:{ intros i Hi. rewrite Hu, (bm_get_set _ (frame_count p)) by (done || lia).
        destruct (Z.eqb_spec j i); case_if; zbool; try done; lia. }
    rewrite bm_free_list_set by done.
    pose proof (NoDup_bm_free_list (bits p) (frame_count p)) as Hnd.
    destruct (bm_free_list (bits p) (frame_count p)) as [|x l]; [done|].
    injection Hhd as ->. by rewrite filter_tail_ne.
Qed.

Lemma free_list_nil p : pmm_ok p -> free_list p = [] <-> free_frames p = 0.
Proof.
  intros []. rewrite ok_free0. destruct (free_list p); simpl; split; try done; lia.
Qed.

Lemma alloc_frame_spec p :
  pmm_ok p -> initialized p = true ->
  match free_list p with
  | [] => pmm_alloc_frame (Some p) = Some (Some p, PMM_INVALID_FRAME)
  | j :: rest =>
      exists p', pmm_alloc_frame (Some p) = Some (Some p', j * PMM_PAGE_SIZE)
        /\ pmm_ok p' /\ same_dims p p' /\ free_list p' = rest
  end.
Proof.
  intros Hok Hin. unfold pmm_alloc_frame. rewrite Hin. cbn [negb orb].
  pose proof (free_list_nil p Hok) as Hnil. pose proof (ok_hint p Hok) as Hh.
  destruct (free_list p) as [|j rest] eqn:E.
  { rewrite (proj1 Hnil eq_refl). done. }
  rewrite (proj2 (Z.eqb_neq _ _)) by (intros H0; by apply Hnil in H0).
  assert (Hj : j ∈ free_list p) by (rewrite E; left).
  apply elem_of_bm_free_list in Hj as [Hj Hjb].
  assert (next_hint p <= j) as Hhj.
  { destruct (Z.lt_ge_cases j (next_hint p)); [|done].
    rewrite (ok_low p Hok) in Hjb; [done|lia]. }
  destruct (alloc_scan_spec (Z.to_nat (frame_count p)) p (next_hint p) (frame_count p))
    as [(k & p' & Hk & Hi & Hkb & Hm & ->)|[Hi _]]; [done|lia..| |].
  2:{ rewrite Hi in Hjb by lia. done. }
  destruct (take_lowest p k) as (p'' & Hm' & Hok' & Hd & Hfl); [done|lia| |done|].
  { intros i Hi'. destruct (Z.lt_ge_cases i (next_hint p)).
    - apply (ok_low p Hok). lia.
    - apply Hi. lia. }
  rewrite Hm in Hm'. injection Hm' as <-. rewrite E in Hfl. injection Hfl as <- ->.
  exists (set_next_hint p' (j + 1)). split_all; try done.
Qed.

(** ** Release and reservation *)

(** The addresses [pmm_free_frame] accepts. *)
Definition freeable (p : pmm_state) (a : Z) : Prop :=
  a mod PMM_PAGE_SIZE = 0 /\ a <> 0 /\ a < max_phys p
  /\ ~ a / PMM_PAGE_SIZE ∈ free_list p.

Lemma frame_of_addr p a :
  pmm_ok p -> 0 <= a < max_phys p -> 0 <= a / PMM_PAGE_SIZE < frame_count p.
Proof.
  intros [] Ha. split; [apply Z.div_pos; [lia|done]|].
  apply Z.div_lt_upper_bound; [done|]. unfold PMM_PAGE_SIZE in *. lia.
Qed.

Lemma not_free_bit p j :
  0 <= j < frame_count p -> ~ j ∈ free_list p <-> bm_get (bits p) j = true.
Proof.
  intros Hj. unfold free_list. rewrite elem_of_bm_free_list.
  destruct (bm_get (bits p) j); split; intros H; try done; try (by intros []).
  exfalso. apply H. done.
Qed.

Lemma free_frame_spec p a :
  pmm_ok p -> initialized p = true -> 0 <= a ->
  (~ freeable p a /\ pmm_free_frame (Some p) a = Some (Some p, false))
  \/ (freeable p a /\ exists p', pmm_free_frame (Some p) a = Some (Some p', true)
        /\ pmm_ok p' /\ same_dims p p'
        /\ forall j, j ∈ free_list p' <-> j = a / PMM_PAGE_SIZE \/ j ∈ free_list p).
Proof.
  intros Hok Hin Ha. unfold pmm_free_frame, freeable. rewrite Hin, page_offset. cbn [negb].
  case_if.
  { left. split; [|done]. intros (H1 & H2 & H3 & _). rewrite H1 in Hif. zbool.
    destruct Hif as [Hif|Hif]; zbool; [destruct Hif as [Hif|Hif]; zbool|]; done || lia. }
  zbool. pose proof (frame_of_addr p a Hok) as Hj. set (j := a / PMM_PAGE_SIZE) in *.
  rewrite (ok_bitmap p Hok), (bitmap_test_spec _ (frame_count p)) by (apply ok_fits || lia; done).
  destruct (mark_frame_free_spec p j) as (p' & Hm & Hok' & [Hd Hu]); [done|lia|].
  pose proof (not_free_bit p j) as Hnf.
  destruct (bm_get (bits p) j) eqn:E; cbn [negb].
  - right. split; [split_all; try done; apply Hnf; [lia|done]|].
    exists p'. rewrite Hm. split_all; try done. intros i.
    unfold free_list. destruct Hd as (_ & -> & _). rewrite !elem_of_bm_free_list.
    split; [intros [Hi Hg]|intros [->|[Hi Hg]]].
    + rewrite Hu in Hg by done. case_if_in Hg; zbool; [left; lia|by right].
    + split; [lia|]. rewrite Hu by lia. by case_if; zbool; [|lia].
    + split; [done|]. rewrite Hu by done. by case_if.
  - left. split; [|done]. intros (_ & _ & _ & H4). apply Hnf in H4; [done|lia].
Qed.

Lemma reserve_range_ok p base len :
  pmm_ok p -> 0 <= base < 2 ^ 64 ->
  exists p' b, pmm_reserve_range (Some p) base len = Some (Some p', b)
    /\ pmm_ok p' /\ same_dims p p'
    /\ (forall j, j ∈ free_list p' -> j ∈ free_list p).
Proof.
  intros Hok Hb. unfold pmm_reserve_range. case_if; [by exists p, false|].
  destruct (mark_range_used_ok p base len) as (p' & -> & Hok' & Hd & Hmono); [done..|].
  exists p', true. split_all; try done. intros j. unfold free_list.
  destruct Hd as (_ & -> & _). rewrite !elem_of_bm_free_list. intros [Hj Hg].
  split; [done|]. destruct (bm_get (bits p) j) eqn:E; [|done].
  rewrite Hmono in Hg; done.
Qed.

Lemma is_frame_free_spec p a :
  pmm_ok p -> initialized p = true -> 0 <= a ->
  exists b, pmm_is_frame_free (Some p) a = Some b
    /\ (b = true <-> a mod PMM_PAGE_SIZE = 0 /\ a < max_phys p
                     /\ a / PMM_PAGE_SIZE ∈ free_list p).
Proof.
  intros Hok Hin Ha. unfold pmm_is_frame_free. rewrite Hin, page_offset. cbn [negb].
  case_if.
  { exists false. split; [done|]. split; [done|]. intros (H1 & H2 & _).
    rewrite H1 in Hif. zbool. destruct Hif; zbool; [done|lia]. }
  zbool. pose proof (frame_of_addr p a Hok) as Hj.
  rewrite (ok_bitmap p Hok), (bitmap_test_spec _ (frame_count p)) by (apply ok_fits || lia; done).
  eexists. split; [done|]. rewrite negb_true_iff. unfold free_list.
  rewrite elem_of_bm_free_list. naive_solver lia.
Qed.

(** ** Boot *)

Lemma touches0 j : 0 <= j -> touches (mk_region 0 PMM_PAGE_SIZE 0) j <-> j = 0.
Proof. unfold touches, PMM_PAGE_SIZE; simpl. lia. Qed.

Lemma init_spec q rs storage mx :
  Forall is_byte storage -> rs <> [] -> Forall region_sane rs ->
  0 < mx < 2 ^ 64 -> mx mod PMM_PAGE_SIZE = 0 ->
  (mx / PMM_PAGE_SIZE + 7) / 8 <= Z.of_nat (length storage) ->
  exists p,
    pmm_init_from_map (Some q) (Some rs) (Z.of_nat (length rs)) (Some storage)
      (Z.of_nat (length storage)) mx = Some (Some p, true)
    /\ pmm_ok p /\ initialized p = true /\ frame_count p = mx / PMM_PAGE_SIZE
    /\ forall j, 0 <= j < frame_count p ->
         j ∈ free_list p <->
         j <> 0 /\ (exists r, r ∈ rs /\ r_type r = BOOT_MEM_USABLE /\ covers r j)
         /\ ~ (exists r, r ∈ rs /\ r_type r <> BOOT_MEM_USABLE /\ touches r j).
Proof.
  intros Hb Hne Hs Hm Ha Hl.
  rewrite pmm_init_unfold by (try done; destruct rs; simpl; done || lia). rewrite Nat2Z.id.
  destruct (init_pass_spec (fun t => t =? BOOT_MEM_USABLE) mark_range_free false region_sane
    covers mark_range_free_spec rs (blank storage mx)) as (p1 & -> & Hok1 & Hd1 & H1);
    [by apply blank_ok|done|].
  destruct (mark_range_used_spec p1 (mk_region 0 PMM_PAGE_SIZE 0))
    as (p2 & Hp2 & Hok2 & Hd2 & H2); [done|done|]. simpl in Hp2. rewrite Hp2.
  destruct (init_pass_spec (fun t => negb (t =? BOOT_MEM_USABLE)) mark_range_used true
    region_sane touches mark_range_used_spec rs p2) as (p3 & -> & Hok3 & Hd3 & H3); [done..|].
  destruct Hd1 as (_ & Hf1 & _), Hd2 as (_ & Hf2 & _), Hd3 as (_ & Hf3 & _).
  eexists. split; [done|]. split; [by destruct Hok3|]. split; [done|].
  split; [simpl; rewrite Hf3, Hf2, Hf1; done|]. intros j Hj. simpl in Hj.
  unfold free_list. rewrite elem_of_bm_free_list.
  change (bits (set_initialized p3 true)) with (bits p3). simpl.
  assert (Hj1 : 0 <= j < frame_count p1) by lia.
  assert (Hj0 : 0 <= j < frame_count (blank storage mx)) by lia.
  specialize (H1 j Hj0). specialize (H2 j Hj1). specialize (H3 j ltac:(lia)).
  rewrite touches0 in H2 by lia. rewrite blank_used in H1 by (done || lia).
  setoid_rewrite negb_true_iff in H3. setoid_rewrite Z.eqb_neq in H3.
  setoid_rewrite Z.eqb_eq in H1. revert H1 H3.
  generalize (exists r, r ∈ rs /\ r_type r = BOOT_MEM_USABLE /\ covers r j).
  generalize (exists r, r ∈ rs /\ r_type r <> BOOT_MEM_USABLE /\ touches r j).
  intros N U H1 H3.
  destruct (bm_get (bits p1) j), (bm_get (bits p2) j), (bm_get (bits p3) j);
    intuition congruence.
Qed.

(** The arguments of [pmm_init_from_map] are values of their C types and the
    arrays have the announced sizes. *)
Definition init_args (rs : list boot_mem_region) (n : Z) (storage : list Z) (sb mx : Z) : Prop :=
  Forall (fun r => 0 <= r_base r < 2 ^ 64) rs /\ 0 <= n <= Z.of_nat (length rs)
  /\ Forall is_byte storage /\ sb <= Z.of_nat (length storage) /\ 0 <= mx < 2 ^ 64.

Lemma init_defined q rs n storage sb mx :
  init_args rs n storage sb mx ->
  exists p b, pmm_init_from_map (Some q) (Some rs) n (Some storage) sb mx = Some (Some p, b)
    /\ (b = true -> pmm_ok p /\ initialized p = true /\ ~ 0 ∈ free_list p).
Proof.
  intros (Hr & Hn & Hb & Hs & Hm).
  destruct (decide (n <> 0 /\ 0 < mx /\ mx mod PMM_PAGE_SIZE = 0
                    /\ (mx / PMM_PAGE_SIZE + 7) / 8 <= sb)) as [(Hn0 & Hm0 & Ha & Hl)|Hno].
  - rewrite pmm_init_unfold by (done || lia).
    destruct (init_pass_ok (fun t => t =? BOOT_MEM_USABLE) mark_range_free
      (fun r => 0 <= r_base r < 2 ^ 64) (fun _ => True)) with
      (n := Z.to_nat n) (rs := rs) (p := blank storage mx) as (p1 & -> & Hok1 & _);
      [|apply blank_ok; try done; lia|done|done|lia|].
    { intros p r Hok _ _. destruct (mark_range_free_ok p (r_base r) (r_length r) Hok)
        as (p' & ? & ? & ?). by exists p'. }
    destruct (mark_range_used_spec p1 (mk_region 0 PMM_PAGE_SIZE 0))
      as (p2 & Hp2 & Hok2 & Hd2 & H2); [done|done|]. simpl in Hp2. rewrite Hp2.
    destruct (init_pass_ok (fun t => negb (t =? BOOT_MEM_USABLE)) mark_range_used
      (fun r => 0 <= r_base r < 2 ^ 64) (fun p => bm_get (bits p) 0 = true)) with
      (n := Z.to_nat n) (rs := rs) (p := p2) as (p3 & -> & Hok3 & Hz); [|done| |done|lia|].
    { intros p r Hok Hz Hrb. destruct (mark_range_used_ok p (r_base r) (r_length r))
        as (p' & ? & ? & ? & Hmono); [done..|]. exists p'. split_all; try done.
      apply Hmono; [|done]. pose proof (ok_pos p Hok). lia. }
    { apply H2; [pose proof (ok_pos p1 Hok1); lia|]. left. by apply touches0. }
    do 2 eexists. split; [done|]. intros _. split; [by destruct Hok3|]. split; [done|].
    apply not_free_bit; [|done]. simpl. pose proof (ok_pos p3 Hok3). lia.
  - exists q, false. split; [|done]. unfold pmm_init_from_map.
    destruct (Z.eqb_spec n 0); [done|]. destruct (Z.eqb_spec mx 0); [done|].
    rewrite page_offset. destruct (Z.eqb_spec (mx mod PMM_PAGE_SIZE) 0); [|done]. cbn [negb orb].
    assert (0 <= mx / PMM_PAGE_SIZE < 2 ^ 52)
      by (split; [apply Z.div_pos|apply Z.div_lt_upper_bound]; unfold PMM_PAGE_SIZE; lia).
    rewrite u64_id by lia. rewrite (proj2 (Z.ltb_lt _ _)); [done|].
    apply Z.nle_gt. intros Hle. apply Hno. split_all; done || lia.
Qed.

(** ** The allocator as a state machine *)

Inductive pmm_reach : pmm_state -> Prop :=
| reach_init q rs n storage sb mx p :
    init_args rs n storage sb mx ->
    pmm_init_from_map (Some q) (Some rs) n (Some storage) sb mx = Some (Some p, true) ->
    pmm_reach p
| reach_alloc p p' a :
    pmm_reach p -> pmm_alloc_frame (Some p) = Some (Some p', a) -> pmm_reach p'
| reach_free p p' a b :
    pmm_reach p -> 0 <= a < 2 ^ 64 ->
    pmm_free_frame (Some p) a = Some (Some p', b) -> pmm_reach p'
| reach_reserve p p' base len b :
    pmm_reach p -> 0 <= base < 2 ^ 64 -> 0 <= len < 2 ^ 64 ->
    pmm_reserve_range (Some p) base len = Some (Some p', b) -> pmm_reach p'.

Definition pmm_live (p : pmm_state) : Prop :=
  pmm_ok p /\ initialized p = true /\ ~ 0 ∈ free_list p.

Lemma alloc_live p p' a :
  pmm_live p -> pmm_alloc_frame (Some p) = Some (Some p', a) -> pmm_live p'.
Proof.
  intros (Hok & Hin & Hz) Ha. pose proof (alloc_frame_spec p Hok Hin) as Hs.
  destruct (free_list p) as [|j rest] eqn:E.
  { rewrite Hs in Ha. simplify_eq. split; [done|]. split; [done|]. by rewrite E. }
  destruct Hs as (p1 & Ha1 & Hok1 & (_ & _ & Hi1) & Hfl). rewrite Ha1 in Ha. simplify_eq.
  split; [done|]. split; [congruence|]. set_solver.
Qed.

Lemma free_live p p' a b :
  pmm_live p -> 0 <= a -> pmm_free_frame (Some p) a = Some (Some p', b) -> pmm_live p'.
Proof.
  intros (Hok & Hin & Hz) Ha Hf.
  destruct (free_frame_spec p a Hok Hin Ha) as [[_ Hs]|[(Hal & Hne & _) (p1 & Hs & Hok1 & (_ & _ & Hi1) & Hfl)]];
    rewrite Hs in Hf; simplify_eq; [done|].
  split; [done|]. split; [congruence|]. rewrite Hfl. intros [H0|]; [|done].
  pose proof (Z.div_mod a PMM_PAGE_SIZE). unfold PMM_PAGE_SIZE in *. lia.
Qed.

Lemma reserve_live p p' base len b :
  pmm_live p -> 0 <= base < 2 ^ 64 ->
  pmm_reserve_range (Some p) base len = Some (Some p', b) -> pmm_live p'.
Proof.
  intros (Hok & Hin & Hz) Hb Hr.
  destruct (reserve_range_ok p base len Hok Hb) as (p1 & b1 & Hs & Hok1 & (_ & _ & Hi1) & Hfl).
  rewrite Hs in Hr. simplify_eq. split; [done|]. split; [congruence|]. auto.
Qed.

Lemma reach_live p : pmm_reach p -> pmm_live p.
Proof.
  induction 1 as [q rs n st sb mx p Ha He|p p' a _ IH He|p p' a b _ IH Ha He|p p' ba le b _ IH Hb _ He].
  - destruct (init_defined q rs n st sb mx Ha) as (p1 & b & He1 & Hok).
    rewrite He1 in He. simplify_eq. by apply Hok.
  - by eapply alloc_live.
  - eapply free_live; [done| |done]. lia.
  - by eapply reserve_live.
Qed.
