(* ===== verification/PmmTheorems.v ===== *)
(** * Frame allocator: properties

    The theorems about [Pmm], each with an instance on a small machine: 16
    frames, all usable but for a reserved region inside frames 8 and 9. *)
From S2P Require Import Prelude Bitmap Pmm.

Definition demo_map : list boot_mem_region :=
  [mk_region 0 65536 BOOT_MEM_USABLE; mk_region 32768 4097 2].

Definition demo_init : option (option pmm_state * bool) :=
  pmm_init_from_map (Some zero_state) (Some demo_map) 2 (Some [0; 0]) 2 65536.

Definition demo_pmm : pmm_state :=
  match demo_init with Some (Some p, _) => p | _ => zero_state end.

(** The state after one allocation (of frame 1). *)
Definition demo_pmm1 : pmm_state :=
  match pmm_alloc_frame (Some demo_pmm) with Some (Some p, _) => p | _ => zero_state end.

Lemma demo_reach : pmm_reach demo_pmm.
Proof.
  apply (reach_init zero_state demo_map 2 [0; 0] 2 65536); [|vm_compute; reflexivity].
  unfold init_args, demo_map. repeat constructor; simpl; try lia; done.
Qed.

Lemma demo_live : pmm_live demo_pmm.
Proof. apply reach_live, demo_reach. Qed.

(** C9: In every state the allocator can reach, the counters agree with the
    bitmap, the hint is sound, frame 0 is never free, and every operation on
    every argument is defined: no access outside the bitmap, and all loops
    end. *)
Theorem pmm_reachable_safe p :
  pmm_reach p ->
  pmm_ok p /\ ~ 0 ∈ free_list p
  /\ is_Some (pmm_alloc_frame (Some p))
  /\ (forall a, 0 <= a < 2 ^ 64 ->
        is_Some (pmm_free_frame (Some p) a) /\ is_Some (pmm_is_frame_free (Some p) a))
  /\ (forall base len, 0 <= base < 2 ^ 64 -> 0 <= len < 2 ^ 64 ->
        is_Some (pmm_reserve_range (Some p) base len)).
Proof.
  intros Hr. destruct (reach_live p Hr) as (Hok & Hin & Hz). split_all; try done.
  - pose proof (alloc_frame_spec p Hok Hin) as Hs.
    destruct (free_list p); [by rewrite Hs|]. by destruct Hs as (p' & -> & _).
  - intros a Ha. split.
    + destruct (free_frame_spec p a) as [[_ ->]|[_ (p' & -> & _)]]; done || lia.
    + destruct (is_frame_free_spec p a) as (b & -> & _); done || lia.
  - intros base len Hb _. by destruct (reserve_range_ok p base len) as (p' & b & -> & _).
Qed.

Lemma pmm_reachable_safe_witness : pmm_ok demo_pmm /\ ~ 0 ∈ free_list demo_pmm.
Proof. destruct (pmm_reachable_safe demo_pmm demo_reach) as (H1 & H2 & _). auto. Defined.

(** C24: Allocation is first fit and complete: it returns the address of the
    lowest free frame and removes exactly that frame from the free list, and
    it reports PMM_INVALID_FRAME, changing nothing, only when no frame is
    free. *)
Theorem pmm_alloc_lowest p :
  pmm_ok p -> initialized p = true ->
  match free_list p with
  | [] => pmm_alloc_frame (Some p) = Some (Some p, PMM_INVALID_FRAME)
  | j :: rest =>
      exists p', pmm_alloc_frame (Some p) = Some (Some p', j * PMM_PAGE_SIZE)
        /\ pmm_ok p' /\ free_list p' = rest
        /\ free_frames p' = free_frames p - 1
  end.
Proof.
  intros Hok Hin. pose proof (alloc_frame_spec p Hok Hin) as Hs.
  destruct (free_list p) as [|j rest] eqn:E; [done|].
  destruct Hs as (p' & -> & Hok' & _ & Hfl). exists p'. split_all; try done.
  rewrite (ok_free p Hok), (ok_free p' Hok'), E, Hfl. simpl. lia.
Qed.

Lemma pmm_alloc_lowest_witness :
  exists p', pmm_alloc_frame (Some demo_pmm) = Some (Some p', 4096)
    /\ free_list p' = [2; 3; 4; 5; 6; 7; 10; 11; 12; 13; 14; 15].
Proof.
  destruct demo_live as (Hok & Hin & _).
  pose proof (pmm_alloc_lowest demo_pmm Hok Hin) as H.
  change (free_list demo_pmm) with [1; 2; 3; 4; 5; 6; 7; 10; 11; 12; 13; 14; 15] in H.
  destruct H as (p' & H1 & _ & H2 & _). exists p'. auto.
Defined.

(** C25: Release is exact on every branch: it succeeds for a page-aligned,
    non-zero, in-range address whose frame is in use, and then adds exactly
    that frame to the free list; otherwise it returns false and changes
    nothing, so a double free is refused. *)
Theorem pmm_free_exact p a :
  pmm_ok p -> initialized p = true -> 0 <= a < 2 ^ 64 ->
  exists p' b, pmm_free_frame (Some p) a = Some (Some p', b)
    /\ (b = true <-> a mod PMM_PAGE_SIZE = 0 /\ a <> 0 /\ a < max_phys p
                     /\ ~ a / PMM_PAGE_SIZE ∈ free_list p)
    /\ (b = false -> p' = p)
    /\ (b = true -> pmm_ok p'
        /\ (forall j, j ∈ free_list p' <-> j = a / PMM_PAGE_SIZE \/ j ∈ free_list p)
        /\ pmm_free_frame (Some p') a = Some (Some p', false)).
Proof.
  intros Hok Hin Ha.
  destruct (free_frame_spec p a) as [[Hno ->]|[Hyes (p' & -> & Hok' & Hd & Hfl)]];
    [done|done|lia| |].
  - exists p, false. split_all; try done.
  - exists p', true. split_all; try done. intros _. split_all; try done.
    destruct Hd as (Hm & _ & Hi).
    destruct (free_frame_spec p' a) as [[_ Hs]|[(_ & _ & _ & Hn) _]]; [done|congruence|lia|done|].
    exfalso. apply Hn, Hfl. by left.
Qed.

Lemma pmm_free_exact_witness :
  exists p', pmm_free_frame (Some demo_pmm1) 4096 = Some (Some p', true)
    /\ pmm_free_frame (Some p') 4096 = Some (Some p', false).
Proof.
  assert (pmm_live demo_pmm1) as (Hok & Hin & _)
    by (eapply alloc_live; [apply demo_live|vm_compute; reflexivity]).
  destruct (pmm_free_exact demo_pmm1 4096 Hok Hin ltac:(lia)) as (p' & b & H1 & _ & _ & H2).
  assert (b = true) as -> by (revert H1; vm_compute; congruence).
  exists p'. split; [done|]. apply H2. done.
Defined.

(** C19: Boot: with a non-empty boot map whose regions all end below the last
    page of the address space ([region_sane]), a memory size that is a non-zero
    multiple of the page size and storage for its bitmap, initialisation
    succeeds and a frame is free exactly when it is not frame 0, some usable
    region covers it entirely, and no region of another type than usable shares
    a byte with it (usable regions may overlap). *)
Theorem pmm_init_exact q rs storage mx :
  Forall is_byte storage -> rs <> [] -> Forall region_sane rs ->
  0 < mx < 2 ^ 64 -> mx mod PMM_PAGE_SIZE = 0 ->
  (mx / PMM_PAGE_SIZE + 7) / 8 <= Z.of_nat (length storage) ->
  exists p,
    pmm_init_from_map (Some q) (Some rs) (Z.of_nat (length rs)) (Some storage)
      (Z.of_nat (length storage)) mx = Some (Some p, true)
    /\ pmm_ok p /\ frame_count p = mx / PMM_PAGE_SIZE
    /\ forall j, 0 <= j < frame_count p ->
         j ∈ free_list p <->
         j <> 0 /\ (exists r, r ∈ rs /\ r_type r = BOOT_MEM_USABLE /\ covers r j)
         /\ ~ (exists r, r ∈ rs /\ r_type r <> BOOT_MEM_USABLE /\ touches r j).
Proof.
  intros. destruct (init_spec q rs storage mx) as (p & ? & ? & ? & ? & ?); [done..|].
  by exists p.
Qed.

Lemma pmm_init_exact_witness :
  exists p, demo_init = Some (Some p, true) /\ frame_count p = 16.
Proof.
  destruct (pmm_init_exact zero_state demo_map [0; 0] 65536) as (p & H1 & _ & H2 & _).
  - repeat constructor; unfold is_byte; lia.
  - discriminate.
  - apply Forall_forall. intros r Hr.
    apply elem_of_cons in Hr as [->|[->|[]%not_elem_of_nil]%elem_of_cons];
      unfold region_sane, PMM_PAGE_SIZE; cbn [r_base r_length]; lia.
  - lia.
  - reflexivity.
  - vm_compute. discriminate.
  - exists p. split; [exact H1|exact H2].
Defined.

(** Round trip: releasing the frame an allocation returned succeeds and
    restores the free list and the counters. *)
Theorem pmm_alloc_free_roundtrip p p' a :
  pmm_reach p -> pmm_alloc_frame (Some p) = Some (Some p', a) -> a <> PMM_INVALID_FRAME ->
  exists p'', pmm_free_frame (Some p') a = Some (Some p'', true)
    /\ free_list p'' = free_list p /\ free_frames p'' = free_frames p
    /\ used_frames p'' = used_frames p.
Proof.
  intros Hr Ha Hne. destruct (reach_live p Hr) as (Hok & Hin & Hz).
  pose proof (alloc_frame_spec p Hok Hin) as Hs.
  destruct (free_list p) as [|j rest] eqn:E; [congruence|].
  destruct Hs as (p1 & Hs & Hok1 & (Hm1 & Hf1 & Hi1) & Hfl). rewrite Hs in Ha. simplify_eq.
  assert (Hj : j ∈ free_list p) by (rewrite E; left).
  assert (j <> 0) by (intros ->; apply Hz; left).
  pose proof Hj as [Hjr _]%elem_of_bm_free_list.
  assert (Hrest : ~ j ∈ free_list p').
  { pose proof (NoDup_bm_free_list (bits p) (frame_count p)) as Hnd.
    fold (free_list p) in Hnd. rewrite E in Hnd. by apply NoDup_cons in Hnd as [? _]. }
  assert (Hdiv : j * PMM_PAGE_SIZE / PMM_PAGE_SIZE = j) by apply addr_frame.
  destruct (free_frame_spec p' (j * PMM_PAGE_SIZE)) as [[Hno _]|[_ (p2 & -> & Hok2 & Hd2 & Hfl2)]];
    [done|congruence|unfold PMM_PAGE_SIZE; lia| |].
  { exfalso. apply Hno. unfold freeable. rewrite Hdiv. split_all; try done.
    - by apply Z.mod_mul.
    - unfold PMM_PAGE_SIZE; lia.
    - rewrite Hm1, (ok_size p Hok). unfold PMM_PAGE_SIZE. lia. }
  assert (Heq : free_list p2 = free_list p).
  { unfold free_list in *. destruct Hd2 as (_ & Hf2 & _). rewrite Hf2, Hf1 in *.
    apply bm_free_list_ext. intros i Hi.
    pose proof (Hfl2 i) as Hi2. rewrite Hdiv, <- elem_of_cons in Hi2.
    rewrite <- E, !elem_of_bm_free_list in Hi2.
    destruct (bm_get (bits p2) i), (bm_get (bits p) i); try done; exfalso; naive_solver. }
  exists p2. rewrite Heq, E. split_all; try done.
  - rewrite (ok_free p2 Hok2), (ok_free p Hok), Heq. done.
  - destruct Hd2 as (_ & Hf2 & _).
    rewrite (ok_used p2 Hok2), (ok_used p Hok), (ok_free p2 Hok2), (ok_free p Hok), Heq. lia.
Qed.

Lemma pmm_alloc_free_roundtrip_witness :
  exists p'', pmm_free_frame (Some demo_pmm1) 4096 = Some (Some p'', true)
    /\ free_list p'' = free_list demo_pmm.
Proof.
  destruct (pmm_alloc_free_roundtrip demo_pmm demo_pmm1 4096 demo_reach) as (p & H1 & H2 & _);
    [vm_compute; reflexivity|vm_compute; congruence|].
  exists p. auto.
Defined.

(** A code bug in the range arithmetic: [align_up] wraps to 0 in the last
    page of the address space, so a usable region of 50 bytes there, which
    covers no frame at all, makes every frame but frame 0 free, and a
    reservation that ends there is reported as done and reserves nothing. *)
Theorem pmm_range_wraps_at_top :
  (exists p, pmm_init_from_map (Some zero_state)
       (Some [mk_region (2 ^ 64 - 100) 50 BOOT_MEM_USABLE]) 1 (Some [0; 0]) 2 65536
     = Some (Some p, true)
     /\ free_list p = [1; 2; 3; 4; 5; 6; 7; 8; 9; 10; 11; 12; 13; 14; 15])
  /\ forall p base len,
       initialized p = true -> 0 <= base -> 0 < len ->
       2 ^ 64 - PMM_PAGE_SIZE < base + len < 2 ^ 64 ->
       pmm_reserve_range (Some p) base len = Some (Some p, true).
Proof.
  split.
  - eexists. split; vm_compute; reflexivity.
  - intros p base len Hin Hb Hl He. unfold pmm_reserve_range, mark_range_used.
    rewrite Hin, (proj2 (Z.eqb_neq len 0)) by lia. cbn [negb orb].
    unfold checked_add_u64, UINT64_MAX. rewrite (proj2 (Z.ltb_ge _ _)) by lia.
    rewrite u64_id by lia.
    rewrite align_up_wraps by done.
    rewrite (proj2 (Z.leb_le _ _)); [done|].
    destruct (align_down_mult base) as (q & Hq & ->); [lia|]. unfold PMM_PAGE_SIZE. lia.
Qed.

Lemma pmm_range_wraps_at_top_witness :
  pmm_reserve_range (Some demo_pmm) 4096 (2 ^ 64 - 4097) = Some (Some demo_pmm, true).
Proof. apply pmm_range_wraps_at_top; vm_compute; reflexivity || (split; reflexivity) || congruence. Defined.
