(* ===== verification/Journal.v ===== *)
(** * MCSFS1J: the crash-consistency journal
      ([kernel/fs/mcsfs1j/m16_mcsfs_journal.c], lines 9-335)

    The in-memory block device with its fault injection, the redo journal
    (commit, clear, recover).  Blocks are lists of bytes, and
    the structs that the code overlays on them are read and written through
    their byte offsets, as the casts of the source do.

    A routine that returns an [int] status is a computation on the device:
    [inl rc] is the early return of a non-zero status, [inr x] is
    [M16_E_OK] with the out-parameters as [x].  The device is the state, so
    the [dev == NULL] guards of the source have no counterpart here. *)
From S2P Require Import Prelude.

Definition M16_BLOCK_SIZE : Z := 512.
Definition M16_MAX_BLOCKS : Z := 128.
Definition M16_JMAGIC : Z := 0x4d43534a524e4c31.
Definition M16_VERSION : Z := 1.
Definition M16_J_EMPTY : Z := 0.
Definition M16_J_COMMITTED : Z := 2.
Definition M16_JOURNAL_MAX_RECORDS : Z := 8.
Definition M16_JOURNAL_START : Z := 1.
Definition M16_JOURNAL_BLOCKS : Z := 1 + 2 * M16_JOURNAL_MAX_RECORDS.

Definition M16_E_INVAL : Z := -1.
Definition M16_E_IO : Z := -2.
Definition M16_E_NOSPC : Z := -3.
Definition M16_E_EXISTS : Z := -4.
Definition M16_E_NOENT : Z := -5.
Definition M16_E_CORRUPT : Z := -6.
Definition M16_E_TOOLONG : Z := -7.

Record m16_blockdev := mk_blockdev {
  blocks : list (list Z);
  total_blocks : Z;
  writes : Z;
  fail_after : Z   (* negative disables fault injection *)
}.

Definition set_fail_after (d : m16_blockdev) (k : Z) : m16_blockdev :=
  mk_blockdev (blocks d) (total_blocks d) (writes d) k.

(** ** Computations on the device *)

Definition dev_m (A : Type) : Type := m16_blockdev -> (Z + A) * m16_blockdev.

Definition dret {A} (x : A) : dev_m A := fun d => (inr x, d).
Definition dfail {A} (rc : Z) : dev_m A := fun d => (inl rc, d).
Definition dbind {A B} (m : dev_m A) (k : A -> dev_m B) : dev_m B := fun d =>
  match m d with
  | (inl rc, d') => (inl rc, d')
  | (inr x, d') => k x d'
  end.

Notation "'let!' x ':=' m 'in' k" := (dbind m (fun x => k))
  (at level 10, x name, m at level 100, k at level 200).
Notation "m ';!' k" := (dbind m (fun _ => k)) (at level 60, right associativity).

(** ** Memory helpers *)

Definition m16_zero (n : Z) : list Z := replicate (Z.to_nat n) 0.

Definition m16_copy (dst src : list Z) (n : Z) : list Z :=
  take (Z.to_nat n) src ++ drop (Z.to_nat n) dst.

(** FNV-1a. *)
Definition m16_checksum (ptr : list Z) : Z :=
  foldl (fun h b => u32 (u32 (h .^ b) * 16777619)) 2166136261 ptr.

(** ** Block device *)

Definition m16_valid_lba (d : m16_blockdev) (lba : Z) : bool :=
  (lba <? total_blocks d) && (lba <? M16_MAX_BLOCKS).

Definition block_at (d : m16_blockdev) (lba : Z) : list Z :=
  default [] (blocks d !! Z.to_nat lba).

Definition m16_read_block (lba : Z) : dev_m (list Z) := fun d =>
  if negb (m16_valid_lba d lba) then (inl M16_E_INVAL, d)
  else (inr (m16_copy [] (block_at d lba) M16_BLOCK_SIZE), d).

Definition m16_write_block (lba : Z) (data : list Z) : dev_m unit := fun d =>
  if negb (m16_valid_lba d lba) then (inl M16_E_INVAL, d) else
  if fail_after d =? 0 then (inl M16_E_IO, d) else
  (inr tt,
   mk_blockdev
     (<[Z.to_nat lba := m16_copy (block_at d lba) data M16_BLOCK_SIZE]> (blocks d))
     (total_blocks d)
     (u64 (writes d + 1))
     (if 0 <? fail_after d then fail_after d - 1 else fail_after d)).

Definition m16_dev_init : m16_blockdev :=
  mk_blockdev (replicate (Z.to_nat M16_MAX_BLOCKS) (m16_zero M16_BLOCK_SIZE))
    M16_MAX_BLOCKS 0 (-1).

(** ** On-disk structures *)

(** [struct m16_journal_header]: 512 bytes. *)
Definition jh_magic (h : list Z) : Z := le_get 0 8 h.
Definition jh_version (h : list Z) : Z := le_get 8 4 h.
Definition jh_state (h : list Z) : Z := le_get 12 4 h.
Definition jh_seq (h : list Z) : Z := le_get 16 4 h.
Definition jh_count (h : list Z) : Z := le_get 20 4 h.
Definition jh_header_checksum (h : list Z) : Z := le_get 24 4 h.

(** [struct m16_journal_desc]: 512 bytes. *)
Definition jd_magic (d : list Z) : Z := le_get 0 8 d.
Definition jd_target_lba (d : list Z) : Z := le_get 8 4 d.
Definition jd_payload_checksum (d : list Z) : Z := le_get 12 4 d.

Record m16_jrec := mk_jrec {
  target_lba : Z;
  payload : list Z
}.

(** [struct m16_tx]: the first [count] entries of [rec]. *)
Definition m16_tx : Type := list m16_jrec.

Definition m16_tx_add (tx : m16_tx) (lba : Z) (data : list Z) : Z + m16_tx :=
  if M16_JOURNAL_MAX_RECORDS <=? Z.of_nat (length tx) then inl M16_E_NOSPC
  else inr (tx ++ [mk_jrec lba (m16_copy [] data M16_BLOCK_SIZE)]).

Definition m16_header_checksum (h : list Z) : Z :=
  m16_checksum (le_put 24 4 0 h).

(** ** Journal *)

Definition m16_journal_clear : dev_m unit :=
  m16_write_block M16_JOURNAL_START (m16_zero M16_BLOCK_SIZE).

Definition desc_lba (i : Z) : Z := M16_JOURNAL_START + 1 + i * 2.

(** The descriptor block that [m16_journal_commit] builds for a record. *)
Definition make_desc (r : m16_jrec) : list Z :=
  let d := m16_zero M16_BLOCK_SIZE in
  let d := le_put 0 8 M16_JMAGIC d in
  let d := le_put 8 4 (target_lba r) d in
  le_put 12 4 (m16_checksum (payload r)) d.

(** The commit record. *)
Definition make_header (seq count : Z) : list Z :=
  let h := m16_zero M16_BLOCK_SIZE in
  let h := le_put 0 8 M16_JMAGIC h in
  let h := le_put 8 4 M16_VERSION h in
  let h := le_put 12 4 M16_J_COMMITTED h in
  let h := le_put 16 4 seq h in
  let h := le_put 20 4 count h in
  le_put 24 4 (m16_header_checksum h) h.

Fixpoint commit_records (i : Z) (tx : m16_tx) : dev_m unit :=
  match tx with
  | [] => dret tt
  | r :: tx =>
      m16_write_block (desc_lba i) (make_desc r) ;!
      m16_write_block (desc_lba i + 1) (payload r) ;!
      commit_records (i + 1) tx
  end.

Fixpoint commit_home (tx : m16_tx) : dev_m unit :=
  match tx with
  | [] => dret tt
  | r :: tx => m16_write_block (target_lba r) (payload r) ;! commit_home tx
  end.

Definition m16_journal_commit (tx : m16_tx) (seq : Z) (stop_after_commit_record : Z)
    : dev_m unit :=
  if M16_JOURNAL_MAX_RECORDS <? Z.of_nat (length tx) then dfail M16_E_INVAL else
  m16_journal_clear ;!
  commit_records 0 tx ;!
  m16_write_block M16_JOURNAL_START (make_header seq (Z.of_nat (length tx))) ;!
  if negb (stop_after_commit_record =? 0) then dret tt else
  commit_home tx ;!
  m16_journal_clear.

(** One iteration per record; [n] counts down from [h.count]. *)
Fixpoint recover_records (n : nat) (i : Z) : dev_m unit :=
  match n with
  | O => dret tt
  | S n =>
      let! d := m16_read_block (desc_lba i) in
      (fun dev =>
         if negb (jd_magic d =? M16_JMAGIC) || negb (m16_valid_lba dev (jd_target_lba d))
         then dfail M16_E_CORRUPT dev else
         (let! data := m16_read_block (desc_lba i + 1) in
          if negb (m16_checksum data =? jd_payload_checksum d)
          then dfail M16_E_CORRUPT else
          m16_write_block (jd_target_lba d) data ;!
          recover_records n (i + 1)) dev)
  end.

Definition m16_journal_recover : dev_m unit :=
  let! h := m16_read_block M16_JOURNAL_START in
  if (jh_magic h =? 0) && (jh_state h =? M16_J_EMPTY) then dret tt else
  if negb (jh_magic h =? M16_JMAGIC) || negb (jh_version h =? M16_VERSION)
     || negb (jh_state h =? M16_J_COMMITTED)
     || (M16_JOURNAL_MAX_RECORDS <? jh_count h) then dfail M16_E_CORRUPT else
  if negb (m16_header_checksum h =? jh_header_checksum h) then dfail M16_E_CORRUPT else
  recover_records (Z.to_nat (jh_count h)) 0 ;!
  m16_journal_clear.
