(* ===== verification/JournalFacts.v ===== *)
(** * MCSFS1J: facts about the journal

    Commit and recovery as lists of block writes, and what an injected fault
    leaves behind: until the commit record the old data, from it on the new
    ([commit_crash], [recover_crash]). *)
From S2P Require Import Prelude Journal.

(** ** Well-formed devices *)

Definition blk_ok (b : list Z) : Prop := length b = 512%nat /\ Forall is_byte b.

(** A device as [m16_dev_init] sets it up; every operation keeps it so. *)
Record dev_ok (d : m16_blockdev) : Prop := mk_dev_ok {
  dev_len : length (blocks d) = 128%nat;
  dev_blk : Forall blk_ok (blocks d);
  dev_tot : total_blocks d = 128
}.

(** A list of block writes, and its effect on the disk image. *)
Definition wr : Type := (Z * list Z)%type.
Definition wr_ok (w : wr) : Prop := 0 <= w.1 < 128 /\ blk_ok w.2.

Definition apply_writes (bs : list (list Z)) (ws : list wr) : list (list Z) :=
  foldl (fun bs w => <[Z.to_nat w.1 := w.2]> bs) bs ws.

Fixpoint wseq (ws : list wr) : dev_m unit :=
  match ws with
  | [] => dret tt
  | w :: ws => m16_write_block w.1 w.2 ;! wseq ws
  end.

(** How many of [n] writes happen before the injected fault. *)
Definition survived (k : Z) (n : nat) : nat :=
  if k <? 0 then n else Nat.min n (Z.to_nat k).

Lemma zero_blk_ok : blk_ok (m16_zero M16_BLOCK_SIZE).
Proof. split; [apply length_replicate|apply zero_is_byte]. Qed.

Lemma m16_copy_full dst src :
  length src = 512%nat -> (length dst <= 512)%nat -> m16_copy dst src M16_BLOCK_SIZE = src.
Proof.
  intros Hs Hd. unfold m16_copy. change (Z.to_nat M16_BLOCK_SIZE) with 512%nat.
  rewrite take_ge, drop_ge by lia. apply app_nil_r.
Qed.

Lemma block_at_ok d lba : dev_ok d -> 0 <= lba < 128 -> blk_ok (block_at d lba).
Proof.
  intros [Hl Hb _] H. unfold block_at.
  destruct (lookup_lt_is_Some_2 (blocks d) (Z.to_nat lba)) as [b Hx]; [lia|].
  rewrite Hx. by eapply Forall_lookup_1 in Hx.
Qed.

Lemma lookup_block_at d lba :
  dev_ok d -> 0 <= lba < 128 -> blocks d !! Z.to_nat lba = Some (block_at d lba).
Proof.
  intros [Hl _ _] H. unfold block_at.
  destruct (lookup_lt_is_Some_2 (blocks d) (Z.to_nat lba)) as [b ->]; [lia|done].
Qed.

Lemma valid_lba_ok d lba : dev_ok d -> lba < 128 -> m16_valid_lba d lba = true.
Proof.
  intros [_ _ Ht] H. unfold m16_valid_lba. rewrite Ht. change M16_MAX_BLOCKS with 128.
  by rewrite (proj2 (Z.ltb_lt _ _)).
Qed.

Lemma read_block_ok d lba :
  dev_ok d -> 0 <= lba < 128 -> m16_read_block lba d = (inr (block_at d lba), d).
Proof.
  intros Hd H. unfold m16_read_block. rewrite valid_lba_ok by (done || lia). simpl.
  destruct (block_at_ok d lba) as [Hl _]; [done..|].
  rewrite m16_copy_full; [done|done|simpl; lia].
Qed.

(** The device after a successful write. *)
Definition dev_put (d : m16_blockdev) (w : wr) : m16_blockdev :=
  mk_blockdev (<[Z.to_nat w.1 := w.2]> (blocks d)) (total_blocks d) (u64 (writes d + 1))
    (if 0 <? fail_after d then fail_after d - 1 else fail_after d).

Lemma write_block_ok d w :
  dev_ok d -> wr_ok w ->
  m16_write_block w.1 w.2 d
  = if fail_after d =? 0 then (inl M16_E_IO, d) else (inr tt, dev_put d w).
Proof.
  intros Hd [Hw [Hl _]]. unfold m16_write_block. rewrite valid_lba_ok by (done || lia).
  cbn [negb]. case_if; [done|]. unfold dev_put. do 2 f_equal.
  rewrite m16_copy_full; [done|done|].
  destruct (block_at_ok d w.1) as [-> _]; done.
Qed.

Lemma dev_put_ok d w : dev_ok d -> wr_ok w -> dev_ok (dev_put d w).
Proof.
  intros [Hl Hb Ht] [Hw Hok]. split; simpl; [by rewrite length_insert| |done].
  by apply Forall_insert.
Qed.

(** Two devices with the same image (the counters may differ). *)
Definition same_image (d d' : m16_blockdev) : Prop :=
  blocks d' = blocks d /\ total_blocks d' = total_blocks d.

Lemma wseq_spec ws d :
  dev_ok d -> Forall wr_ok ws ->
  exists d', wseq ws d = (if decide (survived (fail_after d) (length ws) = length ws)
                          then inr tt else inl M16_E_IO, d')
    /\ dev_ok d'
    /\ blocks d' = apply_writes (blocks d) (take (survived (fail_after d) (length ws)) ws)
    /\ (fail_after d < 0 -> fail_after d' = fail_after d).
Proof.
  revert d. induction ws as [|w ws IH]; intros d Hd Hw.
  { exists d. simpl. unfold survived. rewrite decide_True by (case_if; done).
    split; [done|]. split; [done|]. split; [by case_if|done]. }
  apply Forall_cons in Hw as [Hw Hws]. cbn [wseq]. unfold dbind.
  rewrite write_block_ok by done. destruct (Z.eqb_spec (fail_after d) 0) as [E|E].
  { exists d. unfold survived. rewrite E. simpl. done. }
  destruct (IH (dev_put d w)) as (d' & -> & Hok & Hb & Hf); [by apply dev_put_ok|done|].
  exists d'.
  assert (Hs : survived (fail_after d) (length (w :: ws))
               = S (survived (fail_after (dev_put d w)) (length ws))).
  { unfold survived, dev_put. cbn [fail_after length].
    destruct (Z.ltb_spec 0 (fail_after d)), (Z.ltb_spec (fail_after d) 0); try lia.
    rewrite (proj2 (Z.ltb_ge _ _)) by lia. lia. }
  rewrite Hs. cbn [length take]. split_all; try done.
  - f_equal. repeat case_decide; try done; lia.
  - intros Hneg. unfold dev_put in Hf. cbn [fail_after] in Hf.
    rewrite (proj2 (Z.ltb_ge _ _)) in Hf by lia. auto.
Qed.

Lemma wseq_app ws1 ws2 d : wseq (ws1 ++ ws2) d = (wseq ws1 ;! wseq ws2) d.
Proof.
  revert d. induction ws1 as [|w ws1 IH]; intros d; [done|].
  cbn [app wseq]. unfold dbind in *. destruct (m16_write_block w.1 w.2 d) as [[]?]; [done|].
  apply IH.
Qed.

(** ** Images *)

(** Blocks [1..17] belong to the journal. *)
Definition journal_lba (i : nat) : Prop := (1 <= i < 18)%nat.

#[global] Instance journal_lba_dec i : Decision (journal_lba i).
Proof. unfold journal_lba. apply _. Defined.

(** The same contents outside the journal area. *)
Definition same_data (bs bs' : list (list Z)) : Prop :=
  forall i, ~ journal_lba i -> bs !! i = bs' !! i.

#[global] Instance same_data_equiv : Equivalence same_data.
Proof.
  split.
  - by intros bs i _.
  - intros a b H i Hi. by rewrite H.
  - intros a b c H1 H2 i Hi. by rewrite H1, H2.
Qed.

(** A block write keeps images that agree in agreement. *)
#[global] Instance apply_writes_proper :
  Proper (same_data ==> eq ==> same_data) apply_writes.
Proof.
  intros bs bs' H ws ? <-. revert bs bs' H.
  induction ws as [|w ws IH]; intros bs bs' H; [done|]. apply IH. intros i Hi.
  assert (Hl : forall j, ~ journal_lba j ->
            (j < length bs <-> j < length bs')%nat).
  { intros j Hj. specialize (H j Hj). rewrite <- !lookup_lt_is_Some. by rewrite H. }
  destruct (decide (i = Z.to_nat w.1)) as [->|Hne].
  - specialize (Hl _ Hi). destruct (decide (Z.to_nat w.1 < length bs)%nat).
    + rewrite !list_lookup_insert_eq by tauto. done.
    + rewrite !list_insert_ge by lia. by apply H.
  - rewrite !list_lookup_insert_ne by done. by apply H.
Qed.

Lemma length_apply_writes ws bs : length (apply_writes bs ws) = length bs.
Proof.
  revert bs. induction ws; intros bs; [done|]. simpl. rewrite IHws. apply length_insert.
Qed.

Lemma apply_writes_app ws1 ws2 bs :
  apply_writes bs (ws1 ++ ws2) = apply_writes (apply_writes bs ws1) ws2.
Proof. apply foldl_app. Qed.

(** A block that no write of the list targets keeps its contents. *)
Lemma apply_writes_other ws bs i :
  Forall (fun w => Z.to_nat w.1 <> i) ws -> apply_writes bs ws !! i = bs !! i.
Proof.
  revert bs. induction ws as [|w ws IH]; intros bs H; [done|].
  apply Forall_cons in H as [Hw H]. simpl. rewrite IH by done.
  by apply list_lookup_insert_ne.
Qed.

(** Two images that differ only in blocks that are about to be written
    become equal: redo is insensitive to how much of it was done before. *)
Lemma apply_writes_redo ws bs bs' :
  length bs = length bs' ->
  (forall i, Forall (fun w => Z.to_nat w.1 <> i) ws -> bs !! i = bs' !! i) ->
  apply_writes bs ws = apply_writes bs' ws.
Proof.
  revert bs bs'. induction ws as [|w ws IH]; intros bs bs' Hl H.
  { apply list_eq. intros i. by apply H. }
  simpl. apply IH; [by rewrite !length_insert|]. intros i Hi.
  destruct (decide (i = Z.to_nat w.1)) as [->|Hne].
  - destruct (decide (Z.to_nat w.1 < length bs)%nat).
    + by rewrite !list_lookup_insert_eq by lia.
    + rewrite !list_insert_ge by lia. rewrite !(proj2 (lookup_ge_None _ _)) by lia. done.
  - rewrite !list_lookup_insert_ne by done. apply H. by constructor.
Qed.

Lemma apply_writes_prefix ws n bs :
  apply_writes (apply_writes bs (take n ws)) ws = apply_writes bs ws.
Proof.
  apply apply_writes_redo; [apply length_apply_writes|]. intros i Hi.
  apply apply_writes_other, Forall_take, Hi.
Qed.

(** ** Transactions as lists of writes *)

Definition jrec_ok (r : m16_jrec) : Prop :=
  wr_ok (target_lba r, payload r) /\ ~ journal_lba (Z.to_nat (target_lba r)).
Definition tx_ok (tx : m16_tx) : Prop :=
  Forall jrec_ok tx /\ (length tx <= 8)%nat.

Definition home_writes (tx : m16_tx) : list wr :=
  (fun r => (target_lba r, payload r)) <$> tx.

Fixpoint log_writes (i : Z) (tx : m16_tx) : list wr :=
  match tx with
  | [] => []
  | r :: tx => (desc_lba i, make_desc r) :: (desc_lba i + 1, payload r)
               :: log_writes (i + 1) tx
  end.

Definition clear_write : wr := (M16_JOURNAL_START, m16_zero M16_BLOCK_SIZE).
Definition header_write (tx : m16_tx) (seq : Z) : wr :=
  (M16_JOURNAL_START, make_header seq (Z.of_nat (length tx))).

Definition commit_writes (tx : m16_tx) (seq : Z) : list wr :=
  (clear_write :: log_writes 0 tx)
  ++ header_write tx seq :: home_writes tx ++ [clear_write].

Lemma m16_checksum_bound l : 0 <= m16_checksum l < 2 ^ 32.
Proof.
  unfold m16_checksum.
  assert (H : 0 <= 2166136261 < 2 ^ 32) by lia. revert H. generalize 2166136261.
  induction l as [|b l IH]; intros h H; [done|]. simpl foldl. apply IH, u32_bounds.
Qed.

Lemma make_desc_ok r : blk_ok (make_desc r).
Proof.
  split; [unfold make_desc, m16_zero; change (Z.to_nat M16_BLOCK_SIZE) with 512%nat; len_solve|].
  unfold make_desc. eauto with mcsos.
Qed.

Lemma length_make_desc r : length (make_desc r) = 512%nat.
Proof. apply make_desc_ok. Qed.

Lemma make_desc_fields r :
  0 <= target_lba r < 128 ->
  jd_magic (make_desc r) = M16_JMAGIC /\ jd_target_lba (make_desc r) = target_lba r
  /\ jd_payload_checksum (make_desc r) = m16_checksum (payload r).
Proof.
  intros Ht. pose proof (m16_checksum_bound (payload r)).
  unfold jd_magic, jd_target_lba, jd_payload_checksum, make_desc, m16_zero.
  change (Z.to_nat M16_BLOCK_SIZE) with 512%nat.
  unfold M16_JMAGIC. le_simpl. done.
Qed.

(** The header before its checksum is filled in. *)
Definition raw_header (seq count : Z) : list Z :=
  le_put 20 4 count (le_put 16 4 seq (le_put 12 4 M16_J_COMMITTED
    (le_put 8 4 M16_VERSION (le_put 0 8 M16_JMAGIC (m16_zero M16_BLOCK_SIZE))))).

Lemma length_raw_header seq count : length (raw_header seq count) = 512%nat.
Proof. unfold raw_header, m16_zero. change (Z.to_nat M16_BLOCK_SIZE) with 512%nat. len_solve. Qed.

Lemma make_header_raw seq count :
  make_header seq count
  = le_put 24 4 (m16_header_checksum (raw_header seq count)) (raw_header seq count).
Proof. done. Qed.

Lemma make_header_ok seq count : blk_ok (make_header seq count).
Proof.
  rewrite make_header_raw. split.
  - rewrite length_le_put; rewrite length_raw_header; lia.
  - unfold raw_header. eauto 10 with mcsos.
Qed.

Lemma make_header_fields seq count :
  0 <= count < 2 ^ 32 ->
  jh_magic (make_header seq count) = M16_JMAGIC
  /\ jh_version (make_header seq count) = M16_VERSION
  /\ jh_state (make_header seq count) = M16_J_COMMITTED
  /\ jh_count (make_header seq count) = count.
Proof.
  intros Hc. unfold jh_magic, jh_version, jh_state, jh_count. rewrite make_header_raw.
  rewrite !le_get_put_other by (rewrite ?length_raw_header; lia).
  unfold raw_header, m16_zero. change (Z.to_nat M16_BLOCK_SIZE) with 512%nat.
  unfold M16_JMAGIC, M16_VERSION, M16_J_COMMITTED. le_simpl. done.
Qed.

Lemma header_checksum_put c h :
  (28 <= length h)%nat -> m16_header_checksum (le_put 24 4 c h) = m16_header_checksum h.
Proof.
  intros Hl. unfold m16_header_checksum, le_put. f_equal.
  apply splice_splice_same; rewrite !length_le_bytes; lia.
Qed.

(** The stored checksum is the one that recovery recomputes. *)
Lemma make_header_checksum seq count :
  m16_header_checksum (make_header seq count) = jh_header_checksum (make_header seq count).
Proof.
  rewrite make_header_raw. pose proof (length_raw_header seq count).
  rewrite header_checksum_put by lia. unfold jh_header_checksum.
  rewrite le_get_put; [done|lia|apply m16_checksum_bound].
Qed.

Lemma dbind_ext {A B} (m m' : dev_m A) (k k' : A -> dev_m B) d :
  m d = m' d -> (forall x d', k x d' = k' x d') -> dbind m k d = dbind m' k' d.
Proof. intros H Hk. unfold dbind. rewrite H. destruct (m' d) as [[]?]; auto. Qed.

Lemma commit_records_writes tx i d :
  commit_records i tx d = wseq (log_writes i tx) d.
Proof.
  revert i d. induction tx as [|r tx IH]; intros i d; [done|].
  cbn [commit_records log_writes wseq]. do 2 (apply dbind_ext; [done|intros _ ?]). apply IH.
Qed.

Lemma commit_home_writes tx d : commit_home tx d = wseq (home_writes tx) d.
Proof.
  revert d. induction tx as [|r tx IH]; intros d; [done|].
  cbn [commit_home home_writes fmap list_fmap wseq]. apply dbind_ext; [done|intros _ ?]. apply IH.
Qed.

Lemma wseq_one w d : wseq [w] d = m16_write_block w.1 w.2 d.
Proof.
  cbn [wseq]. unfold dbind, dret. by destruct (m16_write_block w.1 w.2 d) as [[|[]]?].
Qed.

(** The commit protocol issues exactly the writes of [commit_writes]. *)
Lemma commit_as_writes tx seq d :
  (length tx <= 8)%nat ->
  m16_journal_commit tx seq 0 d = wseq (commit_writes tx seq) d.
Proof.
  intros Hl. unfold m16_journal_commit.
  rewrite (proj2 (Z.ltb_ge _ _)) by (unfold M16_JOURNAL_MAX_RECORDS; lia).
  unfold commit_writes. cbn [app wseq]. apply dbind_ext; [done|intros _ d1].
  rewrite wseq_app. apply dbind_ext; [apply commit_records_writes|intros _ d2].
  cbn [wseq]. apply dbind_ext; [done|intros _ d3].
  change (negb (0 =? 0)) with false. cbv iota.
  rewrite wseq_app. apply dbind_ext; [apply commit_home_writes|intros _ d4].
  symmetry. apply wseq_one.
Qed.

(** With the stop flag the protocol ends after the commit record. *)
Lemma commit_stopped_as_writes tx seq stop d :
  (length tx <= 8)%nat -> stop <> 0 ->
  m16_journal_commit tx seq stop d
  = wseq ((clear_write :: log_writes 0 tx) ++ [header_write tx seq]) d.
Proof.
  intros Hl Hs. unfold m16_journal_commit.
  rewrite (proj2 (Z.ltb_ge _ _)) by (unfold M16_JOURNAL_MAX_RECORDS; lia).
  cbn [app wseq]. apply dbind_ext; [done|intros _ d1].
  rewrite wseq_app. apply dbind_ext; [apply commit_records_writes|intros _ d2].
  cbn [wseq]. apply dbind_ext; [done|intros _ d3].
  by rewrite (proj2 (Z.eqb_neq _ _)) by done.
Qed.

(** ** Recovery as a list of writes *)

(** The records of [tx] stand in the log area from record [i] on. *)
Fixpoint logged (bs : list (list Z)) (i : Z) (tx : m16_tx) : Prop :=
  match tx with
  | [] => True
  | r :: tx => bs !! Z.to_nat (desc_lba i) = Some (make_desc r)
               /\ bs !! Z.to_nat (desc_lba i + 1) = Some (payload r)
               /\ logged bs (i + 1) tx
  end.

Lemma logged_ext tx bs bs' i :
  0 <= i -> i + Z.of_nat (length tx) <= 8 ->
  (forall j, journal_lba j -> j <> 1%nat -> bs !! j = bs' !! j) ->
  logged bs i tx -> logged bs' i tx.
Proof.
  revert i. induction tx as [|r tx IH]; intros i Hi Hl H; [done|].
  cbn [logged length] in *. intros (H1 & H2 & H3).
  assert (forall j : nat, j = Z.to_nat (desc_lba i) \/ j = Z.to_nat (desc_lba i + 1) ->
    bs !! j = bs' !! j) as Hj.
  { intros j Hj. unfold desc_lba, M16_JOURNAL_START in Hj.
    apply H; unfold journal_lba; lia. }
  rewrite <- !Hj by auto. split_all; try done. apply IH; auto; lia.
Qed.

(** Writes outside the journal leave the log as it is. *)
Lemma logged_home tx bs i w :
  0 <= i -> i + Z.of_nat (length tx) <= 8 -> ~ journal_lba (Z.to_nat w.1) ->
  logged bs i tx -> logged (<[Z.to_nat w.1 := w.2]> bs) i tx.
Proof.
  intros Hi Hl Hw. apply logged_ext; [done..|]. intros j Hj _.
  symmetry. apply list_lookup_insert_ne. by intros <-.
Qed.

Lemma block_at_lookup d i b :
  blocks d !! Z.to_nat i = Some b -> block_at d i = b.
Proof. unfold block_at. by intros ->. Qed.

Lemma recover_records_writes tx i d :
  dev_ok d -> Forall jrec_ok tx -> 0 <= i -> i + Z.of_nat (length tx) <= 8 ->
  logged (blocks d) i tx ->
  recover_records (length tx) i d = wseq (home_writes tx) d.
Proof.
  revert i d. induction tx as [|r tx IH]; intros i d Hd Htx Hi Hl Hlog; [done|].
  apply Forall_cons in Htx as [[Hr Hj] Htx].
  cbn [logged length] in Hlog, Hl. destruct Hlog as (H1 & H2 & H3).
  destruct (make_desc_fields r) as (Em & Et & Ec); [apply Hr|].
  cbn [length recover_records home_writes fmap list_fmap wseq fst snd].
  unfold dbind at 1. unfold desc_lba, M16_JOURNAL_START in *.
  rewrite read_block_ok by first [assumption | lia]. apply block_at_lookup in H1 as ->.
  rewrite Em, Et, Ec, Z.eqb_refl, valid_lba_ok by first [assumption | apply Hr]. cbn [negb orb].
  unfold dbind at 1. rewrite read_block_ok by first [assumption | lia].
  apply block_at_lookup in H2 as ->. rewrite Z.eqb_refl. cbn [negb].
  unfold dbind. rewrite (write_block_ok _ (target_lba r, payload r)) by done.
  case_if; [done|]. apply IH; [by apply dev_put_ok|assumption|lia|lia|].
  apply (logged_home _ _ _ (target_lba r, payload r)); [lia|lia|assumption|assumption].
Qed.

(** The journal is empty, by the test of [m16_journal_recover]. *)
Definition j_clear (bs : list (list Z)) : Prop :=
  exists h, bs !! 1%nat = Some h /\ jh_magic h = 0 /\ jh_state h = M16_J_EMPTY.

Lemma j_clear_zero bs : bs !! 1%nat = Some (m16_zero M16_BLOCK_SIZE) -> j_clear bs.
Proof.
  intros H. exists (m16_zero M16_BLOCK_SIZE). split; [done|].
  unfold jh_magic, jh_state, m16_zero.
  by rewrite !le_get_zero by (change (Z.to_nat M16_BLOCK_SIZE) with 512%nat; lia).
Qed.

(** [tx] is committed: commit record and log are both in place. *)
Definition j_committed (bs : list (list Z)) (tx : m16_tx) : Prop :=
  tx_ok tx /\ logged bs 0 tx
  /\ exists seq, bs !! 1%nat = Some (make_header seq (Z.of_nat (length tx))).

Lemma j_clear_cleared bs : length bs = 128%nat -> j_clear (apply_writes bs [clear_write]).
Proof.
  intros Hl. apply j_clear_zero, (list_lookup_insert_eq bs 1 (m16_zero M16_BLOCK_SIZE)). lia.
Qed.

Lemma recover_clear d :
  dev_ok d -> j_clear (blocks d) -> m16_journal_recover d = (inr tt, d).
Proof.
  intros Hd (h & Hh & Hm & Hs). unfold m16_journal_recover, dbind.
  rewrite read_block_ok by (done || (unfold M16_JOURNAL_START; lia)).
  rewrite (block_at_lookup d M16_JOURNAL_START _ Hh). by rewrite Hm, Hs.
Qed.

Lemma recover_committed tx d :
  dev_ok d -> j_committed (blocks d) tx ->
  m16_journal_recover d = wseq (home_writes tx ++ [clear_write]) d.
Proof.
  intros Hd ([Htx Hl] & Hlog & seq & Hh). unfold m16_journal_recover. unfold dbind at 1.
  rewrite read_block_ok by (done || (unfold M16_JOURNAL_START; lia)).
  rewrite (block_at_lookup d M16_JOURNAL_START _ Hh).
  destruct (make_header_fields seq (Z.of_nat (length tx))) as (-> & -> & -> & ->); [lia|].
  rewrite make_header_checksum, !Z.eqb_refl.
  change (M16_JMAGIC =? 0) with false. cbn [andb orb negb].
  rewrite (proj2 (Z.ltb_ge _ _)) by (unfold M16_JOURNAL_MAX_RECORDS; lia).
  rewrite wseq_app. apply dbind_ext; [|intros _ d'; symmetry; apply wseq_one].
  rewrite Nat2Z.id. apply recover_records_writes; try done; lia.
Qed.

(** ** What a crash leaves behind *)

(** [represents bs img]: recovery of the image [bs] yields the data of [img]. *)
Definition represents (bs img : list (list Z)) : Prop :=
  (j_clear bs /\ same_data bs img)
  \/ exists tx, j_committed bs tx /\ same_data (apply_writes bs (home_writes tx)) img.

#[global] Instance represents_proper bs : Proper (same_data ==> iff) (represents bs).
Proof.
  assert (H : forall i i', same_data i i' -> represents bs i -> represents bs i').
  { intros i i' H [[? Hs]|(tx & Hc & Hs)].
    - left. split; [done|]. by rewrite Hs.
    - right. exists tx. split; [done|]. by rewrite Hs. }
  intros i i' Hi. split; apply H; done.
Qed.

Definition journal_write (w : wr) : Prop :=
  wr_ok w /\ journal_lba (Z.to_nat w.1).

Lemma journal_writes_same ws bs :
  Forall journal_write ws -> same_data (apply_writes bs ws) bs.
Proof.
  intros H i Hi. apply apply_writes_other. eapply Forall_impl; [exact H|].
  intros w [_ Hw] <-. done.
Qed.

Lemma log_writes_range tx i :
  Forall jrec_ok tx -> 0 <= i -> i + Z.of_nat (length tx) <= 8 ->
  Forall (fun w => journal_write w /\ desc_lba i <= w.1) (log_writes i tx).
Proof.
  revert i. induction tx as [|r tx IH]; intros i Htx Hi Hl; [constructor|].
  apply Forall_cons in Htx as [[[Hr Hp] _] Htx]. cbn [log_writes length] in *.
  unfold journal_write, wr_ok, journal_lba, desc_lba, M16_JOURNAL_START in *.
  constructor; [|constructor]; cbn [fst snd] in *.
  1, 2: split_all; first [lia | apply make_desc_ok | apply Hp].
  eapply Forall_impl; [apply IH; [done|lia..]|].
  cbn beta. intros w [Hw Hb]. split; [exact Hw|lia].
Qed.

Lemma log_writes_journal tx :
  tx_ok tx -> Forall journal_write (clear_write :: log_writes 0 tx).
Proof.
  intros [Htx Hl]. constructor.
  - split; [split; [done|apply zero_blk_ok]|]. unfold journal_lba.
    change (Z.to_nat clear_write.1) with 1%nat. lia.
  - eapply Forall_impl; [apply log_writes_range; [done|lia..]|]. by intros w [? _].
Qed.

(** The log area after the log writes. *)
Lemma log_writes_logged tx bs i :
  Forall jrec_ok tx -> length bs = 128%nat -> 0 <= i ->
  i + Z.of_nat (length tx) <= 8 -> logged (apply_writes bs (log_writes i tx)) i tx.
Proof.
  revert i bs. induction tx as [|r tx IH]; intros i bs Htx Hb Hi Hl; [done|].
  apply Forall_cons in Htx as [Hr Htx]. cbn [log_writes logged length apply_writes foldl] in *.
  assert (Hrest : Forall (fun w => journal_write w /\ desc_lba (i + 1) <= w.1)
                    (log_writes (i + 1) tx)) by (apply log_writes_range; [done|lia..]).
  assert (Hkeep : forall j bs0, (Z.to_nat j < Z.to_nat (desc_lba (i + 1)))%nat ->
            apply_writes bs0 (log_writes (i + 1) tx) !! Z.to_nat j = bs0 !! Z.to_nat j).
  { intros j bs0 Hj. apply apply_writes_other. eapply Forall_impl; [exact Hrest|].
    cbn beta. intros w [_ Hw]. lia. }
  unfold apply_writes in *.
  rewrite !Hkeep by (unfold desc_lba, M16_JOURNAL_START; lia). cbn [fst snd].
  unfold desc_lba, M16_JOURNAL_START in *. split_all.
  - rewrite list_lookup_insert_ne by lia. apply list_lookup_insert_eq. lia.
  - apply list_lookup_insert_eq. rewrite length_insert. lia.
  - apply IH; try done; try lia. by rewrite !length_insert.
Qed.

Lemma length_log_writes tx i : length (log_writes i tx) = (2 * length tx)%nat.
Proof. revert i. induction tx; intros i; simpl; [done|]. rewrite IHtx. lia. Qed.

Lemma length_home_writes tx : length (home_writes tx) = length tx.
Proof. apply length_fmap. Qed.

Lemma home_writes_ok tx :
  tx_ok tx -> Forall (fun w => wr_ok w /\ ~ journal_lba (Z.to_nat w.1)) (home_writes tx).
Proof. intros [H _]. unfold home_writes. apply Forall_fmap. exact H. Qed.

Lemma commit_writes_ok tx seq : tx_ok tx -> Forall wr_ok (commit_writes tx seq).
Proof.
  intros Htx. unfold commit_writes. apply Forall_app. split.
  - eapply Forall_impl; [by apply log_writes_journal|]. by intros w [? _].
  - constructor; [split; [done|apply make_header_ok]|]. apply Forall_app. split.
    + eapply Forall_impl; [by apply home_writes_ok|]. by intros w [? _].
    + constructor; [split; [done|apply zero_blk_ok]|constructor].
Qed.

Lemma j_clear_log bs ws :
  Forall (fun w => journal_write w /\ desc_lba 0 <= w.1) ws -> j_clear bs ->
  j_clear (apply_writes bs ws).
Proof.
  intros Hw Hc. unfold j_clear. rewrite apply_writes_other; [done|].
  eapply Forall_impl; [exact Hw|]. intros w [_ H].
  unfold desc_lba, M16_JOURNAL_START in H. lia.
Qed.

(** Until the commit record is written the image keeps its old data. *)
Lemma commit_image_before tx seq bs k :
  tx_ok tx -> length bs = 128%nat -> j_clear bs -> (k <= 1 + 2 * length tx)%nat ->
  let bs' := apply_writes bs (take k (commit_writes tx seq)) in
  j_clear bs' /\ same_data bs' bs.
Proof.
  intros Htx Hb Hc Hk bs'. subst bs'. unfold commit_writes.
  rewrite take_app_le by (cbn [length]; rewrite length_log_writes; lia).
  split; [|by apply journal_writes_same, Forall_take, log_writes_journal].
  destruct k as [|k]; [done|]. cbn [take apply_writes foldl].
  apply j_clear_log.
  - apply Forall_take. destruct Htx. apply log_writes_range; [done|lia..].
  - by apply j_clear_cleared.
Qed.

Lemma j_committed_ext bs bs' tx :
  (forall j, journal_lba j -> bs' !! j = bs !! j) -> j_committed bs tx -> j_committed bs' tx.
Proof.
  intros Hj (Htx & Hlog & seq & Hh). split; [done|]. split.
  - eapply logged_ext; [done| |intros j Hjl _; symmetry; apply Hj, Hjl|done]. destruct Htx; lia.
  - exists seq. rewrite Hj; [done|]. unfold journal_lba. lia.
Qed.

Lemma home_writes_other tx j :
  tx_ok tx -> journal_lba j -> Forall (fun w => Z.to_nat w.1 <> j) (home_writes tx).
Proof.
  intros Htx Hj. eapply Forall_impl; [by apply home_writes_ok|].
  cbn beta. intros w [_ Hw] <-. done.
Qed.

(** Home writes, complete or not, keep a committed transaction committed. *)
Lemma j_committed_home tx bs n :
  j_committed bs tx -> j_committed (apply_writes bs (take n (home_writes tx))) tx.
Proof.
  intros Hc. apply (j_committed_ext bs); [|done]. intros j Hj.
  apply apply_writes_other, Forall_take, home_writes_other; [apply Hc|done].
Qed.

(** From a committed image, any number of the redo writes represents the
    complete transaction. *)
Lemma redo_represents tx bs n :
  j_committed bs tx -> length bs = 128%nat ->
  let bs' := apply_writes bs (take n (home_writes tx ++ [clear_write])) in
  represents bs' (apply_writes bs (home_writes tx))
  /\ ((S (length tx) <= n)%nat -> j_clear bs').
Proof.
  intros Hc Hb bs'. subst bs'. destruct (decide (n <= length tx)%nat) as [Hn|Hn].
  - rewrite take_app_le by (rewrite length_home_writes; lia). split; [|lia].
    right. exists tx. split; [by apply j_committed_home|].
    by rewrite apply_writes_prefix.
  - rewrite take_ge by (rewrite length_app, length_home_writes; simpl; lia).
    rewrite apply_writes_app.
    assert (j_clear (apply_writes (apply_writes bs (home_writes tx)) [clear_write])).
    { apply j_clear_cleared. by rewrite length_apply_writes. }
    split; [left; split|]; try done.
    apply (journal_writes_same [clear_write]). constructor; [|constructor].
    pose proof (log_writes_journal [] ltac:(split; [constructor|simpl; lia])) as Hx.
    by apply Forall_cons in Hx as [Hx _].
Qed.

(** The image right after the commit record. *)
Lemma commit_point tx seq bs :
  tx_ok tx -> length bs = 128%nat ->
  let bs' := apply_writes bs ((clear_write :: log_writes 0 tx) ++ [header_write tx seq]) in
  j_committed bs' tx /\ same_data bs' bs.
Proof.
  intros Htx Hb bs'. subst bs'. pose proof (log_writes_journal tx Htx) as Hj.
  assert (Hh : journal_write (header_write tx seq)).
  { split; [split; [done|apply make_header_ok]|]. unfold journal_lba.
    change (Z.to_nat (header_write tx seq).1) with 1%nat. lia. }
  split; [|by apply journal_writes_same, Forall_app; split; [|constructor]].
  rewrite apply_writes_app. split; [done|]. destruct Htx as [Htx Hl].
  set (bs1 := apply_writes bs _).
  assert (Hl1 : length bs1 = 128%nat) by (subst bs1; by rewrite length_apply_writes).
  assert (Hlog : logged bs1 0 tx).
  { apply log_writes_logged; [done| |done|lia]. by rewrite length_insert. }
  clearbody bs1. cbn [apply_writes foldl].
  change (Z.to_nat (header_write tx seq).1) with 1%nat. split.
  - apply (logged_ext tx bs1); [done|lia| |done].
    intros j _ Hj1. by rewrite list_lookup_insert_ne.
  - exists seq. apply list_lookup_insert_eq. lia.
Qed.

Lemma commit_image_after tx seq bs k :
  tx_ok tx -> length bs = 128%nat -> (2 + 2 * length tx <= k)%nat ->
  let bs' := apply_writes bs (take k (commit_writes tx seq)) in
  represents bs' (apply_writes bs (home_writes tx))
  /\ ((3 + 3 * length tx <= k)%nat -> j_clear bs').
Proof.
  intros Htx Hb Hk bs'. subst bs'. unfold commit_writes.
  rewrite (cons_middle (header_write tx seq)), app_assoc.
  rewrite take_app, take_ge
    by (rewrite length_app; cbn [length]; rewrite length_log_writes; lia).
  destruct (commit_point tx seq bs Htx Hb) as [Hc Hs].
  rewrite apply_writes_app.
  set (n := (k - _)%nat).
  assert (n = k - (2 + 2 * length tx))%nat as Hn.
  { subst n. rewrite length_app. cbn [length]. rewrite length_log_writes. lia. }
  set (bs1 := apply_writes bs _) in *.
  assert (length bs1 = 128%nat) as Hl by (subst bs1; by rewrite length_apply_writes).
  clearbody n bs1.
  destruct (redo_represents tx bs1 n Hc Hl) as [H1 H2].
  split; [|intros; apply H2; lia]. by rewrite <- Hs.
Qed.

Lemma j_clear_not_committed bs tx : j_clear bs -> ~ j_committed bs tx.
Proof.
  intros (h & Hc & Hz & _) ([_ Hl] & _ & seq & Hh). rewrite Hh in Hc. injection Hc as <-.
  destruct (make_header_fields seq (Z.of_nat (length tx))) as (Hm & _); [lia|].
  by rewrite Hz in Hm.
Qed.

Lemma represents_clear bs img : j_clear bs -> represents bs img -> same_data bs img.
Proof.
  intros Hc [[_ H]|(tx & H & _)]; [done|]. by apply j_clear_not_committed in H.
Qed.

Lemma survived_neg k n : k < 0 -> survived k n = n.
Proof. intros. unfold survived. by rewrite (proj2 (Z.ltb_lt _ _)). Qed.

Lemma survived_le k n : (survived k n <= n)%nat.
Proof. unfold survived. case_if; lia. Qed.

Lemma length_commit_writes tx seq :
  length (commit_writes tx seq) = (3 + 3 * length tx)%nat.
Proof.
  unfold commit_writes. rewrite length_app. cbn [length].
  rewrite length_app, length_log_writes, length_home_writes. simpl. lia.
Qed.

(** Whether the fault injected at write [k] strikes a commit of [tx] before
    its commit record. *)
Definition before_commit (k : Z) (tx : m16_tx) : bool :=
  (0 <=? k) && (k <=? 1 + 2 * Z.of_nat (length tx)).

(** Commit under fault injection: the old data before the commit record, the
    new data from it on. *)
Lemma commit_crash d tx seq :
  dev_ok d -> j_clear (blocks d) -> tx_ok tx ->
  exists r d', m16_journal_commit tx seq 0 d = (r, d') /\ dev_ok d'
    /\ represents (blocks d') (if before_commit (fail_after d) tx then blocks d
                               else apply_writes (blocks d) (home_writes tx))
    /\ (r = inr tt -> j_clear (blocks d')
                      /\ same_data (blocks d') (apply_writes (blocks d) (home_writes tx)))
    /\ (fail_after d < 0 -> r = inr tt /\ fail_after d' = fail_after d)
    /\ (r = inr tt \/ r = inl M16_E_IO).
Proof.
  intros Hd Hc Htx. pose proof (dev_len d Hd) as Hl.
  rewrite commit_as_writes by apply Htx.
  destruct (wseq_spec (commit_writes tx seq) d Hd (commit_writes_ok tx seq Htx))
    as (d' & -> & Hok & Hb & Hf).
  rewrite length_commit_writes in *. eexists _, d'. split; [done|]. split; [done|].
  rewrite Hb. split; [|split; [|split]].
  - unfold before_commit. case_if; zbool.
    + left. apply commit_image_before; try done. unfold survived.
      rewrite (proj2 (Z.ltb_ge _ _)) by lia. lia.
    + apply commit_image_after; try done. unfold survived.
      case_if; zbool; destruct Hif; zbool; lia.
  - case_decide as Hs; [|done]. intros _. rewrite Hs.
    pose proof (commit_image_after tx seq (blocks d) (3 + 3 * length tx)) as Ha.
    cbv zeta in Ha. destruct Ha as [Hr Hcl]; try done; [lia|].
    specialize (Hcl ltac:(lia)). split; [done|]. by apply represents_clear.
  - intros Hneg. rewrite decide_True by (by rewrite survived_neg). auto.
  - case_decide; auto.
Qed.

(** Recovery under fault injection: whatever happens, the image keeps
    representing the same data; when it completes, the data is in place. *)
Lemma recover_crash d img :
  dev_ok d -> represents (blocks d) img ->
  exists r d', m16_journal_recover d = (r, d') /\ dev_ok d'
    /\ represents (blocks d') img
    /\ (r = inr tt -> j_clear (blocks d') /\ same_data (blocks d') img)
    /\ (fail_after d < 0 -> r = inr tt /\ fail_after d' = fail_after d)
    /\ (r = inr tt \/ r = inl M16_E_IO).
Proof.
  intros Hd [[Hc Hs]|(tx & Hc & Hs)].
  { exists (inr tt), d. rewrite recover_clear by done. split_all; auto. by left. }
  rewrite (recover_committed tx) by done. pose proof Hc as (Htx & _).
  destruct (wseq_spec (home_writes tx ++ [clear_write]) d Hd) as (d' & -> & Hok & Hb & Hf).
  { pose proof (commit_writes_ok tx 0 Htx) as H. unfold commit_writes in H.
    apply Forall_app in H as [_ H]. by apply Forall_cons in H as [_ H]. }
  rewrite length_app, length_home_writes in *. cbn [length] in *.
  eexists _, d'. split; [done|]. split; [done|]. rewrite Hb.
  set (n := survived _ _). destruct (redo_represents tx (blocks d) n Hc) as [Hr Hcl];
    [apply Hd|].
  assert (Hrep : represents (apply_writes (blocks d) (take n (home_writes tx ++ [clear_write]))) img)
    by (by rewrite <- Hs).
  split; [done|]. split; [|split].
  - case_decide as Hn; [|done]. intros _. specialize (Hcl ltac:(lia)).
    split; [done|]. by apply represents_clear.
  - intros Hneg. subst n. rewrite decide_True by (by rewrite survived_neg). auto.
  - case_decide; auto.
Qed.

(** ** Reboots *)

(** A boot with a fault injected after [k] writes. *)
Definition reboot (k : Z) (d : m16_blockdev) : m16_blockdev :=
  (m16_journal_recover (set_fail_after d k)).2.

(** Any number of boots that crash, then one that does not. *)
Definition recover_many (ks : list Z) (d : m16_blockdev) : m16_blockdev :=
  reboot (-1) (foldl (fun d k => reboot k d) d ks).

Lemma reboot_represents k d img :
  dev_ok d -> represents (blocks d) img ->
  dev_ok (reboot k d) /\ represents (blocks (reboot k d)) img.
Proof.
  intros [? ? ?] Hr. unfold reboot.
  destruct (recover_crash (set_fail_after d k) img) as (r & d' & -> & H1 & H2 & _); done.
Qed.

Lemma recover_many_spec ks d img :
  dev_ok d -> represents (blocks d) img ->
  let d' := recover_many ks d in
  dev_ok d' /\ j_clear (blocks d') /\ same_data (blocks d') img /\ fail_after d' = -1.
Proof.
  revert d. induction ks as [|k ks IH]; intros d Hd Hr; cbv zeta.
  - unfold recover_many, reboot. cbn [foldl].
    destruct (recover_crash (set_fail_after d (-1)) img)
      as (r & d' & -> & H1 & H2 & H3 & H4 & _); [by destruct Hd|done|].
    cbn [snd]. destruct H4 as [-> H4]; [done|]. destruct H3 as [H3 H5]; done.
  - destruct (reboot_represents k d img Hd Hr) as [H1 H2]. exact (IH _ H1 H2).
Qed.
