(* ===== verification/JournalFs.v ===== *)
(** * MCSFS1J: the file system on the journal
      ([kernel/fs/mcsfs1j/m16_mcsfs_journal.c], lines 337-653)

    Format, mount, file creation, file reading and the consistency check, on
    the device and journal of [Journal].  The inode table is the 2048-byte
    array the code loads it into; directory entries and inodes are read and
    written at their struct offsets.  A C string is the list of its bytes
    before the terminator; reading past the list yields the terminator. *)
From S2P Require Import Prelude Journal.

Definition M16_MAX_INODES : Z := 16.
Definition M16_MAX_NAME : Z := 32.
Definition M16_MAGIC : Z := 0x4d43534631564a31.
Definition M16_INODE_BITMAP_LBA : Z := M16_JOURNAL_START + M16_JOURNAL_BLOCKS.
Definition M16_BLOCK_BITMAP_LBA : Z := M16_INODE_BITMAP_LBA + 1.
Definition M16_INODE_TABLE_LBA : Z := M16_BLOCK_BITMAP_LBA + 1.
Definition M16_INODE_TABLE_BLOCKS : Z := 4.
Definition M16_ROOT_DIR_LBA : Z := M16_INODE_TABLE_LBA + M16_INODE_TABLE_BLOCKS.
Definition M16_DATA_START_LBA : Z := M16_ROOT_DIR_LBA + 1.

(** ** Struct layouts *)

(** [struct m16_super], 512 bytes. *)
Definition sb_magic (b : list Z) : Z := le_get 0 8 b.
Definition sb_version (b : list Z) : Z := le_get 8 4 b.
Definition sb_block_size (b : list Z) : Z := le_get 12 4 b.
Definition sb_root_dir_lba (b : list Z) : Z := le_get 44 4 b.
Definition sb_data_start_lba (b : list Z) : Z := le_get 48 4 b.
Definition sb_clean_generation (b : list Z) : Z := le_get 52 4 b.

(** [struct m16_inode], 128 bytes: entry [ino] of the table. *)
Definition inode_off (ino : Z) (o : nat) : nat := (128 * Z.to_nat ino + o)%nat.
Definition ino_used (ino : Z) (raw : list Z) : Z := le_get (inode_off ino 0) 4 raw.
Definition ino_kind (ino : Z) (raw : list Z) : Z := le_get (inode_off ino 4) 4 raw.
Definition ino_size (ino : Z) (raw : list Z) : Z := le_get (inode_off ino 8) 4 raw.
Definition ino_direct0 (ino : Z) (raw : list Z) : Z := le_get (inode_off ino 12) 4 raw.

(** [struct m16_dirent], 40 bytes: entry [i] of the directory block. *)
Definition dirent_off (i : Z) (o : nat) : nat := (40 * Z.to_nat i + o)%nat.
Definition de_used (i : Z) (dir : list Z) : Z := le_get (dirent_off i 0) 4 dir.
Definition de_ino (i : Z) (dir : list Z) : Z := le_get (dirent_off i 4) 4 dir.
Definition de_name (i : Z) (dir : list Z) : list Z := sub (dirent_off i 8) 32 dir.

(** [M16_BLOCK_SIZE / sizeof(struct m16_dirent)]. *)
Definition DIRENTS : Z := M16_BLOCK_SIZE / 40.

(** ** Strings *)

Fixpoint strlen_loop (fuel : nat) (s : list Z) (n : Z) : Z :=
  match fuel with
  | O => n
  | S fuel => if nthZ s n =? 0 then n else strlen_loop fuel s (n + 1)
  end.
Definition m16_strlen_bounded (s : list Z) (max : Z) : Z :=
  strlen_loop (Z.to_nat max) s 0.

Fixpoint streq_loop (fuel : nat) (a b : list Z) (i : Z) : bool :=
  match fuel with
  | O => true
  | S fuel =>
      if negb (nthZ a i =? nthZ b i) then false else
      if nthZ a i =? 0 then true else
      streq_loop fuel a b (i + 1)
  end.
Definition m16_streq (a b : list Z) : bool := streq_loop (Z.to_nat M16_MAX_NAME) a b 0.

(** ** Bitmaps of bytes *)

Definition m16_bitmap_set (bm : list Z) (bit : Z) : list Z :=
  <[Z.to_nat (bit / 8) := u8 (nthZ bm (bit / 8) .| u8 (1 .<< (bit mod 8)))]> bm.

Definition m16_bitmap_get (bm : list Z) (bit : Z) : bool :=
  negb (nthZ bm (bit / 8) .& u8 (1 .<< (bit mod 8)) =? 0).

(** ** Searches *)

Definition m16_find_free_inode (ib : list Z) : Z :=
  default M16_E_NOSPC
    (first_from (Z.to_nat (M16_MAX_INODES - 1)) 1 (fun i => negb (m16_bitmap_get ib i))).

Definition m16_find_free_block (bb : list Z) : Z :=
  default M16_E_NOSPC
    (first_from (Z.to_nat (M16_MAX_BLOCKS - M16_DATA_START_LBA)) M16_DATA_START_LBA
       (fun i => negb (m16_bitmap_get bb i))).

Definition m16_find_dirent (dir name : list Z) : Z :=
  default M16_E_NOENT
    (first_from (Z.to_nat DIRENTS) 0
       (fun i => negb (de_used i dir =? 0) && m16_streq (de_name i dir) name)).

Definition m16_find_free_dirent (dir : list Z) : Z :=
  default M16_E_NOSPC
    (first_from (Z.to_nat DIRENTS) 0 (fun i => de_used i dir =? 0)).

(** ** Inode table *)

Fixpoint read_blocks (n : nat) (lba : Z) : dev_m (list Z) :=
  match n with
  | O => dret []
  | S n =>
      let! b := m16_read_block lba in
      let! rest := read_blocks n (lba + 1) in
      dret (b ++ rest)
  end.

Definition m16_load_inode_table : dev_m (list Z) :=
  read_blocks (Z.to_nat M16_INODE_TABLE_BLOCKS) M16_INODE_TABLE_LBA.

(** The [i]-th block of the raw table. *)
Definition table_block (raw : list Z) (i : Z) : list Z :=
  sub (512 * Z.to_nat i) 512 raw.

Definition m16_store_inode_table (tx : m16_tx) (raw : list Z) : Z + m16_tx :=
  if M16_JOURNAL_MAX_RECORDS <? Z.of_nat (length tx) + M16_INODE_TABLE_BLOCKS
  then inl M16_E_NOSPC
  else inr (tx ++ ((fun i => mk_jrec (M16_INODE_TABLE_LBA + i) (table_block raw i))
                     <$> seqZ 0 M16_INODE_TABLE_BLOCKS)).

(** ** Operations *)

Definition dlift {A} (r : Z + A) : dev_m A :=
  match r with inl rc => dfail rc | inr x => dret x end.

Definition format_super (total : Z) : list Z :=
  let b := m16_zero M16_BLOCK_SIZE in
  let b := le_put 0 8 M16_MAGIC b in
  let b := le_put 8 4 M16_VERSION b in
  let b := le_put 12 4 M16_BLOCK_SIZE b in
  let b := le_put 16 4 total b in
  let b := le_put 20 4 M16_JOURNAL_START b in
  let b := le_put 24 4 M16_JOURNAL_BLOCKS b in
  let b := le_put 28 4 M16_INODE_BITMAP_LBA b in
  let b := le_put 32 4 M16_BLOCK_BITMAP_LBA b in
  let b := le_put 36 4 M16_INODE_TABLE_LBA b in
  let b := le_put 40 4 M16_INODE_TABLE_BLOCKS b in
  let b := le_put 44 4 M16_ROOT_DIR_LBA b in
  let b := le_put 48 4 M16_DATA_START_LBA b in
  le_put 52 4 1 b.

Definition format_ib : list Z := m16_bitmap_set (m16_zero M16_BLOCK_SIZE) 0.

Definition format_bb : list Z :=
  foldl m16_bitmap_set (m16_zero M16_BLOCK_SIZE) (seqZ 0 M16_DATA_START_LBA).

Definition format_inodes : list Z :=
  let raw := m16_zero (128 * M16_MAX_INODES) in
  let raw := le_put (inode_off 0 0) 4 1 raw in
  let raw := le_put (inode_off 0 4) 4 2 raw in
  let raw := le_put (inode_off 0 8) 4 0 raw in
  le_put (inode_off 0 12) 4 M16_ROOT_DIR_LBA raw.

Fixpoint write_table (n : nat) (i : Z) (raw : list Z) : dev_m unit :=
  match n with
  | O => dret tt
  | S n =>
      m16_write_block (M16_INODE_TABLE_LBA + i) (table_block raw i) ;!
      write_table n (i + 1) raw
  end.

(** [m16_zero(dev->blocks, sizeof(dev->blocks))]. *)
Definition zero_blocks : dev_m unit := fun d =>
  (inr tt,
   mk_blockdev (replicate (Z.to_nat M16_MAX_BLOCKS) (m16_zero M16_BLOCK_SIZE))
     (total_blocks d) (writes d) (fail_after d)).

Definition m16_format : dev_m unit := fun d =>
  (zero_blocks ;!
   m16_write_block 0 (format_super (total_blocks d)) ;!
   m16_write_block M16_INODE_BITMAP_LBA format_ib ;!
   m16_write_block M16_BLOCK_BITMAP_LBA format_bb ;!
   write_table (Z.to_nat M16_INODE_TABLE_BLOCKS) 0 format_inodes ;!
   m16_write_block M16_ROOT_DIR_LBA (m16_zero M16_BLOCK_SIZE) ;!
   m16_journal_clear) d.

(** The superblock checks of [m16_mount]. *)
Definition m16_mount : dev_m (list Z) :=
  m16_journal_recover ;!
  let! sb := m16_read_block 0 in
  if negb (sb_magic sb =? M16_MAGIC) || negb (sb_version sb =? M16_VERSION)
     || negb (sb_block_size sb =? M16_BLOCK_SIZE) then dfail M16_E_CORRUPT else
  if negb (sb_data_start_lba sb =? M16_DATA_START_LBA)
     || negb (sb_root_dir_lba sb =? M16_ROOT_DIR_LBA) then dfail M16_E_CORRUPT else
  dret sb.

(** The updates of [m16_write_file_ex] to the inode table and directory. *)
Definition set_inode (raw : list Z) (ino size data_block : Z) : list Z :=
  let raw := le_put (inode_off ino 0) 4 1 raw in
  let raw := le_put (inode_off ino 4) 4 1 raw in
  let raw := le_put (inode_off ino 8) 4 size raw in
  le_put (inode_off ino 12) 4 data_block raw.

Definition set_dirent (dir : list Z) (slot ino : Z) (name : list Z) (name_len : Z)
    : list Z :=
  let dir := le_put (dirent_off slot 0) 4 1 dir in
  let dir := le_put (dirent_off slot 4) 4 ino dir in
  splice (dirent_off slot 8) (m16_copy (m16_zero M16_MAX_NAME) name name_len) dir.

Definition m16_write_file_ex (name data : list Z) (size stop_after_commit_record : Z)
    : dev_m unit :=
  let name_len := m16_strlen_bounded name M16_MAX_NAME in
  if (name_len =? 0) || (M16_MAX_NAME <=? name_len) then dfail M16_E_TOOLONG else
  if M16_BLOCK_SIZE <? size then dfail M16_E_INVAL else
  let! sb := m16_mount in
  let! ib := m16_read_block M16_INODE_BITMAP_LBA in
  let! bb := m16_read_block M16_BLOCK_BITMAP_LBA in
  let! inodes := m16_load_inode_table in
  let! dir := m16_read_block M16_ROOT_DIR_LBA in
  if 0 <=? m16_find_dirent dir name then dfail M16_E_EXISTS else
  let ino := m16_find_free_inode ib in
  if ino <? 0 then dfail ino else
  let data_block := m16_find_free_block bb in
  if data_block <? 0 then dfail data_block else
  let slot := m16_find_free_dirent dir in
  if slot <? 0 then dfail slot else
  let data_blk := m16_copy (m16_zero M16_BLOCK_SIZE) data size in
  let ib := m16_bitmap_set ib ino in
  let bb := m16_bitmap_set bb data_block in
  let inodes := set_inode inodes ino size data_block in
  let dir := set_dirent dir slot ino name name_len in
  let! tx := dlift (m16_tx_add [] M16_INODE_BITMAP_LBA ib) in
  let! tx := dlift (m16_tx_add tx M16_BLOCK_BITMAP_LBA bb) in
  let! tx := dlift (m16_store_inode_table tx inodes) in
  m16_journal_commit tx (u32 (sb_clean_generation sb + 1)) 0 ;!
  let! tx := dlift (m16_tx_add [] M16_ROOT_DIR_LBA dir) in
  let! tx := dlift (m16_tx_add tx data_block data_blk) in
  m16_journal_commit tx (u32 (sb_clean_generation sb + 2)) stop_after_commit_record.

Definition m16_write_file (name data : list Z) (size : Z) : dev_m unit :=
  m16_write_file_ex name data size 0.

(** [out] is the caller's buffer; the result is its new contents and
    [*out_size], or [None] when the copy leaves one of the two buffers. *)
Definition m16_read_file (name out : list Z) (out_cap : Z)
    : dev_m (option (list Z * Z)) :=
  m16_mount ;!
  let! inodes := m16_load_inode_table in
  let! dir := m16_read_block M16_ROOT_DIR_LBA in
  let slot := m16_find_dirent dir name in
  if slot <? 0 then dfail slot else
  let ino := de_ino slot dir in
  if (M16_MAX_INODES <=? ino) || (ino_used ino inodes =? 0)
     || negb (ino_kind ino inodes =? 1) then dfail M16_E_CORRUPT else
  (fun d =>
     if (out_cap <? ino_size ino inodes) || (total_blocks d <=? ino_direct0 ino inodes)
     then dfail M16_E_INVAL d else
     (let! blk := m16_read_block (ino_direct0 ino inodes) in
      dret (let* o := copy_loop (Z.to_nat (ino_size ino inodes)) out blk in
            Some (o, ino_size ino inodes))) d).

(** The directory loop of [m16_fsck], one entry. *)
Definition fsck_entry (total : Z) (ib bb inodes dir : list Z) (i : Z) : bool :=
  if de_used i dir =? 0 then true else
  let ino := de_ino i dir in
  if (M16_MAX_INODES <=? ino) || negb (m16_bitmap_get ib ino) then false else
  if (ino_used ino inodes =? 0) || negb (ino_kind ino inodes =? 1)
     || (M16_BLOCK_SIZE <? ino_size ino inodes) then false else
  negb ((ino_direct0 ino inodes <? M16_DATA_START_LBA)
        || (total <=? ino_direct0 ino inodes)
        || negb (m16_bitmap_get bb (ino_direct0 ino inodes))).

Definition m16_fsck : dev_m unit :=
  m16_mount ;!
  let! ib := m16_read_block M16_INODE_BITMAP_LBA in
  let! bb := m16_read_block M16_BLOCK_BITMAP_LBA in
  let! inodes := m16_load_inode_table in
  let! dir := m16_read_block M16_ROOT_DIR_LBA in
  if negb (m16_bitmap_get ib 0) || negb (ino_used 0 inodes =? 1)
     || negb (ino_kind 0 inodes =? 2)
     || negb (ino_direct0 0 inodes =? M16_ROOT_DIR_LBA) then dfail M16_E_CORRUPT else
  if negb (forallb (m16_bitmap_get bb) (seqZ 0 M16_DATA_START_LBA))
  then dfail M16_E_CORRUPT else
  (fun d =>
     if negb (forallb (fsck_entry (total_blocks d) ib bb inodes dir) (seqZ 0 DIRENTS))
     then dfail M16_E_CORRUPT d else dret tt d).
