(* ===== verification/JournalFsFacts.v ===== *)
(** * MCSFS1J: facts about the file system

    On a device whose journal is empty every operation is a function of the
    disk image; this file states those functions, proves that the operations
    compute them, and shows what one file creation changes. *)
From S2P Require Import Prelude Bitmap Journal JournalFacts JournalFs.

(** ** Strings *)

(** The C string stored in a buffer of at most [n] bytes. *)
Fixpoint cstr (n : nat) (s : list Z) : list Z :=
  match n, s with
  | S n, c :: s => if c =? 0 then [] else c :: cstr n s
  | _, _ => []
  end.

Lemma nthZ_cons c s i : 0 <= i -> nthZ (c :: s) (i + 1) = nthZ s i.
Proof. intros. unfold nthZ. by replace (Z.to_nat (i + 1)) with (S (Z.to_nat i)) by lia. Qed.

Lemma nthZ_nil i : nthZ [] i = 0.
Proof. unfold nthZ. by rewrite lookup_nil. Qed.

Lemma nthZ_0 c s : nthZ (c :: s) 0 = c.
Proof. done. Qed.

Lemma strlen_loop_shift fuel c s n :
  0 <= n -> strlen_loop fuel (c :: s) (n + 1) = strlen_loop fuel s n + 1.
Proof.
  revert n. induction fuel as [|fuel IH]; intros n Hn; cbn [strlen_loop]; [done|].
  rewrite nthZ_cons by done. case_if; [done|]. apply IH. lia.
Qed.

Lemma strlen_cstr n s : strlen_loop n s 0 = Z.of_nat (length (cstr n s)).
Proof.
  revert s. induction n as [|n IH]; intros [|c s]; cbn [strlen_loop cstr]; try done.
  rewrite nthZ_0. case_if; [done|].
  change (0 + 1) with (0 + 1). rewrite (strlen_loop_shift n c s 0) by lia.
  rewrite IH. cbn [length]. lia.
Qed.

Lemma streq_loop_shift fuel a s b t i :
  0 <= i -> streq_loop fuel (a :: s) (b :: t) (i + 1) = streq_loop fuel s t i.
Proof.
  revert i. induction fuel as [|fuel IH]; intros i Hi; cbn [streq_loop]; [done|].
  rewrite !nthZ_cons by done. repeat case_if; try done. apply IH. lia.
Qed.

Lemma streq_cstr n a b : streq_loop n a b 0 = bool_decide (cstr n a = cstr n b).
Proof.
  revert a b. induction n as [|n IH]; intros a b; cbn [streq_loop]; [by destruct a, b|].
  destruct a as [|x a], b as [|y b]; rewrite ?nthZ_nil, ?nthZ_0; cbn [cstr].
  - done.
  - rewrite (Z.eqb_sym y 0). destruct (Z.eqb_spec 0 y); [|rewrite Z.eqb_refl]; done.
  - destruct (Z.eqb_spec x 0); simpl; [|done]. done.
  - destruct (Z.eqb_spec x y) as [->|Hne]; simpl.
    + destruct (Z.eqb_spec y 0); [done|].
      rewrite (streq_loop_shift n y a y b 0) by lia. rewrite IH.
      apply bool_decide_ext. split; [by intros ->|by intros [=]].
    + symmetry. apply bool_decide_eq_false. repeat case_if; zbool; congruence.
Qed.

(** A name copied into a zeroed field reads back as the same string. *)
Lemma cstr_stored n m s :
  (length (cstr n s) < n)%nat -> (n <= m)%nat ->
  cstr n (take (length (cstr n s)) s ++ drop (length (cstr n s)) (replicate m 0)) = cstr n s.
Proof.
  revert m s. induction n as [|n IH]; intros m s; cbn [cstr]; [simpl; lia|].
  destruct m as [|m]; [lia|]. destruct s as [|c s]; cbn [cstr length].
  { done. }
  destruct (Z.eqb_spec c 0); cbn [length take drop app cstr]; [done|].
  intros. rewrite (proj2 (Z.eqb_neq _ _)) by done. cbn [replicate drop]. f_equal.
  apply IH; lia.
Qed.

Lemma cstr_take n s : take (length (cstr n s)) s = cstr n s.
Proof.
  revert s. induction n as [|n IH]; intros [|c s]; cbn [cstr]; try done.
  case_if; cbn [length take]; [done|]. by rewrite IH.
Qed.

(** ** Bitmaps *)

Lemma m16_bitmap_get_bm bm i : m16_bitmap_get bm i = bm_get bm i.
Proof.
  unfold m16_bitmap_get, bm_get, u8.
  rewrite wrap_id by apply shl1_byte, mod8_bounds.
  apply land_shl1_nonzero, mod8_bounds.
Qed.

Lemma m16_bitmap_set_bm bm i : Forall is_byte bm -> m16_bitmap_set bm i = bm_set bm i.
Proof.
  intros Hb. unfold m16_bitmap_set, bm_set, bm_upd, u8.
  rewrite (wrap_id 8 (1 .<< _)) by apply shl1_byte, mod8_bounds.
  rewrite wrap_id; [done|].
  apply lor_in_u; [lia|by apply nthZ_byte|apply shl1_byte, mod8_bounds].
Qed.

Lemma m16_bitmap_set_ok bm i : blk_ok bm -> blk_ok (m16_bitmap_set bm i).
Proof.
  intros [Hl Hb]. rewrite m16_bitmap_set_bm by done.
  split; [unfold bm_set; by rewrite length_bm_upd|by apply bm_set_bytes].
Qed.

Lemma m16_bitmap_get_set bm i j :
  blk_ok bm -> 0 <= i < 4096 -> 0 <= j ->
  m16_bitmap_get (m16_bitmap_set bm i) j = if i =? j then true else m16_bitmap_get bm j.
Proof.
  intros [Hl Hb] Hi Hj. rewrite m16_bitmap_set_bm, !m16_bitmap_get_bm by done.
  apply (bm_get_set bm 4096); [unfold bm_fits; lia|done..].
Qed.

(** ** The file system as a function of the image *)

Definition bl (bs : list (list Z)) (i : Z) : list Z := default [] (bs !! Z.to_nat i).

Definition img_ok (bs : list (list Z)) : Prop :=
  length bs = 128%nat /\ Forall blk_ok bs.

Definition img_ib bs := bl bs 18.
Definition img_bb bs := bl bs 19.
Definition img_raw bs := bl bs 20 ++ bl bs 21 ++ bl bs 22 ++ bl bs 23.
Definition img_dir bs := bl bs 24.

Definition super_ok (sb : list Z) : bool :=
  (sb_magic sb =? M16_MAGIC) && (sb_version sb =? M16_VERSION)
  && (sb_block_size sb =? M16_BLOCK_SIZE) && (sb_data_start_lba sb =? M16_DATA_START_LBA)
  && (sb_root_dir_lba sb =? M16_ROOT_DIR_LBA).

(** What [m16_fsck] checks. *)
Definition img_fsck (bs : list (list Z)) : bool :=
  super_ok (bl bs 0)
  && m16_bitmap_get (img_ib bs) 0 && (ino_used 0 (img_raw bs) =? 1)
  && (ino_kind 0 (img_raw bs) =? 2) && (ino_direct0 0 (img_raw bs) =? M16_ROOT_DIR_LBA)
  && forallb (m16_bitmap_get (img_bb bs)) (seqZ 0 M16_DATA_START_LBA)
  && forallb (fsck_entry 128 (img_ib bs) (img_bb bs) (img_raw bs) (img_dir bs))
       (seqZ 0 DIRENTS).

(** The lookup of a name: an error, or the file's size and its block. *)
Definition img_file (bs : list (list Z)) (name : list Z) : Z + (Z * Z) :=
  let slot := m16_find_dirent (img_dir bs) name in
  if slot <? 0 then inl slot else
  let ino := de_ino slot (img_dir bs) in
  if (M16_MAX_INODES <=? ino) || (ino_used ino (img_raw bs) =? 0)
     || negb (ino_kind ino (img_raw bs) =? 1) then inl M16_E_CORRUPT else
  inr (ino_size ino (img_raw bs), ino_direct0 ino (img_raw bs)).

Definition img_read (bs : list (list Z)) (name out : list Z) (cap : Z)
    : Z + option (list Z * Z) :=
  match img_file bs name with
  | inl rc => inl rc
  | inr (size, b) =>
      if (cap <? size) || (128 <=? b) then inl M16_E_INVAL else
      inr (let* o := copy_loop (Z.to_nat size) out (bl bs b) in Some (o, size))
  end.

(** The choices of [m16_write_file_ex]: inode, data block, directory slot. *)
Definition img_plan (bs : list (list Z)) (name : list Z) (size : Z) : Z + (Z * Z * Z) :=
  let name_len := m16_strlen_bounded name M16_MAX_NAME in
  if (name_len =? 0) || (M16_MAX_NAME <=? name_len) then inl M16_E_TOOLONG else
  if M16_BLOCK_SIZE <? size then inl M16_E_INVAL else
  if negb (super_ok (bl bs 0)) then inl M16_E_CORRUPT else
  if 0 <=? m16_find_dirent (img_dir bs) name then inl M16_E_EXISTS else
  let ino := m16_find_free_inode (img_ib bs) in
  if ino <? 0 then inl ino else
  let b := m16_find_free_block (img_bb bs) in
  if b <? 0 then inl b else
  let slot := m16_find_free_dirent (img_dir bs) in
  if slot <? 0 then inl slot else inr (ino, b, slot).

(** Its two transactions. *)
Definition meta_tx (bs : list (list Z)) (ino b size : Z) : m16_tx :=
  let raw := set_inode (img_raw bs) ino size b in
  [mk_jrec 18 (m16_bitmap_set (img_ib bs) ino); mk_jrec 19 (m16_bitmap_set (img_bb bs) b);
   mk_jrec 20 (table_block raw 0); mk_jrec 21 (table_block raw 1);
   mk_jrec 22 (table_block raw 2); mk_jrec 23 (table_block raw 3)].

Definition data_tx (bs : list (list Z)) (ino b slot : Z) (name data : list Z) (size : Z)
    : m16_tx :=
  [mk_jrec 24 (set_dirent (img_dir bs) slot ino name (m16_strlen_bounded name M16_MAX_NAME));
   mk_jrec b (m16_copy (m16_zero M16_BLOCK_SIZE) data size)].

Lemma dev_img_ok d : dev_ok d -> img_ok (blocks d).
Proof. by intros [? ? _]. Qed.

Lemma bl_ok bs i : img_ok bs -> 0 <= i < 128 -> blk_ok (bl bs i).
Proof.
  intros [Hl Hb] Hi. unfold bl.
  destruct (lookup_lt_is_Some_2 bs (Z.to_nat i)) as [x Hx]; [lia|].
  rewrite Hx. by eapply Forall_lookup_1 in Hx.
Qed.

Lemma read_bl d i :
  dev_ok d -> 0 <= i < 128 -> m16_read_block i d = (inr (bl (blocks d) i), d).
Proof. apply read_block_ok. Qed.

Lemma img_raw_ok bs :
  img_ok bs -> length (img_raw bs) = 2048%nat /\ Forall is_byte (img_raw bs).
Proof.
  intros H. unfold img_raw.
  destruct (bl_ok bs 20 H), (bl_ok bs 21 H), (bl_ok bs 22 H), (bl_ok bs 23 H); try lia.
  rewrite !length_app, !Forall_app. split; [lia|done].
Qed.

Lemma load_inode_table_ok d :
  dev_ok d -> m16_load_inode_table d = (inr (img_raw (blocks d)), d).
Proof.
  intros Hd. unfold m16_load_inode_table.
  change (Z.to_nat M16_INODE_TABLE_BLOCKS) with 4%nat. change M16_INODE_TABLE_LBA with 20.
  cbn [read_blocks]. unfold dbind. rewrite !read_bl by (done || lia). unfold dret.
  by rewrite app_nil_r.
Qed.

Lemma mount_clear d :
  dev_ok d -> j_clear (blocks d) ->
  m16_mount d = (if super_ok (bl (blocks d) 0) then inr (bl (blocks d) 0)
                 else inl M16_E_CORRUPT, d).
Proof.
  intros Hd Hc. unfold m16_mount. unfold dbind. rewrite recover_clear by done.
  rewrite read_bl by (done || lia). unfold super_ok.
  destruct (sb_magic _ =? _), (sb_version _ =? _), (sb_block_size _ =? _),
    (sb_data_start_lba _ =? _), (sb_root_dir_lba _ =? _); done.
Qed.

Lemma fsck_clear d :
  dev_ok d -> j_clear (blocks d) ->
  m16_fsck d = (if img_fsck (blocks d) then inr tt else inl M16_E_CORRUPT, d).
Proof.
  intros Hd Hc. unfold m16_fsck. unfold dbind at 1. rewrite mount_clear by done.
  unfold img_fsck. destruct (super_ok _); [|done].
  unfold dbind at 1 2.
  change M16_INODE_BITMAP_LBA with 18. change M16_BLOCK_BITMAP_LBA with 19.
  rewrite !read_bl by (done || lia). unfold dbind at 1.
  rewrite load_inode_table_ok by done. unfold dbind.
  change (m16_read_block M16_ROOT_DIR_LBA d) with (m16_read_block 24 d).
  rewrite read_bl by (done || lia).
  change (bl (blocks d) 18) with (img_ib (blocks d)).
  change (bl (blocks d) 19) with (img_bb (blocks d)).
  change (bl (blocks d) 24) with (img_dir (blocks d)).
  destruct (m16_bitmap_get (img_ib (blocks d)) 0), (ino_used 0 _ =? 1),
    (ino_kind 0 _ =? 2), (ino_direct0 0 _ =? _); try done. cbn [negb orb andb].
  destruct (forallb (m16_bitmap_get _) _); [|done]. cbn [negb andb].
  rewrite (dev_tot d Hd).
  destruct (forallb _ _); done.
Qed.

Lemma ino_direct0_bound bs ino :
  img_ok bs -> 0 <= ino < 16 -> 0 <= ino_direct0 ino (img_raw bs).
Proof.
  intros H Hi. destruct (img_raw_ok bs H) as [Hl Hb]. unfold ino_direct0.
  apply le_get_bound; [done|]. unfold inode_off. lia.
Qed.

Lemma find_dirent_Some dir name slot :
  m16_find_dirent dir name = slot -> 0 <= slot ->
  0 <= slot < 12 /\ de_used slot dir <> 0 /\ cstr 32 (de_name slot dir) = cstr 32 name.
Proof.
  unfold m16_find_dirent. change (Z.to_nat DIRENTS) with 12%nat.
  destruct (first_from _ _ _) as [i|] eqn:E; simpl; intros <- Hs; [|done].
  apply first_from_Some in E as (H1 & H2 & _). zbool. split; [lia|]. split; [done|].
  unfold m16_streq in H0. rewrite (streq_cstr 32) in H0. by apply bool_decide_eq_true in H0.
Qed.

Lemma de_ino_bound dir i :
  blk_ok dir -> 0 <= i < 12 -> 0 <= de_ino i dir.
Proof.
  intros [Hl Hb] Hi. unfold de_ino. apply le_get_bound; [done|]. unfold dirent_off. lia.
Qed.

Lemma read_file_clear d name out cap :
  dev_ok d -> j_clear (blocks d) -> super_ok (bl (blocks d) 0) = true ->
  m16_read_file name out cap d = (img_read (blocks d) name out cap, d).
Proof.
  intros Hd Hc Hs. unfold m16_read_file. unfold dbind at 1. rewrite mount_clear, Hs by done.
  unfold dbind at 1. rewrite load_inode_table_ok by done. unfold dbind at 1.
  change (m16_read_block M16_ROOT_DIR_LBA d) with (m16_read_block 24 d).
  rewrite read_bl by (done || lia). change (bl (blocks d) 24) with (img_dir (blocks d)).
  unfold img_read, img_file. destruct (_ <? 0) eqn:E; [done|].
  destruct ((_ <=? _) || _ || _) eqn:E2; [done|]. cbv beta. rewrite (dev_tot d Hd).
  destruct (_ || (128 <=? _)) eqn:E3; [done|]. unfold dbind. zbool.
  destruct (find_dirent_Some (img_dir (blocks d)) name _ eq_refl) as (Hslot & _); [done|].
  pose proof (dev_img_ok d Hd) as Hi. unfold M16_MAX_INODES in *.
  rewrite read_bl; [done|done|]. split; [apply ino_direct0_bound; [done|]|lia].
  split; [|done]. apply de_ino_bound; [|done]. by apply bl_ok.
Qed.

Lemma find_free_dirent_spec dir :
  0 <= m16_find_free_dirent dir ->
  0 <= m16_find_free_dirent dir < 12 /\ de_used (m16_find_free_dirent dir) dir = 0.
Proof.
  unfold m16_find_free_dirent. change (Z.to_nat DIRENTS) with 12%nat.
  destruct (first_from _ _ _) as [i|] eqn:E; simpl; intros Hs; [|done].
  apply first_from_Some in E as (H1 & H2 & _). zbool. split; [lia|done].
Qed.

Lemma find_free_inode_spec ib :
  0 <= m16_find_free_inode ib ->
  1 <= m16_find_free_inode ib < 16 /\ m16_bitmap_get ib (m16_find_free_inode ib) = false.
Proof.
  unfold m16_find_free_inode. change (Z.to_nat (M16_MAX_INODES - 1)) with 15%nat.
  destruct (first_from _ _ _) as [i|] eqn:E; simpl; intros Hs; [|done].
  apply first_from_Some in E as (H1 & H2 & _). zbool. split; [lia|done].
Qed.

Lemma find_free_block_spec bb :
  0 <= m16_find_free_block bb ->
  25 <= m16_find_free_block bb < 128 /\ m16_bitmap_get bb (m16_find_free_block bb) = false.
Proof.
  unfold m16_find_free_block.
  change (Z.to_nat (M16_MAX_BLOCKS - M16_DATA_START_LBA)) with 103%nat.
  change M16_DATA_START_LBA with 25.
  destruct (first_from _ _ _) as [i|] eqn:E; simpl; intros Hs; [|done].
  apply first_from_Some in E as (H1 & H2 & _). zbool. split; [lia|done].
Qed.

Lemma tx_add_ok tx lba b :
  (length tx < 8)%nat -> blk_ok b -> m16_tx_add tx lba b = inr (tx ++ [mk_jrec lba b]).
Proof.
  intros Hl [Hb _]. unfold m16_tx_add.
  rewrite (proj2 (Z.leb_gt _ _)) by (unfold M16_JOURNAL_MAX_RECORDS; lia).
  rewrite m16_copy_full; [done|done|simpl; lia].
Qed.

Lemma m16_copy_ok dst src n :
  0 <= n <= Z.of_nat (length src) -> n <= Z.of_nat (length dst) ->
  Forall is_byte src -> Forall is_byte dst ->
  length (m16_copy dst src n) = length dst /\ Forall is_byte (m16_copy dst src n).
Proof.
  intros. unfold m16_copy. rewrite length_app, length_take, length_drop, Forall_app.
  split; [lia|]. auto using Forall_take, Forall_drop.
Qed.

Lemma data_blk_ok data size :
  Forall is_byte data -> 0 <= size <= Z.of_nat (length data) -> size <= 512 ->
  blk_ok (m16_copy (m16_zero M16_BLOCK_SIZE) data size).
Proof.
  intros. apply m16_copy_ok; [done| |done|apply zero_is_byte].
  unfold m16_zero. rewrite length_replicate.
  change (Z.of_nat (Z.to_nat M16_BLOCK_SIZE)) with 512. done.
Qed.

Lemma strlen_bounded_cstr name :
  m16_strlen_bounded name M16_MAX_NAME = Z.of_nat (length (cstr 32 name)).
Proof. apply (strlen_cstr 32). Qed.

(** The name field that file creation stores. *)
Definition stored_name (name : list Z) : list Z :=
  m16_copy (m16_zero M16_MAX_NAME) name (m16_strlen_bounded name M16_MAX_NAME).

Lemma stored_name_ok name :
  Forall is_byte name -> length (stored_name name) = 32%nat /\ Forall is_byte (stored_name name).
Proof.
  intros Hb. unfold stored_name. rewrite strlen_bounded_cstr.
  assert (Hl : (length (cstr 32 name) <= 32)%nat).
  { clear. generalize 32%nat. intros n. revert name.
    induction n; intros [|c s]; simpl; try lia. case_if; simpl; [lia|].
    specialize (IHn s). lia. }
  assert (Hl2 : (length (cstr 32 name) <= length name)%nat).
  { rewrite <- (cstr_take 32 name) at 1. rewrite length_take. lia. }
  apply m16_copy_ok; [lia| |done|apply zero_is_byte].
  unfold m16_zero. rewrite length_replicate. change (Z.to_nat M16_MAX_NAME) with 32%nat. lia.
Qed.

Lemma set_dirent_ok dir slot ino name :
  blk_ok dir -> 0 <= slot < 12 -> Forall is_byte name ->
  blk_ok (set_dirent dir slot ino name (m16_strlen_bounded name M16_MAX_NAME)).
Proof.
  intros [Hl Hb] Hs Hn. destruct (stored_name_ok name Hn) as [Hsl Hsb].
  unfold set_dirent. fold (stored_name name). split.
  - rewrite length_splice; rewrite ?Hsl; unfold dirent_off; len_solve.
  - apply Forall_splice; auto with mcsos.
Qed.

Lemma store_table_ok tx raw :
  (length tx <= 4)%nat ->
  m16_store_inode_table tx raw
  = inr (tx ++ [mk_jrec 20 (table_block raw 0); mk_jrec 21 (table_block raw 1);
                mk_jrec 22 (table_block raw 2); mk_jrec 23 (table_block raw 3)]).
Proof.
  intros H. unfold m16_store_inode_table.
  rewrite (proj2 (Z.ltb_ge _ _)); [done|].
  unfold M16_INODE_TABLE_BLOCKS, M16_JOURNAL_MAX_RECORDS. lia.
Qed.

Lemma dlift_bind {A B} (x : A) (k : A -> dev_m B) d : dbind (dlift (inr x)) k d = k x d.
Proof. done. Qed.

Lemma write_file_clear d name data size stop :
  dev_ok d -> j_clear (blocks d) -> Forall is_byte name -> Forall is_byte data ->
  0 <= size <= Z.of_nat (length data) ->
  m16_write_file_ex name data size stop d
  = match img_plan (blocks d) name size with
    | inl rc => (inl rc, d)
    | inr (ino, b, slot) =>
        let gen := sb_clean_generation (bl (blocks d) 0) in
        (m16_journal_commit (meta_tx (blocks d) ino b size) (u32 (gen + 1)) 0 ;!
         m16_journal_commit (data_tx (blocks d) ino b slot name data size)
           (u32 (gen + 2)) stop) d
    end.
Proof.
  intros Hd Hc Hname Hdata Hsize. unfold m16_write_file_ex, img_plan.
  set (nl := m16_strlen_bounded name M16_MAX_NAME).
  destruct ((nl =? 0) || _) eqn:Enl; [done|].
  destruct (M16_BLOCK_SIZE <? size) eqn:Esz; [done|].
  unfold dbind at 1. rewrite mount_clear by done.
  destruct (super_ok _); [|done]. cbn [negb]. unfold dbind at 1 2.
  change M16_INODE_BITMAP_LBA with 18. change M16_BLOCK_BITMAP_LBA with 19.
  rewrite !read_bl by (done || lia). unfold dbind at 1.
  rewrite load_inode_table_ok by done. unfold dbind at 1.
  change (m16_read_block M16_ROOT_DIR_LBA d) with (m16_read_block 24 d).
  rewrite read_bl by (done || lia).
  change (bl (blocks d) 18) with (img_ib (blocks d)).
  change (bl (blocks d) 19) with (img_bb (blocks d)).
  change (bl (blocks d) 24) with (img_dir (blocks d)).
  destruct (0 <=? _); [done|].
  destruct (m16_find_free_inode _ <? 0); [done|].
  destruct (m16_find_free_block _ <? 0); [done|].
  destruct (m16_find_free_dirent _ <? 0) eqn:Eslot; [done|]. zbool.
  destruct (find_free_dirent_spec (img_dir (blocks d))) as [Hslot _]; [done|].
  pose proof (dev_img_ok d Hd) as Hi.
  rewrite (tx_add_ok [] 18) by (first [apply m16_bitmap_set_ok; by apply bl_ok | simpl; lia]).
  rewrite dlift_bind.
  rewrite (tx_add_ok _ 19) by (first [apply m16_bitmap_set_ok; by apply bl_ok | simpl; lia]).
  rewrite dlift_bind, store_table_ok by (simpl; lia). rewrite dlift_bind.
  apply dbind_ext; [done|intros _ d1].
  rewrite tx_add_ok;
    [|simpl; lia|apply set_dirent_ok; [by apply bl_ok|done|done]].
  rewrite dlift_bind, tx_add_ok; [done|simpl; lia|apply data_blk_ok; done].
Qed.

(** ** What one file creation changes *)

Lemma bl_insert bs i x j :
  0 <= i < Z.of_nat (length bs) -> 0 <= j ->
  bl (<[Z.to_nat i := x]> bs) j = if i =? j then x else bl bs j.
Proof.
  intros Hi Hj. unfold bl. destruct (Z.eqb_spec i j) as [->|Hne].
  - by rewrite list_lookup_insert_eq by lia.
  - by rewrite list_lookup_insert_ne by lia.
Qed.

Lemma img_ok_insert bs i x : img_ok bs -> blk_ok x -> img_ok (<[i := x]> bs).
Proof. intros [Hl Hb] Hx. split; [by rewrite length_insert|by apply Forall_insert]. Qed.

Lemma table_blocks_concat (raw : list Z) :
  length raw = 2048%nat ->
  table_block raw 0 ++ table_block raw 1 ++ table_block raw 2 ++ table_block raw 3 = raw.
Proof.
  intros Hl. unfold table_block, sub.
  change (Z.to_nat 0) with 0%nat. change (Z.to_nat 1) with 1%nat.
  change (Z.to_nat 2) with 2%nat. change (Z.to_nat 3) with 3%nat.
  change (512 * 0)%nat with 0%nat. change (512 * 1)%nat with 512%nat.
  change (512 * 2)%nat with (512 + 512)%nat. change (512 * 3)%nat with (512 + 512 + 512)%nat.
  rewrite <- !drop_drop, drop_0.
  rewrite (take_ge (drop 512 (drop 512 (drop 512 raw)))) by (rewrite !length_drop; lia).
  by rewrite !take_drop.
Qed.

Lemma table_block_ok raw i :
  length raw = 2048%nat -> Forall is_byte raw -> 0 <= i < 4 -> blk_ok (table_block raw i).
Proof.
  intros Hl Hb Hi. split; [apply length_sub; lia|by apply Forall_sub].
Qed.

Section set_inode.
Context (raw : list Z) (ino size b : Z).
Hypothesis Hl : length raw = 2048%nat.
Hypothesis Hino : 0 <= ino < 16.
Hypothesis Hsize : 0 <= size < 2 ^ 32.
Hypothesis Hb : 0 <= b < 2 ^ 32.

Lemma set_inode_ok :
  Forall is_byte raw ->
  length (set_inode raw ino size b) = 2048%nat
  /\ Forall is_byte (set_inode raw ino size b).
Proof.
  intros Hbytes. unfold set_inode. split; [|auto with mcsos].
  unfold inode_off. len_solve.
Qed.

Lemma set_inode_same :
  ino_used ino (set_inode raw ino size b) = 1 /\ ino_kind ino (set_inode raw ino size b) = 1
  /\ ino_size ino (set_inode raw ino size b) = size
  /\ ino_direct0 ino (set_inode raw ino size b) = b.
Proof.
  unfold ino_used, ino_kind, ino_size, ino_direct0, set_inode, inode_off.
  le_simpl. done.
Qed.

Lemma set_inode_other j :
  0 <= j < 16 -> j <> ino ->
  ino_used j (set_inode raw ino size b) = ino_used j raw
  /\ ino_kind j (set_inode raw ino size b) = ino_kind j raw
  /\ ino_size j (set_inode raw ino size b) = ino_size j raw
  /\ ino_direct0 j (set_inode raw ino size b) = ino_direct0 j raw.
Proof.
  intros Hj Hne.
  unfold ino_used, ino_kind, ino_size, ino_direct0, set_inode, inode_off.
  rewrite !le_get_put_other by first [solve [len_solve] | lia]. done.
Qed.
End set_inode.

Section set_dirent.
Context (dir name : list Z) (slot ino : Z).
Hypothesis Hdir : blk_ok dir.
Hypothesis Hslot : 0 <= slot < 12.
Hypothesis Hino : 0 <= ino < 16.
Hypothesis Hname : Forall is_byte name.

Let dir' := set_dirent dir slot ino name (m16_strlen_bounded name M16_MAX_NAME).

Lemma set_dirent_same :
  de_used slot dir' = 1 /\ de_ino slot dir' = ino /\ de_name slot dir' = stored_name name.
Proof.
  destruct (stored_name_ok name Hname) as [Hsl _]. destruct Hdir as [Hl _].
  unfold dir', set_dirent, de_used, de_ino, de_name. fold (stored_name name).
  unfold dirent_off. split_all.
  - unfold le_get at 1. rewrite sub_splice_other by first [rewrite Hsl; len_solve | lia].
    fold (le_get (40 * Z.to_nat slot + 0) 4 (le_put (40 * Z.to_nat slot + 4) 4 ino
      (le_put (40 * Z.to_nat slot + 0) 4 1 dir))). le_simpl. done.
  - unfold le_get at 1. rewrite sub_splice_other by first [rewrite Hsl; len_solve | lia].
    fold (le_get (40 * Z.to_nat slot + 4) 4 (le_put (40 * Z.to_nat slot + 4) 4 ino
      (le_put (40 * Z.to_nat slot + 0) 4 1 dir))). le_simpl. done.
  - apply sub_splice_same; [rewrite Hsl; len_solve|done].
Qed.

Lemma set_dirent_other i :
  0 <= i < 12 -> i <> slot ->
  de_used i dir' = de_used i dir /\ de_ino i dir' = de_ino i dir
  /\ de_name i dir' = de_name i dir.
Proof.
  intros Hi Hne. destruct (stored_name_ok name Hname) as [Hsl _]. destruct Hdir as [Hl _].
  unfold dir', set_dirent, de_used, de_ino, de_name. fold (stored_name name).
  unfold dirent_off, le_get, le_put.
  rewrite !sub_splice_other by
    (rewrite ?Hsl, ?length_le_bytes;
     first [solve [len_solve] | rewrite ?length_splice; rewrite ?length_le_bytes, ?Hl; lia | lia]).
  done.
Qed.
End set_dirent.

Record plan_ok (bs : list (list Z)) (name : list Z) (size ino b slot : Z) : Prop := {
  pl_name : (0 < length (cstr 32 name) < 32)%nat;
  pl_size : size <= 512;
  pl_super : super_ok (bl bs 0) = true;
  pl_fresh : m16_find_dirent (img_dir bs) name < 0;
  pl_ino : 1 <= ino < 16;
  pl_ino_free : m16_bitmap_get (img_ib bs) ino = false;
  pl_b : 25 <= b < 128;
  pl_b_free : m16_bitmap_get (img_bb bs) b = false;
  pl_slot : 0 <= slot < 12;
  pl_slot_free : de_used slot (img_dir bs) = 0
}.

Lemma img_plan_spec bs name size ino b slot :
  img_plan bs name size = inr (ino, b, slot) -> plan_ok bs name size ino b slot.
Proof.
  unfold img_plan. rewrite strlen_bounded_cstr.
  intros H. repeat case_if_in H; try done. simplify_eq. zbool.
  destruct (find_free_dirent_spec (img_dir bs)) as [? ?]; [done|].
  destruct (find_free_inode_spec (img_ib bs)) as [? ?]; [done|].
  destruct (find_free_block_spec (img_bb bs)) as [? ?]; [done|].
  unfold M16_MAX_NAME, M16_BLOCK_SIZE in *. split; try done; lia.
Qed.

Lemma fsck_entry_used total ib bb raw dir i :
  fsck_entry total ib bb raw dir i = true -> de_used i dir <> 0 ->
  de_ino i dir < 16 /\ m16_bitmap_get ib (de_ino i dir) = true
  /\ ino_used (de_ino i dir) raw <> 0 /\ ino_kind (de_ino i dir) raw = 1
  /\ ino_size (de_ino i dir) raw <= 512
  /\ 25 <= ino_direct0 (de_ino i dir) raw < total
  /\ m16_bitmap_get bb (ino_direct0 (de_ino i dir) raw) = true.
Proof.
  unfold fsck_entry. intros H Hu. rewrite (proj2 (Z.eqb_neq _ _)) in H by done.
  repeat case_if_in H; try done. zbool.
  unfold M16_MAX_INODES, M16_BLOCK_SIZE in *. change M16_DATA_START_LBA with 25 in *.
  split_all; done || lia.
Qed.

Lemma fsck_entry_intro total ib bb raw dir i :
  (de_used i dir <> 0 ->
   de_ino i dir < 16 /\ m16_bitmap_get ib (de_ino i dir) = true
   /\ ino_used (de_ino i dir) raw <> 0 /\ ino_kind (de_ino i dir) raw = 1
   /\ ino_size (de_ino i dir) raw <= 512
   /\ 25 <= ino_direct0 (de_ino i dir) raw < total
   /\ m16_bitmap_get bb (ino_direct0 (de_ino i dir) raw) = true) ->
  fsck_entry total ib bb raw dir i = true.
Proof.
  intros H. unfold fsck_entry. destruct (Z.eqb_spec (de_used i dir) 0) as [|Hu]; [done|].
  destruct (H Hu) as (H1 & -> & H2 & -> & H3 & H4 & ->).
  change M16_DATA_START_LBA with 25. unfold M16_MAX_INODES, M16_BLOCK_SIZE.
  rewrite (proj2 (Z.leb_gt 16 _)), (proj2 (Z.eqb_neq _ 0)), (proj2 (Z.ltb_ge 512 _)),
    (proj2 (Z.ltb_ge _ 25)), (proj2 (Z.leb_gt total _)) by lia. done.
Qed.

Lemma img_fsck_parts bs0 :
  img_fsck bs0 = true <->
  super_ok (bl bs0 0) = true /\ m16_bitmap_get (img_ib bs0) 0 = true
  /\ ino_used 0 (img_raw bs0) = 1 /\ ino_kind 0 (img_raw bs0) = 2
  /\ ino_direct0 0 (img_raw bs0) = 24
  /\ (forall i, 0 <= i < 25 -> m16_bitmap_get (img_bb bs0) i = true)
  /\ (forall i, 0 <= i < 12 ->
        fsck_entry 128 (img_ib bs0) (img_bb bs0) (img_raw bs0) (img_dir bs0) i = true).
Proof.
  unfold img_fsck. rewrite !andb_true_iff, !Z.eqb_eq, !forallb_forall.
  change M16_ROOT_DIR_LBA with 24. change M16_DATA_START_LBA with 25. change DIRENTS with 12.
  setoid_rewrite <- list_elem_of_In. setoid_rewrite elem_of_seqZ.
  change (0 + 25) with 25. change (0 + 12) with 12. tauto.
Qed.

Definition meta_img (bs : list (list Z)) (ino b size : Z) : list (list Z) :=
  apply_writes bs (home_writes (meta_tx bs ino b size)).
Definition data_img (bs : list (list Z)) (ino b slot : Z) (name data : list Z) (size : Z)
    : list (list Z) :=
  apply_writes (meta_img bs ino b size)
    (home_writes (data_tx bs ino b slot name data size)).

Section create.
Context (bs : list (list Z)) (name data : list Z) (size ino b slot : Z).
Hypothesis Himg : img_ok bs.
Hypothesis Hfsck : img_fsck bs = true.
Hypothesis Hplan : plan_ok bs name size ino b slot.
Hypothesis Hname : Forall is_byte name.
Hypothesis Hdata : Forall is_byte data.
Hypothesis Hsize : 0 <= size <= Z.of_nat (length data).

Let raw' := set_inode (img_raw bs) ino size b.
Let dir' := set_dirent (img_dir bs) slot ino name (m16_strlen_bounded name M16_MAX_NAME).
Let blk := m16_copy (m16_zero M16_BLOCK_SIZE) data size.

Lemma raw'_ok : length raw' = 2048%nat /\ Forall is_byte raw'.
Proof.
  destruct (img_raw_ok bs Himg), Hplan. apply set_inode_ok; [done|lia..|done].
Qed.

Lemma meta_tx_ok : tx_ok (meta_tx bs ino b size).
Proof.
  destruct raw'_ok as [Hl Hb]. split; [|simpl; lia].
  repeat (apply Forall_cons; split); [..|by apply Forall_nil];
    (split; [split; [simpl; lia|cbn [snd]]|unfold journal_lba; simpl; lia]).
  1, 2: apply m16_bitmap_set_ok; by apply bl_ok.
  all: apply table_block_ok; [done|done|lia].
Qed.

Lemma data_tx_ok : tx_ok (data_tx bs ino b slot name data size).
Proof.
  destruct Hplan. split; [|simpl; lia].
  apply Forall_cons; split; [|apply Forall_cons; split; [|by apply Forall_nil]];
    (split; [split; [simpl; lia|cbn [snd payload]]|unfold journal_lba; simpl; lia]).
  - apply set_dirent_ok; [by apply bl_ok|done..].
  - by apply data_blk_ok.
Qed.

(** The blocks of the image after the first transaction. *)
Lemma meta_img_blocks :
  img_ok (meta_img bs ino b size)
  /\ img_ib (meta_img bs ino b size) = m16_bitmap_set (img_ib bs) ino
  /\ img_bb (meta_img bs ino b size) = m16_bitmap_set (img_bb bs) b
  /\ img_raw (meta_img bs ino b size) = raw'
  /\ (forall i, 0 <= i < 128 -> i < 18 \/ 24 <= i ->
      bl (meta_img bs ino b size) i = bl bs i).
Proof.
  pose proof Himg as [Hl _].
  unfold meta_img, meta_tx, home_writes, apply_writes. cbn [fmap list_fmap foldl fst snd target_lba payload].
  split_all.
  - repeat (apply img_ok_insert; [|first
      [ apply m16_bitmap_set_ok; by apply bl_ok
      | destruct raw'_ok; apply table_block_ok; [done|done|lia] ]]). done.
  - unfold img_ib at 1. rewrite !bl_insert by (rewrite ?length_insert; lia). done.
  - unfold img_bb at 1. rewrite !bl_insert by (rewrite ?length_insert; lia). done.
  - unfold img_raw at 1. rewrite !bl_insert by (rewrite ?length_insert; lia).
    apply table_blocks_concat, raw'_ok.
  - intros i Hi Hr. rewrite !bl_insert by (rewrite ?length_insert; lia).
    repeat (rewrite (proj2 (Z.eqb_neq _ i)) by lia). done.
Qed.

(** After the second. *)
Lemma data_img_blocks :
  let bs2 := data_img bs ino b slot name data size in
  img_ok bs2
  /\ img_ib bs2 = m16_bitmap_set (img_ib bs) ino
  /\ img_bb bs2 = m16_bitmap_set (img_bb bs) b
  /\ img_raw bs2 = raw' /\ img_dir bs2 = dir' /\ bl bs2 b = blk
  /\ (forall i, 0 <= i < 128 -> i < 18 \/ 25 <= i -> i <> b -> bl bs2 i = bl bs i).
Proof.
  destruct meta_img_blocks as (Hok & Hib & Hbb & Hraw & Hrest).
  destruct Hplan, data_tx_ok as [Htx _].
  apply Forall_cons in Htx as [[[_ Hd] _] Htx]. apply Forall_cons in Htx as [[[_ Hb] _] _].
  pose proof Hok as [Hl _].
  assert (Hbl : forall i, 0 <= i -> bl (data_img bs ino b slot name data size) i
            = if b =? i then blk else if 24 =? i then dir'
              else bl (meta_img bs ino b size) i).
  { intros i Hi. unfold data_img, data_tx, home_writes.
    cbn [fmap list_fmap apply_writes foldl fst snd target_lba payload].
    rewrite !bl_insert by (rewrite ?length_insert; lia). done. }
  assert (Hne : forall i, i < 25 -> (b =? i) = false) by (intros; apply Z.eqb_neq; lia).
  cbv zeta. split_all.
  - unfold data_img, data_tx, home_writes. apply img_ok_insert; [|exact Hb].
    by apply img_ok_insert.
  - unfold img_ib at 1. rewrite Hbl, Hne by lia. exact Hib.
  - unfold img_bb at 1. rewrite Hbl, Hne by lia. exact Hbb.
  - unfold img_raw at 1. rewrite !Hbl, !Hne by lia. exact Hraw.
  - unfold img_dir at 1. rewrite Hbl, Hne by lia. done.
  - rewrite Hbl, Z.eqb_refl by lia. done.
  - intros i Hi Hr Hib'. rewrite Hbl by lia.
    rewrite (proj2 (Z.eqb_neq b i)), (proj2 (Z.eqb_neq 24 i)) by lia. apply Hrest; lia.
Qed.

(** An entry in use does not meet the inode and block chosen for the new file. *)
Lemma used_entry i :
  0 <= i < 12 -> de_used i (img_dir bs) <> 0 ->
  let n := de_ino i (img_dir bs) in
  0 <= n < 16 /\ n <> ino /\ m16_bitmap_get (img_ib bs) n = true
  /\ ino_used n (img_raw bs) <> 0 /\ ino_kind n (img_raw bs) = 1
  /\ ino_size n (img_raw bs) <= 512
  /\ 25 <= ino_direct0 n (img_raw bs) < 128 /\ ino_direct0 n (img_raw bs) <> b
  /\ m16_bitmap_get (img_bb bs) (ino_direct0 n (img_raw bs)) = true.
Proof.
  intros Hi Hu. apply img_fsck_parts in Hfsck as (_ & _ & _ & _ & _ & _ & He).
  specialize (He i Hi).
  apply fsck_entry_used in He as (H1 & H2 & H3 & H4 & H5 & H6 & H7); [|done].
  assert (0 <= de_ino i (img_dir bs)) by (apply de_ino_bound; [by apply bl_ok|done]).
  destruct Hplan. cbv zeta. split_all; try done; try lia; congruence.
Qed.

Lemma used_entry_after i :
  0 <= i < 12 -> de_used i (img_dir bs) <> 0 ->
  let n := de_ino i (img_dir bs) in
  ino_used n raw' = ino_used n (img_raw bs) /\ ino_kind n raw' = ino_kind n (img_raw bs)
  /\ ino_size n raw' = ino_size n (img_raw bs)
  /\ ino_direct0 n raw' = ino_direct0 n (img_raw bs).
Proof.
  intros Hi Hu. destruct (used_entry i Hi Hu) as (H1 & H2 & _). cbv zeta.
  destruct Hplan, (img_raw_ok bs Himg). apply set_inode_other; done || lia.
Qed.

Lemma ib_after n :
  0 <= n -> m16_bitmap_get (img_ib bs) n = true ->
  m16_bitmap_get (m16_bitmap_set (img_ib bs) ino) n = true.
Proof.
  intros Hn H. destruct Hplan.
  rewrite m16_bitmap_get_set by (try lia; by apply bl_ok). by destruct (ino =? n).
Qed.

Lemma bb_after n :
  0 <= n -> m16_bitmap_get (img_bb bs) n = true ->
  m16_bitmap_get (m16_bitmap_set (img_bb bs) b) n = true.
Proof.
  intros Hn H. destruct Hplan.
  rewrite m16_bitmap_get_set by (try lia; by apply bl_ok). by destruct (b =? n).
Qed.

(** The check passes on any image with the new bitmaps and inode table whose
    directory entries are old ones or the new one. *)
Lemma fsck_after bs' :
  bl bs' 0 = bl bs 0 ->
  img_ib bs' = m16_bitmap_set (img_ib bs) ino -> img_bb bs' = m16_bitmap_set (img_bb bs) b ->
  img_raw bs' = raw' ->
  (forall i, 0 <= i < 12 ->
     (de_used i (img_dir bs') = de_used i (img_dir bs)
      /\ de_ino i (img_dir bs') = de_ino i (img_dir bs))
     \/ de_ino i (img_dir bs') = ino) ->
  img_fsck bs' = true.
Proof.
  intros H0 Hib Hbb Hraw Hdir. pose proof Hfsck as Hf.
  apply img_fsck_parts in Hf as (F1 & F2 & F3 & F4 & F5 & F6 & _). pose proof Hplan as [].
  destruct (img_raw_ok bs Himg) as [Hrl _].
  destruct (set_inode_other (img_raw bs) ino size b Hrl ltac:(lia) 0) as (E1 & E2 & E3 & E4);
    [lia..|].
  apply img_fsck_parts. rewrite H0, Hib, Hbb, Hraw. fold raw' in E1, E2, E4. rewrite E1, E2, E4.
  split_all; try done.
  - by apply ib_after.
  - intros i Hi. apply bb_after; [lia|auto].
  - intros i Hi. apply fsck_entry_intro. intros Hu. destruct (Hdir i Hi) as [[Eu Ei]|Ei].
    + rewrite Eu in Hu. rewrite Ei. destruct (used_entry i Hi Hu) as (U1 & U2 & U3 & U4 & U5 & U6 & U7 & U8 & U9).
      destruct (used_entry_after i Hi Hu) as (-> & -> & -> & ->).
      split_all; try done; try lia; [apply ib_after|apply bb_after]; done || lia.
    + rewrite Ei. unfold raw'.
      destruct (set_inode_same (img_raw bs) ino size b Hrl) as (-> & -> & -> & ->); [lia..|].
      split_all; try done; try lia;
        rewrite m16_bitmap_get_set by (try lia; by apply bl_ok); by rewrite Z.eqb_refl.
Qed.

Lemma dir'_same :
  de_used slot dir' = 1 /\ de_ino slot dir' = ino /\ cstr 32 (de_name slot dir') = cstr 32 name.
Proof.
  pose proof Hplan as [].
  destruct (set_dirent_same (img_dir bs) name slot ino) as (E1 & E2 & E3);
    [by apply bl_ok|done|lia|done|].
  unfold dir'. rewrite E3. split; [done|]. split; [done|].
  unfold stored_name. rewrite strlen_bounded_cstr. unfold m16_copy. rewrite Nat2Z.id.
  apply (cstr_stored 32 32); lia.
Qed.

Lemma dir'_other i :
  0 <= i < 12 -> i <> slot ->
  de_used i dir' = de_used i (img_dir bs) /\ de_ino i dir' = de_ino i (img_dir bs)
  /\ de_name i dir' = de_name i (img_dir bs).
Proof.
  pose proof Hplan as []. apply set_dirent_other; [by apply bl_ok|done|done].
Qed.

Lemma meta_img_fsck : img_fsck (meta_img bs ino b size) = true.
Proof.
  destruct meta_img_blocks as (_ & Hib & Hbb & Hraw & Hrest).
  apply fsck_after; try done; [apply Hrest; lia|].
  intros i Hi. left. unfold img_dir. rewrite Hrest by lia. done.
Qed.

Lemma data_img_fsck : img_fsck (data_img bs ino b slot name data size) = true.
Proof.
  destruct data_img_blocks as (_ & Hib & Hbb & Hraw & Hdir & _ & Hrest).
  pose proof Hplan as [].
  apply fsck_after; try done; [apply Hrest; lia|].
  intros i Hi. rewrite Hdir. destruct (decide (i = slot)) as [->|Hne].
  - right. apply dir'_same.
  - left. by destruct (dir'_other i) as (? & ? & _).
Qed.

(** Lookups of existing names are not affected by the new bitmaps and inode. *)
Lemma file_after bs' nm :
  img_raw bs' = raw' -> m16_find_dirent (img_dir bs') nm = m16_find_dirent (img_dir bs) nm ->
  (0 <= m16_find_dirent (img_dir bs) nm ->
   de_ino (m16_find_dirent (img_dir bs) nm) (img_dir bs')
   = de_ino (m16_find_dirent (img_dir bs) nm) (img_dir bs)) ->
  img_file bs' nm = img_file bs nm.
Proof.
  intros Hraw Hf Hi. unfold img_file. rewrite Hf.
  destruct (Z.ltb_spec (m16_find_dirent (img_dir bs) nm) 0); [done|].
  rewrite Hi by done.
  destruct (find_dirent_Some (img_dir bs) nm _ eq_refl) as (Hs & Hu & _); [done|].
  rewrite Hraw. destruct (used_entry_after _ Hs Hu) as (-> & -> & -> & ->). done.
Qed.

(** The block of an existing file is neither metadata nor the new block. *)
Lemma file_block nm sz blk0 :
  img_file bs nm = inr (sz, blk0) -> 25 <= blk0 < 128 /\ blk0 <> b /\ 0 <= sz <= 512.
Proof.
  unfold img_file. intros H. repeat case_if_in H; try done. simplify_eq. zbool.
  destruct (find_dirent_Some (img_dir bs) nm _ eq_refl) as (Hs & Hu & _); [done|].
  destruct (used_entry _ Hs Hu) as (U1 & U2 & U3 & U4 & U5 & U6 & U7 & U8 & U9).
  split_all; try done; try lia. destruct (img_raw_ok bs Himg) as [Hl Hb].
  apply le_get_bound; [done|]. unfold inode_off. lia.
Qed.

Lemma read_after bs' nm out cap :
  img_file bs' nm = img_file bs nm ->
  (forall i, 25 <= i < 128 -> i <> b -> bl bs' i = bl bs i) ->
  img_read bs' nm out cap = img_read bs nm out cap.
Proof.
  intros Hf Hb. unfold img_read. rewrite Hf. destruct (img_file bs nm) as [|[sz b0]] eqn:E; [done|].
  apply file_block in E as (E1 & E2 & _). rewrite Hb by done. done.
Qed.

Lemma meta_img_read nm out cap :
  img_read (meta_img bs ino b size) nm out cap = img_read bs nm out cap.
Proof.
  destruct meta_img_blocks as (_ & _ & _ & Hraw & Hrest).
  assert (Hd : img_dir (meta_img bs ino b size) = img_dir bs) by (apply Hrest; lia).
  apply read_after; [|intros; apply Hrest; lia].
  apply file_after; [done| |]; by rewrite Hd.
Qed.

Lemma find_dirent_other nm :
  cstr 32 nm <> cstr 32 name -> m16_find_dirent dir' nm = m16_find_dirent (img_dir bs) nm.
Proof.
  intros Hne. unfold m16_find_dirent.
  apply (f_equal (default M16_E_NOENT)), first_from_ext. intros i Hi.
  change (Z.of_nat (Z.to_nat DIRENTS)) with 12 in Hi. pose proof Hplan as [].
  destruct (decide (i = slot)) as [->|Hi'].
  - destruct dir'_same as (E1 & _ & E3). rewrite E1, pl_slot_free0. cbn [Z.eqb negb andb].
    unfold m16_streq. rewrite (streq_cstr 32), E3. apply bool_decide_eq_false. congruence.
  - destruct (dir'_other i) as (E1 & _ & E3); [lia|done|]. by rewrite E1, E3.
Qed.

Lemma find_dirent_new : m16_find_dirent dir' name = slot.
Proof.
  pose proof Hplan as []. unfold m16_find_dirent.
  rewrite (first_from_unique _ _ _ slot); [done| | |].
  - change (Z.of_nat (Z.to_nat DIRENTS)) with 12. lia.
  - destruct dir'_same as (E1 & _ & E3). rewrite E1. cbn [Z.eqb negb andb].
    unfold m16_streq. rewrite (streq_cstr 32), E3. by apply bool_decide_eq_true.
  - intros j Hj Hne. change (Z.of_nat (Z.to_nat DIRENTS)) with 12 in Hj.
    destruct (dir'_other j) as (E1 & _ & E3); [lia|done|]. rewrite E1, E3.
    revert pl_fresh0. unfold m16_find_dirent. destruct (first_from _ _ _) as [k|] eqn:E; simpl.
    + apply first_from_Some in E as (E & _). lia.
    + intros _. by apply (proj1 (first_from_None _ _ _) E).
Qed.

Lemma data_img_read_other nm out cap :
  cstr 32 nm <> cstr 32 name ->
  img_read (data_img bs ino b slot name data size) nm out cap = img_read bs nm out cap.
Proof.
  intros Hne. destruct data_img_blocks as (_ & _ & _ & Hraw & Hdir & _ & Hrest).
  apply read_after; [|intros; apply Hrest; lia].
  pose proof (find_dirent_other nm Hne) as Hf.
  apply file_after; [done| |]; rewrite Hdir; [done|]. intros Hs.
  destruct (find_dirent_Some (img_dir bs) nm _ eq_refl Hs) as (Hr & Hu & _).
  apply dir'_other; [done|]. pose proof Hplan as []. congruence.
Qed.

Lemma data_img_read_new out cap :
  size <= cap -> size <= Z.of_nat (length out) ->
  img_read (data_img bs ino b slot name data size) name out cap
  = inr (Some (take (Z.to_nat size) data ++ drop (Z.to_nat size) out, size)).
Proof.
  intros Hcap Hout.
  destruct data_img_blocks as (_ & _ & _ & Hraw & Hdir & Hblk & _). pose proof Hplan as [].
  destruct (img_raw_ok bs Himg) as [Hrl _].
  assert (Hf : img_file (data_img bs ino b slot name data size) name = inr (size, b)).
  { unfold img_file. rewrite Hdir, find_dirent_new, Hraw.
    rewrite (proj2 (Z.ltb_ge slot 0)) by lia.
    destruct dir'_same as (_ & -> & _). unfold raw'.
    destruct (set_inode_same (img_raw bs) ino size b Hrl) as (-> & -> & -> & ->); [lia..|].
    unfold M16_MAX_INODES. rewrite (proj2 (Z.leb_gt 16 ino)) by lia. done. }
  unfold img_read. rewrite Hf, Hblk.
  rewrite (proj2 (Z.ltb_ge cap size)), (proj2 (Z.leb_gt 128 b)) by lia. cbn [orb].
  assert (Hbl : blk_ok blk) by (by apply data_blk_ok).
  rewrite copy_loop_spec; [|lia|destruct Hbl as [-> _]; lia].
  unfold blk, m16_copy. rewrite take_app_le by (rewrite length_take; lia).
  by rewrite take_take, Nat.min_id.
Qed.

(** Before the second transaction the new name does not exist. *)
Lemma old_read_new out cap : img_read bs name out cap = inl M16_E_NOENT.
Proof.
  pose proof Hplan as []. unfold img_read, img_file. revert pl_fresh0.
  unfold m16_find_dirent. destruct (first_from _ _ _) as [k|] eqn:E; simpl; [|done].
  apply first_from_Some in E as (E & _). lia.
Qed.

End create.

(** ** Images that agree outside the journal *)

Lemma bl_same bs bs' i :
  same_data bs bs' -> 0 <= i -> i = 0 \/ 18 <= i -> bl bs i = bl bs' i.
Proof. intros H Hi Hr. unfold bl. rewrite H; [done|]. unfold journal_lba. lia. Qed.

Lemma img_fsck_same bs bs' : same_data bs bs' -> img_fsck bs = img_fsck bs'.
Proof.
  intros H. unfold img_fsck, img_ib, img_bb, img_raw, img_dir.
  rewrite !(bl_same bs bs') by (done || lia). done.
Qed.

Lemma img_file_same bs bs' nm : same_data bs bs' -> img_file bs nm = img_file bs' nm.
Proof.
  intros H. unfold img_file, img_raw, img_dir.
  rewrite !(bl_same bs bs') by (done || lia). done.
Qed.

(** On a checked image a file's block is a data block and its size fits. *)
Lemma img_file_range bs nm sz b :
  img_ok bs -> img_fsck bs = true -> img_file bs nm = inr (sz, b) ->
  25 <= b < 128 /\ 0 <= sz <= 512.
Proof.
  intros Hi Hf. unfold img_file. intros H. repeat case_if_in H; try done. simplify_eq. zbool.
  destruct (find_dirent_Some (img_dir bs) nm _ eq_refl) as (Hs & Hu & _); [done|].
  apply img_fsck_parts in Hf as (_ & _ & _ & _ & _ & _ & He). specialize (He _ Hs).
  apply fsck_entry_used in He as (H1' & H2 & H3 & H4 & H5 & H6 & H7); [|done].
  split; [done|]. split; [|done]. destruct (img_raw_ok bs Hi) as [Hl Hb].
  assert (0 <= de_ino (m16_find_dirent (img_dir bs) nm) (img_dir bs))
    by (apply de_ino_bound; [by apply bl_ok|done]).
  apply le_get_bound; [done|]. unfold inode_off. lia.
Qed.

Lemma img_read_same bs bs' nm out cap :
  same_data bs bs' -> img_ok bs -> img_fsck bs = true ->
  img_read bs nm out cap = img_read bs' nm out cap.
Proof.
  intros H Hi Hf. unfold img_read. rewrite <- (img_file_same bs bs') by done.
  destruct (img_file bs nm) as [|[sz b]] eqn:E; [done|].
  apply img_file_range in E as [Hb _]; [|done..].
  rewrite (bl_same bs bs') by (done || lia). done.
Qed.

Lemma img_plan_same bs bs' nm sz : same_data bs bs' -> img_plan bs nm sz = img_plan bs' nm sz.
Proof.
  intros H. unfold img_plan, img_ib, img_bb, img_dir.
  rewrite !(bl_same bs bs') by (done || lia). done.
Qed.

(** ** File creation under fault injection *)

Lemma write_crash d name data size ino b slot :
  dev_ok d -> j_clear (blocks d) -> img_fsck (blocks d) = true ->
  Forall is_byte name -> Forall is_byte data -> 0 <= size <= Z.of_nat (length data) ->
  img_plan (blocks d) name size = inr (ino, b, slot) ->
  exists r d', m16_write_file name data size d = (r, d') /\ dev_ok d'
    /\ (represents (blocks d') (blocks d)
        \/ represents (blocks d') (meta_img (blocks d) ino b size)
        \/ represents (blocks d') (data_img (blocks d) ino b slot name data size))
    /\ (r = inr tt -> represents (blocks d') (data_img (blocks d) ino b slot name data size)
                      /\ j_clear (blocks d'))
    /\ (fail_after d < 0 -> r = inr tt /\ fail_after d' = fail_after d)
    /\ (r = inr tt \/ r = inl M16_E_IO).
Proof.
  intros Hd Hc Hf Hn Hdt Hsz Hplan. pose proof (dev_img_ok d Hd) as Hi.
  pose proof (img_plan_spec _ _ _ _ _ _ Hplan) as Hok.
  unfold m16_write_file. rewrite write_file_clear by done. rewrite Hplan. cbv zeta.
  set (gen := sb_clean_generation _). unfold dbind.
  destruct (commit_crash d (meta_tx (blocks d) ino b size) (u32 (gen + 1)) Hd Hc)
    as (r1 & d1 & -> & Hd1 & Hr1 & Hs1 & Hn1 & Hrc1).
  { eapply meta_tx_ok; eauto; apply Hsz. }
  change (apply_writes (blocks d) (home_writes (meta_tx (blocks d) ino b size)))
    with (meta_img (blocks d) ino b size) in *.
  destruct r1 as [rc|[]].
  { exists (inl rc), d1. split; [done|]. split; [done|]. split.
    - destruct (before_commit _ _); tauto.
    - split; [done|]. split; [intros Hneg; by destruct (Hn1 Hneg)|]. naive_solver. }
  destruct (Hs1 eq_refl) as [Hc1 Hsd1].
  destruct (commit_crash d1 (data_tx (blocks d) ino b slot name data size) (u32 (gen + 2)) Hd1 Hc1)
    as (r2 & d2 & -> & Hd2 & Hr2 & Hs2 & Hn2 & Hrc2).
  { eapply data_tx_ok; eauto. }
  rewrite Hsd1 in Hs2.
  assert (Hx : represents (blocks d2) (if before_commit (fail_after d1)
            (data_tx (blocks d) ino b slot name data size)
            then meta_img (blocks d) ino b size
            else data_img (blocks d) ino b slot name data size)).
  { destruct (before_commit (fail_after d1) _); unfold data_img;
      by setoid_rewrite <- Hsd1. }
  exists r2, d2. split; [done|]. split; [done|]. split.
  { destruct (before_commit (fail_after d1) _); tauto. }
  split.
  { intros E. destruct (Hs2 E) as [Hc2 Hsd2]. split; [|done]. by left. }
  split; [|done]. intros Hneg. destruct (Hn1 Hneg) as [_ E1]. rewrite <- E1. apply Hn2. lia.
Qed.

(** ** When a plan exists *)

Lemma find_dirent_neg dir name :
  m16_find_dirent dir name < 0 <->
  forall i, 0 <= i < 12 -> de_used i dir <> 0 -> cstr 32 (de_name i dir) <> cstr 32 name.
Proof.
  unfold m16_find_dirent. change (Z.to_nat DIRENTS) with 12%nat.
  assert (Hp : forall i, negb (de_used i dir =? 0) && m16_streq (de_name i dir) name = true
            <-> de_used i dir <> 0 /\ cstr 32 (de_name i dir) = cstr 32 name).
  { intros i. rewrite andb_true_iff, negb_true_iff, Z.eqb_neq. unfold m16_streq.
    rewrite (streq_cstr 32), bool_decide_eq_true. done. }
  destruct (first_from _ _ _) as [k|] eqn:E; cbn [default from_option].
  - apply first_from_Some in E as (Hk & Hpk & _). apply Hp in Hpk as [Hu Hs].
    unfold id. split; [lia|]. intros H. exfalso. apply (H k); [lia|done|done].
  - split; [|done]. intros _ i Hi Hu Hs. pose proof (proj1 (first_from_None _ _ _) E i) as Hf.
    cbv beta in Hf. rewrite (proj2 (Hp i)) in Hf; [|done]. discriminate Hf. lia.
Qed.

Lemma default_first_from n lo p rc :
  rc < 0 -> 0 <= lo ->
  0 <= default rc (first_from n lo p)
  <-> exists i, lo <= i < lo + Z.of_nat n /\ p i = true.
Proof.
  intros Hrc Hlo. destruct (first_from n lo p) as [k|] eqn:E; simpl.
  - apply first_from_Some in E as (Hk & Hp & _). split; [by exists k|lia].
  - split; [lia|]. intros (i & Hi & Hp). pose proof (proj1 (first_from_None _ _ _) E i Hi). congruence.
Qed.

Lemma free_inode_iff ib :
  0 <= m16_find_free_inode ib <-> exists i, 1 <= i < 16 /\ m16_bitmap_get ib i = false.
Proof.
  unfold m16_find_free_inode. rewrite default_first_from by (done || lia).
  by setoid_rewrite negb_true_iff.
Qed.

Lemma free_block_iff bb :
  0 <= m16_find_free_block bb <-> exists i, 25 <= i < 128 /\ m16_bitmap_get bb i = false.
Proof.
  unfold m16_find_free_block. rewrite default_first_from by (done || lia).
  by setoid_rewrite negb_true_iff.
Qed.

Lemma free_dirent_iff dir :
  0 <= m16_find_free_dirent dir <-> exists i, 0 <= i < 12 /\ de_used i dir = 0.
Proof.
  unfold m16_find_free_dirent. rewrite default_first_from by (done || lia).
  by setoid_rewrite Z.eqb_eq.
Qed.

Lemma img_plan_iff bs name size :
  super_ok (bl bs 0) = true ->
  (exists p, img_plan bs name size = inr p) <->
     (0 < length (cstr 32 name) < 32)%nat /\ size <= 512
     /\ (forall i, 0 <= i < 12 -> de_used i (img_dir bs) <> 0 ->
           cstr 32 (de_name i (img_dir bs)) <> cstr 32 name)
     /\ (exists i, 1 <= i < 16 /\ m16_bitmap_get (img_ib bs) i = false)
     /\ (exists i, 25 <= i < 128 /\ m16_bitmap_get (img_bb bs) i = false)
     /\ (exists i, 0 <= i < 12 /\ de_used i (img_dir bs) = 0).
Proof.
  intros Hs. rewrite <- find_dirent_neg, <- free_inode_iff, <- free_block_iff, <- free_dirent_iff.
  unfold img_plan. rewrite strlen_bounded_cstr, Hs. cbn [negb].
  unfold M16_MAX_NAME, M16_BLOCK_SIZE. split.
  - intros [p Hp]. repeat case_if_in Hp; try done. zbool. split_all; lia.
  - intros (N & S & F & I & B & D).
    repeat (case_if; zbool; [exfalso; try destruct Hif as [Hif|Hif]; zbool; lia|]).
    by eexists.
Qed.
