(* ===== verification/JournalTheorems.v ===== *)
(** * MCSFS1J: the theorems

    Crash atomicity of the journal and of file creation, the effect of each
    file-system operation on a checked image, and the bounds of the read. *)
From S2P Require Import Prelude Journal JournalFacts JournalFs JournalFsFacts.

(** ** Format *)

(** The blocks that [m16_format] writes. *)
Definition format_writes : list wr :=
  [(0, format_super 128); (18, format_ib); (19, format_bb);
   (20, table_block format_inodes 0); (21, table_block format_inodes 1);
   (22, table_block format_inodes 2); (23, table_block format_inodes 3);
   (24, m16_zero 512); (1, m16_zero 512)].

Definition format_img : list (list Z) :=
  apply_writes (replicate 128 (m16_zero 512)) format_writes.

Definition blk_okb (b : list Z) : bool :=
  (length b =? 512)%nat && forallb (fun x => (0 <=? x) && (x <? 256)) b.

Lemma blk_okb_ok b : blk_okb b = true -> blk_ok b.
Proof.
  unfold blk_okb, blk_ok. rewrite andb_true_iff, Nat.eqb_eq, forallb_forall.
  intros [Hl Hb]. split; [done|]. apply List.Forall_forall. intros x Hx.
  specialize (Hb x Hx). zbool. unfold is_byte. lia.
Qed.

Lemma format_writes_ok : Forall wr_ok format_writes.
Proof.
  repeat (apply Forall_cons; split); [..|by apply Forall_nil];
    (split; [simpl; lia|apply blk_okb_ok; vm_compute; reflexivity]).
Qed.

Lemma dbind_assoc {A B C} (m : dev_m A) (k1 : A -> dev_m B) (k2 : B -> dev_m C) d :
  dbind (dbind m k1) k2 d = dbind m (fun x => dbind (k1 x) k2) d.
Proof. unfold dbind. by destruct (m d) as [[]?]. Qed.

Lemma format_spec d :
  dev_ok d -> fail_after d < 0 ->
  exists d', m16_format d = (inr tt, d') /\ dev_ok d' /\ blocks d' = format_img
    /\ fail_after d' = fail_after d.
Proof.
  intros Hd Hneg. set (d0 := (zero_blocks d).2).
  assert (Hd0 : dev_ok d0).
  { split; [done| |apply Hd]. apply Forall_replicate, zero_blk_ok. }
  destruct (wseq_spec format_writes d0 Hd0 format_writes_ok) as (d' & Hw & Hok & Hb & Hf).
  assert (fail_after d0 = fail_after d) as Hfa by done.
  rewrite survived_neg in Hw, Hb by lia. rewrite decide_True in Hw by done.
  exists d'. split; [|split; [done|split; [exact Hb|rewrite <- Hfa; apply Hf; lia]]].
  rewrite <- Hw. unfold m16_format. rewrite (dev_tot d Hd).
  unfold dbind at 1. change (zero_blocks d) with (@inr Z unit tt, d0). clearbody d0.
  change (Z.to_nat M16_INODE_TABLE_BLOCKS) with 4%nat. cbn [write_table].
  unfold format_writes. cbn [wseq fst snd].
  do 7 (rewrite ?dbind_assoc; apply dbind_ext; [done|intros _ ?]).
  change (dbind (dret tt) ?k ?x) with (k tt x). cbv beta.
  apply dbind_ext; [done|intros _ ?]. symmetry. apply (wseq_one (1, m16_zero 512)).
Qed.

(** ** Checked devices *)

(** A device with an empty journal on which the consistency check succeeds. *)
Definition checked (d : m16_blockdev) : Prop :=
  dev_ok d /\ j_clear (blocks d) /\ (m16_fsck d).1 = inr tt.

Lemma checked_img d :
  checked d <-> dev_ok d /\ j_clear (blocks d) /\ img_fsck (blocks d) = true.
Proof.
  unfold checked. split; intros (H1 & H2 & H3); (split; [done|]); (split; [done|]);
    [revert H3|]; rewrite fsck_clear by done; [|by rewrite H3].
  by destruct (img_fsck (blocks d)).
Qed.

Lemma read_checked d name out cap :
  checked d -> m16_read_file name out cap d = (img_read (blocks d) name out cap, d).
Proof.
  intros (H1 & H2 & H3)%checked_img. apply read_file_clear; try done.
  by apply img_fsck_parts in H3 as [? _].
Qed.

Lemma checked_same d d' bs :
  checked d -> same_data (blocks d) bs -> dev_ok d' -> j_clear (blocks d') ->
  same_data (blocks d') bs ->
  checked d' /\ forall nm out cap,
    (m16_read_file nm out cap d').1 = (m16_read_file nm out cap d).1.
Proof.
  intros Hc Hs Hd' Hj' Hs'. pose proof Hc as (H1 & H2 & H3)%checked_img.
  assert (Hsd : same_data (blocks d) (blocks d')) by (by rewrite Hs, Hs').
  assert (checked d') by (apply checked_img; by rewrite <- (img_fsck_same _ _ Hsd)).
  split; [done|]. intros nm out cap. rewrite !read_checked by done. simpl.
  symmetry. apply img_read_same; [done|by apply dev_img_ok|done].
Qed.

Lemma checked_fail_after d k : checked d -> checked (set_fail_after d k).
Proof. rewrite !checked_img. intros ([? ? ?] & ? & ?). done. Qed.

(** A device that holds the data of an image that the check accepts reads as
    that image. *)
Lemma checked_reads d img :
  dev_ok d -> j_clear (blocks d) -> same_data (blocks d) img -> img_fsck img = true ->
  checked d /\ forall nm out cap, (m16_read_file nm out cap d).1 = img_read img nm out cap.
Proof.
  intros H1 H2 H3 Hf.
  assert (Hc : checked d) by (apply checked_img; by rewrite (img_fsck_same _ _ H3)).
  split; [done|]. intros nm out cap. rewrite read_checked by done. simpl.
  apply checked_img in Hc as (_ & _ & Hc).
  apply img_read_same; [done|by apply dev_img_ok|done].
Qed.

Lemma recovered ks d img :
  dev_ok d -> represents (blocks d) img -> img_fsck img = true ->
  let d' := recover_many ks d in
  checked d' /\ forall nm out cap,
    (m16_read_file nm out cap d').1 = img_read img nm out cap.
Proof.
  intros Hd Hr Hf d'. destruct (recover_many_spec ks d img Hd Hr) as (H1 & H2 & H3 & _).
  by apply checked_reads.
Qed.

(** ** Journal *)

(** C34: Crash atomicity of a transaction of at most 8 blocks outside the
    journal area, on a device with an empty journal: let the device fail after
    [k] writes during a commit (a negative [k] never fails), then let any number
    of recoveries fail after [ks] writes each, and one recovery complete.
    Outside the journal area the disk holds the old contents if the fault
    struck before the commit record and all of the transaction's blocks
    otherwise; the journal is empty; and a commit that reported success is
    in place. *)
Theorem commit_atomic d tx seq k ks :
  dev_ok d -> j_clear (blocks d) -> tx_ok tx ->
  let '(r, d1) := m16_journal_commit tx seq 0 (set_fail_after d k) in
  let d2 := recover_many ks d1 in
  let new := apply_writes (blocks d) (home_writes tx) in
  dev_ok d2 /\ j_clear (blocks d2)
  /\ same_data (blocks d2) (if before_commit k tx then blocks d else new)
  /\ (r = inr tt -> same_data (blocks d2) new).
Proof.
  intros Hd Hc Htx.
  destruct (commit_crash (set_fail_after d k) tx seq) as (r & d1 & -> & H1 & H2 & H3 & _);
    [by destruct Hd|done|done|].
  cbv zeta. destruct (recover_many_spec ks d1 _ H1 H2) as (R1 & R2 & R3 & _).
  split; [done|]. split; [done|]. split; [done|]. intros E.
  destruct (H3 E) as [E1 E2].
  apply (recover_many_spec ks d1 _ H1). by left.
Qed.

(** The commit point: a commit that stops after its commit record, on a
    device without faults, reports success with no home block written, and
    recovery then installs the whole transaction, however often it is
    interrupted. *)
Theorem commit_stop_recovers d tx seq stop ks :
  dev_ok d -> fail_after d < 0 -> tx_ok tx -> stop <> 0 ->
  let '(r, d1) := m16_journal_commit tx seq stop d in
  r = inr tt /\ same_data (blocks d1) (blocks d)
  /\ same_data (blocks (recover_many ks d1)) (apply_writes (blocks d) (home_writes tx)).
Proof.
  intros Hd Hneg Htx Hstop. rewrite commit_stopped_as_writes by (apply Htx || done).
  set (ws := _ ++ [header_write tx seq]).
  destruct (wseq_spec ws d Hd) as (d1 & -> & Hok & Hb & _).
  { subst ws. pose proof (commit_writes_ok tx seq Htx) as H. unfold commit_writes in H.
    apply Forall_app in H as [Ha H]. apply Forall_cons in H as [Hh _].
    apply Forall_app. split; [done|]. by constructor. }
  rewrite survived_neg in * by done. rewrite decide_True, take_ge in * by done.
  destruct (commit_point tx seq (blocks d) Htx (dev_len d Hd)) as [Hc Hs].
  fold ws in Hc, Hs. rewrite <- Hb in Hc, Hs. split; [done|]. split; [done|].
  destruct (recover_many_spec ks d1 (apply_writes (blocks d1) (home_writes tx)))
    as (_ & _ & R & _); [done|right; by exists tx|].
  rewrite R. by rewrite Hs.
Qed.

(** ** File system *)

(** [img] passes the check, reads like [bs] for every other name, and for
    [name] like [bs] or as exactly the data written. *)
Definition outcome (bs : list (list Z)) (name data : list Z) (size : Z) (img : list (list Z)) : Prop :=
  img_fsck img = true
  /\ (forall nm out cap, cstr 32 nm <> cstr 32 name ->
        img_read img nm out cap = img_read bs nm out cap)
  /\ (forall out cap, size <= cap -> size <= Z.of_nat (length out) ->
        img_read img name out cap = img_read bs name out cap
        \/ img_read img name out cap
            = inr (Some (take (Z.to_nat size) data ++ drop (Z.to_nat size) out, size))).

(** The images a file creation can end in. *)
Lemma creation_outcome bs name data size ino b slot img :
  img_ok bs -> img_fsck bs = true -> Forall is_byte name -> Forall is_byte data ->
  0 <= size <= Z.of_nat (length data) -> img_plan bs name size = inr (ino, b, slot) ->
  img = bs \/ img = meta_img bs ino b size \/ img = data_img bs ino b slot name data size ->
  outcome bs name data size img.
Proof.
  intros Hi Hf Hn Hdt Hsz E%img_plan_spec [->|[->| ->]]; unfold outcome.
  - split_all; [done..|by left].
  - split; [by eapply meta_img_fsck|]. split; intros; [|left]; by eapply meta_img_read.
  - split; [by eapply data_img_fsck|].
    split; intros; [by eapply data_img_read_other|right; by eapply data_img_read_new].
Qed.

(** C1: Atomic file creation: on a checked device, let [m16_write_file] run
    with a fault after [k] writes, then let recovery be interrupted any number
    of times and complete.  The device is again checked; every other file
    reads as before; the new name reads as before (so: does not exist) or as
    exactly the data written; and after a reported success it is the data. *)
Theorem write_file_atomic d name data size k ks :
  checked d -> Forall is_byte name -> Forall is_byte data ->
  0 <= size <= Z.of_nat (length data) ->
  let '(r, d1) := m16_write_file name data size (set_fail_after d k) in
  let d2 := recover_many ks d1 in
  checked d2
  /\ (forall nm out cap, cstr 32 nm <> cstr 32 name ->
        (m16_read_file nm out cap d2).1 = (m16_read_file nm out cap d).1)
  /\ (forall out cap, size <= cap -> size <= Z.of_nat (length out) ->
        let new := inr (Some (take (Z.to_nat size) data ++ drop (Z.to_nat size) out, size)) in
        ((m16_read_file name out cap d2).1 = (m16_read_file name out cap d).1
         \/ (m16_read_file name out cap d2).1 = new)
        /\ (r = inr tt -> (m16_read_file name out cap d2).1 = new)).
Proof.
  intros Hc Hn Hdt Hsz. pose proof (checked_fail_after d k Hc) as Hc'.
  pose proof Hc' as (H1 & H2 & H3)%checked_img.
  destruct (img_plan (blocks d) name size) as [rc|[[ino b] slot]] eqn:E.
  - unfold m16_write_file. rewrite write_file_clear by done.
    change (blocks (set_fail_after d k)) with (blocks d). rewrite E.
    destruct (recovered ks (set_fail_after d k) (blocks d)) as [R1 R2];
      [done|by left|done|].
    cbv zeta. split; [done|].
    assert (R : forall nm out cap, (m16_read_file nm out cap (recover_many ks (set_fail_after d k))).1
                = (m16_read_file nm out cap d).1)
      by (intros; rewrite R2, read_checked by done; done).
    split; [by intros; rewrite R|]. intros. split; [left; by rewrite R|done].
  - destruct (write_crash (set_fail_after d k) name data size ino b slot)
      as (r & d1 & -> & W1 & W2 & W3 & _); [done..|].
    change (blocks (set_fail_after d k)) with (blocks d) in *.
    pose proof (dev_img_ok _ H1 : img_ok (blocks d)) as Hi.
    assert (Hrd : forall nm out cap, (m16_read_file nm out cap d).1 = img_read (blocks d) nm out cap)
      by (intros; by rewrite read_checked).
    assert (exists img, represents (blocks d1) img /\
      (img = blocks d \/ img = meta_img (blocks d) ino b size
       \/ img = data_img (blocks d) ino b slot name data size)) as (img & W & Himg) by naive_solver.
    destruct (creation_outcome (blocks d) name data size ino b slot img) as (O1 & O2 & O3); [done..|].
    destruct (recovered ks d1 _ W1 W O1) as [R1 R2]. cbv zeta. split; [done|].
    split; [intros; rewrite R2, Hrd; auto|]. intros out cap Hcap Hout.
    split; [rewrite R2, Hrd; auto|]. intros Hr. destruct (W3 Hr) as [W3' _]. apply img_plan_spec in E.
    destruct (recovered ks d1 _ W1 W3') as [_ R3]; [by eapply data_img_fsck|].
    rewrite R3. by eapply data_img_read_new.
Qed.

(** C29: Without faults, [m16_write_file] on a checked device succeeds exactly
    when the name has 1 to 31 bytes, the data fits one block, the name is not
    in the directory, and a free inode, a free data block and a free directory
    slot exist; otherwise it fails and leaves the device as it was. *)
Theorem write_file_succeeds_iff d name data size :
  checked d -> fail_after d < 0 -> Forall is_byte name -> Forall is_byte data ->
  0 <= size <= Z.of_nat (length data) ->
  ((m16_write_file name data size d).1 = inr tt <->
     (0 < length (cstr 32 name) < 32)%nat /\ size <= 512
     /\ (forall i, 0 <= i < 12 -> de_used i (img_dir (blocks d)) <> 0 ->
           cstr 32 (de_name i (img_dir (blocks d))) <> cstr 32 name)
     /\ (exists i, 1 <= i < 16 /\ m16_bitmap_get (img_ib (blocks d)) i = false)
     /\ (exists i, 25 <= i < 128 /\ m16_bitmap_get (img_bb (blocks d)) i = false)
     /\ (exists i, 0 <= i < 12 /\ de_used i (img_dir (blocks d)) = 0))
  /\ ((m16_write_file name data size d).1 <> inr tt ->
      (m16_write_file name data size d).2 = d).
Proof.
  intros Hc Hneg Hn Hdt Hsz. pose proof Hc as (H1 & H2 & H3)%checked_img.
  assert (Hw : match img_plan (blocks d) name size with
    | inl rc => m16_write_file name data size d = (inl rc, d)
    | inr _ => (m16_write_file name data size d).1 = inr tt end).
  { destruct (img_plan (blocks d) name size) as [rc|[[ino b] slot]] eqn:E.
    - unfold m16_write_file. rewrite write_file_clear by done. by rewrite E.
    - destruct (write_crash d name data size ino b slot) as (r & d1 & -> & _ & _ & _ & W & _);
        [done..|]. by destruct (W Hneg). }
  rewrite <- (img_plan_iff (blocks d) name size) by (by apply img_fsck_parts in H3 as [? _]).
  destruct (img_plan (blocks d) name size) as [rc|p].
  - rewrite Hw. simpl. split; [|done]. split; [done|]. by intros [? ?].
  - split; [|by rewrite Hw]. split; [by exists p|done].
Qed.

Lemma format_img_fsck : img_fsck format_img = true.
Proof. vm_compute. reflexivity. Qed.

Lemma format_img_clear : j_clear format_img.
Proof. apply j_clear_zero. vm_compute. reflexivity. Qed.

Lemma format_img_dir : forallb (fun i => de_used i (img_dir format_img) =? 0) (seqZ 0 12) = true.
Proof. vm_compute. reflexivity. Qed.

Lemma format_img_read nm out cap : img_read format_img nm out cap = inl M16_E_NOENT.
Proof.
  unfold img_read, img_file, m16_find_dirent.
  rewrite (proj2 (first_from_None _ _ _)); [done|]. intros i Hi.
  pose proof format_img_dir as H. rewrite forallb_forall in H. rewrite (H i); [done|].
  apply list_elem_of_In, elem_of_seqZ. exact Hi.
Qed.

(** Formatting any device (of the supported geometry, without faults)
    yields a checked file system in which no name exists. *)
Theorem format_checked d :
  dev_ok d -> fail_after d < 0 ->
  let '(r, d') := m16_format d in
  r = inr tt /\ checked d'
  /\ forall nm out cap, (m16_read_file nm out cap d').1 = inl M16_E_NOENT.
Proof.
  intros Hd Hneg. destruct (format_spec d Hd Hneg) as (d' & -> & Hok & Hb & _).
  assert (Hc : checked d').
  { apply checked_img. rewrite Hb. auto using format_img_fsck, format_img_clear. }
  split; [done|]. split; [done|]. intros. rewrite read_checked, Hb by done.
  apply format_img_read.
Qed.

(** Reading is memory safe on a checked device: when the caller's buffer
    holds [cap] bytes, [m16_read_file] never copies outside the block or the
    buffer, leaves the device alone, and returns at most one block. *)
Theorem read_file_safe d name out cap :
  checked d -> cap <= Z.of_nat (length out) ->
  exists r, m16_read_file name out cap d = (r, d) /\ r <> inr None
    /\ forall o n, r = inr (Some (o, n)) ->
         length o = length out /\ 0 <= n <= 512 /\ drop (Z.to_nat n) o = drop (Z.to_nat n) out.
Proof.
  intros Hc Hcap. rewrite read_checked by done. eexists. split; [done|].
  apply checked_img in Hc as (H1 & H2 & H3). apply dev_img_ok in H1. unfold img_read.
  destruct (img_file (blocks d) name) as [rc|[sz b]] eqn:E; [done|].
  apply img_file_range in E as [Hb Hsz]; [|done..].
  case_if; [done|]. zbool. destruct (bl_ok (blocks d) b) as [Hl _]; [done|lia|].
  rewrite copy_loop_spec by lia. split; [done|]. intros o n [= <- <-]. split_all; try lia.
  - rewrite length_app, length_take, length_drop. lia.
  - rewrite drop_app_ge by (rewrite length_take; lia).
    rewrite length_take, Nat.min_l by lia. by rewrite Nat.sub_diag, drop_0.
Qed.

(** ** An unchecked image *)

(** C40: [m16_read_file] does not check the inode's size against the block size
    (only [m16_fsck] does).  On any image of 128 blocks of 512 bytes that
    mounts as it is, take a name that is found and whose inode is in range, in
    use, of kind file, and has its block on the device, and a buffer of at
    least [cap] bytes with [cap] at least the inode's size.  The call reads
    past its 512-byte block buffer (it is undefined) exactly when the inode
    claims more than 512 bytes. *)
Theorem read_file_overrun d sb inodes dir name out cap :
  dev_ok d -> m16_mount d = (inr sb, d) ->
  m16_load_inode_table d = (inr inodes, d) -> m16_read_block M16_ROOT_DIR_LBA d = (inr dir, d) ->
  let slot := m16_find_dirent dir name in
  let ino := de_ino slot dir in
  0 <= slot -> ino < M16_MAX_INODES -> ino_used ino inodes <> 0 -> ino_kind ino inodes = 1 ->
  0 <= ino_direct0 ino inodes < 128 ->
  ino_size ino inodes <= cap <= Z.of_nat (length out) ->
  (m16_read_file name out cap d).1 = inr None <-> 512 < ino_size ino inodes.
Proof.
  intros Hd Hm Hi Hdir slot ino Hs Hino Hu Hk Hb Hcap. unfold m16_read_file, dbind.
  rewrite Hm, Hi, Hdir. fold slot. rewrite (proj2 (Z.ltb_ge slot 0)) by lia. fold ino.
  rewrite (proj2 (Z.leb_gt _ _)), (proj2 (Z.eqb_neq _ _)), Hk by done. cbn [orb negb Z.eqb Pos.eqb].
  rewrite (proj2 (Z.ltb_ge _ _)), (dev_tot _ Hd), (proj2 (Z.leb_gt _ _)) by lia. cbn [orb].
  rewrite read_block_ok by done. unfold dret. cbn [fst].
  destruct (block_at_ok d (ino_direct0 ino inodes)) as [Hl _]; [done..|].
  destruct (Z.ltb_spec 512 (ino_size ino inodes)).
  - rewrite copy_loop_None by lia. done.
  - rewrite copy_loop_spec by lia. split; [done|lia].
Qed.

(** A formatted disk with one file whose inode claims 600 bytes. *)
Definition overlong_dev : m16_blockdev :=
  let d := (m16_write_file [97] [1; 2; 3] 3 (m16_format m16_dev_init).2).2 in
  mk_blockdev (<[20%nat := le_put (inode_off 1 8) 4 600 (bl (blocks d) 20)]> (blocks d))
    (total_blocks d) (writes d) (fail_after d).

(** ** Witnesses *)

Lemma dev_init_ok : dev_ok m16_dev_init.
Proof. split; [done| |done]. apply Forall_replicate, zero_blk_ok. Qed.

Definition fmt_dev : m16_blockdev := (m16_format m16_dev_init).2.

Lemma fmt_dev_ok :
  dev_ok fmt_dev /\ j_clear (blocks fmt_dev) /\ checked fmt_dev /\ fail_after fmt_dev = -1.
Proof.
  unfold fmt_dev. destruct (format_spec m16_dev_init dev_init_ok) as (d' & -> & Hok & Hb & Hf);
    [done|].
  assert (Hc : checked d').
  { apply checked_img. rewrite Hb. auto using format_img_fsck, format_img_clear. }
  cbn [snd]. split; [done|]. split; [by destruct Hc as (_ & ? & _)|]. done.
Qed.

Definition tx1 : m16_tx := [mk_jrec 30 (replicate 512 7); mk_jrec 31 (replicate 512 8)].

Lemma tx1_ok : tx_ok tx1.
Proof.
  split; [|simpl; lia].
  repeat (apply Forall_cons; split); [..|by apply Forall_nil];
    (split; [split; [simpl; lia|apply blk_okb_ok; vm_compute; reflexivity]
            |unfold journal_lba; simpl; lia]).
Qed.

Lemma commit_atomic_witness :
  let '(r, d1) := m16_journal_commit tx1 1 0 (set_fail_after fmt_dev 7) in
  let d2 := recover_many [1; 0; 2] d1 in
  let new := apply_writes (blocks fmt_dev) (home_writes tx1) in
  dev_ok d2 /\ j_clear (blocks d2)
  /\ same_data (blocks d2) (if before_commit 7 tx1 then blocks fmt_dev else new)
  /\ (r = inr tt -> same_data (blocks d2) new).
Proof.
  apply (commit_atomic fmt_dev tx1 1 7 [1; 0; 2]);
    [apply fmt_dev_ok|apply fmt_dev_ok|apply tx1_ok].
Defined.

Lemma commit_stop_recovers_witness :
  let '(r, d1) := m16_journal_commit tx1 1 1 fmt_dev in
  r = inr tt /\ same_data (blocks d1) (blocks fmt_dev)
  /\ same_data (blocks (recover_many [2] d1)) (apply_writes (blocks fmt_dev) (home_writes tx1)).
Proof.
  apply (commit_stop_recovers fmt_dev tx1 1 1 [2]); [apply fmt_dev_ok| |apply tx1_ok|lia].
  destruct fmt_dev_ok as (_ & _ & _ & ->). lia.
Defined.

Lemma byte4 : Forall is_byte [1; 2; 3; 4].
Proof. repeat constructor; unfold is_byte; lia. Qed.
Lemma byte_ab : Forall is_byte [97; 98].
Proof. repeat constructor; unfold is_byte; lia. Qed.

Lemma write_file_atomic_witness :
  let '(r, d1) := m16_write_file [97; 98] [1; 2; 3; 4] 4 (set_fail_after fmt_dev 20) in
  checked (recover_many [3; 1] d1).
Proof.
  pose proof (write_file_atomic fmt_dev [97; 98] [1; 2; 3; 4] 4 20 [3; 1]) as H.
  destruct (m16_write_file _ _ _ _) as [r d1].
  apply H; [apply fmt_dev_ok|apply byte_ab|apply byte4|simpl; lia].
Defined.

Lemma fmt_dev_dir i : 0 <= i < 12 -> de_used i (img_dir (blocks fmt_dev)) = 0.
Proof.
  intros Hi.
  assert (H : forallb (fun i => de_used i (img_dir (blocks fmt_dev)) =? 0) (seqZ 0 12) = true)
    by (vm_compute; reflexivity).
  rewrite forallb_forall in H. apply Z.eqb_eq, H, list_elem_of_In, elem_of_seqZ. exact Hi.
Qed.

Lemma write_file_succeeds_iff_witness :
  (m16_write_file [97; 98] [1; 2; 3; 4] 4 fmt_dev).1 = inr tt.
Proof.
  apply (write_file_succeeds_iff fmt_dev [97; 98] [1; 2; 3; 4] 4).
  - apply fmt_dev_ok.
  - destruct fmt_dev_ok as (_ & _ & _ & ->). lia.
  - apply byte_ab.
  - apply byte4.
  - simpl; lia.
  - split; [simpl; lia|]. split; [lia|].
    split; [intros i Hi Hu; destruct (Hu (fmt_dev_dir i Hi))|].
    split; [exists 1; split; [lia|vm_compute; reflexivity]|].
    split; [exists 25; split; [lia|vm_compute; reflexivity]|].
    exists 0. split; [lia|apply fmt_dev_dir; lia].
Defined.

Lemma format_checked_witness :
  let '(r, d') := m16_format m16_dev_init in r = inr tt /\ checked d'.
Proof.
  pose proof (format_checked m16_dev_init dev_init_ok) as H.
  destruct (m16_format m16_dev_init) as [r d'].
  destruct H as (H1 & H2 & _); [reflexivity|]. exact (conj H1 H2).
Defined.

Lemma read_file_safe_witness :
  exists r, m16_read_file [97; 98] (replicate 8 9) 8 fmt_dev = (r, fmt_dev) /\ r <> inr None.
Proof.
  destruct (read_file_safe fmt_dev [97; 98] (replicate 8 9) 8) as (r & H1 & H2 & _);
    [apply fmt_dev_ok|simpl; lia|].
  exists r. exact (conj H1 H2).
Defined.

Lemma overlong_dev_ok : dev_ok overlong_dev.
Proof.
  assert (H : forallb (fun b => (length b =? 512)%nat && forallb (fun x => (0 <=? x) && (x <? 256)) b)
    (blocks overlong_dev) = true) by (vm_compute; reflexivity).
  split; [vm_compute; reflexivity| |vm_compute; reflexivity].
  apply Forall_forall. intros b Hb. rewrite forallb_forall in H.
  specialize (H b (proj1 (list_elem_of_In _ _) Hb)). apply andb_true_iff in H as [H1 H2].
  split; [by apply Nat.eqb_eq|]. apply Forall_forall. intros x Hx. rewrite forallb_forall in H2.
  specialize (H2 x (proj1 (list_elem_of_In _ _) Hx)). zbool. unfold is_byte. lia.
Qed.

Lemma read_file_overrun_witness :
  (m16_read_file [97] (replicate 1024 0) 1024 overlong_dev).1 = inr None.
Proof.
  apply (read_file_overrun overlong_dev (bl (blocks overlong_dev) 0) (img_raw (blocks overlong_dev))
    (bl (blocks overlong_dev) 24) [97] (replicate 1024 0) 1024).
  - apply overlong_dev_ok.
  - vm_compute. reflexivity.
  - vm_compute. reflexivity.
  - vm_compute. reflexivity.
  - vm_compute. discriminate.
  - vm_compute. reflexivity.
  - vm_compute. discriminate.
  - vm_compute. reflexivity.
  - vm_compute. split; [discriminate|reflexivity].
  - vm_compute. split; discriminate.
  - vm_compute. reflexivity.
Defined.
