(* ===== verification/JournalHeader.v ===== *)
(** * MCSFS1J: half-written journal headers

    What recovery makes of a header of which only the first bytes were
    written or cleared: byte by byte, it is empty, a whole commit record, the
    record of an empty transaction, or rejected. *)
From S2P Require Import Prelude Journal JournalFacts.

Lemma le_bytes_val l : Forall is_byte l -> le_bytes (length l) (le_val l) = l.
Proof.
  unfold is_byte. induction 1 as [|b l Hb _ IH]; [done|]. cbn [length le_bytes le_val].
  rewrite (Z.mul_comm 256), Z.mod_add, Z.mod_small, Z.div_add, Z.div_small by lia.
  by rewrite Z.add_0_l, IH.
Qed.

Lemma le_bytes_get off n blk :
  Forall is_byte blk -> (off + n <= length blk)%nat -> le_bytes n (le_get off n blk) = sub off n blk.
Proof.
  intros Hb Hl. unfold le_get. rewrite <- (length_sub off n blk Hl) at 1.
  apply le_bytes_val, Forall_sub, Hb.
Qed.

Lemma m16_copy_lookup dst src n i :
  length dst = length src ->
  m16_copy dst src n !! i = if (i <? Z.to_nat n)%nat then src !! i else dst !! i.
Proof.
  intros Hl. unfold m16_copy. destruct (Nat.ltb_spec i (Z.to_nat n)) as [H|H].
  - destruct (decide (i < length src)%nat) as [Hi|Hi].
    + rewrite lookup_app_l by (rewrite length_take; lia). by apply lookup_take_lt.
    + rewrite lookup_app_r, lookup_drop by (rewrite length_take; lia).
      rewrite !(proj2 (lookup_ge_None _ _)) by (rewrite ?length_take; lia). done.
  - destruct (decide (i < length src)%nat) as [Hi|Hi].
    + rewrite lookup_app_r, lookup_drop by (rewrite length_take; lia).
      f_equal. rewrite length_take. lia.
    + rewrite !(proj2 (lookup_ge_None _ _)); [done|lia|].
      rewrite length_app, length_take, length_drop. lia.
Qed.

Lemma m16_copy_blk_ok dst src n : blk_ok dst -> blk_ok src -> blk_ok (m16_copy dst src n).
Proof.
  intros [Hl1 Hb1] [Hl2 Hb2]. unfold m16_copy. split.
  - rewrite length_app, length_take, length_drop. lia.
  - apply Forall_app; split; auto using Forall_take, Forall_drop.
Qed.

(** The fields and the padding determine a header. *)
Definition header_bytes (magic version state seq count sum : list Z) : list Z :=
  magic ++ version ++ state ++ seq ++ count ++ sum ++ replicate 484 0.

Lemma header_parts h :
  length h = 512%nat -> drop 28 h = replicate 484 0 ->
  h = header_bytes (sub 0 8 h) (sub 8 4 h) (sub 12 4 h) (sub 16 4 h) (sub 20 4 h) (sub 24 4 h).
Proof.
  intros Hl Hd. unfold header_bytes, sub. rewrite <- Hd, drop_0.
  assert (Hs : forall a n b, b = (a + n)%nat -> take n (drop a h) ++ drop b h = drop a h)
    by (intros a n b ->; by rewrite <- drop_drop, take_drop).
  rewrite (Hs 24 4 28)%nat, (Hs 20 4 24)%nat, (Hs 16 4 20)%nat, (Hs 12 4 16)%nat,
    (Hs 8 4 12)%nat by done.
  by rewrite take_drop.
Qed.

Lemma put_sum a b c d e f x :
  length a = 8%nat -> length b = 4%nat -> length c = 4%nat -> length d = 4%nat ->
  length e = 4%nat -> length f = 4%nat ->
  le_put 24 4 x (header_bytes a b c d e f) = header_bytes a b c d e (le_bytes 4 x).
Proof.
  intros Ha Hb Hc Hd He Hf. unfold le_put, splice, header_bytes. rewrite length_le_bytes.
  replace (a ++ b ++ c ++ d ++ e ++ f ++ replicate 484 0)
    with ((a ++ b ++ c ++ d ++ e) ++ f ++ replicate 484 0) by (by rewrite <- !app_assoc).
  rewrite take_app_length' by (rewrite !length_app; lia).
  rewrite drop_app_ge by (rewrite !length_app; lia).
  rewrite drop_app_length' by (rewrite !length_app; lia).
  by rewrite <- !app_assoc.
Qed.

Lemma raw_header_bytes seq count :
  raw_header seq count
  = header_bytes (le_bytes 8 M16_JMAGIC) (le_bytes 4 M16_VERSION) (le_bytes 4 M16_J_COMMITTED)
      (le_bytes 4 seq) (le_bytes 4 count) (le_bytes 4 0).
Proof.
  unfold raw_header, le_put. pose proof (length_le_bytes 4 seq) as Hs.
  pose proof (length_le_bytes 4 count) as Hc. revert Hs Hc.
  generalize (le_bytes 4 seq) (le_bytes 4 count). intros s c Hs Hc.
  destruct s as [|? [|? [|? [|? []]]]]; try discriminate Hs.
  destruct c as [|? [|? [|? [|? []]]]]; try discriminate Hc. reflexivity.
Qed.

Lemma make_header_bytes seq count :
  make_header seq count
  = header_bytes (le_bytes 8 M16_JMAGIC) (le_bytes 4 M16_VERSION) (le_bytes 4 M16_J_COMMITTED)
      (le_bytes 4 seq) (le_bytes 4 count) (le_bytes 4 (m16_header_checksum (raw_header seq count))).
Proof.
  rewrite make_header_raw. rewrite raw_header_bytes at 2. by rewrite put_sum by apply length_le_bytes.
Qed.

(** The tests that make recovery reject a header. *)
Definition jh_rejected (h : list Z) : bool :=
  negb ((jh_magic h =? 0) && (jh_state h =? M16_J_EMPTY))
  && (negb (jh_magic h =? M16_JMAGIC) || negb (jh_version h =? M16_VERSION)
      || negb (jh_state h =? M16_J_COMMITTED) || (M16_JOURNAL_MAX_RECORDS <? jh_count h)
      || negb (m16_header_checksum h =? jh_header_checksum h)).

(** A header that recovery neither skips nor rejects is a commit record. *)
Lemma accepted_header h :
  blk_ok h -> drop 28 h = replicate 484 0 -> jh_rejected h = false ->
  (jh_magic h = 0 /\ jh_state h = M16_J_EMPTY) \/ h = make_header (jh_seq h) (jh_count h).
Proof.
  intros [Hl Hb] Hd. unfold jh_rejected. rewrite andb_false_iff, !orb_false_iff, negb_false_iff.
  intros [H|H]; [left; zbool; tauto|right]. rewrite !negb_false_iff, !Z.eqb_eq in H.
  destruct H as [[[[Hm Hv] Hs] _] Hc].
  pose proof (header_parts h Hl Hd) as E.
  rewrite <- !le_bytes_get in E by (done || lia).
  change (le_get 0 8 h) with (jh_magic h) in E. change (le_get 8 4 h) with (jh_version h) in E.
  change (le_get 12 4 h) with (jh_state h) in E. change (le_get 16 4 h) with (jh_seq h) in E.
  change (le_get 20 4 h) with (jh_count h) in E.
  change (le_get 24 4 h) with (jh_header_checksum h) in E.
  rewrite Hm, Hv, Hs, <- Hc in E. rewrite E at 1. rewrite make_header_bytes. do 2 f_equal.
  unfold m16_header_checksum. f_equal. rewrite E at 1. rewrite raw_header_bytes.
  by rewrite !put_sum by apply length_le_bytes.
Qed.

Lemma header_pad seq count : drop 28 (make_header seq count) = replicate 484 0.
Proof.
  rewrite make_header_bytes. unfold header_bytes. rewrite !app_assoc.
  apply drop_app_length'. rewrite !length_app, !length_le_bytes. done.
Qed.

Lemma header_pad_lookup seq count i :
  (28 <= i)%nat -> make_header seq count !! i = m16_zero M16_BLOCK_SIZE !! i.
Proof.
  intros Hi. replace i with (28 + (i - 28))%nat by lia. rewrite <- !lookup_drop, header_pad.
  unfold m16_zero. by rewrite drop_replicate.
Qed.

Lemma make_header_accepted seq count :
  0 <= count <= 8 -> jh_rejected (make_header seq count) = false.
Proof.
  intros Hc. unfold jh_rejected.
  destruct (make_header_fields seq count) as (-> & -> & -> & ->); [lia|].
  rewrite make_header_checksum, !Z.eqb_refl, (proj2 (Z.ltb_ge _ _));
    [done|unfold M16_JOURNAL_MAX_RECORDS; lia].
Qed.

Lemma le_get_ext off n a b :
  (forall i, (off <= i < off + n)%nat -> a !! i = b !! i) -> le_get off n a = le_get off n b.
Proof.
  intros H. unfold le_get. f_equal. apply list_eq. intros i.
  destruct (decide (i < n)%nat); [|by rewrite !sub_ge by lia].
  rewrite !lookup_sub by lia. apply H. lia.
Qed.

Section torn.
Context (seq count n : Z) (Hcount : 0 <= count <= 8).
Let zeros := m16_zero M16_BLOCK_SIZE.
Let header := make_header seq count.

Lemma torn_lookup i :
  m16_copy zeros header n !! i = if (i <? Z.to_nat n)%nat then header !! i else zeros !! i.
Proof. apply m16_copy_lookup. symmetry. apply make_header_ok. Qed.

(** The record count fits in its first byte. *)
Lemma count_high_bytes i : (21 <= i < 24)%nat -> header !! i = zeros !! i.
Proof.
  intros Hi. unfold header. rewrite make_header_bytes. unfold header_bytes.
  do 4 (rewrite lookup_app_r by (rewrite length_le_bytes; lia); rewrite length_le_bytes).
  rewrite lookup_app_l by (rewrite length_le_bytes; lia).
  replace (le_bytes 4 count) with [count; 0; 0; 0].
  - assert (i = 21 \/ i = 22 \/ i = 23)%nat as [-> | [-> | ->]] by lia; reflexivity.
  - cbn [le_bytes]. rewrite Z.mod_small, Z.div_small by lia. reflexivity.
Qed.

(** A commit record torn over an empty header: nothing, an empty
    transaction, the whole record, or a header that recovery rejects. *)
Lemma torn_commit_record h :
  h = m16_copy zeros header n ->
  (jh_rejected h = true /\ 0 < n < 28)
  \/ (jh_magic h = 0 /\ jh_state h = M16_J_EMPTY) \/ h = header \/ exists s, h = make_header s 0.
Proof.
  intros Eh. assert (Hh : forall i, h !! i = if (i <? Z.to_nat n)%nat then header !! i else zeros !! i)
    by (intros i; rewrite Eh; apply torn_lookup).
  assert (Hok : blk_ok h) by (rewrite Eh; apply m16_copy_blk_ok; [apply zero_blk_ok|apply make_header_ok]).
  assert (Hpad : drop 28 h = replicate 484 0).
  { apply list_eq. intros i. rewrite lookup_drop, Hh.
    destruct (_ <? _)%nat; [unfold header; rewrite header_pad_lookup by lia|];
      rewrite <- lookup_drop; unfold zeros, m16_zero; by rewrite drop_replicate. }
  destruct (decide (28 <= n)) as [Hn|Hn].
  { right; right; left. apply list_eq. intros i. rewrite Hh.
    destruct (Nat.ltb_spec i (Z.to_nat n)); [reflexivity|].
    symmetry. apply header_pad_lookup. lia. }
  destruct (decide (n <= 0)) as [Hn0|Hn0].
  { right; left. rewrite Eh. unfold m16_copy. replace (Z.to_nat n) with 0%nat by lia.
    split; vm_compute; reflexivity. }
  clear Eh. destruct (jh_rejected h) eqn:Hrej; [left; split; [reflexivity|lia]|right].
  destruct (accepted_header h Hok Hpad Hrej) as [Hbl|E]; [by left|right].
  destruct (decide (n <= 20)) as [Hn20|Hn20].
  - right. exists (jh_seq h). rewrite E at 1. apply (f_equal (make_header (jh_seq h))).
    transitivity (jh_count zeros); [|vm_compute; reflexivity].
    apply le_get_ext. intros i Hi. rewrite Hh. by rewrite (proj2 (Nat.ltb_ge _ _)) by lia.
  - left. rewrite E. destruct (accepted_header header) as [Hbl|HH].
    + apply make_header_ok.
    + apply header_pad.
    + by apply make_header_accepted.
    + destruct (make_header_fields seq count) as (E' & _); [lia|].
      destruct Hbl as [Hbl _]. unfold header in Hbl. rewrite E' in Hbl. discriminate Hbl.
    + rewrite HH. apply (f_equal2 make_header); apply le_get_ext; intros i Hi; rewrite Hh.
      * by rewrite (proj2 (Nat.ltb_lt _ _)) by lia.
      * destruct (Nat.ltb_spec i (Z.to_nat n)); [reflexivity|]. symmetry. apply count_high_bytes. lia.
Qed.
End torn.

(** A field that is zero, or becomes zero, in a block being cleared. *)
Lemma torn_clear_field h n off len :
  blk_ok h -> (off + len <= 512)%nat ->
  le_get off len h = 0 \/ Z.of_nat (off + len) <= n ->
  le_get off len (m16_copy h (m16_zero M16_BLOCK_SIZE) n) = 0.
Proof.
  intros [Hl Hb] Ho H. transitivity (le_get off len (m16_zero M16_BLOCK_SIZE)); [|by apply le_get_zero].
  apply le_get_ext. intros i Hi. rewrite m16_copy_lookup by (rewrite Hl; reflexivity).
  destruct (Nat.ltb_spec i (Z.to_nat n)) as [|Hn]; [reflexivity|]. destruct H as [H|H]; [|lia].
  pose proof (le_bytes_get off len h Hb ltac:(lia)) as E. rewrite H, le_bytes_0 in E.
  replace i with (off + (i - off))%nat by lia. rewrite <- lookup_sub with (n := len) by lia.
  rewrite <- E. unfold m16_zero. by rewrite !lookup_replicate_2 by (change (Z.to_nat M16_BLOCK_SIZE) with 512%nat; lia).
Qed.

Lemma torn_clear_empty h n (h' := m16_copy h (m16_zero M16_BLOCK_SIZE) n) :
  blk_ok h -> jh_magic h = 0 -> jh_state h = M16_J_EMPTY ->
  jh_magic h' = 0 /\ jh_state h' = M16_J_EMPTY.
Proof. intros Hok Hm Hs. split; apply torn_clear_field; (done || lia || by left). Qed.

(** A commit record that is being cleared. *)
Lemma torn_clear_record seq count n h :
  h = m16_copy (make_header seq count) (m16_zero M16_BLOCK_SIZE) n ->
  (jh_rejected h = true /\ 0 < n < 28)
  \/ (jh_magic h = 0 /\ jh_state h = M16_J_EMPTY) \/ h = make_header seq count.
Proof.
  intros Eh. pose proof (make_header_ok seq count) as Hok.
  destruct (decide (n <= 0)) as [Hn|Hn].
  { right; right. rewrite Eh. unfold m16_copy. by replace (Z.to_nat n) with 0%nat by lia. }
  destruct (decide (28 <= n)) as [Hn'|Hn'].
  { right; left. rewrite Eh. split; apply torn_clear_field; (done || lia || (right; lia)). }
  assert (Hbyte : h !! 0%nat = Some 0).
  { rewrite Eh, m16_copy_lookup by (rewrite (proj1 Hok); reflexivity).
    by rewrite (proj2 (Nat.ltb_lt _ _)) by lia. }
  assert (Hm : jh_magic h <> M16_JMAGIC).
  { destruct h as [|b h]; [discriminate Hbyte|]. injection Hbyte as ->.
    unfold jh_magic, le_get, sub. rewrite drop_0. cbn [take le_val]. unfold M16_JMAGIC. lia. }
  unfold jh_rejected. rewrite (proj2 (Z.eqb_neq (jh_magic h) M16_JMAGIC) Hm). cbn [negb orb].
  rewrite andb_true_r. destruct ((jh_magic h =? 0) && (jh_state h =? M16_J_EMPTY)) eqn:E.
  - right; left. zbool. tauto.
  - left. split; [reflexivity|lia].
Qed.
