(* ===== verification/JournalTorn.v ===== *)
(** * MCSFS1J: power cuts inside a block write

    [m16_write_block] copies a block byte by byte, so a power cut can leave a
    block half written.  [power_cut] runs an operation up to a byte of its
    [k]-th write.  Whatever the byte, the transaction stays atomic; but a cut
    in the first bytes of the journal header leaves a header that every later
    mount refuses. *)
From S2P Require Import Prelude Journal JournalFacts JournalFs JournalFsFacts JournalTheorems JournalHeader.

(** ** Power cuts *)

(** The device after a power cut in the [k]-th block write of [op] (counted
    from 0), when [n] bytes of the block are copied: [n] bytes of the image
    after that write, the rest of the image before it.  The next boot starts
    without fault injection. *)
Definition power_cut {A} (op : dev_m A) (k : nat) (n : Z) (d : m16_blockdev) : m16_blockdev :=
  let before := (op (set_fail_after d (Z.of_nat k))).2 in
  let after := (op (set_fail_after d (Z.of_nat k + 1))).2 in
  mk_blockdev (zip_with (fun b b' => m16_copy b b' n) (blocks before) (blocks after))
    (total_blocks d) (writes d) (-1).

(** The same on lists of writes. *)
Fixpoint cut_writes (bs : list (list Z)) (ws : list wr) (k : nat) (n : Z) : list (list Z) :=
  match ws, k with
  | [], _ => bs
  | w :: ws, O => <[Z.to_nat w.1 := m16_copy (bl bs w.1) w.2 n]> bs
  | w :: ws, S k => cut_writes (<[Z.to_nat w.1 := w.2]> bs) ws k n
  end.

Lemma length_cut_writes ws k n bs : length (cut_writes bs ws k n) = length bs.
Proof.
  revert bs k. induction ws as [|w ws IH]; intros bs [|k]; cbn [cut_writes];
    rewrite ?IH, ?length_insert; done.
Qed.

Lemma cut_writes_app ws1 ws2 bs k n :
  cut_writes bs (ws1 ++ ws2) k n
  = if (k <? length ws1)%nat then cut_writes bs ws1 k n
    else cut_writes (apply_writes bs ws1) ws2 (k - length ws1) n.
Proof.
  revert bs k. induction ws1 as [|w ws1 IH]; intros bs k; cbn [app].
  { by rewrite Nat.sub_0_r. }
  destruct k as [|k]; [done|]. cbn [cut_writes length]. by rewrite IH.
Qed.

Lemma cut_writes_other ws bs k n i :
  Forall (fun w => Z.to_nat w.1 <> i) ws -> cut_writes bs ws k n !! i = bs !! i.
Proof.
  intros H. revert bs k. induction H as [|w ws Hw _ IH]; intros bs k; [done|].
  destruct k; cbn [cut_writes]; rewrite ?IH; by apply list_lookup_insert_ne.
Qed.

(** Redoing the writes repairs a torn block. *)
Lemma cut_writes_redo ws bs k n :
  apply_writes (cut_writes bs ws k n) ws = apply_writes bs ws.
Proof.
  apply apply_writes_redo; [apply length_cut_writes|]. intros i Hi. by apply cut_writes_other.
Qed.

Lemma cut_writes_ok ws bs k n :
  img_ok bs -> Forall wr_ok ws -> img_ok (cut_writes bs ws k n).
Proof.
  intros Hbs Hws. revert bs k Hbs. induction Hws as [|w ws [Hw Hok] _ IH]; intros bs k Hbs; [done|].
  destruct k as [|k]; cbn [cut_writes].
  - apply img_ok_insert; [done|]. apply m16_copy_blk_ok; [|done]. by apply bl_ok.
  - by apply IH, img_ok_insert.
Qed.

Lemma apply_writes_img_ok ws bs : img_ok bs -> Forall wr_ok ws -> img_ok (apply_writes bs ws).
Proof.
  intros Hbs Hws. revert bs Hbs. induction Hws as [|w ws [_ Hok] _ IH]; intros bs Hbs; [done|].
  by apply IH, img_ok_insert.
Qed.

Lemma copy_self b n : m16_copy b b n = b.
Proof. apply take_drop. Qed.

Lemma cut_between ws bs k n :
  length bs = 128%nat -> Forall wr_ok ws ->
  zip_with (fun b b' => m16_copy b b' n) (apply_writes bs (take k ws)) (apply_writes bs (take (S k) ws))
  = cut_writes bs ws k n.
Proof.
  intros Hl Hws. revert bs k Hl. induction Hws as [|w ws [Hw _] _ IH]; intros bs k Hl.
  - rewrite !take_nil. cbn [cut_writes apply_writes foldl]. apply list_eq. intros i.
    rewrite lookup_zip_with. destruct (bs !! i) as [b|]; [|done]. cbn. by rewrite copy_self.
  - destruct k as [|k].
    + rewrite firstn_0. cbn [take cut_writes apply_writes foldl]. rewrite firstn_0. cbn [foldl].
      apply list_eq. intros i. rewrite lookup_zip_with.
      destruct (decide (i = Z.to_nat w.1)) as [->|Hne].
      * rewrite !list_lookup_insert_eq by lia.
        destruct (lookup_lt_is_Some_2 bs (Z.to_nat w.1)) as [b Hb]; [lia|].
        unfold bl. rewrite Hb. reflexivity.
      * rewrite !list_lookup_insert_ne by done. destruct (bs !! i) as [b|]; [|done].
        cbn. by rewrite copy_self.
    + cbn [take cut_writes apply_writes foldl]. apply IH. by rewrite length_insert.
Qed.

Lemma power_cut_writes {A} (op : dev_m A) ws k n d :
  dev_ok d -> Forall wr_ok ws ->
  (forall j, (op (set_fail_after d j)).2 = (wseq ws (set_fail_after d j)).2) ->
  dev_ok (power_cut op k n d) /\ blocks (power_cut op k n d) = cut_writes (blocks d) ws k n.
Proof.
  intros Hd Hws Hop.
  assert (Himg : forall j : nat, blocks (op (set_fail_after d (Z.of_nat j))).2 = apply_writes (blocks d) (take j ws)).
  { intros j. rewrite Hop.
    destruct (wseq_spec ws (set_fail_after d (Z.of_nat j))) as (d' & -> & _ & Hb & _);
      [by destruct Hd|done|]. cbn [snd]. rewrite Hb. cbn [blocks set_fail_after fail_after].
    unfold survived. rewrite (proj2 (Z.ltb_ge _ _)), Nat2Z.id by lia. f_equal.
    destruct (decide (j <= length ws)%nat); [f_equal; lia|].
    rewrite Nat.min_l, !take_ge by lia. done. }
  assert (E : blocks (power_cut op k n d) = cut_writes (blocks d) ws k n).
  { unfold power_cut. cbn [blocks]. replace (Z.of_nat k + 1) with (Z.of_nat (S k)) by lia.
    rewrite !Himg. apply cut_between; [apply Hd|done]. }
  split; [|done]. pose proof (dev_img_ok d Hd) as Hi.
  destruct (cut_writes_ok ws (blocks d) k n Hi Hws) as [H1 H2].
  split; rewrite ?E; [done|done|apply Hd].
Qed.

(** ** What a power cut leaves behind *)

Definition j_rejected (bs : list (list Z)) : Prop :=
  exists h, bs !! 1%nat = Some h /\ jh_rejected h = true.

(** The data of [img] is on the disk: recovery puts it in place or, if a
    header was torn, is refused although the data is in place. *)
Definition survives (torn : Prop) (bs img : list (list Z)) : Prop :=
  represents bs img \/ (torn /\ j_rejected bs /\ same_data bs img).

#[global] Instance survives_proper torn bs : Proper (same_data ==> iff) (survives torn bs).
Proof. intros i i' Hi. unfold survives. by rewrite Hi. Qed.

Lemma recover_rejected d :
  dev_ok d -> j_rejected (blocks d) -> m16_journal_recover d = (inl M16_E_CORRUPT, d).
Proof.
  intros Hd (h & Hh & Hr). unfold m16_journal_recover, dbind.
  rewrite read_block_ok by (done || (unfold M16_JOURNAL_START; lia)).
  rewrite (block_at_lookup d M16_JOURNAL_START _ Hh). revert Hr. unfold jh_rejected.
  destruct ((jh_magic h =? 0) && _); [done|]. cbn [negb andb].
  destruct (negb (jh_magic h =? M16_JMAGIC) || _ || _ || _); [done|]. cbn [orb].
  by destruct (negb (m16_header_checksum h =? _)).
Qed.

Lemma header_same_data bs x : same_data (<[1%nat := x]> bs) bs.
Proof.
  intros i Hi. apply list_lookup_insert_ne. intros <-. apply Hi. unfold journal_lba. lia.
Qed.

(** A cut in the redo phase, of the commit or of recovery. *)
Lemma redo_cut bs tx k n :
  img_ok bs -> j_committed bs tx ->
  survives (0 < n < 28) (cut_writes bs (home_writes tx ++ [clear_write]) k n)
    (apply_writes bs (home_writes tx)).
Proof.
  intros [Hl _] Hc. pose proof Hc as (Htx & _). rewrite cut_writes_app.
  destruct (Nat.ltb_spec k (length (home_writes tx))) as [Hk|Hk].
  { left; right. exists tx. rewrite cut_writes_redo. split; [|done].
    apply (j_committed_ext bs); [|done]. intros j Hj. by apply cut_writes_other, home_writes_other. }
  set (bs1 := apply_writes bs (home_writes tx)).
  assert (Hc1 : j_committed bs1 tx).
  { apply (j_committed_ext bs); [|done]. intros j Hj. by apply apply_writes_other, home_writes_other. }
  assert (Hl1 : length bs1 = 128%nat) by (subst bs1; by rewrite length_apply_writes).
  destruct (k - length (home_writes tx))%nat as [|k'].
  2: { left; left. split; [by apply j_clear_cleared|apply header_same_data]. }
  assert (Hredo : apply_writes bs1 (home_writes tx) = bs1)
    by (subst bs1; rewrite <- (take_ge (home_writes tx) (length (home_writes tx))) at 1 by lia;
        apply apply_writes_prefix).
  clearbody bs1. pose proof Hc1 as (_ & _ & seq & Hh). cbn [cut_writes].
  change (Z.to_nat clear_write.1) with 1%nat. unfold bl.
  change (Z.to_nat clear_write.1) with 1%nat. rewrite Hh. cbn [default from_option id].
  destruct (torn_clear_record seq (Z.of_nat (length tx)) n _ eq_refl) as [[Hr Hn]|[Hz|He]].
  - right. split; [done|]. split; [|apply header_same_data].
    eexists. split; [|exact Hr]. apply list_lookup_insert_eq. lia.
  - left; left. split; [|apply header_same_data].
    eexists. split; [|exact Hz]. apply list_lookup_insert_eq. lia.
  - left; right. exists tx. change clear_write.2 with (m16_zero M16_BLOCK_SIZE).
    rewrite He, list_insert_id by done. by rewrite Hredo.
Qed.

Lemma log_writes_keep_header tx :
  tx_ok tx -> Forall (fun w => Z.to_nat w.1 <> 1%nat) (log_writes 0 tx).
Proof.
  intros [Hrec Hlen]. eapply Forall_impl; [apply log_writes_range; [exact Hrec|lia..]|].
  intros w [_ H]. unfold desc_lba, M16_JOURNAL_START in H. lia.
Qed.

(** A cut while the log is written: the journal stays empty. *)
Lemma log_cut bs tx k n :
  img_ok bs -> j_clear bs -> tx_ok tx ->
  let bs' := cut_writes bs (clear_write :: log_writes 0 tx) k n in
  j_clear bs' /\ same_data bs' bs.
Proof.
  intros [Hl Hb] Hc Htx. split.
  - destruct k as [|k]; cbn [cut_writes].
    + destruct Hc as (h & Hh & Hm & Hs). unfold bl.
      change (Z.to_nat clear_write.1) with 1%nat. rewrite Hh. cbn [default from_option id].
      eexists. split; [apply list_lookup_insert_eq; lia|].
      apply torn_clear_empty; [|done..]. by eapply Forall_lookup_1 in Hh.
    + unfold j_clear. rewrite cut_writes_other by (by apply log_writes_keep_header).
      by apply (j_clear_cleared bs).
  - intros i Hi. apply cut_writes_other. eapply Forall_impl; [by apply log_writes_journal|].
    by intros w [_ Hw] <-.
Qed.

(** A cut in the commit record. *)
Lemma record_cut bs tx seq n :
  img_ok bs -> bs !! 1%nat = Some (m16_zero M16_BLOCK_SIZE) -> (length tx <= 8)%nat ->
  j_committed (apply_writes bs [header_write tx seq]) tx ->
  let bs' := cut_writes bs [header_write tx seq] 0 n in
  survives (0 < n < 28) bs' bs \/ survives (0 < n < 28) bs' (apply_writes bs (home_writes tx)).
Proof.
  intros [Hl _] Hz Hlen Hc. cbn [cut_writes]. unfold bl.
  change (Z.to_nat (header_write tx seq).1) with 1%nat. rewrite Hz. cbn [default from_option id].
  change (header_write tx seq).2 with (make_header seq (Z.of_nat (length tx))).
  assert (Hat : forall h, <[1%nat := h]> bs !! 1%nat = Some h)
    by (intros h; apply list_lookup_insert_eq; lia).
  destruct (torn_commit_record seq (Z.of_nat (length tx)) n ltac:(lia) _ eq_refl)
    as [[Hr Hn]|[He|[He|[s He]]]].
  - left; right. split; [done|]. split; [|apply header_same_data]. eexists. split; [apply Hat|exact Hr].
  - left; left; left. split; [|apply header_same_data]. eexists. split; [apply Hat|exact He].
  - right; left; right. exists tx. rewrite He. split; [exact Hc|]. by rewrite header_same_data.
  - left; left; right. exists []. rewrite He. split; [|apply header_same_data].
    split; [split; [constructor|simpl; lia]|]. split; [done|]. exists s. apply Hat.
Qed.

Lemma log_cleared bs tx :
  length bs = 128%nat -> tx_ok tx ->
  apply_writes bs (clear_write :: log_writes 0 tx) !! 1%nat = Some (m16_zero M16_BLOCK_SIZE).
Proof.
  intros Hl Htx. cbn [apply_writes foldl].
  rewrite (apply_writes_other (log_writes 0 tx)) by (by apply log_writes_keep_header).
  apply (list_lookup_insert_eq bs 1%nat). lia.
Qed.

(** A cut in the commit protocol: the old data or the new. *)
Lemma commit_cut bs tx seq k n :
  img_ok bs -> j_clear bs -> tx_ok tx ->
  let bs' := cut_writes bs (commit_writes tx seq) k n in
  survives (0 < n < 28) bs' bs \/ survives (0 < n < 28) bs' (apply_writes bs (home_writes tx)).
Proof.
  intros Hi Hc Htx. unfold commit_writes. cbv zeta. rewrite cut_writes_app.
  pose proof (log_writes_journal tx Htx) as Hj.
  destruct (Nat.ltb_spec k (length (clear_write :: log_writes 0 tx))) as [Hk|Hk].
  { left; left; left. by apply log_cut. }
  destruct (commit_point tx seq bs Htx (proj1 Hi)) as [Hcp Hsp]. rewrite apply_writes_app in Hcp, Hsp.
  set (bs1 := apply_writes bs (clear_write :: log_writes 0 tx)) in *.
  assert (Hs1 : same_data bs1 bs) by (by apply journal_writes_same).
  assert (Hh1 : bs1 !! 1%nat = Some (m16_zero M16_BLOCK_SIZE)).
  { apply log_cleared; [apply Hi|done]. }
  assert (Hi1 : img_ok bs1).
  { apply apply_writes_img_ok; [done|]. eapply Forall_impl; [exact Hj|]. by intros w [? _]. }
  clearbody bs1. destruct (k - _)%nat as [|k'].
  - rewrite <- Hs1. exact (record_cut bs1 tx seq n Hi1 Hh1 (proj2 Htx) Hcp).
  - right. rewrite <- Hsp. apply (redo_cut (apply_writes bs1 [header_write tx seq])); [|exact Hcp].
    apply apply_writes_img_ok; [done|]. constructor; [|constructor].
    split; [done|apply make_header_ok].
Qed.

(** ** Operations under power cuts *)

Lemma survives_weaken (torn torn' : Prop) bs img :
  (torn -> torn') -> survives torn bs img -> survives torn' bs img.
Proof. intros H [?|(? & ? & ?)]; [by left|right; auto]. Qed.

Lemma power_cut_idle {A} (op : dev_m A) k n d :
  dev_ok d -> (forall j, (op (set_fail_after d j)).2 = set_fail_after d j) ->
  dev_ok (power_cut op k n d) /\ blocks (power_cut op k n d) = blocks d.
Proof. intros Hd Hop. exact (power_cut_writes op [] k n d Hd (List.Forall_nil _) Hop). Qed.

Lemma recover_cut d k n torn img :
  dev_ok d -> survives torn (blocks d) img ->
  let d' := power_cut m16_journal_recover k n d in
  dev_ok d' /\ survives (torn \/ 0 < n < 28) (blocks d') img.
Proof.
  intros Hd Hs. assert (Hdj : forall j, dev_ok (set_fail_after d j)) by (by destruct Hd).
  cbv zeta. destruct Hs as [[[Hc Hs]|(tx & Hc & Hs)]|(Ht & Hr & Hs)].
  - destruct (power_cut_idle m16_journal_recover k n d Hd) as [H1 ->];
      [intros j; by rewrite recover_clear|]. split; [done|]. left; by left.
  - pose proof (commit_writes_ok tx 0 (proj1 Hc)) as Hw. unfold commit_writes in Hw.
    apply Forall_app in Hw as [_ Hw]. apply Forall_cons in Hw as [_ Hw].
    destruct (power_cut_writes m16_journal_recover (home_writes tx ++ [clear_write]) k n d Hd)
      as [H1 ->]; [done|intros j; by rewrite (recover_committed tx)|]. split; [done|].
    rewrite <- Hs. eapply survives_weaken; [|apply redo_cut; [by apply dev_img_ok|done]]. tauto.
  - destruct (power_cut_idle m16_journal_recover k n d Hd) as [H1 ->];
      [intros j; by rewrite recover_rejected|]. split; [done|]. right; auto.
Qed.

(** Boots that are all cut short. *)
Definition cut_boots (cuts : list (nat * Z)) (d : m16_blockdev) : m16_blockdev :=
  foldl (fun d c => power_cut m16_journal_recover c.1 c.2 d) d cuts.

Definition torn_cut (c : nat * Z) : Prop := 0 < c.2 < 28.

Lemma cut_boots_survives cuts : forall d torn img,
  dev_ok d -> fail_after d = -1 -> survives torn (blocks d) img ->
  let d' := cut_boots cuts d in
  dev_ok d' /\ fail_after d' = -1 /\ survives (torn \/ Exists torn_cut cuts) (blocks d') img.
Proof.
  induction cuts as [|c cuts IH]; intros d torn img Hd Hf Hs; cbv zeta.
  - split_all; try done. eapply survives_weaken; [|exact Hs]. tauto.
  - destruct (recover_cut d c.1 c.2 torn img Hd Hs) as [H1 H2].
    destruct (IH _ _ img H1 eq_refl H2) as (H3 & H4 & H5). split; [done|]. split; [done|].
    eapply survives_weaken; [|exact H5]. rewrite Exists_cons. unfold torn_cut. tauto.
Qed.

(** The boot that completes, or the repair of a header that it refuses. *)
Lemma survives_boot d torn img :
  dev_ok d -> fail_after d = -1 -> survives torn (blocks d) img -> img_fsck img = true ->
  exists d', (m16_journal_recover d = (inr tt, d')
              \/ (torn /\ m16_journal_recover d = (inl M16_E_CORRUPT, d)
                  /\ m16_journal_clear d = (inr tt, d')))
    /\ checked d' /\ forall nm out cap, (m16_read_file nm out cap d').1 = img_read img nm out cap.
Proof.
  intros Hd Hf Hs Hfsck.
  destruct Hs as [Hr|(Ht & Hr & Hs)].
  - destruct (recover_crash d img Hd Hr) as (r & d' & E & H1 & H2 & H3 & H4 & _).
    destruct H4 as [-> _]; [lia|]. exists d'. split; [by left|]. destruct (H3 eq_refl). by apply checked_reads.
  - exists (dev_put d clear_write). split.
    + right. split; [done|]. split; [by apply recover_rejected|]. unfold m16_journal_clear.
      change (m16_write_block clear_write.1 clear_write.2 d = (inr tt, dev_put d clear_write)).
      rewrite write_block_ok, Hf; [done|done|]. split; [done|apply zero_blk_ok].
    + apply checked_reads; [..|done].
      * apply dev_put_ok; [done|]. split; [done|apply zero_blk_ok].
      * apply (j_clear_cleared (blocks d)), Hd.
      * cbn [dev_put blocks]. change (Z.to_nat clear_write.1) with 1%nat. by rewrite header_same_data.
Qed.

(** The writes of a file creation, one commit after the other. *)
Definition creation_writes (bs : list (list Z)) (name data : list Z) (size ino b slot : Z) : list wr :=
  let gen := sb_clean_generation (bl bs 0) in
  commit_writes (meta_tx bs ino b size) (u32 (gen + 1))
  ++ commit_writes (data_tx bs ino b slot name data size) (u32 (gen + 2)).

Section creation.
Context (d : m16_blockdev) (name data : list Z) (size ino b slot : Z).
Context (Hd : dev_ok d) (Hc : j_clear (blocks d)) (Hf : img_fsck (blocks d) = true).
Context (Hn : Forall is_byte name) (Hdt : Forall is_byte data).
Context (Hsz : 0 <= size <= Z.of_nat (length data)).
Context (Hplan : img_plan (blocks d) name size = inr (ino, b, slot)).

Lemma creation_txs :
  tx_ok (meta_tx (blocks d) ino b size) /\ tx_ok (data_tx (blocks d) ino b slot name data size).
Proof.
  pose proof (img_plan_spec _ _ _ _ _ _ Hplan). pose proof (dev_img_ok d Hd).
  split; [eapply meta_tx_ok|eapply data_tx_ok]; eauto; apply Hsz.
Qed.

Lemma creation_as_writes :
  m16_write_file name data size d = wseq (creation_writes (blocks d) name data size ino b slot) d.
Proof.
  unfold m16_write_file. rewrite write_file_clear by done. rewrite Hplan. cbv zeta.
  destruct creation_txs as [[_ H1] [_ H2]]. unfold creation_writes. rewrite wseq_app.
  apply dbind_ext; [by apply commit_as_writes|]. intros _ d'. by apply commit_as_writes.
Qed.

Lemma creation_cut k n :
  let bs' := cut_writes (blocks d) (creation_writes (blocks d) name data size ino b slot) k n in
  exists img, survives (0 < n < 28) bs' img /\
    (img = blocks d \/ img = meta_img (blocks d) ino b size
     \/ img = data_img (blocks d) ino b slot name data size).
Proof.
  destruct creation_txs as [H1 H2]. pose proof (dev_img_ok d Hd) as Hi.
  unfold creation_writes. cbv zeta. set (gen := sb_clean_generation _). rewrite cut_writes_app.
  destruct (_ <? _)%nat.
  { destruct (commit_cut (blocks d) _ (u32 (gen + 1)) k n Hi Hc H1); eauto. }
  destruct (commit_image_after _ (u32 (gen + 1)) (blocks d) (3 + 3 * length (meta_tx (blocks d) ino b size))
    H1 (proj1 Hi)) as [Hr Hcl]; [lia|]. specialize (Hcl ltac:(lia)).
  rewrite take_ge in Hr, Hcl by (rewrite length_commit_writes; lia).
  pose proof (represents_clear _ _ Hcl Hr) as Hs.
  destruct (commit_cut _ (data_tx (blocks d) ino b slot name data size) (u32 (gen + 2))
    (k - length (commit_writes (meta_tx (blocks d) ino b size) (u32 (gen + 1)))) n
    (apply_writes_img_ok _ _ Hi (commit_writes_ok _ (u32 (gen + 1)) H1)) Hcl H2) as [Hx|Hx].
  - exists (meta_img (blocks d) ino b size). split; [by rewrite <- Hs|auto].
  - exists (data_img (blocks d) ino b slot name data size). split; [|auto].
    unfold data_img. by setoid_rewrite <- Hs.
Qed.
End creation.

(** Whatever [m16_write_file] does, a cut leaves the data of an atomic outcome. *)
Lemma write_file_cut d name data size k n :
  checked d -> Forall is_byte name -> Forall is_byte data ->
  0 <= size <= Z.of_nat (length data) ->
  let d1 := power_cut (m16_write_file name data size) k n d in
  exists img, dev_ok d1 /\ survives (0 < n < 28) (blocks d1) img /\ outcome (blocks d) name data size img.
Proof.
  intros (Hd & Hc & Hf)%checked_img Hn Hdt Hsz d1.
  assert (Hdj : forall j, dev_ok (set_fail_after d j)) by (by destruct Hd).
  destruct (img_plan (blocks d) name size) as [rc|[[ino b] slot]] eqn:E.
  - destruct (power_cut_idle (m16_write_file name data size) k n d Hd) as [H1 H2].
    { intros j. unfold m16_write_file. rewrite write_file_clear by done.
      change (blocks (set_fail_after d j)) with (blocks d). by rewrite E. }
    exists (blocks d). fold d1 in H1, H2. rewrite H2. split; [done|]. split; [left; by left|].
    unfold outcome. split_all; [done..|by left].
  - destruct (creation_txs d name data size ino b slot Hd Hn Hdt Hsz E) as [T1 T2].
    destruct (power_cut_writes (m16_write_file name data size)
      (creation_writes (blocks d) name data size ino b slot) k n d Hd) as [H1 H2].
    { apply Forall_app. split; by apply commit_writes_ok. }
    { intros j. f_equal. by apply (creation_as_writes (set_fail_after d j)). }
    fold d1 in H1, H2. rewrite H2.
    destruct (creation_cut d name data size ino b slot Hd Hc Hn Hdt Hsz E k n) as (img & Hs & Himg).
    exists img. split; [done|]. split; [done|].
    eapply creation_outcome; [by apply dev_img_ok|done..].
Qed.

(** ** Theorems *)

(** C3: File creation survives a power cut at any byte.  Cut the power after
    [n] bytes of the [k]-th block write of [m16_write_file] on a checked
    device, then in any number of boots at any byte of their recovery.  The
    next boot recovers, or, when some cut fell in the first 28 bytes of a
    block, recovery may refuse the header with [M16_E_CORRUPT]; then clearing
    the header repairs the device.  Either way the device is checked, every
    other file reads as before, and the new name does not exist or reads as
    exactly the data written. *)
Theorem write_file_power_cut d name data size k n cuts :
  checked d -> Forall is_byte name -> Forall is_byte data ->
  0 <= size <= Z.of_nat (length data) ->
  let d1 := power_cut (m16_write_file name data size) k n d in
  let d2 := cut_boots cuts d1 in
  exists d3,
    (m16_journal_recover d2 = (inr tt, d3)
     \/ (Exists torn_cut ((k, n) :: cuts) /\ m16_journal_recover d2 = (inl M16_E_CORRUPT, d2)
         /\ m16_journal_clear d2 = (inr tt, d3)))
    /\ checked d3
    /\ (forall nm out cap, cstr 32 nm <> cstr 32 name ->
          (m16_read_file nm out cap d3).1 = (m16_read_file nm out cap d).1)
    /\ (forall out cap, size <= cap -> size <= Z.of_nat (length out) ->
          (m16_read_file name out cap d3).1 = (m16_read_file name out cap d).1
          \/ (m16_read_file name out cap d3).1
             = inr (Some (take (Z.to_nat size) data ++ drop (Z.to_nat size) out, size))).
Proof.
  intros Hck Hn Hdt Hsz. cbv zeta.
  destruct (write_file_cut d name data size k n Hck Hn Hdt Hsz) as (img & H1 & H2 & H3 & H4 & H5).
  destruct (cut_boots_survives cuts _ _ img H1 eq_refl H2) as (B1 & B2 & B3).
  destruct (survives_boot _ _ img B1 B2 B3 H3) as (d3 & Hboot & Hck3 & Hr3).
  exists d3. split; [rewrite Exists_cons; unfold torn_cut at 1; tauto|]. split; [done|].
  split; intros; rewrite Hr3, (read_checked d) by done; cbn [fst]; auto.
Qed.





(** ** Witnesses *)

(** Power fails 5 bytes into the first commit record, and then in two boots. *)
Lemma write_file_power_cut_witness :
  exists d3, m16_journal_clear (cut_boots [(0%nat, 9); (3%nat, 100)]
      (power_cut (m16_write_file [97; 98] [1; 2; 3; 4] 4) 13 5 fmt_dev)) = (inr tt, d3)
    /\ checked d3.
Proof.
  destruct (write_file_power_cut fmt_dev [97; 98] [1; 2; 3; 4] 4 13 5 [(0%nat, 9); (3%nat, 100)])
    as (d3 & Hboot & Hc & _); [apply fmt_dev_ok|apply byte_ab|apply byte4|simpl; lia|].
  exists d3. split; [|exact Hc]. destruct Hboot as [H|(_ & _ & H)]; [|exact H].
  exfalso. apply (f_equal fst) in H. vm_compute in H. discriminate H.
Defined.


(** The same cut with 28 bytes of the record written: recovery completes the
    first transaction. *)
Example whole_record_recovers :
  (m16_fsck (cut_boots [(2%nat, 300)]
     (power_cut (m16_write_file [97; 98] [1; 2; 3; 4] 4) 13 28 fmt_dev))).1 = inr tt.
Proof. vm_compute. reflexivity. Qed.
