(* ===== verification/JournalTest.v ===== *)
(** * MCSFS1J: the host test ([m16_mcsfs_journal.c], [MCSOS_M16_HOST_TEST])

    The test program at the end of the source, over the same routines as the
    theorems.  [None] is undefined behaviour. *)
From Stdlib Require Import Strings.String.
From S2P Require Import Prelude Journal JournalFs.

(** The variables of [main] and what was printed. *)
Record m16_test := mk_test {
  t_dev : m16_blockdev;
  t_out : list Z;
  t_out_size : Z;
  t_fails : Z;
  t_printed : list string
}.

Definition set_t_dev (d : m16_blockdev) (t : m16_test) : m16_test :=
  mk_test d (t_out t) (t_out_size t) (t_fails t) (t_printed t).

(** [fails += m16_expect(cond, msg)]. *)
Definition m16_expect (cond : bool) (msg : string) (t : m16_test) : m16_test :=
  if cond then t
  else mk_test (t_dev t) (t_out t) (t_out_size t) (t_fails t + 1)
         (t_printed t ++ [String.append "FAIL: " msg]).

Definition status {A} (r : Z + A) : Z := match r with inl rc => rc | inr _ => 0 end.

(** A call whose status is compared with [rc]. *)
Definition t_call {A} (m : dev_m A) (rc : Z) (msg : string) (t : m16_test) : m16_test :=
  let '(r, d) := m (t_dev t) in m16_expect (status r =? rc) msg (set_t_dev d t).

Definition t_read (name : list Z) (msg : string) (t : m16_test) : option m16_test :=
  let '(r, d) := m16_read_file name (t_out t) (Z.of_nat (length (t_out t))) (t_dev t) in
  let t := set_t_dev d t in
  match r with
  | inl _ => Some (m16_expect false msg t)
  | inr None => None
  | inr (Some (out, size)) => Some (mk_test d out size (t_fails t) (t_printed t))
  end.

(** [out[i] == c && out[j] == c']. *)
Definition t_content (i c j c' : Z) (msg : string) (t : m16_test) : option m16_test :=
  let* x := t_out t !! Z.to_nat i in
  let* y := t_out t !! Z.to_nat j in
  Some (m16_expect ((x =? c) && (y =? c')) msg t).

Definition c_str (s : string) : list Z :=
  ((fun c => Z.of_nat (Ascii.nat_of_ascii c)) <$> list_ascii_of_string s) ++ [0].

Definition hello : list Z := removelast (c_str "hello-m16").
Definition crashy : list Z := removelast (c_str "crash-replay").

(** [dev.blocks[M16_JOURNAL_START + 1u][0] ^= 0x7fu]. *)
Definition corrupt_desc (d : m16_blockdev) : m16_blockdev :=
  let i := Z.to_nat (M16_JOURNAL_START + 1) in
  let b := block_at d (M16_JOURNAL_START + 1) in
  mk_blockdev (<[i := <[0%nat := nthZ b 0 .^ 0x7f]> b]> (blocks d))
    (total_blocks d) (writes d) (fail_after d).

Definition t_hello (t : m16_test) : option m16_test :=
  let t := set_t_dev m16_dev_init t in
  let t := t_call m16_format 0 "format" t in
  let t := t_call m16_fsck 0 "fsck after format" t in
  let t := t_call (m16_write_file (c_str "hello.txt") hello (Z.of_nat (length hello))) 0 "write hello" t in
  let* t := t_read (c_str "hello.txt") "read hello" t in
  let t := m16_expect (t_out_size t =? Z.of_nat (length hello)) "hello size" t in
  let* t := t_content 0 104 8 54 "hello content" t in
  Some (t_call m16_fsck 0 "fsck after hello" t).

Definition t_crash (t : m16_test) : option m16_test :=
  let t := t_call (m16_write_file_ex (c_str "crash.txt") crashy (Z.of_nat (length crashy)) 1) 0
             "write crash transaction until commit record" t in
  let t := t_call m16_journal_recover 0 "journal replay after committed crash" t in
  let* t := t_read (c_str "crash.txt") "read crash after replay" t in
  let t := m16_expect (t_out_size t =? Z.of_nat (length crashy)) "crash size after replay" t in
  let* t := t_content 0 99 11 121 "crash content after replay" t in
  Some (t_call m16_fsck 0 "fsck after replay" t).

Definition t_corrupt (t : m16_test) : m16_test :=
  let t := set_t_dev m16_dev_init t in
  let t := t_call m16_format 0 "format for corrupt test" t in
  let t := t_call (m16_write_file_ex (c_str "bad.txt") crashy (Z.of_nat (length crashy)) 1) 0
             "commit bad transaction" t in
  let t := set_t_dev (corrupt_desc (t_dev t)) t in
  t_call m16_journal_recover M16_E_CORRUPT "corrupt descriptor rejected" t.

(** [main], from what the stack holds in [dev] and [out]: the exit status and
    the lines printed. *)
Definition m16_main (dev : m16_blockdev) (out : list Z) : option (Z * list string) :=
  let* t := t_hello (mk_test dev out 0 0 []) in
  let* t := t_crash t in
  let t := t_corrupt t in
  Some (if t_fails t =? 0 then (0, t_printed t ++ ["M16 host tests PASS"%string])
        else (1, t_printed t)).

(** Whatever the stack holds, every expectation of the host test is met: the
    model agrees with the program's own test. *)
Theorem m16_host_test_passes (dev : m16_blockdev) (out : list Z) :
  length out = 64%nat -> m16_main dev out = Some (0, ["M16 host tests PASS"%string]).
Proof.
  intros Hl. do 64 (destruct out as [|? out]; [discriminate Hl|]).
  destruct out; [|discriminate Hl]. vm_compute. reflexivity.
Qed.
