(* ===== verification/Vmm.v ===== *)
(** * Virtual memory manager ([src/vmm.c], [include/vmm.h])

    Four-level page tables.  The tables live in memory that the code reaches
    through [phys_to_virt]; the model keeps that memory as a map from the
    address of a page to its 512 entries, so that an access through a pointer
    that is no table is undefined.  The allocator behind [alloc_frame] and
    [free_frame] has a state [C] of its own, the callback's [ctx]. *)
From S2P Require Import Prelude.

Definition VMM_PAGE_SIZE : Z := 4096.
Definition VMM_ENTRIES_PER_TABLE : Z := 512.
Definition VMM_INVALID_PHYS : Z := UINT64_MAX.

Definition VMM_PTE_PRESENT : Z := 1 .<< 0.
Definition VMM_PTE_WRITABLE : Z := 1 .<< 1.
Definition VMM_PTE_USER : Z := 1 .<< 2.
Definition VMM_PTE_WRITE_THROUGH : Z := 1 .<< 3.
Definition VMM_PTE_CACHE_DISABLE : Z := 1 .<< 4.
Definition VMM_PTE_HUGE : Z := 1 .<< 7.
Definition VMM_PTE_GLOBAL : Z := 1 .<< 8.
Definition VMM_PTE_NO_EXECUTE : Z := 1 .<< 63.
Definition VMM_PTE_ADDR_MASK : Z := 0x000FFFFFFFFFF000.

Definition VMM_ERR_INVAL : Z := -1.
Definition VMM_ERR_NOMEM : Z := -2.
Definition VMM_ERR_EXISTS : Z := -3.
Definition VMM_ERR_NOT_FOUND : Z := -4.

Definition vmm_is_aligned_4k (value : Z) : bool := value .& (VMM_PAGE_SIZE - 1) =? 0.

Definition vmm_is_canonical (vaddr : Z) : bool :=
  let sign := (vaddr .>> 47) .& 1 in
  let upper := vaddr .>> 48 in
  if negb (sign =? 0) then upper =? 0xFFFF else upper =? 0.

Definition idx_pml4 (vaddr : Z) : Z := (vaddr .>> 39) .& 0x1FF.
Definition idx_pdpt (vaddr : Z) : Z := (vaddr .>> 30) .& 0x1FF.
Definition idx_pd (vaddr : Z) : Z := (vaddr .>> 21) .& 0x1FF.
Definition idx_pt (vaddr : Z) : Z := (vaddr .>> 12) .& 0x1FF.

Record vmm_mapping := mk_mapping {
  map_vaddr : Z;
  map_paddr : Z;
  map_flags : Z
}.

Section vmm.
Context {C : Type}.

(** [struct vmm_space]; [ctx] is in the state, a null callback is [None]. *)
Record vmm_space := mk_space {
  root_paddr : Z;
  alloc_frame : option (C -> option (Z * C));
  free_frame : option (C -> Z -> option C);
  phys_to_virt : option (C -> Z -> Z)
}.

Record vm_state := mk_vm {
  ctx : C;
  mem : gmap Z (list Z);
  tlb : list Z   (* pages invalidated so far, latest first *)
}.

Definition vm (A : Type) : Type := em vm_state A.

(** [table[index]] and [table[index] = e]. *)
Definition rd_entry (table index : Z) : vm Z := fun s =>
  let* t := mem s !! table in
  let* e := t !! Z.to_nat index in
  Some (inr e, s).

Definition wr_entry (table index e : Z) : vm unit := fun s =>
  let* t := mem s !! table in
  let* _ := t !! Z.to_nat index in
  Some (inr tt, mk_vm (ctx s) (<[table := <[Z.to_nat index := e]> t]> (mem s)) (tlb s)).

Definition vmm_zero_page (page : Z) : vm unit := fun s =>
  let* t := mem s !! page in
  let* t' := fill_loop (Z.to_nat VMM_ENTRIES_PER_TABLE) 0 t in
  Some (inr tt, mk_vm (ctx s) (<[page := t']> (mem s)) (tlb s)).

(** Calls through the callbacks. *)
Definition call_alloc (f : C -> option (Z * C)) : vm Z := fun s =>
  let* r := f (ctx s) in Some (inr r.1, mk_vm r.2 (mem s) (tlb s)).
Definition call_free (f : C -> Z -> option C) (p : Z) : vm unit := fun s =>
  let* c := f (ctx s) p in Some (inr tt, mk_vm c (mem s) (tlb s)).

(** 0 is the null pointer. *)
Definition table_from_phys (space : option vmm_space) (paddr : Z) : vm Z := fun s =>
  match space with
  | None => Some (inr 0, s)
  | Some sp =>
      match phys_to_virt sp with
      | None => Some (inr 0, s)
      | Some f =>
          if negb (vmm_is_aligned_4k paddr) then Some (inr 0, s)
          else Some (inr (f (ctx s) paddr), s)
      end
  end.

Definition get_or_alloc_next_table (space : vmm_space) (table index : Z) : vm Z :=
  let? entry := rd_entry table index in
  if negb (entry .& VMM_PTE_PRESENT =? 0) then
    if negb (entry .& VMM_PTE_HUGE =? 0) then efail VMM_ERR_EXISTS else
    let? next := table_from_phys (Some space) (entry .& VMM_PTE_ADDR_MASK) in
    if next =? 0 then efail VMM_ERR_INVAL else eret next
  else
  match alloc_frame space with
  | None => efail VMM_ERR_NOMEM
  | Some alloc =>
      let? new_paddr := call_alloc alloc in
      if (new_paddr =? VMM_INVALID_PHYS) || negb (vmm_is_aligned_4k new_paddr)
      then efail VMM_ERR_NOMEM else
      let? new_table := table_from_phys (Some space) new_paddr in
      if new_table =? 0 then
        match free_frame space with
        | Some free => call_free free new_paddr ;? efail VMM_ERR_INVAL
        | None => efail VMM_ERR_INVAL
        end
      else
      vmm_zero_page new_table ;?
      wr_entry table index
        ((new_paddr .& VMM_PTE_ADDR_MASK) .| VMM_PTE_PRESENT .| VMM_PTE_WRITABLE) ;?
      eret new_table
  end.

(** The space that [vmm_space_init] fills in. *)
Definition vmm_space_init (root : Z) (alloc : option (C -> option (Z * C)))
    (free : option (C -> Z -> option C)) (p2v : option (C -> Z -> Z)) : Z + vmm_space :=
  if match p2v with None => true | Some _ => false end || negb (vmm_is_aligned_4k root)
  then inl VMM_ERR_INVAL
  else inr (mk_space root alloc free p2v).

Definition allowed : Z :=
  VMM_PTE_WRITABLE .| VMM_PTE_USER .| VMM_PTE_WRITE_THROUGH .| VMM_PTE_CACHE_DISABLE
  .| VMM_PTE_GLOBAL .| VMM_PTE_NO_EXECUTE.

Definition vmm_map_page (space : option vmm_space) (vaddr paddr flags : Z) : vm unit :=
  match space with
  | None => efail VMM_ERR_INVAL
  | Some sp =>
      if negb (vmm_is_canonical vaddr) || negb (vmm_is_aligned_4k vaddr)
         || negb (vmm_is_aligned_4k paddr) then efail VMM_ERR_INVAL else
      let? pml4 := table_from_phys space (root_paddr sp) in
      if pml4 =? 0 then efail VMM_ERR_INVAL else
      let? pdpt := get_or_alloc_next_table sp pml4 (idx_pml4 vaddr) in
      let? pd := get_or_alloc_next_table sp pdpt (idx_pdpt vaddr) in
      let? pt := get_or_alloc_next_table sp pd (idx_pd vaddr) in
      let? e := rd_entry pt (idx_pt vaddr) in
      if negb (e .& VMM_PTE_PRESENT =? 0) then efail VMM_ERR_EXISTS else
      wr_entry pt (idx_pt vaddr)
        ((paddr .& VMM_PTE_ADDR_MASK) .| VMM_PTE_PRESENT .| (flags .& allowed))
  end.

(** One level of the walk that [vmm_query_page] and [vmm_unmap_page] spell
    out three times each. *)
Definition walk_step (space : option vmm_space) (table index : Z) : vm Z :=
  let? e := rd_entry table index in
  if (e .& VMM_PTE_PRESENT =? 0) || negb (e .& VMM_PTE_HUGE =? 0)
  then efail VMM_ERR_NOT_FOUND else
  let? next := table_from_phys space (e .& VMM_PTE_ADDR_MASK) in
  if next =? 0 then efail VMM_ERR_INVAL else eret next.

Definition vmm_query_page (space : option vmm_space) (vaddr : Z) : vm vmm_mapping :=
  match space with
  | None => efail VMM_ERR_INVAL
  | Some sp =>
      if negb (vmm_is_canonical vaddr) || negb (vmm_is_aligned_4k vaddr)
      then efail VMM_ERR_INVAL else
      let? pml4 := table_from_phys space (root_paddr sp) in
      if pml4 =? 0 then efail VMM_ERR_INVAL else
      let? pdpt := walk_step space pml4 (idx_pml4 vaddr) in
      let? pd := walk_step space pdpt (idx_pdpt vaddr) in
      let? pt := walk_step space pd (idx_pd vaddr) in
      let? e := rd_entry pt (idx_pt vaddr) in
      if e .& VMM_PTE_PRESENT =? 0 then efail VMM_ERR_NOT_FOUND else
      eret (mk_mapping vaddr (e .& VMM_PTE_ADDR_MASK) (e .& u64 (Z.lnot VMM_PTE_ADDR_MASK)))
  end.

Definition vmm_invalidate_page (vaddr : Z) : vm unit := fun s =>
  Some (inr tt, mk_vm (ctx s) (mem s) (vaddr :: tlb s)).

Definition vmm_unmap_page (space : option vmm_space) (vaddr : Z) : vm unit :=
  match space with
  | None => efail VMM_ERR_INVAL
  | Some sp =>
      if negb (vmm_is_canonical vaddr) || negb (vmm_is_aligned_4k vaddr)
      then efail VMM_ERR_INVAL else
      let? pml4 := table_from_phys space (root_paddr sp) in
      if pml4 =? 0 then efail VMM_ERR_INVAL else
      let? pdpt := walk_step space pml4 (idx_pml4 vaddr) in
      let? pd := walk_step space pdpt (idx_pdpt vaddr) in
      let? pt := walk_step space pd (idx_pd vaddr) in
      let? e := rd_entry pt (idx_pt vaddr) in
      if e .& VMM_PTE_PRESENT =? 0 then efail VMM_ERR_NOT_FOUND else
      wr_entry pt (idx_pt vaddr) 0 ;?
      vmm_invalidate_page vaddr
  end.
End vmm.
Arguments vmm_space : clear implicits.
Arguments vm_state : clear implicits.

(** ** The interface to the frame allocator

    What the page-table code expects of its callbacks. [fe_avail c p] means
    that frame [p] may still be handed out in state [c]; allocation fails only
    when there is none. *)
Class FrameEnv (C : Type) := {
  fe_alloc : C -> option (Z * C);
  fe_free : C -> Z -> option C;
  fe_p2v : Z -> Z;
  fe_ok : C -> Prop;
  fe_avail : C -> Z -> Prop;
  fe_alloc_spec c : fe_ok c ->
    exists a c', fe_alloc c = Some (a, c') /\ fe_ok c'
      /\ ((a = VMM_INVALID_PHYS /\ c' = c /\ forall x, ~ fe_avail c x)
          \/ (fe_avail c a /\ 0 <= a < 2 ^ 52 /\ a mod 4096 = 0
              /\ forall x, fe_avail c' x <-> fe_avail c x /\ x <> a));
  fe_free_spec c c' a : fe_ok c -> fe_alloc c = Some (a, c') -> a <> VMM_INVALID_PHYS ->
    exists c'', fe_free c' a = Some c'' /\ fe_ok c''
      /\ forall x, fe_avail c'' x <-> fe_avail c x;
  fe_p2v_inj p q : fe_p2v p = fe_p2v q -> fe_p2v p <> 0 -> p = q
}.
