(* ===== verification/VmmFacts.v ===== *)
(** * Virtual memory manager: facts

    The tables of an address space form a tree.  A ghost map [T] records it:
    [T !! path] is the frame of the table reached by the indices [path] from
    the root.  [vm_ok] relates [T] to memory; [leaf] is the address space
    that the tree stands for, a function from four indices to the entry. *)
From S2P Require Import Prelude Bitmap Vmm.

(** ** Entries *)

Lemma addr_mask_spec x : 0 <= x -> x .& VMM_PTE_ADDR_MASK = (x mod 2 ^ 52) / 4096 * 4096.
Proof.
  intros Hx. change VMM_PTE_ADDR_MASK with (Z.ldiff (2 ^ 52 - 1) (2 ^ 12 - 1)).
  change 4096 with (2 ^ 12). rewrite <- ldiff_ones by lia.
  rewrite <- (land_ones x 52) by lia. apply Z.bits_inj'. intros i Hi.
  rewrite Z.land_spec, !Z.ldiff_spec, Z.land_spec. by destruct (Z.testbit x i).
Qed.

Lemma addr_mask_frame p : 0 <= p < 2 ^ 52 -> p mod 4096 = 0 -> p .& VMM_PTE_ADDR_MASK = p.
Proof.
  intros Hp Ha. rewrite addr_mask_spec by lia. rewrite (Z.mod_small p) by done.
  pose proof (Z.div_mod p 4096). lia.
Qed.

Lemma addr_mask_ok x :
  0 <= x -> 0 <= x .& VMM_PTE_ADDR_MASK < 2 ^ 52 /\ (x .& VMM_PTE_ADDR_MASK) mod 4096 = 0.
Proof.
  intros Hx. rewrite addr_mask_spec by lia.
  pose proof (Z.mod_pos_bound x (2 ^ 52)). pose proof (Z.div_mod (x mod 2 ^ 52) 4096).
  pose proof (Z.mod_pos_bound (x mod 2 ^ 52) 4096).
  split; [|apply Z_mod_mult]. split; [apply Z.mul_nonneg_nonneg; [apply Z.div_pos; lia|lia]|lia].
Qed.

Lemma aligned_spec v : vmm_is_aligned_4k v = (v mod 4096 =? 0).
Proof.
  unfold vmm_is_aligned_4k. change (VMM_PAGE_SIZE - 1) with (2 ^ 12 - 1).
  by rewrite land_ones by lia.
Qed.

Lemma mask_low x k : Z.land VMM_PTE_ADDR_MASK k = 0 -> (x .& VMM_PTE_ADDR_MASK) .& k = 0.
Proof. intros H. by rewrite <- Z.land_assoc, H, Z.land_0_r. Qed.

(** The entry that links a new table. *)
Lemma table_entry p :
  0 <= p < 2 ^ 52 -> p mod 4096 = 0 ->
  let e := (p .& VMM_PTE_ADDR_MASK) .| VMM_PTE_PRESENT .| VMM_PTE_WRITABLE in
  e .& VMM_PTE_PRESENT <> 0 /\ e .& VMM_PTE_HUGE = 0 /\ e .& VMM_PTE_ADDR_MASK = p
  /\ in_u 64 e.
Proof.
  intros Hp Ha e. subst e. rewrite !Z.land_lor_distr_l, !mask_low by done.
  rewrite <- (Z.land_assoc p), Z.land_diag.
  split; [done|]. split; [done|]. split.
  - rewrite addr_mask_frame by done.
    change (VMM_PTE_PRESENT .& VMM_PTE_ADDR_MASK) with 0.
    change (VMM_PTE_WRITABLE .& VMM_PTE_ADDR_MASK) with 0. by rewrite !Z.lor_0_r.
  - rewrite addr_mask_frame by done.
    repeat apply lor_in_u; try done. unfold in_u. lia.
Qed.

(** The entry that maps a page. *)
Lemma page_entry p f :
  0 <= p ->
  let e := (p .& VMM_PTE_ADDR_MASK) .| VMM_PTE_PRESENT .| (f .& allowed) in
  e .& VMM_PTE_PRESENT <> 0 /\ e .& VMM_PTE_ADDR_MASK = p .& VMM_PTE_ADDR_MASK
  /\ e .& u64 (Z.lnot VMM_PTE_ADDR_MASK) = VMM_PTE_PRESENT .| (f .& allowed).
Proof.
  intros Hp e. subst e. rewrite !Z.land_lor_distr_l, !mask_low by done.
  rewrite <- !Z.land_assoc, Z.land_diag.
  change (allowed .& VMM_PTE_PRESENT) with 0. change (allowed .& VMM_PTE_ADDR_MASK) with 0.
  change (allowed .& u64 (Z.lnot VMM_PTE_ADDR_MASK)) with allowed.
  rewrite Z.land_0_r. change (VMM_PTE_PRESENT .& VMM_PTE_ADDR_MASK) with 0.
  change (VMM_PTE_PRESENT .& u64 (Z.lnot VMM_PTE_ADDR_MASK)) with VMM_PTE_PRESENT.
  change (VMM_PTE_ADDR_MASK .& VMM_PTE_ADDR_MASK) with VMM_PTE_ADDR_MASK.
  change (VMM_PTE_ADDR_MASK .& u64 (Z.lnot VMM_PTE_ADDR_MASK)) with 0.
  rewrite Z.land_0_r, !Z.lor_0_r, !Z.lor_0_l. done.
Qed.

Lemma page_entry_u64 p f :
  0 <= p -> in_u 64 ((p .& VMM_PTE_ADDR_MASK) .| VMM_PTE_PRESENT .| (f .& allowed)).
Proof.
  intros Hp. destruct (addr_mask_ok p Hp) as [Hm _].
  repeat apply lor_in_u; try done; [unfold in_u; lia|].
  rewrite Z.land_comm. by apply land_in_u.
Qed.

(** ** Virtual addresses *)

Lemma idx_bound v k : 0 <= (v .>> k) .& 0x1FF < 512.
Proof.
  change 0x1FF with (2 ^ 9 - 1). rewrite land_ones by lia. apply Z.mod_pos_bound. lia.
Qed.

Definition path (v : Z) : list Z := [idx_pml4 v; idx_pdpt v; idx_pd v].

(** A canonical page address is determined by its four indices. *)
Lemma indices_inj v w :
  0 <= v < 2 ^ 64 -> 0 <= w < 2 ^ 64 ->
  vmm_is_canonical v = true -> vmm_is_canonical w = true ->
  vmm_is_aligned_4k v = true -> vmm_is_aligned_4k w = true ->
  path v = path w -> idx_pt v = idx_pt w -> v = w.
Proof.
  unfold vmm_is_canonical. rewrite !aligned_spec. unfold path, idx_pml4, idx_pdpt, idx_pd, idx_pt.
  change 0x1FF with (2 ^ 9 - 1). change (v .>> 47 .& 1) with (v .>> 47 .& (2 ^ 1 - 1)).
  change (w .>> 47 .& 1) with (w .>> 47 .& (2 ^ 1 - 1)).
  rewrite !land_ones, !Z.shiftr_div_pow2 by lia.
  intros Hv Hw Cv Cw Av Aw [= P1 P2 P3] P4. zbool.
  assert (v / 2 ^ 48 = 0 /\ (v / 2 ^ 47) mod 2 = 0 \/ v / 2 ^ 48 = 0xFFFF /\ (v / 2 ^ 47) mod 2 = 1) as Cv'.
  { change (2 ^ 1) with 2 in Cv. destruct (Z.eqb_spec ((v / 2 ^ 47) mod 2) 0); simpl in Cv; zbool;
      pose proof (Z.mod_pos_bound (v / 2 ^ 47) 2); lia. }
  assert (w / 2 ^ 48 = 0 /\ (w / 2 ^ 47) mod 2 = 0 \/ w / 2 ^ 48 = 0xFFFF /\ (w / 2 ^ 47) mod 2 = 1) as Cw'.
  { change (2 ^ 1) with 2 in Cw. destruct (Z.eqb_spec ((w / 2 ^ 47) mod 2) 0); simpl in Cw; zbool;
      pose proof (Z.mod_pos_bound (w / 2 ^ 47) 2); lia. }
  clear Cv Cw.
  change (2 ^ 48) with 281474976710656 in *. change (2 ^ 47) with 140737488355328 in *.
  change (2 ^ 39) with 549755813888 in *. change (2 ^ 30) with 1073741824 in *.
  change (2 ^ 21) with 2097152 in *. change (2 ^ 12) with 4096 in *. change (2 ^ 9) with 512 in *.
  Z.to_euclidean_division_equations. lia.
Qed.

(** ** The tree of tables *)

Section tree.
Context {C : Type} `{!FrameEnv C} (root : Z).
Implicit Types (s : vm_state C) (T : gmap (list Z) Z).

(** The space that [vmm_space_init] sets up over the environment. *)
Definition the_space : vmm_space C :=
  mk_space root (Some fe_alloc) (Some fe_free) (Some (fun _ => fe_p2v)).

Record vm_ok T s : Prop := mk_vm_ok {
  ok_env : fe_ok (ctx s);
  ok_root : T !! [] = Some root;
  ok_tab a p : T !! a = Some p ->
    0 <= p < 2 ^ 52 /\ p mod 4096 = 0 /\ fe_p2v p <> 0 /\ ~ fe_avail (ctx s) p
    /\ (length a <= 3)%nat
    /\ exists t, mem s !! fe_p2v p = Some t /\ length t = 512%nat /\ Forall (in_u 64) t;
  ok_inj a b p : T !! a = Some p -> T !! b = Some p -> a = b;
  ok_link a p t i e : T !! a = Some p -> (length a < 3)%nat ->
    mem s !! fe_p2v p = Some t -> 0 <= i -> t !! Z.to_nat i = Some e ->
    if e .& VMM_PTE_PRESENT =? 0 then T !! (a ++ [i]) = None
    else e .& VMM_PTE_HUGE = 0 /\ T !! (a ++ [i]) = Some (e .& VMM_PTE_ADDR_MASK);
  ok_pre a i q : T !! (a ++ [i]) = Some q -> 0 <= i < 512 /\ exists p, T !! a = Some p;
  ok_pages p : fe_avail (ctx s) p -> fe_p2v p <> 0 ->
    exists t, mem s !! fe_p2v p = Some t /\ length t = 512%nat
}.

(** The entry that the tree holds for a path of three tables and a last index;
    0 where a table is missing. *)
Definition leaf T s (a : list Z) (i : Z) : Z :=
  match T !! a with
  | Some p => match mem s !! fe_p2v p with Some t => nthZ t i | None => 0 end
  | None => 0
  end.

Lemma rd_entry_ok T s a p i :
  vm_ok T s -> T !! a = Some p -> 0 <= i < 512 ->
  exists t e, mem s !! fe_p2v p = Some t /\ length t = 512%nat /\ Forall (in_u 64) t
    /\ t !! Z.to_nat i = Some e /\ in_u 64 e
    /\ rd_entry (fe_p2v p) i s = Some (inr e, s).
Proof.
  intros Hok Ha Hi. destruct (ok_tab _ _ Hok _ _ Ha) as (_ & _ & _ & _ & _ & t & Ht & Hl & Hf).
  destruct (lookup_lt_is_Some_2 t (Z.to_nat i)) as [e He]; [lia|].
  exists t, e. split_all; try done; [by eapply Forall_lookup_1 in He|].
  unfold rd_entry. by rewrite Ht, He.
Qed.

Lemma wr_entry_ok s ptr t i e0 e :
  mem s !! ptr = Some t -> t !! Z.to_nat i = Some e0 ->
  wr_entry ptr i e s
  = Some (inr tt, mk_vm (ctx s) (<[ptr := <[Z.to_nat i := e]> t]> (mem s)) (tlb s)).
Proof. intros Ht He. unfold wr_entry. by rewrite Ht, He. Qed.

Lemma table_from_phys_ok s p :
  p mod 4096 = 0 -> table_from_phys (Some the_space) p s = Some (inr (fe_p2v p), s).
Proof.
  intros Hp. unfold table_from_phys. simpl. rewrite aligned_spec, Hp. done.
Qed.

Lemma walk_step_ok T s a p i :
  vm_ok T s -> T !! a = Some p -> (length a < 3)%nat -> 0 <= i < 512 ->
  walk_step (Some the_space) (fe_p2v p) i s
  = Some (match T !! (a ++ [i]) with
          | Some q => inr (fe_p2v q) | None => inl VMM_ERR_NOT_FOUND end, s).
Proof.
  intros Hok Ha Hl Hi.
  destruct (rd_entry_ok T s a p i) as (t & e & Ht & Htl & _ & He & Hu & Hrd); [done..|].
  unfold walk_step, ebind. rewrite Hrd.
  pose proof (ok_link _ _ Hok a p t i e Ha Hl Ht (proj1 Hi) He) as Hk.
  destruct (e .& VMM_PTE_PRESENT =? 0); cbn [orb]; [by rewrite Hk|].
  destruct Hk as [-> Hk]. rewrite Hk. cbn [negb Z.eqb].
  destruct (ok_tab _ _ Hok _ _ Hk) as (_ & Hm & Hnz & _).
  rewrite table_from_phys_ok by done. rewrite (proj2 (Z.eqb_neq _ 0)) by done. done.
Qed.

(** The three steps from the root. *)
Lemma walk3_ok {A} T s v (k : Z -> vm A) :
  vm_ok T s ->
  (let? pml4 := table_from_phys (Some the_space) root in
   if pml4 =? 0 then efail VMM_ERR_INVAL else
   let? pdpt := walk_step (Some the_space) pml4 (idx_pml4 v) in
   let? pd := walk_step (Some the_space) pdpt (idx_pdpt v) in
   let? pt := walk_step (Some the_space) pd (idx_pd v) in k pt) s
  = match T !! path v with
    | Some q => k (fe_p2v q) s
    | None => Some (inl VMM_ERR_NOT_FOUND, s)
    end.
Proof.
  intros Hok. pose proof (ok_root _ _ Hok) as H0.
  destruct (ok_tab _ _ Hok _ _ H0) as (_ & Hm & Hnz & _).
  unfold ebind at 1. rewrite table_from_phys_ok by done.
  rewrite (proj2 (Z.eqb_neq _ 0)) by done.
  unfold ebind at 1. rewrite (walk_step_ok T s []) by (done || apply idx_bound || (simpl; lia)).
  assert (Hnone : forall a i, T !! a = None -> T !! (a ++ [i]) = None).
  { intros a i Ha. destruct (T !! (a ++ [i])) eqn:E; [|done].
    apply (ok_pre _ _ Hok) in E as (_ & p & Hp). congruence. }
  change (path v) with (([idx_pml4 v] ++ [idx_pdpt v]) ++ [idx_pd v]). cbn [app].
  destruct (T !! [idx_pml4 v]) as [q1|] eqn:E1.
  - unfold ebind at 1.
    rewrite (walk_step_ok T s [idx_pml4 v]) by (done || apply idx_bound || (simpl; lia)).
    cbn [app]. destruct (T !! [idx_pml4 v; idx_pdpt v]) as [q2|] eqn:E2.
    + unfold ebind at 1.
      rewrite (walk_step_ok T s [idx_pml4 v; idx_pdpt v])
        by (done || apply idx_bound || (simpl; lia)).
      cbn [app]. by destruct (T !! [idx_pml4 v; idx_pdpt v; idx_pd v]).
    + pose proof (Hnone [_; _] (idx_pd v) E2) as H3. cbn [app] in H3. by rewrite H3.
  - pose proof (Hnone [_] (idx_pdpt v) E1) as H2. cbn [app] in H2.
    pose proof (Hnone [_; _] (idx_pd v) H2) as H3. cbn [app] in H3. by rewrite H3.
Qed.

Definition valid_va (v : Z) : Prop :=
  0 <= v < 2 ^ 64 /\ vmm_is_canonical v = true /\ vmm_is_aligned_4k v = true.

(** What [vmm_query_page] reports for an entry. *)
Definition mapping_of (v e : Z) : Z + vmm_mapping :=
  if e .& VMM_PTE_PRESENT =? 0 then inl VMM_ERR_NOT_FOUND
  else inr (mk_mapping v (e .& VMM_PTE_ADDR_MASK) (e .& u64 (Z.lnot VMM_PTE_ADDR_MASK))).

Lemma query_ok T s v :
  vm_ok T s -> valid_va v ->
  vmm_query_page (Some the_space) v s = Some (mapping_of v (leaf T s (path v) (idx_pt v)), s).
Proof.
  intros Hok (Hv & Hc & Ha). unfold vmm_query_page. rewrite Hc, Ha. cbn [negb orb root_paddr the_space].
  rewrite (walk3_ok T s v) by done. unfold leaf.
  destruct (T !! path v) as [q|] eqn:E; [|done].
  destruct (rd_entry_ok T s (path v) q (idx_pt v)) as (t & e & -> & _ & _ & He & _ & Hrd);
    [done..|apply idx_bound|].
  unfold ebind. rewrite Hrd. unfold nthZ, mapping_of. rewrite He. cbn [default from_option id].
  by case_if.
Qed.

Lemma p2v_ne T s a b p q :
  vm_ok T s -> T !! a = Some p -> T !! b = Some q -> a <> b -> fe_p2v p <> fe_p2v q.
Proof.
  intros Hok Ha Hb Hne E. apply Hne, (ok_inj _ _ Hok _ _ p); [done|].
  rewrite (fe_p2v_inj _ _ E); [done|]. by destruct (ok_tab _ _ Hok _ _ Ha) as (_ & _ & ? & _).
Qed.

(** Writing an entry of a last-level table. *)
Lemma wr_leaf_ok T s a q t i e l :
  vm_ok T s -> T !! a = Some q -> length a = 3%nat -> mem s !! fe_p2v q = Some t ->
  0 <= i < 512 -> in_u 64 e ->
  let s' := mk_vm (ctx s) (<[fe_p2v q := <[Z.to_nat i := e]> t]> (mem s)) l in
  vm_ok T s' /\ leaf T s' a i = e
  /\ forall b j, 0 <= j -> b <> a \/ j <> i -> leaf T s' b j = leaf T s b j.
Proof.
  intros Hok Ha Hl Ht Hi Hu s'.
  destruct (ok_tab _ _ Hok _ _ Ha) as (_ & _ & _ & Hav & _ & t0 & Ht0 & Htl & Htu).
  simplify_eq.
  assert (Hm : forall b p, T !! b = Some p -> b <> a -> mem s' !! fe_p2v p = mem s !! fe_p2v p).
  { intros b p Hb Hne. apply lookup_insert_ne. eapply p2v_ne; eauto. }
  assert (Hme : mem s' !! fe_p2v q = Some (<[Z.to_nat i := e]> t)) by apply lookup_insert_eq.
  destruct Hok as [K1 K2 K3 K4 K5 K6 K7]. split_all.
  - split; try done.
    + intros b p Hb. destruct (K3 b p Hb) as (? & ? & ? & ? & ? & tb & Htb & ? & ?).
      split_all; try done; try lia. destruct (decide (b = a)) as [->|Hne].
      * simplify_eq. eexists. split; [exact Hme|]. rewrite length_insert.
        split; [done|by apply Forall_insert].
      * exists tb. rewrite (Hm b) by done. done.
    + intros b p tb j eb Hb Hbl Htb. assert (b <> a) by (intros ->; lia).
      rewrite (Hm b p) in Htb by done. by eapply K5.
    + intros p Hp Hnz. destruct (K7 p Hp Hnz) as (tp & Htp & ?).
      exists tp. split; [|done]. rewrite <- Htp. apply lookup_insert_ne. intros E.
      apply Hav. rewrite (fe_p2v_inj q p) by congruence. done.
  - unfold leaf. rewrite Ha, Hme. unfold nthZ. rewrite list_lookup_insert_eq by lia. done.
  - intros b j Hj Hne. unfold leaf. destruct (T !! b) as [p|] eqn:Hb; [|done].
    destruct (decide (b = a)) as [->|Hba]; [|by rewrite (Hm b)].
    destruct Hne as [?|Hji]; [done|].
    simplify_eq. rewrite Hme, Ht. unfold nthZ. rewrite list_lookup_insert_ne by lia. done.
Qed.

(** Linking a fresh zeroed table. *)
Section link.
Context (T : gmap (list Z) Z) (s : vm_state C) (a : list Z) (p i q : Z) (c' : C)
  (t : list Z) (e0 : Z).
Hypothesis Hok : vm_ok T s.
Hypothesis Ha : T !! a = Some p.
Hypothesis Hl : (length a < 3)%nat.
Hypothesis Hi : 0 <= i < 512.
Hypothesis Ht : mem s !! fe_p2v p = Some t.
Hypothesis He0 : t !! Z.to_nat i = Some e0.
Hypothesis Hnp : e0 .& VMM_PTE_PRESENT = 0.
Hypothesis Hc' : fe_ok c'.
Hypothesis Hq : fe_avail (ctx s) q.
Hypothesis Hqr : 0 <= q < 2 ^ 52.
Hypothesis Hqa : q mod 4096 = 0.
Hypothesis Hqz : fe_p2v q <> 0.
Hypothesis Hav : forall x, fe_avail c' x <-> fe_avail (ctx s) x /\ x <> q.

Let e := (q .& VMM_PTE_ADDR_MASK) .| VMM_PTE_PRESENT .| VMM_PTE_WRITABLE.
Let T' := <[a ++ [i] := q]> T.
Let s' := mk_vm c' (<[fe_p2v p := <[Z.to_nat i := e]> t]>
                    (<[fe_p2v q := replicate 512 0]> (mem s))) (tlb s).

Lemma link_fresh : T !! (a ++ [i]) = None.
Proof.
  pose proof (ok_link _ _ Hok a p t i e0 Ha Hl Ht (proj1 Hi) He0) as H.
  by rewrite Hnp in H.
Qed.

Lemma link_ne b r : T !! b = Some r -> fe_p2v r <> fe_p2v q.
Proof.
  intros Hb E. destruct (ok_tab _ _ Hok _ _ Hb) as (_ & _ & Hz & Hna & _).
  apply Hna. by rewrite (fe_p2v_inj _ _ E).
Qed.

Lemma link_mem_other b r : T !! b = Some r -> b <> a -> mem s' !! fe_p2v r = mem s !! fe_p2v r.
Proof.
  intros Hb Hne. pose proof (link_ne b r Hb). pose proof (p2v_ne T s a b p r Hok Ha Hb).
  simpl. rewrite !lookup_insert_ne; auto.
Qed.

Lemma link_mem_a : mem s' !! fe_p2v p = Some (<[Z.to_nat i := e]> t).
Proof. apply lookup_insert_eq. Qed.

Lemma link_mem_q : mem s' !! fe_p2v q = Some (replicate 512 0).
Proof.
  simpl. rewrite lookup_insert_ne by (by eapply link_ne). apply lookup_insert_eq.
Qed.

Lemma link_T b : T' !! b = if decide (b = a ++ [i]) then Some q else T !! b.
Proof.
  unfold T'. case_decide as E; [subst; apply lookup_insert_eq|by apply lookup_insert_ne].
Qed.

(** An entry of a table above the last level names the table below it. *)
Lemma link_entry b r tb j eb :
  T' !! b = Some r -> (length b < 3)%nat -> mem s' !! fe_p2v r = Some tb -> 0 <= j ->
  tb !! Z.to_nat j = Some eb ->
  if eb .& VMM_PTE_PRESENT =? 0 then T' !! (b ++ [j]) = None
  else eb .& VMM_PTE_HUGE = 0 /\ T' !! (b ++ [j]) = Some (eb .& VMM_PTE_ADDR_MASK).
Proof.
  destruct (table_entry q Hqr Hqa) as (E1 & E2 & E3 & E4). fold e in E1, E2, E3, E4.
  rewrite !link_T. intros Hb Hbl Htb Hj Heb. case_decide as Eb.
  - injection Hb as <-. subst b. rewrite link_mem_q in Htb. apply (inj Some) in Htb; subst tb.
    apply lookup_replicate in Heb as [-> _]. simpl.
    rewrite decide_False by (intros E%(f_equal length); rewrite !length_app in E; simpl in E; lia).
    destruct (T !! ((a ++ [i]) ++ [j])) eqn:E; [|done].
    apply (ok_pre _ _ Hok) in E as (_ & x & Hx). pose proof link_fresh. congruence.
  - destruct (decide (b = a)) as [->|Hne].
    + simplify_eq. rewrite link_mem_a in Htb. apply (inj Some) in Htb; subst tb.
      destruct (decide (j = i)) as [->|Hji].
      * rewrite list_lookup_insert_eq in Heb by (by eapply lookup_lt_Some).
        injection Heb as <-. rewrite (proj2 (Z.eqb_neq _ _)), decide_True by done. by rewrite E3.
      * rewrite list_lookup_insert_ne in Heb by lia.
        rewrite decide_False by (intros E%app_inj_tail; naive_solver).
        by eapply (ok_link _ _ Hok).
    + rewrite (link_mem_other b r) in Htb by done.
      rewrite decide_False by (intros E%app_inj_tail; naive_solver).
      by eapply (ok_link _ _ Hok).
Qed.

Lemma link_ok : vm_ok T' s'.
Proof.
  destruct (table_entry q Hqr Hqa) as (E1 & E2 & E3 & E4). fold e in E1, E2, E3, E4.
  pose proof link_fresh as Hfr. split.
  - done.
  - rewrite link_T, decide_False by (by destruct a). apply (ok_root _ _ Hok).
  - intros b r. rewrite link_T. case_decide as Eb.
    + intros [= <-]. subst b. rewrite length_app. simpl. split_all; try done; try lia.
      * rewrite Hav. tauto.
      * eexists. split; [apply link_mem_q|]. split; [done|]. apply Forall_replicate. unfold in_u. lia.
    + intros Hb. destruct (ok_tab _ _ Hok _ _ Hb) as (? & ? & ? & ? & ? & tb & Htb & ? & ?).
      split_all; try done; try lia; [change (ctx s') with c'; rewrite Hav; tauto|].
      destruct (decide (b = a)) as [->|Hne].
      * simplify_eq. eexists. split; [apply link_mem_a|]. rewrite length_insert.
        split; [done|by apply Forall_insert].
      * exists tb. by rewrite (link_mem_other b).
  - intros b1 b2 r. rewrite !link_T.
    assert (Hno : forall b, T !! b <> Some q).
    { intros b Hb. by apply (link_ne b q). }
    repeat case_decide; intros H1 H2; simplify_eq; try done;
      try (by destruct (Hno b1)); try (by destruct (Hno b2)). by eapply (ok_inj _ _ Hok).
  - exact link_entry.
  - intros b j r. rewrite !link_T. case_decide as Eb; intros Hb.
    + apply app_inj_tail in Eb as [-> ->]. split; [done|]. exists p.
      rewrite decide_False; [done|]. intros E%(f_equal length). rewrite length_app in E. simpl in E. lia.
    + apply (ok_pre _ _ Hok) in Hb as (Hj & x & Hx). split; [done|].
      case_decide; [by exists q|by exists x].
  - intros x [Hx Hne]%Hav Hz. destruct (ok_pages _ _ Hok x Hx Hz) as (tx & Htx & ?).
    exists tx. split; [|done]. rewrite <- Htx. simpl. rewrite !lookup_insert_ne; [done| |].
    + intros E. apply Hne. symmetry. by apply fe_p2v_inj.
    + intros E. destruct (ok_tab _ _ Hok _ _ Ha) as (_ & _ & Hpz & Hna & _).
      apply Hna. by rewrite (fe_p2v_inj p x).
Qed.

Lemma link_leaf b j : length b = 3%nat -> leaf T' s' b j = leaf T s b j.
Proof.
  intros Hb. unfold leaf. rewrite link_T. case_decide as Eb.
  - subst b. rewrite link_fresh, link_mem_q. unfold nthZ.
    destruct (replicate 512 0 !! Z.to_nat j) eqn:E; [|done].
    by apply lookup_replicate in E as [-> _].
  - destruct (T !! b) as [r|] eqn:E; [|done]. rewrite (link_mem_other b r); [done|done|].
    intros ->. lia.
Qed.
End link.

(** The allocator state may change as long as it keeps its promises. *)
Lemma vm_ok_ctx T s c :
  vm_ok T s -> fe_ok c -> (forall x, fe_avail c x <-> fe_avail (ctx s) x) ->
  vm_ok T (mk_vm c (mem s) (tlb s)).
Proof.
  intros [K1 K2 K3 K4 K5 K6 K7] Hc Hx. split; try done.
  - intros a p Ha. destruct (K3 a p Ha) as (? & ? & ? & ? & ? & ?).
    split_all; try done; try lia. simpl. by rewrite Hx.
  - intros p Hp. apply K7. by apply Hx.
Qed.

(** What a step of [vmm_map_page] may do to the tree: grow it, without any
    effect on the address space. *)
Definition grown T s T' s' : Prop :=
  vm_ok T' s' /\ T ⊆ T' /\ tlb s' = tlb s
  /\ (forall x, fe_avail (ctx s') x -> fe_avail (ctx s) x)
  /\ forall b j, length b = 3%nat -> leaf T' s' b j = leaf T s b j.

(** Why a step failed: no frame is left, or a frame has no address. *)
Definition out_of_frames s s' (rc : Z) : Prop :=
  (rc = VMM_ERR_NOMEM /\ forall x, ~ fe_avail (ctx s') x)
  \/ (rc = VMM_ERR_INVAL /\ exists x, fe_avail (ctx s) x /\ fe_p2v x = 0).

Lemma grown_trans T s T1 s1 T2 s2 : grown T s T1 s1 -> grown T1 s1 T2 s2 -> grown T s T2 s2.
Proof.
  intros (A1 & A2 & A3 & A4 & A5) (B1 & B2 & B3 & B4 & B5). split; [done|].
  split; [by etrans|]. split; [congruence|]. split; [auto|]. intros. by rewrite B5, A5.
Qed.

Lemma grown_refl T s : vm_ok T s -> grown T s T s.
Proof. done. Qed.

Lemma out_of_frames_mono T s T1 s1 s' rc :
  grown T s T1 s1 -> out_of_frames s1 s' rc -> out_of_frames s s' rc.
Proof.
  intros (_ & _ & _ & Hm & _) [?|(? & x & ? & ?)]; [by left|right].
  split; [done|]. exists x. auto.
Qed.

Lemma get_or_alloc_ok T s a p i :
  vm_ok T s -> T !! a = Some p -> (length a < 3)%nat -> 0 <= i < 512 ->
  exists r s' T', get_or_alloc_next_table the_space (fe_p2v p) i s = Some (r, s')
    /\ grown T s T' s'
    /\ match r with
       | inr v => exists q, v = fe_p2v q /\ T' !! (a ++ [i]) = Some q
       | inl rc => out_of_frames s s' rc
       end.
Proof.
  intros Hok Ha Hl Hi.
  destruct (rd_entry_ok T s a p i) as (t & e & Ht & Htl & Htu & He & Hu & Hrd); [done..|].
  pose proof (ok_link _ _ Hok a p t i e Ha Hl Ht (proj1 Hi) He) as Hk.
  unfold get_or_alloc_next_table. unfold ebind at 1. rewrite Hrd.
  destruct (Z.eqb_spec (e .& VMM_PTE_PRESENT) 0) as [Hnp|Hp]; cbn [negb].
  2: { destruct Hk as [-> Hk]. cbn [negb Z.eqb].
       destruct (ok_tab _ _ Hok _ _ Hk) as (_ & Hm & Hnz & _).
       unfold ebind. rewrite table_from_phys_ok by done.
       rewrite (proj2 (Z.eqb_neq _ 0)) by done.
       eexists _, s, T. split; [done|]. split; [done|]. by eexists. }
  cbn [alloc_frame the_space]. unfold ebind at 1, call_alloc.
  destruct (fe_alloc_spec (ctx s) (ok_env _ _ Hok)) as (q & c' & Hal & Hc' & Hcase).
  rewrite Hal. cbn [fst snd].
  destruct Hcase as [(-> & -> & Hno)|(Hq & Hqr & Hqa & Hav)].
  { rewrite Z.eqb_refl. cbn [orb]. destruct s as [c m l].
    eexists _, _, T. split; [done|]. split; [done|]. by left. }
  assert (Hqi : q <> VMM_INVALID_PHYS) by (unfold VMM_INVALID_PHYS, UINT64_MAX; lia).
  rewrite (proj2 (Z.eqb_neq _ _) Hqi), aligned_spec, Hqa. cbn [Z.eqb negb orb].
  unfold ebind at 1. rewrite table_from_phys_ok by done.
  destruct (Z.eqb_spec (fe_p2v q) 0) as [Hz|Hz].
  { cbn [free_frame the_space]. unfold ebind, call_free. cbn [ctx mem tlb].
    destruct (fe_free_spec (ctx s) c' q (ok_env _ _ Hok) Hal Hqi) as (c'' & -> & Hc'' & Hx).
    eexists _, _, T. split; [done|]. split; [|right; split; [done|by exists q]].
    split; [by apply vm_ok_ctx|]. split_all; try done. apply Hx. }
  destruct (ok_pages _ _ Hok q Hq Hz) as (tq & Htq & Hlq).
  unfold ebind at 1, vmm_zero_page. cbn [mem ctx tlb]. rewrite Htq.
  change (Z.to_nat VMM_ENTRIES_PER_TABLE) with 512%nat.
  rewrite fill_loop_spec by lia. rewrite drop_ge, app_nil_r by lia.
  unfold ebind. rewrite (wr_entry_ok _ (fe_p2v p) t i e); [|cbn [mem]|done].
  2: { rewrite lookup_insert_ne; [done|]. apply not_eq_sym. eapply (link_ne T s); eauto. }
  eexists _, _, (<[a ++ [i] := q]> T). split; [done|].
  split; [|exists q; split; [done|apply lookup_insert_eq]].
  split; [by apply (link_ok T s a p i q c' t e)|].
  split; [|split; [done|split; [apply Hav|intros; by apply (link_leaf T s a p i q c' t e)]]].
  apply insert_subseteq. by eapply link_fresh.
Qed.

(** The outcome of [vmm_map_page] on every branch. *)
Definition map_post T s (v pa f : Z) (r : Z + unit) T' s' : Prop :=
  vm_ok T' s' /\ T ⊆ T' /\ tlb s' = tlb s
  /\ (forall b j, length b = 3%nat -> 0 <= j -> b <> path v \/ j <> idx_pt v ->
        leaf T' s' b j = leaf T s b j)
  /\ match r with
     | inr _ => leaf T s (path v) (idx_pt v) .& VMM_PTE_PRESENT = 0
         /\ leaf T' s' (path v) (idx_pt v)
           = (pa .& VMM_PTE_ADDR_MASK) .| VMM_PTE_PRESENT .| (f .& allowed)
     | inl rc => leaf T' s' (path v) (idx_pt v) = leaf T s (path v) (idx_pt v)
         /\ (out_of_frames s s' rc
             \/ (rc = VMM_ERR_EXISTS
                 /\ leaf T s (path v) (idx_pt v) .& VMM_PTE_PRESENT <> 0))
     end.

Lemma map_page_ok T s v pa f :
  vm_ok T s -> valid_va v -> 0 <= pa -> vmm_is_aligned_4k pa = true ->
  exists r s' T', vmm_map_page (Some the_space) v pa f s = Some (r, s')
    /\ map_post T s v pa f r T' s'.
Proof.
  intros Hok (Hv & Hcan & Hal) Hpa Hpal.
  assert (Hfail : forall T' s' rc, grown T s T' s' -> out_of_frames s s' rc ->
    exists r s'' T'', Some (@inl Z unit rc, s') = Some (r, s'') /\ map_post T s v pa f r T'' s'').
  { intros T' s' rc (G1 & G2 & G3 & G4 & G5) Hrc. eexists _, s', T'. split; [done|].
    unfold map_post. split_all; auto. }
  unfold vmm_map_page. rewrite Hcan, Hal, Hpal. cbn [negb orb root_paddr the_space].
  pose proof (ok_root _ _ Hok) as H0.
  destruct (ok_tab _ _ Hok _ _ H0) as (_ & Hm & Hnz & _).
  unfold ebind at 1. rewrite table_from_phys_ok by done.
  rewrite (proj2 (Z.eqb_neq _ 0)) by done. unfold ebind at 1.
  destruct (get_or_alloc_ok T s [] root (idx_pml4 v)) as (r1 & s1 & T1 & -> & G1 & R1);
    [done..|simpl; lia|apply idx_bound|].
  destruct r1 as [rc|v1]; [by apply (Hfail T1)|]. destruct R1 as (q1 & -> & E1).
  unfold ebind at 1. pose proof (proj1 G1) as Hok1.
  destruct (get_or_alloc_ok T1 s1 [idx_pml4 v] q1 (idx_pdpt v)) as (r2 & s2 & T2 & -> & G2 & R2);
    [done..|simpl; lia|apply idx_bound|].
  pose proof (grown_trans _ _ _ _ _ _ G1 G2) as G12.
  destruct r2 as [rc|v2]; [apply (Hfail T2 _ _ G12), (out_of_frames_mono _ _ _ _ _ _ G1 R2)|]. destruct R2 as (q2 & -> & E2).
  unfold ebind at 1. pose proof (proj1 G2) as Hok2.
  destruct (get_or_alloc_ok T2 s2 [idx_pml4 v; idx_pdpt v] q2 (idx_pd v)) as (r3 & s3 & T3 & -> & G3 & R3);
    [done..|simpl; lia|apply idx_bound|].
  pose proof (grown_trans _ _ _ _ _ _ G12 G3) as G123. pose proof G123 as (Hok3 & Hsub & Htlb & _ & Hleaf).
  destruct r3 as [rc|v3]; [apply (Hfail T3 _ _ G123), (out_of_frames_mono _ _ _ _ _ _ G12 R3)|]. destruct R3 as (q3 & -> & E3).
  change (([idx_pml4 v; idx_pdpt v] ++ [idx_pd v])) with (path v) in E3.
  destruct (rd_entry_ok T3 s3 (path v) q3 (idx_pt v)) as (t & e & Ht & Htl & Htu & He & Hu & Hrd);
    [done..|apply idx_bound|].
  assert (Hlf : leaf T s (path v) (idx_pt v) = e).
  { rewrite <- Hleaf by done. unfold leaf. rewrite E3, Ht. unfold nthZ. by rewrite He. }
  unfold ebind. rewrite Hrd. destruct (Z.eqb_spec (e .& VMM_PTE_PRESENT) 0) as [Hnp|Hpr]; cbn [negb].
  2: { eexists _, s3, T3. split; [done|]. unfold map_post. split_all; auto. right.
       by rewrite Hlf. }
  erewrite wr_entry_ok by done.
  destruct (wr_leaf_ok T3 s3 (path v) q3 t (idx_pt v)
    ((pa .& VMM_PTE_ADDR_MASK) .| VMM_PTE_PRESENT .| (f .& allowed)) (tlb s3))
    as (W1 & W2 & W3); [done..|apply idx_bound|by apply page_entry_u64|].
  eexists _, _, T3. split; [done|]. unfold map_post. split_all; auto; [|by rewrite Hlf].
  intros b j Hb Hj Hne. rewrite W3 by done. by apply Hleaf.
Qed.

(** [vmm_unmap_page] on every branch. *)
Lemma unmap_page_ok T s v :
  vm_ok T s -> valid_va v ->
  (leaf T s (path v) (idx_pt v) .& VMM_PTE_PRESENT = 0
   /\ vmm_unmap_page (Some the_space) v s = Some (inl VMM_ERR_NOT_FOUND, s))
  \/ (leaf T s (path v) (idx_pt v) .& VMM_PTE_PRESENT <> 0
      /\ exists s', vmm_unmap_page (Some the_space) v s = Some (inr tt, s')
        /\ vm_ok T s' /\ tlb s' = v :: tlb s /\ leaf T s' (path v) (idx_pt v) = 0
        /\ forall b j, 0 <= j -> b <> path v \/ j <> idx_pt v ->
             leaf T s' b j = leaf T s b j).
Proof.
  intros Hok (Hv & Hcan & Hal). unfold vmm_unmap_page. rewrite Hcan, Hal.
  cbn [negb orb root_paddr the_space]. rewrite (walk3_ok T s v) by done. unfold leaf at 1 2.
  destruct (T !! path v) as [q|] eqn:E; [|by left].
  destruct (rd_entry_ok T s (path v) q (idx_pt v)) as (t & e & Ht & _ & _ & He & _ & Hrd);
    [done..|apply idx_bound|].
  rewrite Ht. unfold nthZ at 1 2. rewrite He. cbn [default from_option id].
  unfold ebind. rewrite Hrd.
  destruct (Z.eqb_spec (e .& VMM_PTE_PRESENT) 0) as [Hnp|Hpr]; [by left|right].
  split; [done|]. erewrite wr_entry_ok by done. unfold vmm_invalidate_page. cbn [ctx mem tlb].
  destruct (wr_leaf_ok T s (path v) q t (idx_pt v) 0 (v :: tlb s)) as (W1 & W2 & W3);
    [done..|apply idx_bound|done|].
  eexists. split; [done|]. done.
Qed.

(** A space whose root table is empty. *)
Lemma vm_ok_init s :
  fe_ok (ctx s) -> 0 <= root < 2 ^ 52 -> root mod 4096 = 0 -> fe_p2v root <> 0 ->
  ~ fe_avail (ctx s) root -> mem s !! fe_p2v root = Some (replicate 512 0) ->
  (forall p, fe_avail (ctx s) p -> fe_p2v p <> 0 ->
     exists t, mem s !! fe_p2v p = Some t /\ length t = 512%nat) ->
  vm_ok {[ [] := root ]} s.
Proof.
  intros H1 H2 H3 H4 H5 H6 H7. split; try done.
  - intros a p [<- <-]%lookup_singleton_Some. split_all; try done; try (simpl; lia).
    exists (replicate 512 0). split; [done|]. split; [done|]. apply Forall_replicate. done.
  - intros a b p [<- _]%lookup_singleton_Some [<- _]%lookup_singleton_Some. done.
  - intros a p t i e [<- <-]%lookup_singleton_Some _ Ht Hi He.
    rewrite H6 in Ht. apply (inj Some) in Ht. subst t.
    apply lookup_replicate in He as [-> _]. cbn [Z.land Z.eqb].
    apply lookup_singleton_ne. done.
  - intros a i q [E _]%lookup_singleton_Some. by destruct a.
Qed.

End tree.
