(* ===== verification/VmmTheorems.v ===== *)
(** * Virtual memory manager: properties

    The address space as [vmm_query_page] reports it, and how mapping and
    unmapping change it; then the frame allocator as the environment of the
    page-table code. *)
From S2P Require Import Prelude Bitmap Pmm PmmTheorems Vmm VmmFacts.

Section properties.
Context {C : Type} `{!FrameEnv C} (root : Z).

(** The outcome of a query, without the state it leaves unchanged. *)
Definition query (s : vm_state C) (v : Z) : option (Z + vmm_mapping) :=
  fst <$> vmm_query_page (Some (the_space root)) v s.

Lemma query_leaf T s v :
  vm_ok root T s -> valid_va v -> query s v = Some (mapping_of v (leaf T s (path v) (idx_pt v))).
Proof. intros Hok Hv. unfold query. by rewrite (query_ok root T). Qed.

Lemma other_indices v w :
  valid_va v -> valid_va w -> w <> v -> path w <> path v \/ idx_pt w <> idx_pt v.
Proof.
  intros (V1 & V2 & V3) (W1 & W2 & W3) Hne.
  destruct (decide (path w = path v)); [|by left].
  destruct (decide (idx_pt w = idx_pt v)); [|by right]. exfalso. apply Hne.
  by apply indices_inj.
Qed.

Lemma idx_pt_nonneg v : 0 <= idx_pt v.
Proof. apply idx_bound. Qed.

(** Canonical addresses: 48 bits, sign-extended. *)
Definition canonical (v : Z) : Prop := v < 2 ^ 47 \/ 2 ^ 64 - 2 ^ 47 <= v.

Lemma canonical_spec v : 0 <= v < 2 ^ 64 -> vmm_is_canonical v = true <-> canonical v.
Proof.
  intros Hv. unfold vmm_is_canonical, canonical. change 1 with (Z.ones 1) at 1.
  rewrite Z.land_ones, !Z.shiftr_div_pow2 by lia. change (2 ^ 1) with 2.
  destruct (Z.eqb_spec (v / 2 ^ 47 mod 2) 0); cbn [negb]; rewrite Z.eqb_eq;
    Z.div_mod_to_equations; lia.
Qed.

(** The arguments the header asks for: page and frame aligned, page canonical. *)
Definition map_args_ok (v pa : Z) : Prop :=
  canonical v /\ v mod 4096 = 0 /\ pa mod 4096 = 0.

Lemma map_args_spec v pa :
  0 <= v < 2 ^ 64 ->
  map_args_ok v pa <-> valid_va v /\ vmm_is_aligned_4k pa = true.
Proof.
  intros Hv. unfold map_args_ok, valid_va. rewrite <- (canonical_spec v Hv), !aligned_spec, !Z.eqb_eq. tauto.
Qed.

Lemma map_args_refused s v pa f :
  0 <= v < 2 ^ 64 -> ~ map_args_ok v pa ->
  vmm_map_page (Some (the_space root)) v pa f s = Some (inl VMM_ERR_INVAL, s).
Proof.
  intros Hv Hbad. rewrite (map_args_spec v pa Hv) in Hbad. unfold valid_va in Hbad. unfold vmm_map_page.
  destruct (vmm_is_canonical v), (vmm_is_aligned_4k v), (vmm_is_aligned_4k pa); try done.
  tauto.
Qed.

(** C10: [vmm_map_page] on a well-formed address space, on every branch.  It
    always returns, keeps the space well formed, flushes nothing and changes at
    most the page asked for.  It fails with [VMM_ERR_INVAL], changing nothing,
    for a null space and exactly when the page address is not canonical or not
    aligned or the frame is not aligned.  Otherwise: on success the page was
    unmapped and now maps to the given frame with the permitted flags; on
    failure no page changed for a client, and the error says why: the page is
    already mapped, the allocator has no frame left, or a frame it offered has
    no address. *)
Theorem vmm_map_exact T s v pa f :
  vm_ok root T s -> 0 <= v < 2 ^ 64 -> 0 <= pa < 2 ^ 64 ->
  vmm_map_page None v pa f s = Some (inl VMM_ERR_INVAL, s) /\
  (~ map_args_ok v pa ->
     vmm_map_page (Some (the_space root)) v pa f s = Some (inl VMM_ERR_INVAL, s)) /\
  (map_args_ok v pa ->
   exists r s' T', vmm_map_page (Some (the_space root)) v pa f s = Some (r, s')
    /\ vm_ok root T' s' /\ tlb s' = tlb s
    /\ (forall w, valid_va w -> w <> v -> query s' w = query s w)
    /\ match r with
       | inr _ => query s v = Some (inl VMM_ERR_NOT_FOUND)
           /\ query s' v = Some (inr (mk_mapping v (pa .& VMM_PTE_ADDR_MASK)
                                        (VMM_PTE_PRESENT .| (f .& allowed))))
       | inl rc => query s' v = query s v
           /\ (out_of_frames s s' rc
               \/ (rc = VMM_ERR_EXISTS /\ exists m, query s v = Some (inr m)))
       end).
Proof.
  intros Hok Hv64 Hpa. split; [done|]. split; [by apply map_args_refused|].
  intros (Hv & Hal)%map_args_spec; [|done].
  destruct (map_page_ok root T s v pa f) as (r & s' & T' & Hm & Hok' & _ & Htlb & Hother & Hr);
    [done..|lia|done|].
  exists r, s', T'. split; [done|]. split; [done|]. split; [done|]. split.
  - intros w Hw Hne. rewrite (query_leaf T s), (query_leaf T' s') by done.
    rewrite Hother; [done|done|apply idx_pt_nonneg|by apply other_indices].
  - rewrite (query_leaf T s), (query_leaf T' s') by done. destruct r as [rc|[]].
    + destruct Hr as [-> Hr]. split; [done|]. destruct Hr as [Hr|[-> Hr]]; [by left|right].
      split; [done|]. unfold mapping_of. rewrite (proj2 (Z.eqb_neq _ _)) by done. by eexists.
    + destruct Hr as [H1 H2]. rewrite H2. unfold mapping_of. rewrite H1.
      destruct (page_entry pa f) as (E1 & E2 & E3); [lia|].
      rewrite (proj2 (Z.eqb_neq _ _) E1), E2, E3. done.
Qed.

(** C26: [vmm_unmap_page] fails with NOT_FOUND, changing nothing, exactly when
    the page is not mapped; otherwise it removes that mapping and no other,
    and invalidates exactly that page in the TLB. *)
Theorem vmm_unmap_exact T s v :
  vm_ok root T s -> valid_va v ->
  (query s v = Some (inl VMM_ERR_NOT_FOUND)
   /\ vmm_unmap_page (Some (the_space root)) v s = Some (inl VMM_ERR_NOT_FOUND, s))
  \/ exists m s', query s v = Some (inr m)
     /\ vmm_unmap_page (Some (the_space root)) v s = Some (inr tt, s')
     /\ vm_ok root T s' /\ tlb s' = v :: tlb s
     /\ query s' v = Some (inl VMM_ERR_NOT_FOUND)
     /\ forall w, valid_va w -> w <> v -> query s' w = query s w.
Proof.
  intros Hok Hv. rewrite (query_leaf T) by done.
  destruct (unmap_page_ok root T s v Hok Hv) as [[H1 ->]|[H1 (s' & -> & Hok' & Ht & H0 & Ho)]].
  - left. unfold mapping_of. rewrite H1. done.
  - right. unfold mapping_of at 1. rewrite (proj2 (Z.eqb_neq _ _)) by done.
    eexists _, s'. split; [done|]. split_all; try done.
    + rewrite (query_leaf T) by done. by rewrite H0.
    + intros w Hw Hne. rewrite !(query_leaf T) by done.
      rewrite Ho; [done|apply idx_pt_nonneg|by apply other_indices].
Qed.

(** Round trip: mapping a page and unmapping it again succeeds and gives
    back the address space, as every query sees it. *)
Theorem vmm_map_unmap T s v pa f s1 :
  vm_ok root T s -> valid_va v -> 0 <= pa < 2 ^ 64 -> vmm_is_aligned_4k pa = true ->
  vmm_map_page (Some (the_space root)) v pa f s = Some (inr tt, s1) ->
  exists s2, vmm_unmap_page (Some (the_space root)) v s1 = Some (inr tt, s2)
    /\ tlb s2 = v :: tlb s
    /\ forall w, valid_va w -> query s2 w = query s w.
Proof.
  intros Hok Hv Hpa Hal Hm.
  destruct (map_page_ok root T s v pa f) as (r & s' & T' & Hm' & Hok' & _ & Htlb & Hother & Hr);
    [done..|lia|done|].
  rewrite Hm in Hm'. injection Hm' as <- <-. destruct Hr as [H1 H2].
  destruct (page_entry pa f) as (E1 & _); [lia|].
  destruct (unmap_page_ok root T' s1 v Hok' Hv)
    as [[H3 _]|[_ (s2 & -> & Hok2 & Ht & H0 & Ho)]]; [by rewrite H2 in H3|].
  exists s2. split; [done|]. split; [congruence|]. intros w Hw.
  rewrite (query_leaf T s), (query_leaf T' s2) by done.
  destruct (decide (w = v)) as [->|Hne].
  - rewrite H0. unfold mapping_of. by rewrite H1.
  - pose proof (other_indices v w Hv Hw Hne).
    rewrite Ho, Hother; try done; apply idx_pt_nonneg.
Qed.
End properties.

(** ** The frame allocator as the environment

    The callbacks over [pmm.c] with the frames mapped at a fixed offset. *)
Definition pmm_alloc_cb (p : pmm_state) : option (Z * pmm_state) :=
  match pmm_alloc_frame (Some p) with Some (Some p', a) => Some (a, p') | _ => None end.
Definition pmm_free_cb (p : pmm_state) (a : Z) : option pmm_state :=
  match pmm_free_frame (Some p) a with Some (Some p', _) => Some p' | _ => None end.
Definition pmm_cb_ok (p : pmm_state) : Prop := pmm_live p /\ frame_count p <= 2 ^ 40.
Definition pmm_avail (p : pmm_state) (a : Z) : Prop :=
  exists j, a = j * PMM_PAGE_SIZE /\ j ∈ free_list p.

Lemma pmm_avail_nil p : free_list p = [] -> forall x, ~ pmm_avail p x.
Proof. intros E x (j & _ & Hj). rewrite E in Hj. by apply not_elem_of_nil in Hj. Qed.

Lemma free_list_range p j : j ∈ free_list p -> 0 <= j < frame_count p.
Proof. unfold free_list. rewrite elem_of_bm_free_list. tauto. Qed.

Lemma pmm_alloc_cb_spec c : pmm_cb_ok c ->
  exists a c', pmm_alloc_cb c = Some (a, c') /\ pmm_cb_ok c'
    /\ ((a = VMM_INVALID_PHYS /\ c' = c /\ forall x, ~ pmm_avail c x)
        \/ (pmm_avail c a /\ 0 <= a < 2 ^ 52 /\ a mod 4096 = 0
            /\ forall x, pmm_avail c' x <-> pmm_avail c x /\ x <> a)).
Proof.
  intros [Hlive Hfc]. pose proof Hlive as (Hok & Hin & Hz). unfold pmm_alloc_cb.
  pose proof (alloc_frame_spec c Hok Hin) as Hs. destruct (free_list c) as [|j rest] eqn:E.
  { rewrite Hs. exists VMM_INVALID_PHYS, c. split; [done|]. split; [done|]. left.
    split; [done|]. split; [done|]. by apply pmm_avail_nil. }
  destruct Hs as (c' & Ha & Hok' & Hd & Hfl). rewrite Ha.
  assert (Hj : 0 <= j < frame_count c) by (apply free_list_range; rewrite E; left).
  pose proof (NoDup_bm_free_list (bits c) (frame_count c)) as Hnd.
  fold (free_list c) in Hnd. rewrite E in Hnd. apply NoDup_cons in Hnd as [Hnj _].
  exists (j * PMM_PAGE_SIZE), c'. split; [done|]. split.
  { split; [by eapply alloc_live|]. destruct Hd as (_ & -> & _). done. }
  right. unfold pmm_avail. rewrite E, Hfl. unfold PMM_PAGE_SIZE in *. split_all.
  - exists j. split; [done|left].
  - lia.
  - lia.
  - apply Z_mod_mult.
  - intros x. split.
    + intros (k & -> & Hk). split; [exists k; split; [done|by right]|].
      intros Hx. assert (k = j) by lia. by subst.
    + intros [(k & -> & Hk) Hne]. exists k. split; [done|].
      apply elem_of_cons in Hk as [->|]; done.
Qed.

Lemma pmm_free_cb_spec c c' a : pmm_cb_ok c -> pmm_alloc_cb c = Some (a, c') ->
  a <> VMM_INVALID_PHYS ->
  exists c'', pmm_free_cb c' a = Some c'' /\ pmm_cb_ok c''
    /\ forall x, pmm_avail c'' x <-> pmm_avail c x.
Proof.
  intros [Hlive Hfc] Hc Hna. pose proof Hlive as (Hok & Hin & Hz). unfold pmm_alloc_cb in Hc.
  pose proof (alloc_frame_spec c Hok Hin) as Hs. destruct (free_list c) as [|j rest] eqn:E.
  { rewrite Hs in Hc. injection Hc as <- _. done. }
  destruct Hs as (c1 & Ha & Hok' & Hd & Hfl). rewrite Ha in Hc. injection Hc as <- <-.
  assert (Hj : 0 <= j < frame_count c) by (apply free_list_range; rewrite E; left).
  pose proof (NoDup_bm_free_list (bits c) (frame_count c)) as Hnd.
  fold (free_list c) in Hnd. rewrite E in Hnd. apply NoDup_cons in Hnd as [Hnj _].
  pose proof (alloc_live _ _ _ Hlive Ha) as Hlive'. pose proof Hlive' as (_ & Hin' & _).
  assert (Hj0 : j <> 0) by (intros ->; apply Hz; left).
  destruct (free_frame_spec c1 (j * PMM_PAGE_SIZE) Hok' Hin') as [[Hn _]|[_ (c2 & Hf & Hok2 & Hd2 & Hfl2)]].
  { unfold PMM_PAGE_SIZE. lia. }
  { exfalso. apply Hn. destruct Hd as (Hm & _ & _). unfold freeable.
    rewrite addr_frame, Hfl, Hm, (ok_size c Hok). unfold PMM_PAGE_SIZE.
    split_all; [apply Z_mod_mult|lia|lia|done]. }
  exists c2. unfold pmm_free_cb. rewrite Hf. split; [done|]. split.
  { split; [eapply free_live; [exact Hlive'| |exact Hf]; unfold PMM_PAGE_SIZE; lia|].
    destruct Hd2 as (_ & -> & _). destruct Hd as (_ & -> & _). done. }
  intros x. unfold pmm_avail. setoid_rewrite Hfl2. rewrite addr_frame, Hfl, E.
  by setoid_rewrite elem_of_cons.
Qed.

#[global] Instance pmm_env (base : Z) : FrameEnv pmm_state := {|
  fe_alloc := pmm_alloc_cb;
  fe_free := pmm_free_cb;
  fe_p2v p := p + base;
  fe_ok := pmm_cb_ok;
  fe_avail := pmm_avail;
  fe_alloc_spec := pmm_alloc_cb_spec;
  fe_free_spec := pmm_free_cb_spec;
  fe_p2v_inj p q := fun E _ => proj1 (Z.add_cancel_r p q base) E
|}.

(** C18: The page-table code over the frame allocator of [pmm.c] with a direct
    map: a valid request fails only because the page is mapped already or
    because the allocator has no free frame left; the allocator keeps its
    invariant, and no frame that holds a page table is ever free. *)
Theorem vmm_over_pmm base root T (s : vm_state pmm_state) v pa f :
  0 < base -> vm_ok (FrameEnv0 := pmm_env base) root T s -> valid_va v ->
  0 <= pa < 2 ^ 64 -> vmm_is_aligned_4k pa = true ->
  exists r s' T',
    vmm_map_page (Some (the_space (FrameEnv0 := pmm_env base) root)) v pa f s = Some (r, s')
    /\ pmm_ok (ctx s') /\ vm_ok (FrameEnv0 := pmm_env base) root T' s'
    /\ (forall a p, T' !! a = Some p -> ~ p / PMM_PAGE_SIZE ∈ free_list (ctx s'))
    /\ match r with
       | inr _ => True
       | inl rc => (rc = VMM_ERR_NOMEM /\ free_frames (ctx s') = 0)
           \/ (rc = VMM_ERR_EXISTS
               /\ exists m, query (FrameEnv0 := pmm_env base) root s v = Some (inr m))
       end.
Proof.
  intros Hbase Hok Hv Hpa Hal.
  destruct (map_page_ok (FrameEnv0 := pmm_env base) root T s v pa f)
    as (r & s' & T' & Hm & Hok' & _ & _ & _ & Hr); [done..|lia|done|].
  exists r, s', T'. pose proof (ok_env _ _ _ Hok') as [(Hp & _ & _) _].
  split; [done|]. split; [done|]. split; [done|]. split.
  - intros a p Ha Hin. destruct (ok_tab _ _ _ Hok' _ _ Ha) as (_ & Hmod & _ & Hav & _).
    apply Hav. exists (p / PMM_PAGE_SIZE). split; [|done].
    pose proof (Z.div_mod p PMM_PAGE_SIZE). unfold PMM_PAGE_SIZE in *. lia.
  - destruct r as [rc|[]]; [|done]. destruct Hr as [_ [[[-> Hno]|[-> (x & Hx & Hz)]]|[-> Hpr]]].
    + left. split; [done|]. apply free_list_nil; [done|].
      destruct (free_list (ctx s')) as [|j l] eqn:E; [done|]. exfalso.
      apply (Hno (j * PMM_PAGE_SIZE)). exists j. rewrite E. split; [done|left].
    + exfalso. destruct Hx as (j & -> & Hj%free_list_range). cbn [fe_p2v pmm_env] in Hz.
      unfold PMM_PAGE_SIZE in Hz. lia.
    + right. split; [done|]. rewrite (query_leaf _ T) by done. unfold mapping_of.
      rewrite (proj2 (Z.eqb_neq _ _)) by done. by eexists.
Qed.

(** ** Witnesses

    The machine of [PmmTheorems] after one allocation: frame 1 is the root
    table, and every frame is mapped one megabyte up. *)
Definition demo_base : Z := 1048576.
Definition demo_vm : vm_state pmm_state :=
  mk_vm demo_pmm1
    (list_to_map ((fun j => (j * 4096 + demo_base, replicate 512 0)) <$> seqZ 1 15)) [].

Lemma demo_mem j : 1 <= j < 16 -> mem demo_vm !! (j * 4096 + demo_base) = Some (replicate 512 0).
Proof.
  intros Hj.
  assert (H : forallb (fun j => bool_decide (mem demo_vm !! (j * 4096 + demo_base)
                                             = Some (replicate 512 0))) (seqZ 1 15) = true)
    by (vm_compute; reflexivity).
  rewrite forallb_forall in H. specialize (H j).
  eapply bool_decide_eq_true_1, H, list_elem_of_In, elem_of_seqZ. lia.
Qed.

Lemma demo_live1 : pmm_live demo_pmm1.
Proof.
  eapply (alloc_live demo_pmm demo_pmm1 4096); [apply demo_live|]. vm_compute. reflexivity.
Qed.

Lemma demo_vm_ok : vm_ok (FrameEnv0 := pmm_env demo_base) 4096 {[ [] := 4096 ]} demo_vm.
Proof.
  pose proof demo_live1 as (Hok & Hin & Hz). apply vm_ok_init.
  - split; [apply demo_live1|vm_compute; discriminate].
  - lia.
  - done.
  - done.
  - intros (j & Hj & Hf). assert (j = 1) by (unfold PMM_PAGE_SIZE in Hj; lia). subst j.
    apply elem_of_bm_free_list in Hf as [_ Hf]. vm_compute in Hf. discriminate.
  - apply (demo_mem 1). lia.
  - intros p (j & -> & Hj) _. pose proof (free_list_range _ _ Hj) as Hr.
    replace (frame_count (ctx demo_vm)) with 16 in Hr by (vm_compute; reflexivity).
    assert (j <> 0) by (intros E; subst j; exact (Hz Hj)).
    exists (replicate 512 0). split; [|apply length_replicate]. apply (demo_mem j). lia.
Qed.

Definition demo_va : Z := 0xFFFF800000200000.

Lemma demo_va_valid : valid_va demo_va.
Proof. vm_compute. split; [split; discriminate || reflexivity|split; reflexivity]. Qed.

Lemma vmm_map_exact_witness :
  exists r s' T', vmm_map_page (Some (the_space (FrameEnv0 := pmm_env demo_base) 4096))
      demo_va 0x5000 3 demo_vm = Some (r, s')
    /\ vm_ok (FrameEnv0 := pmm_env demo_base) 4096 T' s'.
Proof.
  destruct (vmm_map_exact (FrameEnv0 := pmm_env demo_base) 4096 {[ [] := 4096 ]} demo_vm
    demo_va 0x5000 3) as (_ & _ & H); [apply demo_vm_ok|apply demo_va_valid|lia|].
  destruct H as (r & s' & T' & H1 & H2 & _).
  { split; [right; vm_compute; discriminate|]. split; reflexivity. }
  exists r, s', T'. exact (conj H1 H2).
Defined.

Lemma vmm_unmap_exact_witness :
  (query (FrameEnv0 := pmm_env demo_base) 4096 demo_vm demo_va = Some (inl VMM_ERR_NOT_FOUND)
   /\ vmm_unmap_page (Some (the_space (FrameEnv0 := pmm_env demo_base) 4096)) demo_va demo_vm
     = Some (inl VMM_ERR_NOT_FOUND, demo_vm)).
Proof.
  destruct (vmm_unmap_exact (FrameEnv0 := pmm_env demo_base) 4096 {[ [] := 4096 ]} demo_vm demo_va)
    as [H|(m & s' & H & _)]; [apply demo_vm_ok|apply demo_va_valid|exact H|].
  exfalso. revert H. vm_compute. discriminate.
Defined.

(** The state after mapping the page. *)
Definition demo_vm1 : vm_state pmm_state :=
  match vmm_map_page (Some (the_space (FrameEnv0 := pmm_env demo_base) 4096))
          demo_va 0x5000 3 demo_vm with
  | Some (_, s) => s | None => demo_vm end.

Lemma vmm_map_unmap_witness :
  exists s2, vmm_unmap_page (Some (the_space (FrameEnv0 := pmm_env demo_base) 4096))
      demo_va demo_vm1 = Some (inr tt, s2)
    /\ tlb s2 = [demo_va].
Proof.
  destruct (vmm_map_unmap (FrameEnv0 := pmm_env demo_base) 4096 {[ [] := 4096 ]} demo_vm demo_va
    0x5000 3 demo_vm1) as (s2 & H1 & H2 & _);
    [apply demo_vm_ok|apply demo_va_valid|lia|reflexivity|vm_compute; reflexivity|].
  exists s2. exact (conj H1 H2).
Defined.

Lemma vmm_over_pmm_witness :
  exists r s', vmm_map_page (Some (the_space (FrameEnv0 := pmm_env demo_base) 4096))
      demo_va 0x5000 3 demo_vm = Some (r, s') /\ pmm_ok (ctx s').
Proof.
  destruct (vmm_over_pmm demo_base 4096 {[ [] := 4096 ]} demo_vm demo_va 0x5000 3)
    as (r & s' & T' & H1 & H2 & _);
    [reflexivity|apply demo_vm_ok|apply demo_va_valid|lia|reflexivity|].
  exists r, s'. exact (conj H1 H2).
Defined.

(** ** User pages

    The processor lets user code reach a page only when the user bit is set
    in the entry of every level. *)
Definition user_reachable (p2v : Z -> Z) (m : gmap Z (list Z)) (root v : Z) : bool :=
  let entry t i := nthZ (default [] (m !! p2v t)) i in
  let e4 := entry root (idx_pml4 v) in
  let e3 := entry (e4 .& VMM_PTE_ADDR_MASK) (idx_pdpt v) in
  let e2 := entry (e3 .& VMM_PTE_ADDR_MASK) (idx_pd v) in
  let e1 := entry (e2 .& VMM_PTE_ADDR_MASK) (idx_pt v) in
  forallb (fun e => negb (e .& VMM_PTE_PRESENT =? 0) && negb (e .& VMM_PTE_USER =? 0))
    [e4; e3; e2; e1].

(** The tables that [get_or_alloc_next_table] links never have the user bit:
    a page mapped with VMM_PTE_USER in a fresh space is not reachable from
    user mode. *)
Lemma user_page_unreachable :
  match vmm_map_page (Some (the_space (FrameEnv0 := pmm_env demo_base) 4096))
          0x400000 0x5000 (VMM_PTE_USER .| VMM_PTE_WRITABLE) demo_vm with
  | Some (inr tt, s') => user_reachable (fun p => p + demo_base) (mem s') 4096 0x400000 = false
  | _ => False
  end.
Proof. vm_compute. reflexivity. Qed.
