(* ===== verification/Sched.v ===== *)
(** * Cooperative round-robin scheduler
      ([kernel/mcsos_thread.c], [include/mcsos_thread.h])

    Threads are objects of a heap, linked through [next]; a pointer is
    [option Z], [None] being [NULL].  The one scheduler object is the state,
    so the [s == NULL] guards of the source have no counterpart.  The branches
    [if (s->current && s->current->entry) { }] of the source are empty. *)
From S2P Require Import Prelude.

Definition MCSOS_SCHED_ERR : Z := 1.

Record mcsos_context := mk_context {
  rsp : Z; rbp : Z; rbx : Z; r12 : Z; r13 : Z; r14 : Z; r15 : Z; rip : Z
}.

Inductive mcsos_thread_state :=
| MCSOS_THREAD_NEW
| MCSOS_THREAD_READY
| MCSOS_THREAD_RUNNING
| MCSOS_THREAD_BLOCKED
| MCSOS_THREAD_ZOMBIE.

#[global] Instance thread_state_eq_dec : EqDecision mcsos_thread_state.
Proof. solve_decision. Defined.

Record mcsos_thread := mk_thread {
  t_name : option Z;
  t_id : Z;
  t_state : mcsos_thread_state;
  t_context : mcsos_context;
  t_entry : option Z;
  t_arg : option Z;
  t_stack : Z;
  t_stack_size : Z;
  t_next : option Z;
  t_ticks : Z
}.

Record mcsos_scheduler := mk_sched {
  current : option Z;
  ready_head : option Z;
  ready_tail : option Z;
  runnable_count : Z;
  next_id : Z;
  context_switches : Z
}.

Record sched_state := mk_ss {
  sched : mcsos_scheduler;
  heap : gmap Z mcsos_thread
}.

Definition sm (A : Type) : Type := em sched_state A.

(** ** Field updates *)

Definition th_state (v : mcsos_thread_state) (t : mcsos_thread) : mcsos_thread :=
  mk_thread (t_name t) (t_id t) v (t_context t) (t_entry t) (t_arg t) (t_stack t)
    (t_stack_size t) (t_next t) (t_ticks t).
Definition th_next (v : option Z) (t : mcsos_thread) : mcsos_thread :=
  mk_thread (t_name t) (t_id t) (t_state t) (t_context t) (t_entry t) (t_arg t) (t_stack t)
    (t_stack_size t) v (t_ticks t).
Definition th_id (v : Z) (t : mcsos_thread) : mcsos_thread :=
  mk_thread (t_name t) v (t_state t) (t_context t) (t_entry t) (t_arg t) (t_stack t)
    (t_stack_size t) (t_next t) (t_ticks t).
Definition th_ticks (v : Z) (t : mcsos_thread) : mcsos_thread :=
  mk_thread (t_name t) (t_id t) (t_state t) (t_context t) (t_entry t) (t_arg t) (t_stack t)
    (t_stack_size t) (t_next t) v.

(** [p->...] and [p->... = ...]; undefined when [p] is no thread. *)
Definition get_thread (p : Z) : sm mcsos_thread := fun s =>
  let* t := heap s !! p in Some (inr t, s).
Definition upd_thread (p : Z) (f : mcsos_thread -> mcsos_thread) : sm unit := fun s =>
  let* t := heap s !! p in Some (inr tt, mk_ss (sched s) (<[p := f t]> (heap s))).

Definition get_sched : sm mcsos_scheduler := fun s => Some (inr (sched s), s).
Definition put_sched (v : mcsos_scheduler) : sm unit := fun s =>
  Some (inr tt, mk_ss v (heap s)).

Definition set_current (c : option Z) (s : mcsos_scheduler) : mcsos_scheduler :=
  mk_sched c (ready_head s) (ready_tail s) (runnable_count s) (next_id s) (context_switches s).
Definition set_queue (h t : option Z) (s : mcsos_scheduler) : mcsos_scheduler :=
  mk_sched (current s) h t (runnable_count s) (next_id s) (context_switches s).
Definition incr_runnable (s : mcsos_scheduler) : mcsos_scheduler :=
  mk_sched (current s) (ready_head s) (ready_tail s) (u64 (runnable_count s + 1)) (next_id s)
    (context_switches s).
Definition incr_switches (s : mcsos_scheduler) : mcsos_scheduler :=
  mk_sched (current s) (ready_head s) (ready_tail s) (runnable_count s) (next_id s)
    (u64 (context_switches s + 1)).

(** ** Operations *)

Definition mcsos_scheduler_init (boot : option Z) : sm unit :=
  match boot with
  | None => efail MCSOS_SCHED_ERR
  | Some b =>
      put_sched (mk_sched (Some b) None None 0 0 0) ;?
      upd_thread b (th_state MCSOS_THREAD_RUNNING) ;?
      let? s := get_sched in
      upd_thread b (th_id (next_id s)) ;?
      put_sched (mk_sched (current s) (ready_head s) (ready_tail s) (runnable_count s)
                   (u64 (next_id s + 1)) (context_switches s))
  end.

(** [(uint64_t)(stack + stack_size) & ~0xF]. *)
Definition initial_rsp (stack stack_size : Z) : Z :=
  u64 (stack + stack_size) .& u64 (Z.lnot 0xF).

Definition mcsos_thread_prepare (t : option Z) (name entry arg : option Z)
    (stack stack_size id : Z) : sm unit :=
  match t with
  | None => efail MCSOS_SCHED_ERR
  | Some p =>
      upd_thread p (fun t =>
        let c := t_context t in
        mk_thread name id MCSOS_THREAD_READY
          (mk_context (initial_rsp stack stack_size) (rbp c) (rbx c) (r12 c) (r13 c) (r14 c)
             (r15 c) (rip c))
          entry arg stack stack_size (t_next t) 0)
  end.

(** The two arms that append a thread at the tail of the ready list. *)
Definition append_ready (p : Z) : sm unit :=
  let? s := get_sched in
  match ready_tail s with
  | None => put_sched (set_queue (Some p) (Some p) s)
  | Some tl =>
      upd_thread tl (th_next (Some p)) ;?
      put_sched (set_queue (ready_head s) (Some p) s)
  end.

Definition mcsos_sched_enqueue (t : option Z) : sm unit :=
  match t with
  | None => efail MCSOS_SCHED_ERR
  | Some p =>
      upd_thread p (fun t => th_next None (th_state MCSOS_THREAD_READY t)) ;?
      append_ready p ;?
      let? s := get_sched in
      put_sched (incr_runnable s)
  end.

Definition mcsos_sched_ready_count (s : sched_state) : Z := u32 (runnable_count (sched s)).

Definition mcsos_sched_tick : sm unit :=
  let? s := get_sched in
  match current s with
  | None => efail MCSOS_SCHED_ERR
  | Some c => upd_thread c (fun t => th_ticks (u64 (t_ticks t + 1)) t)
  end.

Definition mcsos_sched_yield : sm unit :=
  let? s := get_sched in
  match ready_head s with
  | None => efail MCSOS_SCHED_ERR
  | Some next =>
      let? t := get_thread next in
      put_sched (set_queue (t_next t)
                   (match t_next t with None => None | Some _ => ready_tail s end) s) ;?
      upd_thread next (th_state MCSOS_THREAD_RUNNING) ;?
      match current s with
      | None => eret tt
      | Some c =>
          upd_thread c (fun t => th_next None (th_state MCSOS_THREAD_READY t)) ;?
          append_ready c
      end ;?
      let? s := get_sched in
      put_sched (incr_switches (set_current (Some next) s))
  end.

(** How the walk of [mcsos_sched_validate] over the ready list comes out: at the
    end of the list, at a thread that is not ready, at a pointer to no thread,
    or not yet at an end after [fuel] threads. *)
Inductive walk :=
  | Counted (n : Z)
  | NotReady
  | Dangling
  | StillWalking.

Fixpoint validate_loop (fuel : nat) (h : gmap Z mcsos_thread) (cur : option Z) (count : Z)
    : walk :=
  match cur with
  | None => Counted count
  | Some p =>
      match fuel with
      | O => StillWalking
      | S fuel =>
          match h !! p with
          | None => Dangling
          | Some t =>
              if bool_decide (t_state t = MCSOS_THREAD_READY)
              then validate_loop fuel h (t_next t) (u64 (count + 1))
              else NotReady
          end
      end
  end.

(** A walk of more threads than the heap holds visits one twice, and then
    never ends: like a dangling pointer, no result. *)
Definition mcsos_sched_validate : sm unit := fun s =>
  match validate_loop (S (size (heap s))) (heap s) (ready_head (sched s)) 0 with
  | StillWalking | Dangling => None
  | NotReady => Some (inl MCSOS_SCHED_ERR, s)
  | Counted count =>
      if negb (count =? runnable_count (sched s)) then Some (inl MCSOS_SCHED_ERR, s)
      else Some (inr tt, s)
  end.

(** ** The ready list *)

(** The threads of [q] are linked in order from [h], the last ends the list. *)
Fixpoint linked (hp : gmap Z mcsos_thread) (h : option Z) (q : list Z) : Prop :=
  match q with
  | [] => h = None
  | p :: q => h = Some p /\ exists t, hp !! p = Some t /\ t_state t = MCSOS_THREAD_READY
                                      /\ linked hp (t_next t) q
  end.

(** The abstract state: the running thread and the queue of ready ones. *)
Record sched_ok (c : Z) (q : list Z) (s : sched_state) : Prop := mk_sched_ok {
  so_cur : current (sched s) = Some c;
  so_run : exists t, heap s !! c = Some t /\ t_state t = MCSOS_THREAD_RUNNING;
  so_link : linked (heap s) (ready_head (sched s)) q;
  so_tail : ready_tail (sched s) = last q;
  so_nodup : NoDup (c :: q);
  so_count : runnable_count (sched s) = u64 (Z.of_nat (length q))
}.

Lemma linked_head hp h q : linked hp h q -> h = head q.
Proof. destruct q; simpl; naive_solver. Qed.

(** Threads outside the list may change freely. *)
Lemma linked_other hp h q p t :
  linked hp h q -> p ∉ q -> linked (<[p := t]> hp) h q.
Proof.
  revert h. induction q as [|x q IH]; intros h; [done|].
  intros (-> & tx & Hx & Hs & Hl) Hp. split; [done|]. exists tx.
  rewrite lookup_insert_ne by set_solver. split_all; try done. apply IH; [done|set_solver].
Qed.

Lemma linked_lookup hp h q p :
  linked hp h q -> p ∈ q -> exists t, hp !! p = Some t /\ t_state t = MCSOS_THREAD_READY.
Proof.
  revert h. induction q as [|x q IH]; intros h; [set_solver|].
  intros (-> & tx & Hx & Hs & Hl) [->|Hp]%elem_of_cons; [eauto|]. by eapply IH.
Qed.

(** Appending a detached ready thread after the last one. *)
Lemma linked_snoc hp h q tl t p tp :
  linked hp h (q ++ [tl]) -> hp !! tl = Some t -> hp !! p = Some tp ->
  t_state tp = MCSOS_THREAD_READY -> t_next tp = None ->
  NoDup (q ++ [tl; p]) ->
  linked (<[tl := th_next (Some p) t]> hp) h (q ++ [tl; p]).
Proof.
  revert h. induction q as [|x q IH]; intros h Hl Ht Hp Hs Hn Hnd.
  - destruct Hl as (-> & t' & Ht' & Hs' & Hnx). simplify_eq.
    apply NoDup_cons in Hnd as [Hne _]. cbn [app linked]. split; [done|].
    exists (th_next (Some p) t'). rewrite lookup_insert_eq. split_all; try done.
    exists tp. rewrite lookup_insert_ne by set_solver. done.
  - destruct Hl as (-> & t' & Ht' & Hs' & Hnx). cbn [app] in *.
    apply NoDup_cons in Hnd as [Hne Hnd]. cbn [linked]. split; [done|].
    exists t'. rewrite lookup_insert_ne by set_solver. split_all; try done. by apply IH.
Qed.

Lemma append_ready_ok s q p tp :
  linked (heap s) (ready_head (sched s)) q -> ready_tail (sched s) = last q ->
  heap s !! p = Some tp -> t_state tp = MCSOS_THREAD_READY -> t_next tp = None ->
  NoDup (q ++ [p]) ->
  exists s', append_ready p s = Some (inr tt, s')
    /\ linked (heap s') (ready_head (sched s')) (q ++ [p])
    /\ ready_tail (sched s') = Some p
    /\ current (sched s') = current (sched s)
    /\ runnable_count (sched s') = runnable_count (sched s)
    /\ next_id (sched s') = next_id (sched s)
    /\ context_switches (sched s') = context_switches (sched s)
    /\ forall x, x ∉ q -> heap s' !! x = heap s !! x.
Proof.
  intros Hl Ht Hp Hs Hn Hnd. unfold append_ready, ebind, get_sched. rewrite Ht.
  induction q as [|tl q _] using rev_ind.
  - cbn [last]. eexists. split; [done|]. cbn [sched heap ready_head set_queue app].
    split_all; try done. split; [done|]. by exists tp.
  - rewrite last_snoc. destruct (linked_lookup _ _ _ tl Hl) as (t & Htl & _); [set_solver|].
    unfold upd_thread. rewrite Htl. eexists. split; [done|].
    cbn [sched heap ready_head set_queue]. rewrite <- app_assoc in *. cbn [app] in *.
    split_all; try done.
    + by eapply linked_snoc.
    + intros x Hx. rewrite lookup_insert_ne; [done|]. set_solver.
Qed.

Lemma enqueue_ok c q s p t :
  sched_ok c q s -> heap s !! p = Some t -> p ∉ c :: q ->
  exists s', mcsos_sched_enqueue (Some p) s = Some (inr tt, s') /\ sched_ok c (q ++ [p]) s'
    /\ forall x, x ∉ p :: q -> heap s' !! x = heap s !! x.
Proof.
  intros [H1 (tc & H2 & H2') H3 H4 H5 H6] Hp Hnp. unfold mcsos_sched_enqueue.
  unfold ebind at 1, upd_thread. rewrite Hp.
  set (tp := th_next None _). unfold ebind at 1.
  destruct (append_ready_ok (mk_ss (sched s) (<[p := tp]> (heap s))) q p tp)
    as (s' & -> & L1 & L2 & L3 & L4 & _ & _ & L5); cbn [sched heap] in *; try done.
  - apply linked_other; [done|]. set_solver.
  - apply lookup_insert_eq.
  - apply NoDup_app. apply NoDup_cons in H5 as [_ H5]. split; [done|].
    split; [set_solver|apply NoDup_singleton].
  - unfold ebind, get_sched, put_sched. eexists. split; [done|].
    apply NoDup_cons in H5 as [H5 H5']. split.
    + split; cbn [sched heap incr_runnable current ready_head ready_tail runnable_count].
      * by rewrite L3.
      * exists tc. rewrite L5 by done. rewrite lookup_insert_ne by set_solver. done.
      * done.
      * by rewrite last_snoc.
      * apply NoDup_cons. split; [set_solver|]. apply NoDup_app.
        split; [done|]. split; [set_solver|apply NoDup_singleton].
      * rewrite L4, H6, length_app. cbn [length]. unfold u64, wrap.
        rewrite Zplus_mod_idemp_l. f_equal. lia.
    + intros x Hx. cbn [heap]. rewrite L5 by set_solver.
      rewrite lookup_insert_ne by set_solver. done.
Qed.

Lemma yield_empty c s : sched_ok c [] s -> mcsos_sched_yield s = Some (inl MCSOS_SCHED_ERR, s).
Proof.
  intros [H1 H2 H3 H4 H5 H6]. unfold mcsos_sched_yield, ebind, get_sched.
  simpl in H3. by rewrite H3.
Qed.

Lemma yield_ok c n q s :
  sched_ok c (n :: q) s ->
  exists s', mcsos_sched_yield s = Some (inr tt, s') /\ sched_ok n (q ++ [c]) s'
    /\ context_switches (sched s') = u64 (context_switches (sched s) + 1)
    /\ forall x, x ∉ c :: n :: q -> heap s' !! x = heap s !! x.
Proof.
  intros [H1 (tc & H2 & H2') (H3 & tn & Hn & Hns & Hl) H4 H5 H6].
  apply NoDup_cons in H5 as [Hc H5]. apply NoDup_cons in H5 as [Hnq H5].
  unfold mcsos_sched_yield. unfold ebind at 1, get_sched. rewrite H3.
  unfold ebind at 1, get_thread. rewrite Hn.
  unfold ebind at 1, put_sched. unfold ebind at 1, upd_thread. cbn [heap sched]. rewrite Hn, H1.
  unfold ebind at 1. unfold ebind at 1. cbn [heap sched].
  rewrite lookup_insert_ne by set_solver. rewrite H2.
  set (tc' := th_next None (th_state MCSOS_THREAD_READY tc)).
  set (tn' := th_state MCSOS_THREAD_RUNNING tn).
  destruct (append_ready_ok (mk_ss (set_queue (t_next tn)
      (match t_next tn with None => None | Some _ => ready_tail (sched s) end) (sched s))
      (<[c := tc']> (<[n := tn']> (heap s)))) q c tc')
    as (s' & Ha & L1 & L2 & L3 & L4 & _ & L6 & L5);
    cbn [sched heap set_queue ready_head ready_tail current runnable_count context_switches] in *.
  - apply linked_other; [apply linked_other; [done|]|]; set_solver.
  - rewrite (linked_head _ _ _ Hl), H4. destruct q as [|x q]; done.
  - apply lookup_insert_eq.
  - done.
  - done.
  - apply NoDup_app. split; [done|]. split; [set_solver|apply NoDup_singleton].
  - rewrite Ha. unfold ebind, put_sched. eexists. split; [done|]. split; [split|split];
      cbn [sched heap incr_switches set_current current ready_head ready_tail runnable_count
           context_switches].
    + done.
    + exists tn'. rewrite L5 by done. rewrite lookup_insert_ne by set_solver.
      by rewrite lookup_insert_eq.
    + done.
    + by rewrite last_snoc.
    + apply NoDup_cons. split; [set_solver|]. apply NoDup_app.
      split; [done|]. split; [set_solver|apply NoDup_singleton].
    + rewrite L4, H6, length_app. cbn [length]. f_equal. lia.
    + by rewrite L6.
    + intros x Hx. rewrite L5 by set_solver. rewrite !lookup_insert_ne by set_solver. done.
Qed.

Lemma tick_ok c q s :
  sched_ok c q s ->
  exists t s', heap s !! c = Some t /\ mcsos_sched_tick s = Some (inr tt, s')
    /\ sched_ok c q s' /\ heap s' = <[c := th_ticks (u64 (t_ticks t + 1)) t]> (heap s)
    /\ sched s' = sched s.
Proof.
  intros [H1 (tc & H2 & H2') H3 H4 H5 H6].
  unfold mcsos_sched_tick, ebind, get_sched, upd_thread. rewrite H1, H2.
  eexists tc, _. split; [done|]. split; [done|]. split; [|done].
  apply NoDup_cons in H5 as H5'. destruct H5' as [Hc _].
  split; cbn [sched heap]; try done.
  - eexists. split; [apply lookup_insert_eq|]. done.
  - by apply linked_other.
Qed.

(** ** Validation *)

Lemma validate_loop_ok q fuel hp h n :
  linked hp h q -> (length q < fuel)%nat -> 0 <= n ->
  validate_loop fuel hp h (u64 n) = Counted (u64 (n + Z.of_nat (length q))).
Proof.
  revert fuel h n. induction q as [|p q IH]; intros fuel h n Hl Hf Hn.
  - simpl in Hl. subst h. destruct fuel; cbn [validate_loop length]; do 2 f_equal; lia.
  - destruct Hl as (-> & t & Ht & Hs & Hl). destruct fuel as [|fuel]; [lia|].
    cbn [validate_loop]. rewrite Ht, bool_decide_true by done.
    replace (u64 (u64 n + 1)) with (u64 (n + 1))
      by (unfold u64, wrap; by rewrite Zplus_mod_idemp_l).
    rewrite IH by (done || (simpl in Hf; lia) || lia). cbn [length]. do 2 f_equal. lia.
Qed.

Lemma queue_fits c q s : sched_ok c q s -> (length q < size (heap s))%nat.
Proof.
  intros [_ (tc & H2 & _) H3 _ H5 _].
  assert (Hsub : (list_to_set (c :: q) : gset Z) ⊆ dom (heap s)).
  { intros x. rewrite elem_of_list_to_set, elem_of_cons. intros [->|Hx].
    - by apply elem_of_dom_2 in H2.
    - destruct (linked_lookup _ _ _ x H3 Hx) as (t & Ht & _). by apply elem_of_dom_2 in Ht. }
  apply subseteq_size in Hsub. rewrite size_dom, size_list_to_set in Hsub by done.
  simpl in Hsub. lia.
Qed.

Lemma validate_ok c q s : sched_ok c q s -> mcsos_sched_validate s = Some (inr tt, s).
Proof.
  intros Hok. pose proof (queue_fits c q s Hok) as Hf. destruct Hok as [_ _ H3 _ _ H6].
  unfold mcsos_sched_validate. change 0 with (u64 0).
  rewrite (validate_loop_ok q) by (done || lia). rewrite Z.add_0_l, H6, Z.eqb_refl. done.
Qed.
