(* ===== verification/SchedTheorems.v ===== *)
(** * Scheduler: properties *)
From S2P Require Import Prelude Sched.

(** ** The scheduler as a state machine

    What a client may do: boot, prepare and enqueue a thread that is neither
    running nor queued, yield, tick. *)
Inductive sched_reach : Z -> list Z -> sched_state -> Prop :=
| sr_init s b s' : is_Some (heap s !! b) ->
    mcsos_scheduler_init (Some b) s = Some (inr tt, s') -> sched_reach b [] s'
| sr_prepare c q s p nm en ar st sz id s' : sched_reach c q s -> p ∉ c :: q ->
    mcsos_thread_prepare (Some p) nm en ar st sz id s = Some (inr tt, s') ->
    sched_reach c q s'
| sr_enqueue c q s p s' : sched_reach c q s -> p ∉ c :: q ->
    mcsos_sched_enqueue (Some p) s = Some (inr tt, s') -> sched_reach c (q ++ [p]) s'
| sr_yield c n q s s' : sched_reach c (n :: q) s ->
    mcsos_sched_yield s = Some (inr tt, s') -> sched_reach n (q ++ [c]) s'
| sr_tick c q s s' : sched_reach c q s ->
    mcsos_sched_tick s = Some (inr tt, s') -> sched_reach c q s'.

Lemma init_ok s b :
  is_Some (heap s !! b) ->
  exists s', mcsos_scheduler_init (Some b) s = Some (inr tt, s') /\ sched_ok b [] s'
    /\ next_id (sched s') = 1.
Proof.
  intros [t Ht]. unfold mcsos_scheduler_init, ebind, put_sched, upd_thread, get_sched.
  cbn [heap sched]. rewrite Ht. cbn [heap sched next_id]. rewrite lookup_insert_eq.
  cbn [heap sched]. eexists. split; [done|].
  split; [|done]. split; cbn [sched heap current ready_head ready_tail runnable_count]; try done.
  - eexists. split; [apply lookup_insert_eq|done].
  - apply NoDup_singleton.
Qed.

Lemma reach_ok c q s : sched_reach c q s -> sched_ok c q s.
Proof.
  induction 1 as [s b s' Hb He|c q s p nm en ar st sz id s' _ IH Hp He
                 |c q s p s' _ IH Hp He|c n q s s' _ IH He|c q s s' _ IH He].
  - destruct (init_ok s b Hb) as (s1 & He1 & Hok & _). congruence.
  - unfold mcsos_thread_prepare, upd_thread in He.
    destruct (heap s !! p) as [t|] eqn:Ht; [|done]. simplify_eq.
    destruct IH as [H1 (tc & H2 & H2') H3 H4 H5 H6].
    split; cbn [sched heap]; try done.
    + exists tc. rewrite lookup_insert_ne by set_solver. done.
    + apply linked_other; [done|set_solver].
  - destruct (heap s !! p) as [t|] eqn:Ht.
    + destruct (enqueue_ok c q s p t IH Ht Hp) as (s1 & He1 & Hok & _). congruence.
    + unfold mcsos_sched_enqueue, ebind, upd_thread in He. by rewrite Ht in He.
  - destruct (yield_ok c n q s IH) as (s1 & He1 & Hok & _). congruence.
  - destruct (tick_ok c q s IH) as (t & s1 & _ & He1 & Hok & _). congruence.
Qed.

(** C27: In every state reached by booting, preparing and enqueueing threads
    that are neither running nor queued ([sched_reach]), yielding and ticking,
    the ready list is exactly the queue of enqueued threads (linked in order,
    ending at the tail, all READY, none twice), the running thread is the
    current one and not queued, the counter is the length, and [mcsos_sched_validate] terminates and accepts. *)
Theorem sched_reachable_valid c q s :
  sched_reach c q s ->
  sched_ok c q s /\ mcsos_sched_validate s = Some (inr tt, s)
  /\ mcsos_sched_ready_count s = u32 (u64 (Z.of_nat (length q))).
Proof.
  intros Hok%reach_ok. split; [done|]. split; [by eapply validate_ok|].
  unfold mcsos_sched_ready_count. by rewrite (so_count _ _ _ Hok).
Qed.

(** C11: The operations refine a FIFO queue: enqueueing a thread that is
    neither running nor queued appends it; yielding with an empty queue is an
    error that changes nothing, otherwise it runs the first thread, appends
    the running one and counts one switch; a null thread is refused. *)
Theorem sched_refines_fifo c q s :
  sched_ok c q s ->
  (forall p, is_Some (heap s !! p) -> p ∉ c :: q ->
     exists s', mcsos_sched_enqueue (Some p) s = Some (inr tt, s') /\ sched_ok c (q ++ [p]) s')
  /\ mcsos_sched_enqueue None s = Some (inl MCSOS_SCHED_ERR, s)
  /\ match q with
     | [] => mcsos_sched_yield s = Some (inl MCSOS_SCHED_ERR, s)
     | n :: q' => exists s', mcsos_sched_yield s = Some (inr tt, s')
         /\ sched_ok n (q' ++ [c]) s'
         /\ context_switches (sched s') = u64 (context_switches (sched s) + 1)
     end.
Proof.
  intros Hok. split.
  - intros p [t Ht] Hp. destruct (enqueue_ok c q s p t Hok Ht Hp) as (s' & H1 & H2 & _). eauto.
  - split; [done|]. destruct q as [|n q']; [by eapply yield_empty|].
    destruct (yield_ok c n q' s Hok) as (s' & H1 & H2 & H3 & _). eauto.
Qed.

(** ** Fairness *)

Fixpoint yields (n : nat) : sm unit :=
  match n with
  | O => eret tt
  | S n => yields n ;? mcsos_sched_yield
  end.

(** The running thread followed by the queue. *)
Definition runs (l : list Z) (s : sched_state) : Prop :=
  match l with [] => False | c :: q => sched_ok c q s end.

Lemma yields_rotate k l s :
  runs l s -> (1 < length l)%nat -> (k <= length l)%nat ->
  exists s', yields k s = Some (inr tt, s') /\ runs (drop k l ++ take k l) s'.
Proof.
  intros Hr Hl. induction k as [|k IH]; intros Hk.
  - exists s. rewrite drop_0, take_0, app_nil_r. done.
  - destruct IH as (s1 & H1 & H2); [lia|]. cbn [yields]. unfold ebind. rewrite H1.
    destruct (lookup_lt_is_Some_2 l k) as [x Hx]; [lia|].
    rewrite (drop_S l x k Hx) in H2. cbn [app runs] in H2.
    destruct (drop (S k) l ++ take k l) as [|n q] eqn:E.
    { apply (f_equal length) in E. rewrite length_app, length_drop, length_take in E. simpl in E. lia. }
    destruct (yield_ok x n q s1 H2) as (s2 & H3 & H4 & _). exists s2. split; [done|].
    rewrite (take_S_r l k x Hx), app_assoc, E. done.
Qed.

(** Round robin: with [q] ready threads behind [c], the [k]-th of them
    runs after exactly [k] yields, and one yield later than the last the
    scheduler is back where it was: no ready thread waits for more than
    [length q] yields. *)
Theorem sched_round_robin c q s :
  sched_ok c q s -> q <> [] ->
  (forall k p, (c :: q) !! k = Some p ->
     exists s', yields k s = Some (inr tt, s') /\ current (sched s') = Some p)
  /\ exists s', yields (S (length q)) s = Some (inr tt, s') /\ sched_ok c q s'.
Proof.
  intros Hok Hq. assert (Hl : (1 < length (c :: q))%nat) by (destruct q; simpl; [done|lia]).
  split.
  - intros k p Hp. pose proof (lookup_lt_Some _ _ _ Hp).
    destruct (yields_rotate k (c :: q) s Hok Hl) as (s' & H1 & H2); [lia|].
    exists s'. split; [done|]. rewrite (drop_S _ _ _ Hp) in H2. cbn [app runs] in H2.
    apply (so_cur _ _ _ H2).
  - destruct (yields_rotate (length (c :: q)) (c :: q) s Hok Hl) as (s' & H1 & H2); [done|].
    exists s'. split; [done|]. rewrite drop_all, firstn_all in H2. exact H2.
Qed.

(** ** A thread enqueued twice *)

(** The list up to a thread that now ends it. *)
Lemma linked_cut hp hp' h q i p t :
  linked hp h q -> NoDup q -> q !! i = Some p ->
  (forall x, x ∈ take i q -> hp' !! x = hp !! x) ->
  hp' !! p = Some t -> t_state t = MCSOS_THREAD_READY -> t_next t = None ->
  linked hp' h (take (S i) q).
Proof.
  intros Hl Hnd Hi Hsame Ht Hs Hn. revert h i Hl Hi Hsame.
  induction q as [|x q IH]; intros h i Hl Hi Hsame; [done|].
  apply NoDup_cons in Hnd as [Hx Hnd]. destruct Hl as (-> & tx & Hx' & Hsx & Hl).
  destruct i as [|i]; cbn in Hi.
  - injection Hi as ->. cbn [take linked]. split; [done|]. exists t. by rewrite take_0.
  - cbn [take linked]. split; [done|]. exists tx. rewrite Hsame by (cbn; left).
    split_all; [done..|]. apply IH; [done|done|done|].
    intros y Hy. apply Hsame. cbn. by right.
Qed.

(** A list that runs into a thread linked to itself has no end. *)
Lemma walk_self_loop hp hp' q p t fuel : forall h n,
  linked hp h (q ++ [p]) -> (forall x, x ∈ q -> hp' !! x = hp !! x) ->
  hp' !! p = Some t -> t_state t = MCSOS_THREAD_READY -> t_next t = Some p ->
  validate_loop fuel hp' h n = StillWalking.
Proof.
  revert q. induction fuel as [|fuel IH]; intros q h n Hl Hsame Ht Hs Hn.
  { destruct q as [|x q]; destruct Hl as (-> & _); done. }
  destruct q as [|x q]; destruct Hl as (-> & tx & Hx & Hsx & Hl); cbn [validate_loop].
  - rewrite Ht, bool_decide_true, Hn by done.
    apply (IH [] (Some p)); try done. split; [done|]. exists tx. split_all; try done.
  - rewrite Hsame, Hx, bool_decide_true by (done || left). apply (IH q); try done.
    intros y Hy. apply Hsame. by right.
Qed.

(** What enqueueing a queued thread does to the heap. *)
Lemma requeue_state c q l s p t tl :
  sched_ok c (q ++ [l]) s -> heap s !! p = Some t ->
  let hp := <[p := th_next None (th_state MCSOS_THREAD_READY t)]> (heap s) in
  hp !! l = Some tl ->
  exists s', mcsos_sched_enqueue (Some p) s = Some (inr tt, s') /\
    heap s' = <[l := th_next (Some p) tl]> hp /\
    ready_head (sched s') = ready_head (sched s) /\ ready_tail (sched s') = Some p /\
    runnable_count (sched s') = u64 (runnable_count (sched s) + 1).
Proof.
  intros [_ _ _ H4 _ _] Ht hp Hl. rewrite last_snoc in H4.
  unfold mcsos_sched_enqueue, append_ready, ebind, upd_thread, get_sched, put_sched.
  rewrite Ht. cbn [sched heap]. rewrite H4. cbn [sched heap]. fold hp. rewrite Hl.
  by eexists.
Qed.

Lemma requeue_last c q l s :
  sched_ok c (q ++ [l]) s ->
  exists s', mcsos_sched_enqueue (Some l) s = Some (inr tt, s') /\
    (exists t, heap s' !! l = Some t /\ t_next t = Some l) /\
    forall fuel, validate_loop fuel (heap s') (ready_head (sched s')) 0 = StillWalking.
Proof.
  intros Hok. pose proof (so_link _ _ _ Hok) as Hlink. pose proof (so_nodup _ _ _ Hok) as Hnd.
  apply NoDup_cons in Hnd as [_ Hnd]. apply NoDup_app in Hnd as (_ & Hdis & _).
  destruct (linked_lookup _ _ _ l Hlink) as (t & Ht & _); [set_solver|].
  destruct (requeue_state c q l s l t (th_next None (th_state MCSOS_THREAD_READY t)) Hok Ht)
    as (s' & He & Hh & Hhd & _); [apply lookup_insert_eq|].
  set (tl := th_next (Some l) _) in Hh.
  assert (heap s' !! l = Some tl) as Hl by (rewrite Hh; apply lookup_insert_eq).
  exists s'. split_all; [done|by exists tl|]. intros fuel. rewrite Hhd.
  apply (walk_self_loop (heap s) _ q l tl); try done. intros x Hx.
  assert (x <> l) by (intros ->; apply (Hdis l Hx); by left).
  by rewrite Hh, !lookup_insert_ne by done.
Qed.

Lemma requeue_middle c q l s p i :
  sched_ok c (q ++ [l]) s -> q !! i = Some p ->
  exists s', mcsos_sched_enqueue (Some p) s = Some (inr tt, s') /\
    size (heap s') = size (heap s) /\
    linked (heap s') (ready_head (sched s')) (take (S i) q) /\
    runnable_count (sched s') = u64 (runnable_count (sched s) + 1).
Proof.
  intros Hok Hi. pose proof (so_link _ _ _ Hok) as Hlink. pose proof (so_nodup _ _ _ Hok) as Hnd.
  apply NoDup_cons in Hnd as [_ Hnd]. pose proof Hnd as (_ & Hdis & _)%NoDup_app.
  assert (p ∈ q) as Hp by (by eapply list_elem_of_lookup_2).
  assert (forall x, x ∈ q -> x <> l) as Hne by (intros x Hx ->; apply (Hdis l Hx); by left).
  destruct (linked_lookup _ _ _ p Hlink) as (t & Ht & Hs); [set_solver|].
  destruct (linked_lookup _ _ _ l Hlink) as (tl & Htl & _); [set_solver|].
  destruct (requeue_state c q l s p t tl Hok Ht) as (s' & He & Hh & Hhd & _ & Hcnt);
    [by rewrite lookup_insert_ne by (by apply Hne)|].
  set (tp := th_next None _) in Hh. apply lookup_lt_Some in Hi as Hlt.
  exists s'. split_all; [done| | |done].
  - rewrite Hh, !map_size_insert, lookup_insert_ne by (by apply Hne). by rewrite Htl, Ht.
  - rewrite Hhd, <- (take_app_le q [l]) by lia.
    apply (linked_cut (heap s) _ _ _ _ p tp); try done.
    + by apply lookup_app_l_Some.
    + intros x (j & Hj)%list_elem_of_lookup. apply lookup_take_Some in Hj as (Hj & Hji).
      rewrite lookup_app_l in Hj by lia.
      assert (x <> p) as Hxp by (intros ->; assert (j = i);
        [eapply (NoDup_lookup _ _ _ p (proj1 (proj1 (NoDup_app _ _) Hnd))); done|lia]).
      assert (x <> l) by (eapply Hne, list_elem_of_lookup_2; done).
      by rewrite Hh, !lookup_insert_ne by done.
    + rewrite Hh, lookup_insert_ne by (apply not_eq_sym; by apply Hne). apply lookup_insert_eq.
Qed.

(** C39: [mcsos_sched_enqueue] does not look at the state of the thread.  From
    any well-formed scheduler, enqueueing a thread that is queued already
    succeeds and breaks the ready list:
    - the last thread of the queue is linked to itself, and the walk of
      [mcsos_sched_validate] then goes on for ever (no bound on its length
      suffices, and it meets no dangling pointer);
    - any other thread, in place [i], becomes the end of the list: the threads
      behind it are no longer on it, and [mcsos_sched_validate] returns an
      error as long as fewer than 2^64 - 1 threads were queued. *)
Theorem sched_double_enqueue c q s p i :
  sched_ok c q s -> q !! i = Some p ->
  exists s', mcsos_sched_enqueue (Some p) s = Some (inr tt, s') /\
    (S i = length q ->
       (exists t, heap s' !! p = Some t /\ t_next t = Some p) /\
       forall fuel, validate_loop fuel (heap s') (ready_head (sched s')) 0 = StillWalking) /\
    ((S i < length q)%nat ->
       linked (heap s') (ready_head (sched s')) (take (S i) q) /\
       (Z.of_nat (length q) + 1 < 2 ^ 64 ->
        mcsos_sched_validate s' = Some (inl MCSOS_SCHED_ERR, s'))).
Proof.
  intros Hok Hi. destruct q as [|l q _] using rev_ind; [done|]. rewrite length_app. cbn [length].
  apply lookup_lt_Some in Hi as Hlt. rewrite length_app in Hlt. cbn [length] in Hlt.
  destruct (decide (i = length q)) as [->|Hne].
  - rewrite list_lookup_middle in Hi by done. injection Hi as <-.
    destruct (requeue_last c q l s Hok) as (s' & He & Hloop). exists s'.
    split; [done|]. split; [by intros _|lia].
  - rewrite lookup_app_l in Hi by lia.
    destruct (requeue_middle c q l s p i Hok Hi) as (s' & He & Hsz & Hcut & Hcnt). exists s'.
    split; [done|]. split; [lia|]. intros _. rewrite take_app_le by lia. split; [done|].
    intros Hlen. unfold mcsos_sched_validate. change 0 with (u64 0).
    pose proof (queue_fits _ _ _ Hok) as Hf. rewrite length_app in Hf. cbn [length] in Hf.
    rewrite (validate_loop_ok (take (S i) q)) by (done || rewrite length_take; lia).
    rewrite length_take, Hcnt, (so_count _ _ _ Hok), length_app. cbn [length].
    rewrite (u64_id (Z.of_nat (length q + 1))), !u64_id by lia.
    by rewrite (proj2 (Z.eqb_neq _ _)) by lia.
Qed.

(** ** Witnesses: three threads at addresses 100, 200 and 300. *)
Definition blank_thread : mcsos_thread :=
  mk_thread None 0 MCSOS_THREAD_NEW (mk_context 0 0 0 0 0 0 0 0) None None 0 0 None 0.
Definition demo_boot : sched_state :=
  mk_ss (mk_sched None None None 0 0 0)
    (<[100 := blank_thread]> (<[200 := blank_thread]> {[300 := blank_thread]})).

Definition run_on (m : sm unit) (s : sched_state) : sched_state :=
  match m s with Some (_, s') => s' | None => s end.

Definition demo1 : sched_state := run_on (mcsos_scheduler_init (Some 100)) demo_boot.
Definition demo2 : sched_state := run_on (mcsos_sched_enqueue (Some 200)) demo1.
Definition demo3 : sched_state := run_on (mcsos_sched_enqueue (Some 300)) demo2.

Lemma demo3_reach : sched_reach 100 [200; 300] demo3.
Proof.
  apply (sr_enqueue 100 [200] demo2 300); [|set_solver by lia|vm_compute; reflexivity].
  apply (sr_enqueue 100 [] demo1 200); [|set_solver by lia|vm_compute; reflexivity].
  apply (sr_init demo_boot 100); [by eexists|vm_compute; reflexivity].
Qed.

Lemma demo2_ok : sched_ok 100 [200] demo2.
Proof.
  apply reach_ok, (sr_enqueue 100 [] demo1 200); [|set_solver by lia|vm_compute; reflexivity].
  apply (sr_init demo_boot 100); [by eexists|vm_compute; reflexivity].
Qed.

Lemma sched_reachable_valid_witness : mcsos_sched_validate demo3 = Some (inr tt, demo3).
Proof. apply (sched_reachable_valid 100 [200; 300] demo3 demo3_reach). Defined.

Lemma sched_refines_fifo_witness :
  exists s', mcsos_sched_yield demo2 = Some (inr tt, s') /\ sched_ok 200 [100] s'.
Proof.
  destruct (sched_refines_fifo 100 [200] demo2 demo2_ok) as (_ & _ & s' & H1 & H2 & _).
  exists s'. exact (conj H1 H2).
Defined.

Lemma sched_round_robin_witness :
  exists s', yields 2 demo3 = Some (inr tt, s') /\ current (sched s') = Some 300.
Proof.
  apply (sched_round_robin 100 [200; 300] demo3); [apply reach_ok, demo3_reach|discriminate|reflexivity].
Defined.

(** The last thread, and the first of two. *)
Lemma sched_double_enqueue_witness :
  (exists s', mcsos_sched_enqueue (Some 200) demo2 = Some (inr tt, s')
    /\ forall fuel, validate_loop fuel (heap s') (ready_head (sched s')) 0 = StillWalking) /\
  (exists s', mcsos_sched_enqueue (Some 200) demo3 = Some (inr tt, s')
    /\ linked (heap s') (ready_head (sched s')) [200]
    /\ mcsos_sched_validate s' = Some (inl MCSOS_SCHED_ERR, s')).
Proof.
  split.
  - destruct (sched_double_enqueue 100 [200] demo2 200 0 demo2_ok eq_refl) as (s' & He & H & _).
    exists s'. split; [exact He|]. apply H. reflexivity.
  - destruct (sched_double_enqueue 100 [200; 300] demo3 200 0 (reach_ok _ _ _ demo3_reach) eq_refl)
      as (s' & He & _ & H).
    exists s'. split; [exact He|]. destruct H as [H1 H2]; [cbn; lia|].
    split; [exact H1|]. apply H2. cbn. lia.
Defined.
