(* ===== verification/Sync.v ===== *)
(** * Locks ([kernel/sync/*.c], [include/mcs_sync.h])

    The lock-order checker is sequential code on one state object.  The spin
    lock and the mutex are shared between threads: each of their routines is a
    program of atomic actions ([prog]), which can run alone ([run]) or
    interleaved with the programs of other threads ([prog_step]).  Atomic
    accesses are sequentially consistent in the model; the acquire and release
    orders of the source are not distinguished. *)
From S2P Require Import Prelude.

Definition MCS_LOCKDEP_MAX_HELD : Z := 16.
Definition MCS_SYNC_OK : Z := 0.
Definition MCS_SYNC_EINVAL : Z := -22.
Definition MCS_SYNC_EBUSY : Z := -16.
Definition MCS_SYNC_EPERM : Z := -1.
Definition MCS_SYNC_EDEADLK : Z := -35.
Definition MCS_SYNC_EOVERFLOW : Z := -75.

(** ** Lock-order checker *)

(** [held_class] and [held_name] have 16 elements. *)
Record mcs_lockdep_state := mk_lockdep {
  held_class : list Z;
  held_name : list (option Z);
  depth : Z;
  violation_count : Z
}.

Definition violation (s : mcs_lockdep_state) : mcs_lockdep_state :=
  mk_lockdep (held_class s) (held_name s) (depth s) (u32 (violation_count s + 1)).

Definition mcs_lockdep_init : mcs_lockdep_state :=
  mk_lockdep (replicate (Z.to_nat MCS_LOCKDEP_MAX_HELD) 0)
    (replicate (Z.to_nat MCS_LOCKDEP_MAX_HELD) None) 0 0.

(** [for (i = 0; i < n; i++) if (held_class[i] == class_id) ...]. *)
Definition class_in (s : mcs_lockdep_state) (n class_id : Z) : bool :=
  match first_from (Z.to_nat n) 0 (fun i => nthZ (held_class s) i =? class_id) with
  | Some _ => true | None => false end.

Definition mcs_lockdep_is_held (s : mcs_lockdep_state) (class_id : Z) : bool :=
  if class_id =? 0 then false
  else class_in s (Z.min (depth s) MCS_LOCKDEP_MAX_HELD) class_id.

Definition mcs_lockdep_before_acquire (s : mcs_lockdep_state) (class_id : Z)
    (name : option Z) : Z * mcs_lockdep_state :=
  if class_id =? 0 then (MCS_SYNC_EINVAL, s) else
  if MCS_LOCKDEP_MAX_HELD <=? depth s then (MCS_SYNC_EOVERFLOW, violation s) else
  if class_in s (depth s) class_id then (MCS_SYNC_EDEADLK, violation s) else
  if (0 <? depth s) && (class_id <? nthZ (held_class s) (depth s - 1))
  then (MCS_SYNC_EDEADLK, violation s) else
  (MCS_SYNC_OK,
   mk_lockdep (<[Z.to_nat (depth s) := class_id]> (held_class s))
     (<[Z.to_nat (depth s) := name]> (held_name s)) (u32 (depth s + 1)) (violation_count s)).

Definition mcs_lockdep_after_release (s : mcs_lockdep_state) (class_id : Z)
    (name : option Z) : Z * mcs_lockdep_state :=
  if class_id =? 0 then (MCS_SYNC_EINVAL, s) else
  if depth s =? 0 then (MCS_SYNC_EPERM, violation s) else
  let index := depth s - 1 in
  if negb (nthZ (held_class s) index =? class_id) then (MCS_SYNC_EDEADLK, violation s) else
  (MCS_SYNC_OK,
   mk_lockdep (<[Z.to_nat index := 0]> (held_class s))
     (<[Z.to_nat index := None]> (held_name s)) (depth s - 1) (violation_count s)).

(** ** Programs of atomic actions *)

Inductive cell := Locked | Owner.

#[global] Instance cell_eq_dec : EqDecision cell.
Proof. solve_decision. Defined.

Record cells := mk_cells { c_locked : Z; c_owner : Z }.

Definition get_cell (m : cells) (c : cell) : Z :=
  match c with Locked => c_locked m | Owner => c_owner m end.
Definition put_cell (m : cells) (c : cell) (v : Z) : cells :=
  match c with
  | Locked => mk_cells v (c_owner m)
  | Owner => mk_cells (c_locked m) v
  end.

Inductive action :=
| Load (c : cell)                    (* __atomic_load_n *)
| Store (c : cell) (v : Z)           (* __atomic_store_n *)
| Xchg (c : cell) (v : Z)            (* __atomic_exchange_n *)
| Cas (c : cell) (expected v : Z).   (* __atomic_compare_exchange_n, 1 on success *)

Definition act (a : action) (m : cells) : Z * cells :=
  match a with
  | Load c => (get_cell m c, m)
  | Store c v => (0, put_cell m c v)
  | Xchg c v => (get_cell m c, put_cell m c v)
  | Cas c e v => if get_cell m c =? e then (1, put_cell m c v) else (0, m)
  end.

(** [While c k] runs [c] until it returns 0, then [k]. *)
Inductive prog :=
| Ret (z : Z)
| Act (a : action) (k : Z -> prog)
| While (c : prog) (k : prog).

Fixpoint pbind (p : prog) (k : Z -> prog) : prog :=
  match p with
  | Ret z => k z
  | Act a f => Act a (fun z => pbind (f z) k)
  | While c q => While c (pbind q k)
  end.

(** One step of a program; [None] when it has returned. *)
Definition prog_step (p : prog) (m : cells) : option (prog * cells) :=
  match p with
  | Ret _ => None
  | Act a k => let '(v, m') := act a m in Some (k v, m')
  | While c k => Some (pbind c (fun z => if z =? 0 then k else While c k), m)
  end.

(** The program alone, for at most [fuel] steps. *)
Fixpoint run (fuel : nat) (p : prog) (m : cells) : option (Z * cells) :=
  match p with
  | Ret z => Some (z, m)
  | _ => match fuel with
         | O => None
         | S fuel => let* r := prog_step p m in run fuel r.1 r.2
         end
  end.

(** ** Spin lock *)

Record mcs_spinlock := mk_spinlock {
  s_cells : cells;
  s_class_id : Z;
  s_name : option Z
}.

Definition mcs_spin_init (class_id : Z) (name : option Z) : mcs_spinlock :=
  mk_spinlock (mk_cells 0 0) class_id name.

(** [lock_null] is [lock == NULL]; the result is 1 for [true]. *)
Definition mcs_spin_try_lock (lock_null : bool) : prog :=
  if lock_null then Ret 0 else
  Act (Xchg Locked 1) (fun old => Ret (if old =? 0 then 1 else 0)).

(** [while (__atomic_load_n(&lock->locked) != 0) mcs_cpu_relax();] *)
Definition spin_wait (k : prog) : prog :=
  While (Act (Load Locked) (fun v => Ret (if v =? 0 then 0 else 1))) k.

Definition spin_cond : prog :=
  pbind (mcs_spin_try_lock false) (fun ok => if ok =? 1 then Ret 0 else spin_wait (Ret 1)).

Definition mcs_spin_lock : prog := While spin_cond (Ret 0).

Definition mcs_spin_unlock (lock_null : bool) : prog :=
  if lock_null then Ret 0 else Act (Store Locked 0) (fun _ => Ret 0).

Definition mcs_spin_is_locked (lock_null : bool) : prog :=
  if lock_null then Ret 0 else Act (Load Locked) (fun v => Ret (if v =? 0 then 0 else 1)).

(** ** Mutex *)

Record mcs_mutex := mk_mutex {
  m_cells : cells;
  m_class_id : Z;
  m_name : option Z
}.

Definition mcs_mutex_init (class_id : Z) (name : option Z) : mcs_mutex :=
  mk_mutex (mk_cells 0 0) class_id name.

Definition mcs_mutex_try_lock (mutex_null : bool) (owner_id : Z) : prog :=
  if mutex_null || (owner_id =? 0) then Ret MCS_SYNC_EINVAL else
  Act (Cas Locked 0 1) (fun ok =>
    if ok =? 0 then
      Act (Load Owner) (fun owner =>
        if owner =? owner_id then Ret MCS_SYNC_EDEADLK else Ret MCS_SYNC_EBUSY)
    else
      Act (Store Owner owner_id) (fun _ => Ret MCS_SYNC_OK)).

Definition mcs_mutex_unlock (mutex_null : bool) (owner_id : Z) : prog :=
  if mutex_null || (owner_id =? 0) then Ret MCS_SYNC_EINVAL else
  Act (Load Owner) (fun owner =>
    if negb (owner =? owner_id) then Ret MCS_SYNC_EPERM else
    Act (Store Owner 0) (fun _ =>
    Act (Store Locked 0) (fun _ => Ret MCS_SYNC_OK))).

Definition mcs_mutex_is_locked (mutex_null : bool) : prog :=
  if mutex_null then Ret 0 else Act (Load Locked) (fun v => Ret (if v =? 0 then 0 else 1)).

Definition mcs_mutex_owner (mutex_null : bool) : prog :=
  if mutex_null then Ret 0 else Act (Load Owner) (fun v => Ret v).

(** ** Lock-order checker: facts *)

(** The stack of held classes, bottom first. *)
Definition stack (s : mcs_lockdep_state) : list Z := take (Z.to_nat (depth s)) (held_class s).

Record lockdep_ok (s : mcs_lockdep_state) : Prop := mk_lockdep_ok {
  lo_len : length (held_class s) = 16%nat;
  lo_names : length (held_name s) = 16%nat;
  lo_depth : 0 <= depth s <= 16;
  lo_sorted : forall i j a b, stack s !! i = Some a -> stack s !! j = Some b ->
                (i < j)%nat -> a < b;
  lo_pos : Forall (fun a => 0 < a) (stack s)
}.

Lemma stack_length s : lockdep_ok s -> length (stack s) = Z.to_nat (depth s).
Proof. intros []. unfold stack. rewrite length_take. lia. Qed.

Lemma stack_nth s i :
  lockdep_ok s -> 0 <= i < depth s -> stack s !! Z.to_nat i = Some (nthZ (held_class s) i).
Proof.
  intros Hok Hi. pose proof (lo_len s Hok). pose proof (lo_depth s Hok).
  unfold stack, nthZ. rewrite lookup_take_lt by lia.
  destruct (lookup_lt_is_Some_2 (held_class s) (Z.to_nat i)) as [x Hx]; [lia|]. by rewrite Hx.
Qed.

Lemma class_in_spec s c : lockdep_ok s -> class_in s (depth s) c = true <-> c ∈ stack s.
Proof.
  intros Hok. unfold class_in. pose proof (lo_depth s Hok). split.
  - destruct (first_from _ _ _) as [i|] eqn:E; [|done]. intros _.
    apply first_from_Some in E as (Hi & Hc & _). apply Z.eqb_eq in Hc. subst c.
    apply list_elem_of_lookup. exists (Z.to_nat i). apply stack_nth; [done|lia].
  - intros (i & Hi)%list_elem_of_lookup. pose proof (lookup_lt_Some _ _ _ Hi) as Hl.
    rewrite stack_length in Hl by done.
    destruct (first_from _ _ _) eqn:E; [done|].
    pose proof (proj1 (first_from_None _ _ _) E (Z.of_nat i)) as Hf. cbv beta in Hf.
    rewrite <- (Nat2Z.id i), stack_nth in Hi by (done || lia). injection Hi as Hi.
    rewrite Hi, Z.eqb_refl in Hf. discriminate Hf. lia.
Qed.

Lemma stack_push s c nm :
  lockdep_ok s -> depth s < 16 ->
  stack (mk_lockdep (<[Z.to_nat (depth s) := c]> (held_class s)) nm (u32 (depth s + 1))
           (violation_count s)) = stack s ++ [c].
Proof.
  intros Hok Hd. pose proof (lo_len s Hok). pose proof (lo_depth s Hok).
  unfold stack. cbn [depth held_class]. rewrite u32_id by lia.
  replace (Z.to_nat (depth s + 1)) with (S (Z.to_nat (depth s))) by lia.
  rewrite (take_S_r _ _ c) by (apply list_lookup_insert_eq; lia).
  by rewrite take_insert_ge by lia.
Qed.

Lemma stack_pop s nm v :
  lockdep_ok s -> 0 < depth s ->
  exists c, c = nthZ (held_class s) (depth s - 1)
  /\ stack s = stack (mk_lockdep (<[Z.to_nat (depth s - 1) := 0]> (held_class s)) nm
                        (depth s - 1) v) ++ [c].
Proof.
  intros Hok Hd. pose proof (lo_len s Hok). pose proof (lo_depth s Hok).
  eexists. split; [done|]. unfold stack. cbn [depth held_class].
  rewrite take_insert_ge by lia.
  replace (Z.to_nat (depth s)) with (S (Z.to_nat (depth s - 1))) at 1 by lia.
  apply take_S_r. unfold nthZ.
  destruct (lookup_lt_is_Some_2 (held_class s) (Z.to_nat (depth s - 1))) as [x Hx]; [lia|].
  by rewrite Hx.
Qed.
