(* ===== verification/SyncTheorems.v ===== *)
(** * Locks: properties

    The lock-order checker branch by branch and the absence of circular waits
    under it; mutual exclusion of the mutex and of the spin lock for any number
    of threads and any interleaving of their atomic actions. *)
From stdpp Require Import functions.
From S2P Require Import Prelude Sync.

(** ** Lock-order checker *)

Lemma lockdep_init_ok : lockdep_ok mcs_lockdep_init.
Proof. split; try done; try (simpl; lia). Qed.

Lemma violation_ok s : lockdep_ok s -> lockdep_ok (violation s) /\ stack (violation s) = stack s.
Proof. intros []. split; [by split|done]. Qed.

Lemma sorted_top s l c :
  lockdep_ok s -> stack s = l ++ [c] -> Forall (fun a => a < c) l.
Proof.
  intros Hok E. apply Forall_lookup. intros i a Ha.
  apply (lo_sorted s Hok i (length l) a c); rewrite ?E.
  - by apply lookup_app_l_Some.
  - by apply list_lookup_middle.
  - by eapply lookup_lt_Some.
Qed.

Lemma push_ok s c nm :
  lockdep_ok s -> depth s < 16 -> 0 < c -> Forall (fun a => a < c) (stack s) ->
  let s' := mk_lockdep (<[Z.to_nat (depth s) := c]> (held_class s))
              (<[Z.to_nat (depth s) := nm]> (held_name s)) (u32 (depth s + 1))
              (violation_count s) in
  lockdep_ok s' /\ stack s' = stack s ++ [c].
Proof.
  intros Hok Hd Hc Hall s'. pose proof Hok as [H1 H2 H3 H4 H5].
  assert (Hst : stack s' = stack s ++ [c]) by (by apply stack_push). split; [|done].
  split; cbn [s' held_class held_name depth]; try (by rewrite length_insert).
  - rewrite u32_id; lia.
  - fold s'. rewrite Hst. intros i j a b Ha Hb Hij.
    apply lookup_app_Some in Hb as [Hb|[Hb1 Hb]].
    + apply lookup_app_Some in Ha as [Ha|[Ha1 Ha]]; [by eapply H4|].
      apply lookup_lt_Some in Hb. lia.
    + destruct (j - length (stack s))%nat eqn:E; [|done]. injection Hb as <-.
      apply lookup_app_Some in Ha as [Ha|[Ha1 Ha]]; [|lia].
      exact (Forall_lookup_1 _ _ _ _ Hall Ha).
  - fold s'. rewrite Hst. apply Forall_app. split; [done|]. by constructor.
Qed.

Lemma pop_ok s l c :
  lockdep_ok s -> 0 < depth s ->
  let s' := mk_lockdep (<[Z.to_nat (depth s - 1) := 0]> (held_class s))
              (<[Z.to_nat (depth s - 1) := None]> (held_name s)) (depth s - 1)
              (violation_count s) in
  stack s = l ++ [c] -> lockdep_ok s' /\ stack s' = l.
Proof.
  intros Hok Hd s' E. pose proof Hok as [H1 H2 H3 H4 H5].
  destruct (stack_pop s (<[Z.to_nat (depth s - 1) := None]> (held_name s)) (violation_count s) Hok Hd)
    as (c' & _ & E'). fold s' in E'. rewrite E in E'. apply app_inj_tail in E' as [Hst _].
  split; [|done]. split; cbn [s' held_class held_name depth]; try (by rewrite length_insert).
  - lia.
  - fold s'. rewrite <- Hst. intros i j a b Ha Hb Hij.
    apply (H4 i j); try done; rewrite E; by apply lookup_app_l_Some.
  - fold s'. rewrite <- Hst. rewrite E in H5. by apply Forall_app in H5 as [H5 _].
Qed.

(** Every class below the top and not equal to a held one is above all. *)
Lemma above_all s c :
  lockdep_ok s -> c ∉ stack s ->
  (0 <? depth s) && (c <? nthZ (held_class s) (depth s - 1)) = false ->
  Forall (fun a => a < c) (stack s).
Proof.
  intros Hok Hnin E. pose proof (stack_length s Hok) as Hlen. pose proof (lo_depth s Hok).
  destruct (decide (depth s = 0)) as [E0|].
  { destruct (stack s); [constructor|]. simpl in Hlen. lia. }
  destruct (stack_pop s (held_name s) 0 Hok) as (t & -> & Est); [lia|].
  set (top := nthZ (held_class s) (depth s - 1)) in *.
  assert (top < c).
  { rewrite (proj2 (Z.ltb_lt _ _)) in E by lia. cbn [andb] in E. apply Z.ltb_ge in E.
    assert (c <> top); [|lia]. intros ->. rewrite Est in Hnin. set_solver. }
  pose proof (sorted_top s _ _ Hok Est) as Hlt. rewrite Est. apply Forall_app.
  split; [|by constructor]. eapply Forall_impl; [exact Hlt|]. intros; cbv beta in *. lia.
Qed.

(** The conditions under which an acquisition is accepted. *)
Definition acquirable (s : mcs_lockdep_state) (c : Z) : Prop :=
  0 < c /\ (length (stack s) < 16)%nat /\ Forall (fun a => a < c) (stack s).

Lemma before_acquire_spec s c nm :
  lockdep_ok s -> 0 <= c ->
  let '(rc, s') := mcs_lockdep_before_acquire s c nm in
  lockdep_ok s' /\ (rc = MCS_SYNC_OK <-> acquirable s c)
  /\ stack s' = (if rc =? MCS_SYNC_OK then stack s ++ [c] else stack s)
  /\ violation_count s' = (if (rc =? MCS_SYNC_OK) || (c =? 0) then violation_count s
                           else u32 (violation_count s + 1)).
Proof.
  intros Hok Hc. pose proof (stack_length s Hok) as Hlen. pose proof (lo_depth s Hok) as Hd.
  destruct (violation_ok s Hok) as [Hv Hvs]. pose proof (class_in_spec s c Hok) as Hin.
  unfold mcs_lockdep_before_acquire, MCS_LOCKDEP_MAX_HELD, acquirable.
  destruct (Z.eqb_spec c 0) as [->|Hc0].
  { rewrite orb_true_r. split_all; try done. split; [done|lia]. }
  destruct (Z.leb_spec 16 (depth s)).
  { split_all; try done. split; [done|]. intros (_ & ? & _). lia. }
  destruct (class_in s (depth s) c).
  { split_all; try done. split; [done|]. intros (_ & _ & Hall). rewrite Forall_forall in Hall.
    specialize (Hall c (proj1 Hin eq_refl)). lia. }
  destruct ((0 <? depth s) && (c <? nthZ (held_class s) (depth s - 1))) eqn:E.
  { zbool. split_all; try done. split; [done|]. intros (_ & _ & Hall).
    pose proof (stack_nth s (depth s - 1) Hok ltac:(lia)) as Hn.
    eapply Forall_lookup_1 in Hall; [|exact Hn]. cbv beta in Hall. lia. }
  assert (Hall : Forall (fun a => a < c) (stack s)).
  { apply above_all; [done| |done]. intros Hx. by apply Hin in Hx. }
  destruct (push_ok s c nm) as [Hok' Hst']; [done|lia|lia|done|].
  split; [done|]. split; [|split; [exact Hst'|done]]. split; [|done].
  intros _. split_all; [lia|lia|done].
Qed.

Lemma after_release_spec s c nm :
  lockdep_ok s -> 0 <= c ->
  let '(rc, s') := mcs_lockdep_after_release s c nm in
  lockdep_ok s'
  /\ (rc = MCS_SYNC_OK -> stack s = stack s' ++ [c])
  /\ (forall l, 0 < c -> stack s = l ++ [c] -> rc = MCS_SYNC_OK)
  /\ (rc <> MCS_SYNC_OK -> stack s' = stack s
      /\ violation_count s' = (if c =? 0 then violation_count s
                               else u32 (violation_count s + 1))).
Proof.
  intros Hok Hc. pose proof (stack_length s Hok) as Hlen. pose proof (lo_depth s Hok) as Hd.
  destruct (violation_ok s Hok) as [Hv Hvs].
  unfold mcs_lockdep_after_release. destruct (Z.eqb_spec c 0) as [->|Hc0].
  { split_all; done. }
  destruct (Z.eqb_spec (depth s) 0) as [E0|].
  { split_all; try done. intros l _ E. rewrite E0 in Hlen. rewrite E, length_app in Hlen.
    simpl in Hlen. lia. }
  destruct (stack_pop s (<[Z.to_nat (depth s - 1) := None]> (held_name s))
    (violation_count s) Hok) as (t & Et & Est); [lia|]. rewrite <- Et.
  destruct (Z.eqb_spec t c) as [->|Hne]; cbn [negb].
  - destruct (pop_ok s _ c Hok ltac:(lia) Est) as [Hok' Hst'].
    split; [done|]. split; [intros _; exact Est|]. done.
  - split_all; try done. intros l _ E. rewrite E in Est. apply app_inj_tail in Est as [_ ->].
    done.
Qed.

(** The lock-order checker on every branch.  It accepts an acquisition
    exactly when the class is not 0, fewer than 16 locks are held and the
    class is above every held class, and then pushes it; it accepts a release
    exactly of the last class acquired, and then pops it.  A refusal leaves
    the held locks unchanged and counts one violation (none for class 0), and
    [is_held] tells the held classes. *)
Theorem lockdep_exact s c nm :
  lockdep_ok s -> 0 <= c ->
  (let '(rc, s') := mcs_lockdep_before_acquire s c nm in
   lockdep_ok s'
   /\ (rc = MCS_SYNC_OK <->
       0 < c /\ (length (stack s) < 16)%nat /\ Forall (fun a => a < c) (stack s))
   /\ stack s' = (if rc =? MCS_SYNC_OK then stack s ++ [c] else stack s)
   /\ violation_count s' = (if (rc =? MCS_SYNC_OK) || (c =? 0) then violation_count s
                            else u32 (violation_count s + 1)))
  /\ (let '(rc, s') := mcs_lockdep_after_release s c nm in
      lockdep_ok s'
      /\ (rc = MCS_SYNC_OK -> stack s = stack s' ++ [c])
      /\ (forall l, 0 < c -> stack s = l ++ [c] -> rc = MCS_SYNC_OK)
      /\ (rc <> MCS_SYNC_OK -> stack s' = stack s
          /\ violation_count s' = (if c =? 0 then violation_count s
                                   else u32 (violation_count s + 1))))
  /\ (mcs_lockdep_is_held s c = true <-> 0 < c /\ c ∈ stack s).
Proof.
  intros Hok Hc. pose proof (before_acquire_spec s c nm Hok Hc) as H1.
  pose proof (after_release_spec s c nm Hok Hc) as H2. split; [exact H1|]. split; [exact H2|].
  pose proof (lo_depth s Hok). pose proof (class_in_spec s c Hok) as Hin.
  unfold mcs_lockdep_is_held, MCS_LOCKDEP_MAX_HELD. rewrite Z.min_l by lia.
  destruct (Z.eqb_spec c 0); [split; [done|lia]|]. rewrite Hin.
  split; [intros; split; [lia|done]|tauto].
Qed.

(** ** No circular wait *)

(** A thread: its checker, the lock classes it holds, and the class of the lock
    it waits for, if any. *)
Record lock_thread := mk_lt {
  lt_dep : mcs_lockdep_state;
  lt_held : list Z;
  lt_wants : option Z
}.

Definition lt_start : lock_thread := mk_lt mcs_lockdep_init [] None.

(** Any thread may at any time ask its checker for any class, and waits for the
    lock when the checker accepts; take the lock it waits for once nobody holds
    it; or report the release of any class, which it lets go of when the
    checker accepts. *)
Inductive lock_step : gmap Z lock_thread -> gmap Z lock_thread -> Prop :=
| ls_ask (ts : gmap Z lock_thread) t th c nm rc dep' :
    ts !! t = Some th -> lt_wants th = None -> 0 <= c < 2 ^ 32 ->
    mcs_lockdep_before_acquire (lt_dep th) c nm = (rc, dep') ->
    lock_step ts (<[t := mk_lt dep' (lt_held th) (if rc =? MCS_SYNC_OK then Some c else None)]> ts)
| ls_take (ts : gmap Z lock_thread) t th c :
    ts !! t = Some th -> lt_wants th = Some c ->
    (forall u uh, ts !! u = Some uh -> c ∉ lt_held uh) ->
    lock_step ts (<[t := mk_lt (lt_dep th) (lt_held th ++ [c]) None]> ts)
| ls_release (ts : gmap Z lock_thread) t th c nm rc dep' :
    ts !! t = Some th -> lt_wants th = None -> 0 <= c < 2 ^ 32 ->
    mcs_lockdep_after_release (lt_dep th) c nm = (rc, dep') ->
    lock_step ts
      (<[t := mk_lt dep' (if rc =? MCS_SYNC_OK then filter (fun a => a <> c) (lt_held th)
                          else lt_held th) None]> ts).

(** The checker's stack: what the thread holds, then what it waits for. *)
Definition thread_ok (th : lock_thread) : Prop :=
  lockdep_ok (lt_dep th) /\ stack (lt_dep th) = lt_held th ++ option_list (lt_wants th).

Definition threads_ok (ts : gmap Z lock_thread) : Prop :=
  forall t th, ts !! t = Some th -> thread_ok th.

Lemma threads_ok_insert ts t th : threads_ok ts -> thread_ok th -> threads_ok (<[t := th]> ts).
Proof. intros Hts Hth u uh [[_ <-]|[_ Hu]]%lookup_insert_Some; [done|by eapply Hts]. Qed.

Lemma filter_top l c :
  Forall (fun a => a < c) l -> filter (fun a => a <> c) (l ++ [c]) = l.
Proof.
  intros Hl. rewrite filter_app. rewrite filter_cons_False by (intros H; by apply H).
  rewrite filter_nil, app_nil_r. induction Hl as [|a l Ha _ IH]; [done|].
  rewrite filter_cons_True by lia. by rewrite IH.
Qed.

Lemma lock_step_ok ts ts' : lock_step ts ts' -> threads_ok ts -> threads_ok ts'.
Proof.
  intros Hstep Hts. destruct Hstep as [ts t th c nm rc dep' Ht Hw Hc E|ts t th c Ht Hw _
    |ts t th c nm rc dep' Ht Hw Hc E];
    (destruct (Hts t th Ht) as [Hok Hst]; rewrite Hw in Hst; cbn [option_list] in Hst;
     apply threads_ok_insert; [done|]); unfold thread_ok; cbn [lt_dep lt_held lt_wants].
  - pose proof (before_acquire_spec (lt_dep th) c nm Hok ltac:(lia)) as H. rewrite E in H.
    destruct H as (Hok' & _ & Hst' & _). split; [done|]. rewrite Hst', Hst, app_nil_r.
    destruct (rc =? MCS_SYNC_OK); [done|]. cbn. by rewrite app_nil_r.
  - split; [done|]. rewrite Hst. cbn. by rewrite app_nil_r.
  - pose proof (after_release_spec (lt_dep th) c nm Hok ltac:(lia)) as H. rewrite E in H.
    destruct H as (Hok' & Hpop & _ & Hrej). split; [done|]. cbn [option_list].
    rewrite app_nil_r in *. destruct (Z.eqb_spec rc MCS_SYNC_OK) as [->|Hne].
    + specialize (Hpop eq_refl). rewrite <- Hst, Hpop.
      rewrite filter_top; [done|]. by apply (sorted_top (lt_dep th)).
    + by destruct (Hrej Hne) as [-> _].
Qed.

Definition waits_on (ts : gmap Z lock_thread) (a b : Z) : Prop :=
  exists t u c, ts !! a = Some t /\ ts !! b = Some u /\ lt_wants t = Some c /\ c ∈ lt_held u.

(** What a thread waits for is above all it holds. *)
Lemma wants_above th c d : thread_ok th -> lt_wants th = Some d -> c ∈ lt_held th -> c < d.
Proof.
  intros [Hok Hst] Hw Hc. rewrite Hw in Hst. apply (sorted_top _ _ _ Hok) in Hst.
  rewrite Forall_forall in Hst. by apply Hst.
Qed.

Lemma waits_chain ts a b :
  threads_ok ts -> tc (waits_on ts) a b ->
  exists t c, ts !! a = Some t /\ lt_wants t = Some c /\
    forall u d, ts !! b = Some u -> lt_wants u = Some d -> c < d.
Proof.
  intros Hts H. induction H as [a b Hab|a v b Hav Hvb IH].
  - destruct Hab as (t & u & c & Ha & Hb & Hw & Hc). exists t, c. split_all; [done..|].
    intros u' d Hu' Hd. simplify_eq. by eapply (wants_above u); [eapply Hts|..].
  - destruct IH as (v' & c' & Hv & Hvw & IH). destruct Hav as (t & u & c & Ha & Hu & Hw & Hc).
    exists t, c. split_all; [done..|]. intros u' d Hu' Hd. simplify_eq.
    assert (c < c') by (by eapply (wants_above u); [eapply Hts|..]).
    specialize (IH u' d Hu' Hd). lia.
Qed.

(** C13: Deadlock freedom.  Any threads that start with fresh checkers and, in
    any interleaving, ask [mcs_lockdep_before_acquire] before they wait for a
    lock class and [mcs_lockdep_after_release] before they let one go, going on
    only when the answer is [MCS_SYNC_OK] and otherwise calling with any
    arguments: in no reachable state does a chain of threads, each waiting for
    a class that the next one holds, close into a cycle. *)
Theorem lockdep_no_deadlock ts0 ts a :
  (forall t th, ts0 !! t = Some th -> th = lt_start) -> rtc lock_step ts0 ts ->
  ~ tc (waits_on ts) a a.
Proof.
  intros H0 Hrun.
  assert (Hts : threads_ok ts).
  { assert (threads_ok ts0) as Hts0.
    { intros t th ->%H0. split; [apply lockdep_init_ok|done]. }
    clear H0. induction Hrun as [|ts0 ts1 ts Hstep _ IH]; [done|]. by eapply IH, lock_step_ok. }
  intros H. destruct (waits_chain ts a a Hts H) as (t & c & Ha & Hw & Hlt).
  specialize (Hlt t c Ha Hw). lia.
Qed.

(** ** The mutex under interleaving *)

(** A thread is outside, inside its critical section, or in the middle of a
    call ([inside] tells from where it called). *)
Inductive call := CLock | CUnlock.
Inductive status :=
| Out
| In
| Busy (inside : bool) (cl : call) (p : prog).

Definition after_call (inside : bool) (cl : call) (rc : Z) : status :=
  match cl with
  | CLock => if (rc =? MCS_SYNC_OK) || inside then In else Out
  | CUnlock => if (rc =? MCS_SYNC_OK) || negb inside then Out else In
  end.

(** Any thread may call lock or unlock whenever it is not in a call, holding
    the mutex or not; each uses its own non-zero id. *)
Inductive mutex_step : cells * (Z -> status) -> cells * (Z -> status) -> Prop :=
| ms_call m (ts : Z -> status) (t : Z) (cl : call) (inside : bool) : t <> 0 -> ts t = (if inside then In else Out) ->
    mutex_step (m, ts)
      (m, <[t := Busy inside cl (match cl with CLock => mcs_mutex_try_lock false t
                                          | CUnlock => mcs_mutex_unlock false t end)]> ts)
| ms_act m (ts : Z -> status) t inside cl p p' m' : ts t = Busy inside cl p -> prog_step p m = Some (p', m') ->
    mutex_step (m, ts) (m', <[t := Busy inside cl p']> ts)
| ms_ret m (ts : Z -> status) t inside cl rc : ts t = Busy inside cl (Ret rc) ->
    mutex_step (m, ts) (m, <[t := after_call inside cl rc]> ts).

Definition mutex_start : cells * (Z -> status) := (m_cells (mcs_mutex_init 1 None), fun _ => Out).

(** The programs in the middle of their calls. *)
Definition lock_store (t : Z) : prog := Act (Store Owner t) (fun _ => Ret MCS_SYNC_OK).
Definition lock_failed (t : Z) : prog :=
  Act (Load Owner) (fun owner =>
    if owner =? t then Ret MCS_SYNC_EDEADLK else Ret MCS_SYNC_EBUSY).
Definition unlock_locked : prog := Act (Store Locked 0) (fun _ => Ret MCS_SYNC_OK).
Definition unlock_owner : prog := Act (Store Owner 0) (fun _ => unlock_locked).

(** Threads that do not own the mutex, that own it, and that are about to
    take or give up the owner field. *)
Inductive free_st (t : Z) : status -> Prop :=
| f_out : free_st t Out
| f_l0 : t <> 0 -> free_st t (Busy false CLock (mcs_mutex_try_lock false t))
| f_l2 : t <> 0 -> free_st t (Busy false CLock (lock_failed t))
| f_busy : free_st t (Busy false CLock (Ret MCS_SYNC_EBUSY))
| f_u0 : t <> 0 -> free_st t (Busy false CUnlock (mcs_mutex_unlock false t))
| f_perm : free_st t (Busy false CUnlock (Ret MCS_SYNC_EPERM))
| f_done b : free_st t (Busy b CUnlock (Ret MCS_SYNC_OK)).

Inductive hold_st (t : Z) : status -> Prop :=
| h_in : hold_st t In
| h_l0 : hold_st t (Busy true CLock (mcs_mutex_try_lock false t))
| h_l2 : hold_st t (Busy true CLock (lock_failed t))
| h_dead : hold_st t (Busy true CLock (Ret MCS_SYNC_EDEADLK))
| h_ok : hold_st t (Busy false CLock (Ret MCS_SYNC_OK))
| h_u0 : hold_st t (Busy true CUnlock (mcs_mutex_unlock false t))
| h_u1 : hold_st t (Busy true CUnlock unlock_owner).

Inductive turn_st (t : Z) : status -> Prop :=
| t_acq : turn_st t (Busy false CLock (lock_store t))
| t_rel : turn_st t (Busy true CUnlock unlock_locked).

Definition mutex_inv (st : cells * (Z -> status)) : Prop :=
  let '(m, ts) := st in
  (c_locked m = 0 /\ c_owner m = 0 /\ forall t, free_st t (ts t))
  \/ exists t0, t0 <> 0 /\ c_locked m = 1 /\ (forall t, t <> t0 -> free_st t (ts t))
     /\ ((hold_st t0 (ts t0) /\ c_owner m = t0) \/ (turn_st t0 (ts t0) /\ c_owner m = 0)).

Lemma try_lock_unfold t : t <> 0 ->
  mcs_mutex_try_lock false t
  = Act (Cas Locked 0 1) (fun ok => if ok =? 0 then lock_failed t else lock_store t).
Proof. intros H. unfold mcs_mutex_try_lock. by rewrite (proj2 (Z.eqb_neq _ _) H). Qed.

Lemma unlock_unfold t : t <> 0 ->
  mcs_mutex_unlock false t
  = Act (Load Owner) (fun owner =>
      if negb (owner =? t) then Ret MCS_SYNC_EPERM else unlock_owner).
Proof. intros H. unfold mcs_mutex_unlock. by rewrite (proj2 (Z.eqb_neq _ _) H). Qed.

(** One action of a thread in each of the three situations. *)
Lemma free_step t inside cl p p' m m' :
  free_st t (Busy inside cl p) -> prog_step p m = Some (p', m') -> c_owner m <> t ->
  (m' = m /\ free_st t (Busy inside cl p'))
  \/ (c_locked m = 0 /\ m' = mk_cells 1 (c_owner m) /\ t <> 0
      /\ turn_st t (Busy inside cl p')).
Proof.
  intros Hf Hs Ho. apply Z.eqb_neq in Ho. inversion Hf; subst; try discriminate Hs.
  - rewrite try_lock_unfold in Hs by done. cbn [prog_step act get_cell put_cell] in Hs.
    destruct (Z.eqb_spec (c_locked m) 0); simplify_eq Hs; intros <- <-; cbn [Z.eqb].
    + right. split_all; try done. constructor.
    + left. split; [done|]. by constructor.
  - cbn [lock_failed prog_step act get_cell] in Hs. rewrite Ho in Hs. simplify_eq.
    left. split; [done|constructor].
  - rewrite unlock_unfold in Hs by done. cbn [prog_step act get_cell] in Hs.
    rewrite Ho in Hs. simplify_eq Hs. intros <- <-. left. split; [done|constructor].
Qed.

Lemma hold_step t inside cl p p' m m' :
  hold_st t (Busy inside cl p) -> prog_step p m = Some (p', m') -> t <> 0 ->
  c_owner m = t -> c_locked m = 1 ->
  (m' = m /\ hold_st t (Busy inside cl p'))
  \/ (m' = mk_cells 1 0 /\ turn_st t (Busy inside cl p')).
Proof.
  intros Hf Hs Ht Ho Hl. inversion Hf; subst; try discriminate Hs.
  - rewrite try_lock_unfold in Hs by done. cbn [prog_step act get_cell put_cell] in Hs.
    rewrite Hl in Hs. simplify_eq Hs. intros <- <-. left. split; [done|constructor].
  - cbn [lock_failed prog_step act get_cell] in Hs. rewrite Z.eqb_refl in Hs. simplify_eq.
    left. split; [done|constructor].
  - rewrite unlock_unfold in Hs by done. cbn [prog_step act get_cell] in Hs.
    rewrite Z.eqb_refl in Hs. simplify_eq Hs. intros <- <-. left. split; [done|constructor].
  - cbn [unlock_owner prog_step act put_cell] in Hs. rewrite Hl in Hs. simplify_eq.
    right. split; [done|constructor].
Qed.

Lemma turn_step t inside cl p p' m m' :
  turn_st t (Busy inside cl p) -> prog_step p m = Some (p', m') ->
  c_owner m = 0 -> c_locked m = 1 ->
  (m' = mk_cells 1 t /\ hold_st t (Busy inside cl p'))
  \/ (m' = mk_cells 0 0 /\ free_st t (Busy inside cl p')).
Proof.
  intros Hf Hs Ho Hl. inversion Hf; subst; cbn in Hs; rewrite ?Hl, ?Ho in Hs; simplify_eq.
  - left. split; [done|constructor].
  - right. split; [done|constructor].
Qed.

Ltac no_ret :=
  exfalso;
  match goal with
  | E : mcs_mutex_try_lock false _ = Ret _ |- _ => rewrite try_lock_unfold in E by done; done
  | E : mcs_mutex_unlock false _ = Ret _ |- _ => rewrite unlock_unfold in E by done; done
  end.

Lemma free_ret t inside cl rc :
  free_st t (Busy inside cl (Ret rc)) -> free_st t (after_call inside cl rc).
Proof. intros H. inversion H; subst; first [exact (f_out t) | no_ret]. Qed.

Lemma hold_ret t inside cl rc :
  t <> 0 -> hold_st t (Busy inside cl (Ret rc)) -> hold_st t (after_call inside cl rc).
Proof. intros Ht H. inversion H; subst; first [exact (h_in t) | no_ret]. Qed.

(** Replacing the status of one thread. *)
Lemma others_insert (ts : Z -> status) t st (P : Z -> status -> Prop) t0 :
  (forall u, u <> t0 -> P u (ts u)) -> (t <> t0 -> P t st) ->
  forall u, u <> t0 -> P u (<[t := st]> ts u).
Proof.
  intros Hall Hst u Hu. destruct (decide (t = u)) as [->|Hne].
  - rewrite fn_lookup_insert. auto.
  - rewrite fn_lookup_insert_ne by done. auto.
Qed.

(** How the invariant is established again when one thread's status changes:
    the mutex is free, the thread holds it or is about to, another one does. *)
Lemma inv_free m (ts : Z -> status) t st :
  c_locked m = 0 -> c_owner m = 0 -> (forall u, u <> t -> free_st u (ts u)) -> free_st t st ->
  mutex_inv (m, <[t := st]> ts).
Proof.
  intros H1 H2 H3 Hst. left. split_all; [done|done|]. intros u.
  destruct (decide (t = u)) as [->|]; [by rewrite fn_lookup_insert|].
  rewrite fn_lookup_insert_ne by done. auto.
Qed.

Lemma inv_self m (ts : Z -> status) t st :
  t <> 0 -> c_locked m = 1 -> (forall u, u <> t -> free_st u (ts u)) ->
  (hold_st t st /\ c_owner m = t) \/ (turn_st t st /\ c_owner m = 0) ->
  mutex_inv (m, <[t := st]> ts).
Proof.
  intros H0 H1 H2 Hst. right. exists t. split_all; [done|done| |by rewrite fn_lookup_insert].
  by apply others_insert.
Qed.

Lemma inv_other m (ts : Z -> status) t0 t st :
  t <> t0 -> t0 <> 0 -> c_locked m = 1 -> (forall u, u <> t0 -> free_st u (ts u)) ->
  (hold_st t0 (ts t0) /\ c_owner m = t0) \/ (turn_st t0 (ts t0) /\ c_owner m = 0) ->
  free_st t st -> mutex_inv (m, <[t := st]> ts).
Proof.
  intros Hne H0 H1 H2 H3 Hst. right. exists t0.
  split_all; [done|done|by apply others_insert|by rewrite fn_lookup_insert_ne].
Qed.

Lemma call_free t inside cl :
  t <> 0 -> free_st t (if inside : bool then In else Out) ->
  free_st t (Busy inside cl (match cl with CLock => mcs_mutex_try_lock false t
                                         | CUnlock => mcs_mutex_unlock false t end)).
Proof. intros Ht H. destruct inside; [inversion H|]. destruct cl; by constructor. Qed.

Lemma call_hold t inside cl :
  hold_st t (if inside : bool then In else Out) ->
  hold_st t (Busy inside cl (match cl with CLock => mcs_mutex_try_lock false t
                                         | CUnlock => mcs_mutex_unlock false t end)).
Proof. intros H. destruct inside; [|inversion H]. destruct cl; constructor. Qed.

(** An action of thread [t]. *)
Lemma mutex_inv_act m (ts : Z -> status) t inside cl p p' m' :
  mutex_inv (m, ts) -> ts t = Busy inside cl p -> prog_step p m = Some (p', m') ->
  mutex_inv (m', <[t := Busy inside cl p']> ts).
Proof.
  intros [(H1 & H2 & H3)|(t0 & H0 & H1 & H2 & H3)] Hts Hs.
  - pose proof (H3 t) as Ht. rewrite Hts in Ht.
    assert (Hot : c_owner m <> t) by (rewrite H2; intros <-; inversion Ht; subst; done).
    destruct (free_step t inside cl p p' m m' Ht Hs Hot) as [[-> Hf]|(_ & -> & Ht0 & Hf)];
      [by apply inv_free|]. by apply inv_self; auto.
  - destruct (decide (t = t0)) as [->|Hne].
    + rewrite Hts in H3. destruct H3 as [[H3 Ho]|[H3 Ho]].
      * destruct (hold_step t0 inside cl p p' m m' H3 Hs H0 Ho H1) as [[-> Hf]|[-> Hf]];
          apply inv_self; auto.
      * destruct (turn_step t0 inside cl p p' m m' H3 Hs Ho H1) as [[-> Hf]|[-> Hf]];
          [apply inv_self|apply inv_free]; auto.
    + pose proof (H2 t Hne) as Ht. rewrite Hts in Ht.
      assert (Hot : c_owner m <> t).
      { destruct H3 as [[_ ->]|[_ ->]]; [done|]. intros <-. inversion Ht; subst; done. }
      destruct (free_step t inside cl p p' m m' Ht Hs Hot) as [[-> Hf]|(Hl & _)]; [|lia].
      by apply (inv_other _ _ t0).
Qed.

Lemma mutex_inv_step st st' : mutex_inv st -> mutex_step st st' -> mutex_inv st'.
Proof.
  intros Hinv Hstep. destruct Hstep as [m ts t cl inside Ht Hts|m ts t inside cl p p' m' Hts Hs
    |m ts t inside cl rc Hts]; [|by eapply mutex_inv_act|];
    destruct Hinv as [(H1 & H2 & H3)|(t0 & H0 & H1 & H2 & H3)].
  - apply inv_free; auto. apply call_free; [done|]. by rewrite <- Hts.
  - destruct (decide (t = t0)) as [->|Hne].
    + apply inv_self; auto. left. rewrite Hts in H3.
      destruct H3 as [[H3 Ho]|[H3 Ho]]; [|destruct inside; inversion H3].
      split; [by apply call_hold|done].
    + apply (inv_other _ _ t0); auto. apply call_free; [done|]. rewrite <- Hts. auto.
  - apply inv_free; auto. apply free_ret. by rewrite <- Hts.
  - destruct (decide (t = t0)) as [->|Hne].
    + apply inv_self; auto. left. rewrite Hts in H3.
      destruct H3 as [[H3 Ho]|[H3 Ho]]; [split; [by apply hold_ret|done]|inversion H3].
    + apply (inv_other _ _ t0); auto. apply free_ret. rewrite <- Hts. auto.
Qed.

Lemma mutex_inv_reach st : rtc mutex_step mutex_start st -> mutex_inv st.
Proof.
  intros H. apply (rtc_ind_r (fun st => mutex_inv st) mutex_start) in H; [done| |].
  - left. split; [done|]. split; [done|]. intros t. constructor.
  - intros y z _ Hyz Hy. by eapply mutex_inv_step.
Qed.

(** C12: Mutual exclusion of the mutex: for any number of threads with
    distinct ids, calling lock and unlock in any order (also unlock without
    holding it) and interleaved action by action, at most one is ever in its
    critical section, and while one is, the mutex is locked and that thread is
    its owner. *)
Theorem mutex_exclusion m ts t u :
  rtc mutex_step mutex_start (m, ts) -> ts t = In ->
  c_locked m = 1 /\ c_owner m = t /\ (ts u = In -> u = t).
Proof.
  intros Hr Hin. apply mutex_inv_reach in Hr as [(_ & _ & H3)|(t0 & H0 & H1 & H2 & H3)].
  - specialize (H3 t). rewrite Hin in H3. inversion H3.
  - assert (Hall : forall v, ts v = In -> v = t0).
    { intros v Hv. destruct (decide (v = t0)); [done|]. pose proof (H2 v n) as Hf.
      rewrite Hv in Hf. inversion Hf. }
    pose proof (Hall t Hin). subst t0. destruct H3 as [[_ Ho]|[H3 _]].
    + split; [done|]. split; [done|]. intros Hu. by apply Hall.
    + rewrite Hin in H3. inversion H3.
Qed.

(** The mutex alone, on every branch: the result and the cells after each
    call, for any cells and any id. *)
Theorem mutex_branches m id :
  run 3 (mcs_mutex_try_lock false id) m
  = Some (if id =? 0 then (MCS_SYNC_EINVAL, m)
          else if c_locked m =? 0 then (MCS_SYNC_OK, mk_cells 1 id)
          else if c_owner m =? id then (MCS_SYNC_EDEADLK, m) else (MCS_SYNC_EBUSY, m))
  /\ run 3 (mcs_mutex_unlock false id) m
     = Some (if id =? 0 then (MCS_SYNC_EINVAL, m)
             else if c_owner m =? id then (MCS_SYNC_OK, mk_cells 0 0) else (MCS_SYNC_EPERM, m))
  /\ run 1 (mcs_mutex_is_locked false) m = Some (if c_locked m =? 0 then 0 else 1, m)
  /\ run 1 (mcs_mutex_owner false) m = Some (c_owner m, m)
  /\ run 0 (mcs_mutex_try_lock true id) m = Some (MCS_SYNC_EINVAL, m)
  /\ run 0 (mcs_mutex_unlock true id) m = Some (MCS_SYNC_EINVAL, m).
Proof.
  destruct m as [l o]. destruct (Z.eqb_spec id 0) as [->|Hid]; [done|].
  rewrite try_lock_unfold, unlock_unfold by done. split_all; try done;
    cbn [run prog_step act get_cell put_cell c_locked c_owner fst snd lock_failed lock_store
         unlock_owner unlock_locked].
  - destruct (l =? 0); cbn; [done|]. by destruct (o =? id).
  - by destruct (o =? id).
Qed.

(** ** The spin lock under interleaving *)

Inductive spin_call := SLock | STry | SUnlock.
Inductive spin_status :=
| SOut
| SIn
| SBusy (cl : spin_call) (p : prog).

Definition spin_prog (cl : spin_call) : prog :=
  match cl with
  | SLock => mcs_spin_lock
  | STry => mcs_spin_try_lock false
  | SUnlock => mcs_spin_unlock false
  end.

Definition spin_after (cl : spin_call) (rc : Z) : spin_status :=
  match cl with
  | SLock => SIn
  | STry => if rc =? 1 then SIn else SOut
  | SUnlock => SOut
  end.

(** Threads lock (or try to) from outside and unlock from inside. *)
Inductive spin_step : cells * (Z -> spin_status) -> cells * (Z -> spin_status) -> Prop :=
| ss_call m (ts : Z -> spin_status) (t : Z) cl :
    ts t = match cl with SUnlock => SIn | _ => SOut end ->
    spin_step (m, ts) (m, <[t := SBusy cl (spin_prog cl)]> ts)
| ss_act m (ts : Z -> spin_status) t cl p p' m' :
    ts t = SBusy cl p -> prog_step p m = Some (p', m') ->
    spin_step (m, ts) (m', <[t := SBusy cl p']> ts)
| ss_ret m (ts : Z -> spin_status) t cl rc : ts t = SBusy cl (Ret rc) ->
    spin_step (m, ts) (m, <[t := spin_after cl rc]> ts).

Definition spin_start : cells * (Z -> spin_status) :=
  (s_cells (mcs_spin_init 1 None), fun _ => SOut).

(** The four points of [mcs_spin_lock] before it has the lock. *)
Definition lock_xchg : prog := pbind spin_cond (fun z => if z =? 0 then Ret 0 else mcs_spin_lock).
Definition lock_spin : prog := spin_wait mcs_spin_lock.
Definition lock_load : prog :=
  pbind (Act (Load Locked) (fun v => Ret (if v =? 0 then 0 else 1)))
    (fun z => if z =? 0 then mcs_spin_lock else lock_spin).

Inductive spin_free : spin_status -> Prop :=
| sf_out : spin_free SOut
| sf_0 : spin_free (SBusy SLock mcs_spin_lock)
| sf_1 : spin_free (SBusy SLock lock_xchg)
| sf_2 : spin_free (SBusy SLock lock_spin)
| sf_3 : spin_free (SBusy SLock lock_load)
| sf_try : spin_free (SBusy STry (mcs_spin_try_lock false))
| sf_failed : spin_free (SBusy STry (Ret 0))
| sf_done : spin_free (SBusy SUnlock (Ret 0)).

Inductive spin_hold : spin_status -> Prop :=
| sh_in : spin_hold SIn
| sh_ok : spin_hold (SBusy SLock (Ret 0))
| sh_try : spin_hold (SBusy STry (Ret 1))
| sh_unlock : spin_hold (SBusy SUnlock (mcs_spin_unlock false)).

Definition spin_inv (st : cells * (Z -> spin_status)) : Prop :=
  let '(m, ts) := st in
  (c_locked m = 0 /\ forall t, spin_free (ts t))
  \/ exists t0, c_locked m = 1 /\ (forall t, t <> t0 -> spin_free (ts t)) /\ spin_hold (ts t0).

Lemma spin_free_step cl p p' m m' :
  spin_free (SBusy cl p) -> prog_step p m = Some (p', m') ->
  c_locked m = 0 \/ c_locked m = 1 ->
  (m' = m /\ spin_free (SBusy cl p'))
  \/ (c_locked m = 0 /\ c_locked m' = 1 /\ spin_hold (SBusy cl p')).
Proof.
  intros Hf Hs Hl. destruct m as [l o]. cbn [c_locked] in *.
  inversion Hf; subst; try discriminate Hs.
  - injection Hs as <- <-. left. split; [done|]. apply sf_1.
  - cbn in Hs. destruct Hl as [->| ->]; injection Hs as <- <-.
    + right. split; [done|]. split; [done|]. apply sh_ok.
    + left. split; [done|]. apply sf_2.
  - injection Hs as <- <-. left. split; [done|]. apply sf_3.
  - cbn in Hs. destruct Hl as [->| ->]; injection Hs as <- <-; left; (split; [done|]).
    + apply sf_0.
    + apply sf_2.
  - cbn in Hs. destruct Hl as [->| ->]; injection Hs as <- <-.
    + right. split; [done|]. split; [done|]. apply sh_try.
    + left. split; [done|]. apply sf_failed.
Qed.

Lemma spin_hold_step cl p p' m m' :
  spin_hold (SBusy cl p) -> prog_step p m = Some (p', m') ->
  c_locked m' = 0 /\ spin_free (SBusy cl p').
Proof.
  intros Hf Hs. inversion Hf; subst; try discriminate Hs.
  cbn in Hs. injection Hs as <- <-. split; [done|]. apply sf_done.
Qed.

Lemma spin_inv_step st st' : spin_inv st -> spin_step st st' -> spin_inv st'.
Proof.
  intros Hinv Hstep.
  destruct Hstep as [m ts t cl Hts|m ts t cl p p' m' Hts Hs|m ts t cl rc Hts];
    cbn [spin_inv] in *; destruct Hinv as [(H1 & H2)|(t0 & H1 & H2 & H3)].
  - left. split; [done|]. intros u. destruct (decide (t = u)) as [->|]; [|by rewrite fn_lookup_insert_ne].
    rewrite fn_lookup_insert. specialize (H2 u). rewrite Hts in H2.
    destruct cl; [constructor|constructor|inversion H2].
  - right. exists t0. split; [done|]. destruct (decide (t = t0)) as [->|Hne].
    + rewrite fn_lookup_insert. split; [by intros; rewrite fn_lookup_insert_ne by done; auto|].
      rewrite Hts in H3. destruct cl; [inversion H3|inversion H3|constructor].
    + rewrite fn_lookup_insert_ne by done. split; [|done]. intros u Hu.
      destruct (decide (t = u)) as [->|]; [|rewrite fn_lookup_insert_ne by done; auto].
      rewrite fn_lookup_insert. specialize (H2 u Hu). rewrite Hts in H2.
      destruct cl; [constructor|constructor|inversion H2].
  - pose proof (H2 t) as Ht. rewrite Hts in Ht.
    destruct (spin_free_step cl p p' m m' Ht Hs (or_introl H1)) as [[-> Hf]|(_ & Hl & Hf)].
    + left. split; [done|]. intros u. destruct (decide (t = u)) as [->|];
        [by rewrite fn_lookup_insert|by rewrite fn_lookup_insert_ne].
    + right. exists t. split; [done|]. rewrite fn_lookup_insert. split; [|done].
      intros u Hu. by rewrite fn_lookup_insert_ne.
  - destruct (decide (t = t0)) as [->|Hne].
    + rewrite Hts in H3. destruct (spin_hold_step cl p p' m m' H3 Hs) as [Hl Hf].
      left. split; [done|]. intros u. destruct (decide (t0 = u)) as [->|];
        [by rewrite fn_lookup_insert|rewrite fn_lookup_insert_ne by done; auto].
    + pose proof (H2 t Hne) as Ht. rewrite Hts in Ht.
      destruct (spin_free_step cl p p' m m' Ht Hs (or_intror H1)) as [[-> Hf]|(Hl & _)]; [|lia].
      right. exists t0. split; [done|]. rewrite fn_lookup_insert_ne by done. split; [|done].
      intros u Hu. destruct (decide (t = u)) as [->|];
        [by rewrite fn_lookup_insert|rewrite fn_lookup_insert_ne by done; auto].
  - left. split; [done|]. intros u. destruct (decide (t = u)) as [->|]; [|by rewrite fn_lookup_insert_ne].
    rewrite fn_lookup_insert. specialize (H2 u). rewrite Hts in H2. inversion H2; subst; exact sf_out.
  - right. exists t0. split; [done|]. destruct (decide (t = t0)) as [->|Hne].
    + rewrite fn_lookup_insert. split; [by intros; rewrite fn_lookup_insert_ne by done; auto|].
      rewrite Hts in H3. inversion H3; subst; exact sh_in.
    + rewrite fn_lookup_insert_ne by done. split; [|done]. intros u Hu.
      destruct (decide (t = u)) as [->|]; [|rewrite fn_lookup_insert_ne by done; auto].
      rewrite fn_lookup_insert. specialize (H2 u Hu). rewrite Hts in H2.
      inversion H2; subst; exact sf_out.
Qed.

(** Mutual exclusion of the spin lock: for any number of threads using
    [mcs_spin_lock], [mcs_spin_try_lock] and [mcs_spin_unlock], interleaved
    action by action, at most one is ever inside, and the lock word is 1 while
    one is.  Run alone, [mcs_spin_lock] takes a free lock in three steps and
    never returns on a taken one. *)
Theorem spin_exclusion :
  (forall m ts t u, rtc spin_step spin_start (m, ts) -> ts t = SIn ->
     c_locked m = 1 /\ (ts u = SIn -> u = t))
  /\ (forall o, run 3 mcs_spin_lock (mk_cells 0 o) = Some (0, mk_cells 1 o))
  /\ (forall fuel o, run fuel mcs_spin_lock (mk_cells 1 o) = None).
Proof.
  split; [|split].
  - intros m ts t u Hr Hin.
    assert (Hi : spin_inv (m, ts)).
    { apply (rtc_ind_r spin_inv spin_start) in Hr; [done| |].
      - left. split; [done|]. intros v. constructor.
      - intros y z _ Hyz Hy. by eapply spin_inv_step. }
    destruct Hi as [(_ & H2)|(t0 & H1 & H2 & _)].
    + specialize (H2 t). rewrite Hin in H2. inversion H2.
    + assert (Hall : forall v, ts v = SIn -> v = t0).
      { intros v Hv. destruct (decide (v = t0)); [done|]. pose proof (H2 v n) as Hf.
        rewrite Hv in Hf. inversion Hf. }
      split; [done|]. intros Hu. rewrite (Hall t Hin). by apply Hall.
  - done.
  - intros fuel o.
    assert (Hsp : forall n, run n lock_spin (mk_cells 1 o) = None).
    { intros n. induction n as [n IH] using (well_founded_induction lt_wf).
      destruct n as [|[|n]]; [done|done|]. exact (IH n ltac:(lia)). }
    destruct fuel as [|[|fuel]]; [done|done|]. exact (Hsp fuel).
Qed.

(** ** Witnesses *)

Definition dep1 : mcs_lockdep_state := (mcs_lockdep_before_acquire mcs_lockdep_init 5 None).2.
Definition dep2 : mcs_lockdep_state := (mcs_lockdep_before_acquire dep1 9 None).2.

Lemma dep_ok s c : lockdep_ok s -> 0 <= c -> lockdep_ok (mcs_lockdep_before_acquire s c None).2.
Proof.
  intros Hok Hc. pose proof (before_acquire_spec s c None Hok Hc) as H.
  destruct (mcs_lockdep_before_acquire s c None) as [rc s']. apply H.
Qed.

Lemma dep1_ok : lockdep_ok dep1.
Proof. apply dep_ok; [apply lockdep_init_ok|lia]. Qed.
Lemma dep2_ok : lockdep_ok dep2.
Proof. apply dep_ok; [apply dep1_ok|lia]. Qed.

Lemma lockdep_exact_witness : mcs_lockdep_is_held dep2 5 = true <-> 0 < 5 /\ 5 ∈ stack dep2.
Proof. apply (lockdep_exact dep2 5 None dep2_ok). lia. Defined.

(** Thread 1 holds class 5 and waits for 9, which thread 2 holds. *)
Definition lock_demo : gmap Z lock_thread :=
  <[1 := mk_lt dep2 [5] (Some 9)]> {[2 := mk_lt (mcs_lockdep_before_acquire mcs_lockdep_init 9 None).2 [9] None]}.

Lemma lock_demo_run : rtc lock_step (<[1 := lt_start]> {[2 := lt_start]}) lock_demo.
Proof.
  eapply rtc_l; [eapply (ls_ask _ 2 lt_start 9 None); [reflexivity..|lia|reflexivity]|].
  eapply rtc_l; [eapply (ls_take _ 2); [reflexivity|reflexivity|]|].
  { intros u uh [[_ <-]|[_ Hu]]%lookup_insert_Some; [by apply not_elem_of_nil|].
    apply lookup_insert_Some in Hu as [[_ <-]|[_ Hu]]; [by apply not_elem_of_nil|].
    apply lookup_singleton_Some in Hu as [_ <-]. by apply not_elem_of_nil. }
  eapply rtc_l; [eapply (ls_ask _ 1 lt_start 5 None); [reflexivity..|lia|reflexivity]|].
  eapply rtc_l; [eapply (ls_take _ 1); [reflexivity|reflexivity|]|].
  { intros u uh Hu. assert (lt_held uh = [] \/ lt_held uh = [9]) as [-> | ->].
    { repeat (apply lookup_insert_Some in Hu as [[_ <-]|[_ Hu]]; [by auto|]).
      apply lookup_singleton_Some in Hu as [_ <-]. by auto. }
    - apply not_elem_of_nil.
    - rewrite list_elem_of_singleton. lia. }
  eapply rtc_l; [eapply (ls_ask _ 1 _ 9 None); [reflexivity..|lia|reflexivity]|].
  match goal with |- rtc _ ?x _ => replace x with lock_demo by (vm_compute; reflexivity) end.
  apply rtc_refl.
Qed.

Lemma lockdep_no_deadlock_witness : ~ tc (waits_on lock_demo) 1 1.
Proof.
  apply (lockdep_no_deadlock (<[1 := lt_start]> {[2 := lt_start]}) lock_demo 1); [|apply lock_demo_run].
  intros t th [[_ <-]|[_ [_ <-]%lookup_singleton_Some]]%lookup_insert_Some; reflexivity.
Defined.

Definition mutex_demo_ts : Z -> status :=
  <[7 := In]> (<[7 := Busy false CLock (Ret MCS_SYNC_OK)]>
    (<[7 := Busy false CLock (lock_store 7)]>
      (<[7 := Busy false CLock (mcs_mutex_try_lock false 7)]> (fun _ => Out)))).

Lemma mutex_demo : rtc mutex_step mutex_start (mk_cells 1 7, mutex_demo_ts).
Proof.
  eapply rtc_l; [apply (ms_call _ _ 7 CLock false); [lia|reflexivity]|].
  eapply rtc_l; [eapply (ms_act _ _ 7); reflexivity|].
  eapply rtc_l; [eapply (ms_act _ _ 7); reflexivity|].
  eapply rtc_l; [eapply (ms_ret _ _ 7 false CLock MCS_SYNC_OK); reflexivity|].
  apply rtc_refl.
Qed.

Lemma mutex_exclusion_witness :
  c_locked (mk_cells 1 7) = 1 /\ c_owner (mk_cells 1 7) = 7
  /\ (mutex_demo_ts 9 = In -> 9 = 7).
Proof. exact (mutex_exclusion (mk_cells 1 7) mutex_demo_ts 7 9 mutex_demo eq_refl). Defined.

Definition spin_demo_ts : Z -> spin_status :=
  <[3 := SIn]> (<[3 := SBusy STry (Ret 1)]>
    (<[3 := SBusy STry (mcs_spin_try_lock false)]> (fun _ => SOut))).

Lemma spin_demo : rtc spin_step spin_start (mk_cells 1 0, spin_demo_ts).
Proof.
  eapply rtc_l; [apply (ss_call _ _ 3 STry); reflexivity|].
  eapply rtc_l; [eapply (ss_act _ _ 3); reflexivity|].
  eapply rtc_l; [eapply (ss_ret _ _ 3 STry 1); reflexivity|].
  apply rtc_refl.
Qed.

Lemma spin_exclusion_witness :
  c_locked (mk_cells 1 0) = 1 /\ (spin_demo_ts 4 = SIn -> 4 = 3).
Proof. exact (proj1 spin_exclusion (mk_cells 1 0) spin_demo_ts 3 4 spin_demo eq_refl). Defined.
