(* ===== verification/Elf.v ===== *)
(** * ELF64 loader planning
      ([kernel/user/m11_elf_loader.c], [include/mcsos/user/m11_elf_loader.h])

    The routine validates an untrusted image and fills in a load plan.  The
    image is a list of bytes; a struct read outside it is undefined ([None]).
    The plan is the caller's object, returned with the status. *)
From Stdlib Require Import Strings.String.
From S2P Require Import Prelude.

Definition M11_ELFMAG0 : Z := 0x7f.
Definition M11_ELFMAG1 : Z := 69. (* 'E' *)
Definition M11_ELFMAG2 : Z := 76. (* 'L' *)
Definition M11_ELFMAG3 : Z := 70. (* 'F' *)
Definition M11_ELFCLASS64 : Z := 2.
Definition M11_ELFDATA2LSB : Z := 1.
Definition M11_EV_CURRENT : Z := 1.
Definition M11_ET_EXEC : Z := 2.
Definition M11_ET_DYN : Z := 3.
Definition M11_EM_X86_64 : Z := 62.
Definition M11_PT_LOAD : Z := 1.
Definition M11_PF_X : Z := 1.
Definition M11_PF_W : Z := 2.
Definition M11_PF_R : Z := 4.
Definition M11_MAX_LOAD_SEGMENTS : Z := 8.

Definition M11_OK : Z := 0.
Definition M11_ERR_NULL : Z := -1.
Definition M11_ERR_SIZE : Z := -2.
Definition M11_ERR_MAGIC : Z := -3.
Definition M11_ERR_CLASS : Z := -4.
Definition M11_ERR_ENDIAN : Z := -5.
Definition M11_ERR_VERSION : Z := -6.
Definition M11_ERR_TYPE : Z := -7.
Definition M11_ERR_MACHINE : Z := -8.
Definition M11_ERR_EHSIZE : Z := -9.
Definition M11_ERR_PHENTSIZE : Z := -10.
Definition M11_ERR_PHBOUNDS : Z := -11.
Definition M11_ERR_ALIGN : Z := -12.
Definition M11_ERR_SEGBOUNDS : Z := -13.
Definition M11_ERR_SEGRANGE : Z := -14.
Definition M11_ERR_SEGCOUNT : Z := -15.
Definition M11_ERR_ENTRY : Z := -16.
Definition M11_ERR_FLAGS : Z := -17.

Record m11_elf64_ehdr := mk_ehdr {
  e_ident : list Z;
  e_type : Z;
  e_machine : Z;
  e_version : Z;
  e_entry : Z;
  e_phoff : Z;
  e_shoff : Z;
  e_flags : Z;
  e_ehsize : Z;
  e_phentsize : Z;
  e_phnum : Z;
  e_shentsize : Z;
  e_shnum : Z;
  e_shstrndx : Z
}.

Record m11_elf64_phdr := mk_phdr {
  p_type : Z;
  p_flags : Z;
  p_offset : Z;
  p_vaddr : Z;
  p_paddr : Z;
  p_filesz : Z;
  p_memsz : Z;
  p_align : Z
}.

Record m11_user_region := mk_uregion { ur_base : Z; ur_limit : Z }.

Record m11_segment_plan := mk_seg {
  sg_file_offset : Z;
  sg_vaddr : Z;
  sg_filesz : Z;
  sg_memsz : Z;
  sg_align : Z;
  sg_flags : Z
}.

Record m11_process_image_plan := mk_plan {
  pl_entry : Z;
  pl_segment_count : Z;
  pl_segments : list m11_segment_plan
}.

Definition sizeof_ehdr : Z := 64.
Definition sizeof_phdr : Z := 56.

(** The struct at byte offset [off] of the image. *)
Definition read_ehdr (image : list Z) : option m11_elf64_ehdr :=
  if Z.of_nat (length image) <? sizeof_ehdr then None else
  Some (mk_ehdr (sub 0 16 image) (le_get 16 2 image) (le_get 18 2 image) (le_get 20 4 image)
          (le_get 24 8 image) (le_get 32 8 image) (le_get 40 8 image) (le_get 48 4 image)
          (le_get 52 2 image) (le_get 54 2 image) (le_get 56 2 image) (le_get 58 2 image)
          (le_get 60 2 image) (le_get 62 2 image)).

Definition read_phdr (image : list Z) (off : Z) : option m11_elf64_phdr :=
  if Z.of_nat (length image) <? off + sizeof_phdr then None else
  let o := Z.to_nat off in
  Some (mk_phdr (le_get (o + 0) 4 image) (le_get (o + 4) 4 image) (le_get (o + 8) 8 image)
          (le_get (o + 16) 8 image) (le_get (o + 24) 8 image) (le_get (o + 32) 8 image)
          (le_get (o + 40) 8 image) (le_get (o + 48) 8 image)).

(** [None] on overflow. *)
Definition m11_add_overflow_u64 (a b : Z) : option Z :=
  let r := u64 (a + b) in if r <? a then None else Some r.

Definition m11_is_power_of_two_u64 (v : Z) : bool :=
  negb (v =? 0) && (v .& u64 (v - 1) =? 0).

Definition zero_seg : m11_segment_plan := mk_seg 0 0 0 0 0 0.
Definition m11_zero_plan : m11_process_image_plan :=
  mk_plan 0 0 (replicate (Z.to_nat M11_MAX_LOAD_SEGMENTS) zero_seg).

Definition m11_validate_user_range (region : m11_user_region) (base size : Z) : Z :=
  if ur_limit region <=? ur_base region then M11_ERR_SEGRANGE else
  if size =? 0 then M11_ERR_SEGRANGE else
  match m11_add_overflow_u64 base size with
  | None => M11_ERR_SEGRANGE
  | Some end_ =>
      if (base <? ur_base region) || (ur_limit region <? end_) || (end_ <=? base)
      then M11_ERR_SEGRANGE else M11_OK
  end.

Definition m11_validate_ident (eh : m11_elf64_ehdr) : Z :=
  let id i := nthZ (e_ident eh) i in
  if negb (id 0 =? M11_ELFMAG0) || negb (id 1 =? M11_ELFMAG1) || negb (id 2 =? M11_ELFMAG2)
     || negb (id 3 =? M11_ELFMAG3) then M11_ERR_MAGIC else
  if negb (id 4 =? M11_ELFCLASS64) then M11_ERR_CLASS else
  if negb (id 5 =? M11_ELFDATA2LSB) then M11_ERR_ENDIAN else
  if negb (id 6 =? M11_EV_CURRENT) || negb (e_version eh =? M11_EV_CURRENT)
  then M11_ERR_VERSION else M11_OK.

Definition m11_validate_phdr_bounds (eh : m11_elf64_ehdr) (image_size : Z) : Z :=
  if e_phnum eh =? 0 then M11_ERR_PHBOUNDS else
  if negb (e_phentsize eh =? sizeof_phdr) then M11_ERR_PHENTSIZE else
  let ph_table_bytes := u64 (e_phentsize eh * e_phnum eh) in
  if negb (e_phnum eh =? 0) && negb (ph_table_bytes / e_phnum eh =? e_phentsize eh)
  then M11_ERR_PHBOUNDS else
  match m11_add_overflow_u64 (e_phoff eh) ph_table_bytes with
  | None => M11_ERR_PHBOUNDS
  | Some ph_end =>
      if (image_size <? ph_end) || (image_size <? e_phoff eh) then M11_ERR_PHBOUNDS else M11_OK
  end.

Definition m11_validate_load_segment (ph : m11_elf64_phdr) (image_size : Z)
    (region : m11_user_region) : Z :=
  if negb (p_flags ph .& u32 (Z.lnot (M11_PF_R .| M11_PF_W .| M11_PF_X)) =? 0)
  then M11_ERR_FLAGS else
  if negb (p_flags ph .& M11_PF_W =? 0) && negb (p_flags ph .& M11_PF_X =? 0)
  then M11_ERR_FLAGS else
  if p_memsz ph <? p_filesz ph then M11_ERR_SEGBOUNDS else
  if negb (p_align ph =? 0) && negb (p_align ph =? 1)
     && negb (m11_is_power_of_two_u64 (p_align ph)) then M11_ERR_ALIGN else
  if negb (p_align ph =? 0) && negb (p_align ph =? 1)
     && negb (p_vaddr ph mod p_align ph =? p_offset ph mod p_align ph) then M11_ERR_ALIGN else
  match m11_add_overflow_u64 (p_offset ph) (p_filesz ph) with
  | None => M11_ERR_SEGBOUNDS
  | Some file_end =>
      if (image_size <? file_end) || (image_size <? p_offset ph) then M11_ERR_SEGBOUNDS else
      m11_validate_user_range region (p_vaddr ph) (p_memsz ph)
  end.

Definition seg_of (ph : m11_elf64_phdr) : m11_segment_plan :=
  mk_seg (p_offset ph) (p_vaddr ph) (p_filesz ph) (p_memsz ph) (p_align ph) (p_flags ph).

(** The loop over the program headers; [n] counts down from [e_phnum]. *)
Fixpoint plan_loop (n : nat) (i : Z) (image : list Z) (image_size phoff : Z)
    (region : m11_user_region) (plan : m11_process_image_plan)
    : option (Z * m11_process_image_plan) :=
  match n with
  | O => Some (M11_OK, plan)
  | S n =>
      let* ph := read_phdr image (phoff + i * sizeof_phdr) in
      if negb (p_type ph =? M11_PT_LOAD)
      then plan_loop n (i + 1) image image_size phoff region plan else
      if M11_MAX_LOAD_SEGMENTS <=? pl_segment_count plan
      then Some (M11_ERR_SEGCOUNT, m11_zero_plan) else
      let rc := m11_validate_load_segment ph image_size region in
      if negb (rc =? M11_OK) then Some (rc, m11_zero_plan) else
      let* segments := arr_set (pl_segments plan) (pl_segment_count plan) (seg_of ph) in
      plan_loop n (i + 1) image image_size phoff region
        (mk_plan (pl_entry plan) (u32 (pl_segment_count plan + 1)) segments)
  end.

Definition m11_elf64_plan_load (image : option (list Z)) (image_size : Z)
    (region : m11_user_region) (out_plan : option m11_process_image_plan)
    : option (Z * option m11_process_image_plan) :=
  match image, out_plan with
  | Some image, Some _ =>
      let zero rc := Some (rc, Some m11_zero_plan) in
      if image_size <? sizeof_ehdr then zero M11_ERR_SIZE else
      let* eh := read_ehdr image in
      let rc := m11_validate_ident eh in
      if negb (rc =? M11_OK) then zero rc else
      if negb (e_type eh =? M11_ET_EXEC) && negb (e_type eh =? M11_ET_DYN)
      then zero M11_ERR_TYPE else
      if negb (e_machine eh =? M11_EM_X86_64) then zero M11_ERR_MACHINE else
      if negb (e_ehsize eh =? sizeof_ehdr) then zero M11_ERR_EHSIZE else
      let rc := m11_validate_phdr_bounds eh image_size in
      if negb (rc =? M11_OK) then zero rc else
      if negb (m11_validate_user_range region (e_entry eh) 1 =? M11_OK)
      then zero M11_ERR_ENTRY else
      let* r := plan_loop (Z.to_nat (e_phnum eh)) 0 image image_size (e_phoff eh) region
                  (mk_plan (e_entry eh) 0 (pl_segments m11_zero_plan)) in
      if negb (r.1 =? M11_OK) then Some (r.1, Some r.2) else
      if pl_segment_count r.2 =? 0 then Some (M11_ERR_SEGCOUNT, Some r.2)
      else Some (M11_OK, Some r.2)
  | _, _ => Some (M11_ERR_NULL, out_plan)
  end.

Definition m11_error_name (code : Z) : string :=
  if code =? M11_OK then "M11_OK" else
  if code =? M11_ERR_NULL then "M11_ERR_NULL" else
  if code =? M11_ERR_SIZE then "M11_ERR_SIZE" else
  if code =? M11_ERR_MAGIC then "M11_ERR_MAGIC" else
  if code =? M11_ERR_CLASS then "M11_ERR_CLASS" else
  if code =? M11_ERR_ENDIAN then "M11_ERR_ENDIAN" else
  if code =? M11_ERR_VERSION then "M11_ERR_VERSION" else
  if code =? M11_ERR_TYPE then "M11_ERR_TYPE" else
  if code =? M11_ERR_MACHINE then "M11_ERR_MACHINE" else
  if code =? M11_ERR_EHSIZE then "M11_ERR_EHSIZE" else
  if code =? M11_ERR_PHENTSIZE then "M11_ERR_PHENTSIZE" else
  if code =? M11_ERR_PHBOUNDS then "M11_ERR_PHBOUNDS" else
  if code =? M11_ERR_ALIGN then "M11_ERR_ALIGN" else
  if code =? M11_ERR_SEGBOUNDS then "M11_ERR_SEGBOUNDS" else
  if code =? M11_ERR_SEGRANGE then "M11_ERR_SEGRANGE" else
  if code =? M11_ERR_SEGCOUNT then "M11_ERR_SEGCOUNT" else
  if code =? M11_ERR_ENTRY then "M11_ERR_ENTRY" else
  if code =? M11_ERR_FLAGS then "M11_ERR_FLAGS" else
  "M11_ERR_UNKNOWN".
