(* ===== verification/ElfTheorems.v ===== *)
(** * ELF64 loader: properties

    A declarative description of the images the loader accepts, free of
    wrap-around, and the proof that the validation code decides it. *)
From S2P Require Import Prelude Elf.

(** ** Ranges *)

Definition in_region (r : m11_user_region) (base size : Z) : Prop :=
  0 < size /\ ur_base r <= base /\ base + size <= ur_limit r.

Definition region_ok (r : m11_user_region) : Prop :=
  0 <= ur_base r < 2 ^ 64 /\ 0 <= ur_limit r < 2 ^ 64.

Lemma add_overflow_spec a b :
  0 <= a < 2 ^ 64 -> 0 <= b < 2 ^ 64 ->
  m11_add_overflow_u64 a b = if a + b <? 2 ^ 64 then Some (a + b) else None.
Proof.
  intros Ha Hb. unfold m11_add_overflow_u64. destruct (Z.ltb_spec (a + b) (2 ^ 64)).
  - rewrite u64_id by lia. rewrite (proj2 (Z.ltb_ge _ _)) by lia. done.
  - rewrite u64_over by lia. rewrite (proj2 (Z.ltb_lt _ _)) by lia. done.
Qed.

Lemma user_range_spec r base size :
  region_ok r -> 0 <= base < 2 ^ 64 -> 0 <= size < 2 ^ 64 ->
  m11_validate_user_range r base size = M11_OK <-> in_region r base size.
Proof.
  intros [Hb Hl] H1 H2. unfold m11_validate_user_range, in_region.
  rewrite add_overflow_spec by done.
  destruct (Z.leb_spec (ur_limit r) (ur_base r)); [split; [done|lia]|].
  destruct (Z.eqb_spec size 0); [split; [done|lia]|].
  destruct (Z.ltb_spec (base + size) (2 ^ 64)); [|split; [done|lia]].
  destruct ((base <? ur_base r) || _ || _) eqn:E; zbool.
  - split; [done|]. destruct E as [E|E]; zbool; [destruct E as [E|E]; zbool|]; lia.
  - split; [lia|done].
Qed.

(** ** Powers of two *)

Lemma power_of_two_spec v :
  0 <= v < 2 ^ 64 -> m11_is_power_of_two_u64 v = true <-> exists k, 0 <= k /\ v = 2 ^ k.
Proof.
  intros Hv. unfold m11_is_power_of_two_u64. rewrite andb_true_iff, negb_true_iff, Z.eqb_neq, Z.eqb_eq.
  split.
  - intros [Hn Hl]. rewrite u64_id in Hl by lia. exists (Z.log2 v).
    split; [apply Z.log2_nonneg|]. pose proof (Z.log2_spec v ltac:(lia)) as [H1 H2].
    destruct (decide (v = 2 ^ Z.log2 v)); [done|]. exfalso.
    assert (v <> 1) by (intros ->; done).
    assert (Hb : Z.testbit (v .& (v - 1)) (Z.log2 v) = true).
    { rewrite Z.land_spec, Z.bit_log2 by lia. simpl.
      assert (Z.log2 (v - 1) = Z.log2 v) as <-; [|apply Z.bit_log2; lia].
      apply Z.log2_unique; [apply Z.log2_nonneg|]. lia. }
    rewrite Hl, Z.bits_0 in Hb. done.
  - intros (k & Hk & ->). pose proof (pow2_pos k Hk). split; [lia|].
    rewrite u64_id by lia. rewrite land_ones by done. apply Z_mod_same_full.
Qed.

(** ** Segments *)

Definition seg_valid (image_size : Z) (r : m11_user_region) (ph : m11_elf64_phdr) : Prop :=
  p_flags ph < 8
  /\ ~ (Z.testbit (p_flags ph) 1 = true /\ Z.testbit (p_flags ph) 0 = true)
  /\ p_filesz ph <= p_memsz ph
  /\ (1 < p_align ph -> (exists k, 0 <= k /\ p_align ph = 2 ^ k)
                        /\ p_vaddr ph mod p_align ph = p_offset ph mod p_align ph)
  /\ p_offset ph + p_filesz ph <= image_size
  /\ in_region r (p_vaddr ph) (p_memsz ph).

Record phdr_ok (ph : m11_elf64_phdr) : Prop := mk_phdr_ok {
  po_flags : 0 <= p_flags ph < 2 ^ 32;
  po_offset : 0 <= p_offset ph < 2 ^ 64;
  po_vaddr : 0 <= p_vaddr ph < 2 ^ 64;
  po_filesz : 0 <= p_filesz ph < 2 ^ 64;
  po_memsz : 0 <= p_memsz ph < 2 ^ 64;
  po_align : 0 <= p_align ph < 2 ^ 64
}.

Lemma flags_mask f :
  0 <= f < 2 ^ 32 ->
  f .& u32 (Z.lnot (M11_PF_R .| M11_PF_W .| M11_PF_X)) = 0 <-> f < 8.
Proof.
  intros Hf. rewrite (land_lnot_wrap 32) by (unfold in_u; lia).
  change (M11_PF_R .| M11_PF_W .| M11_PF_X) with (2 ^ 3 - 1). rewrite ldiff_ones by lia.
  pose proof (Z.div_mod f (2 ^ 3)). pose proof (Z.mod_pos_bound f (2 ^ 3)).
  change (2 ^ 3) with 8 in *. lia.
Qed.

Lemma flag_bit f i : 0 <= i -> (f .& 2 ^ i =? 0) = negb (Z.testbit f i).
Proof.
  intros Hi. rewrite <- Z.shiftl_1_l. rewrite <- (land_shl1_nonzero f i Hi).
  by rewrite negb_involutive.
Qed.

Lemma load_segment_spec ph image_size r :
  phdr_ok ph -> region_ok r -> 0 <= image_size < 2 ^ 64 ->
  m11_validate_load_segment ph image_size r = M11_OK <-> seg_valid image_size r ph.
Proof.
  intros [H1 H2 H3 H4 H5 H6] Hr Hs. unfold m11_validate_load_segment, seg_valid.
  pose proof (flags_mask _ H1) as Hfl. pose proof (power_of_two_spec _ H6) as Hp2.
  pose proof (user_range_spec r _ _ Hr H3 H5) as Hur. rewrite add_overflow_spec by done.
  set (mask := u32 (Z.lnot _)) in *. change M11_PF_W with (2 ^ 1). change M11_PF_X with (2 ^ 0).
  rewrite !flag_bit, !negb_involutive by lia.
  destruct (Z.eqb_spec (p_flags ph .& mask) 0);
    cbn [negb]; [|split; [done|naive_solver]].
  destruct (Z.testbit (p_flags ph) 1 && Z.testbit (p_flags ph) 0) eqn:Ewx; zbool.
  { split; [done|]. naive_solver. }
  destruct (Z.ltb_spec (p_memsz ph) (p_filesz ph)); [split; [done|lia]|].
  assert (Hal : (negb (p_align ph =? 0) && negb (p_align ph =? 1)) = (1 <? p_align ph)).
  { destruct (Z.eqb_spec (p_align ph) 0), (Z.eqb_spec (p_align ph) 1),
      (Z.ltb_spec 1 (p_align ph)); done || lia. }
  rewrite Hal.
  assert (Hwx : ~ (Z.testbit (p_flags ph) 1 = true /\ Z.testbit (p_flags ph) 0 = true))
    by (destruct Ewx as [->| ->]; naive_solver).
  set (P := 1 < p_align ph -> _).
  assert (HP : P <-> (1 <? p_align ph) && negb (m11_is_power_of_two_u64 (p_align ph)) = false
    /\ (1 <? p_align ph) && negb (p_vaddr ph mod p_align ph =? p_offset ph mod p_align ph) = false).
  { unfold P. rewrite <- Hp2. destruct (Z.ltb_spec 1 (p_align ph)); cbn [andb]; [|split; [done|lia]].
    rewrite !negb_false_iff, Z.eqb_eq. tauto. }
  destruct ((1 <? p_align ph) && negb (m11_is_power_of_two_u64 (p_align ph))); [split; [done|naive_solver]|].
  destruct ((1 <? p_align ph) && _); [split; [done|naive_solver]|].
  destruct (Z.ltb_spec (p_offset ph + p_filesz ph) (2 ^ 64)); [|split; [done|lia]].
  destruct (Z.ltb_spec image_size (p_offset ph + p_filesz ph)); [split; [done|lia]|].
  rewrite (proj2 (Z.ltb_ge _ _)) by lia. cbn [orb]. tauto.
Qed.

(** ** Headers *)

Definition phdr_at (image : list Z) (off : Z) : m11_elf64_phdr :=
  default (mk_phdr 0 0 0 0 0 0 0 0) (read_phdr image off).

Definition phdrs (image : list Z) (phoff : Z) (i : Z) (n : nat) : list m11_elf64_phdr :=
  (fun j => phdr_at image (phoff + j * sizeof_phdr)) <$> seqZ i (Z.of_nat n).

Definition loads (l : list m11_elf64_phdr) : list m11_elf64_phdr :=
  filter (fun ph => p_type ph = M11_PT_LOAD) l.

Lemma read_phdr_in image off :
  0 <= off -> off + 56 <= Z.of_nat (length image) -> Forall is_byte image ->
  read_phdr image off = Some (phdr_at image off) /\ phdr_ok (phdr_at image off).
Proof.
  intros Ho Hl Hb. unfold phdr_at, read_phdr, sizeof_phdr.
  rewrite (proj2 (Z.ltb_ge _ _)) by lia. cbn [default from_option id]. split; [done|].
  split; cbn [p_flags p_offset p_vaddr p_filesz p_memsz p_align];
    apply le_get_bound; try done; lia.
Qed.

Lemma plan_loop_spec n i image image_size phoff r plan :
  0 <= i -> 0 <= phoff -> phoff + (i + Z.of_nat n) * 56 <= image_size ->
  image_size <= Z.of_nat (length image) -> Forall is_byte image -> image_size < 2 ^ 64 ->
  region_ok r -> 0 <= pl_segment_count plan <= 8 -> length (pl_segments plan) = 8%nat ->
  let ls := loads (phdrs image phoff i n) in
  let c := pl_segment_count plan in
  exists rc p, plan_loop n i image image_size phoff r plan = Some (rc, p)
    /\ (rc = M11_OK <-> c + Z.of_nat (length ls) <= 8 /\ Forall (seg_valid image_size r) ls)
    /\ (rc = M11_OK -> p = mk_plan (pl_entry plan) (c + Z.of_nat (length ls))
                           (splice (Z.to_nat c) (seg_of <$> ls) (pl_segments plan)))
    /\ (rc <> M11_OK -> p = m11_zero_plan).
Proof.
  revert i plan. induction n as [|n IH]; intros i plan Hi Hpo Hend Hil Hb Hsz Hr Hc Hl ls c.
  { exists M11_OK, plan. split; [done|]. split; [split; [intros _; split; [simpl; lia|constructor]|done]|].
    split; [|done]. intros _. subst ls. cbn. rewrite Z.add_0_r. unfold splice. simpl.
    rewrite Nat.add_0_r, take_drop. by destruct plan. }
  assert (Hls : ls = loads (phdr_at image (phoff + i * sizeof_phdr) :: phdrs image phoff (i + 1) n)).
  { subst ls. unfold phdrs. rewrite Nat2Z.inj_succ, seqZ_cons by lia. cbn [fmap list_fmap].
    by rewrite Z.pred_succ, <- Z.add_1_r. }
  clearbody ls. cbn [plan_loop]. set (off := phoff + i * sizeof_phdr) in *.
  assert (Hoff : 0 <= off /\ off + 56 <= Z.of_nat (length image))
    by (unfold off, sizeof_phdr; lia).
  destruct (read_phdr_in image off) as [Hrd Hpok]; [lia|lia|done|].
  rewrite Hrd. set (ph := phdr_at image off) in *. clearbody ph.
  unfold loads in Hls. rewrite filter_cons in Hls. fold (loads (phdrs image phoff (i + 1) n)) in Hls.
  destruct (Z.eqb_spec (p_type ph) M11_PT_LOAD) as [Et|Et]; cbn [negb].
  2: { rewrite decide_False in Hls by done. subst ls. apply IH; try done; lia. }
  rewrite decide_True in Hls by done.
  set (ls' := loads (phdrs image phoff (i + 1) n)) in *.
  unfold M11_MAX_LOAD_SEGMENTS. destruct (Z.leb_spec 8 (pl_segment_count plan)) as [H8|H8].
  { eexists _, _. split; [done|]. split; [|done]. split; [done|]. subst ls c. cbn [length]. lia. }
  pose proof (load_segment_spec ph image_size r Hpok Hr ltac:(lia)) as Hseg.
  destruct (Z.eqb_spec (m11_validate_load_segment ph image_size r) M11_OK) as [Ev|Ev]; cbn [negb].
  2: { eexists _, _. split; [done|]. split; [|split; [done|done]]. split; [done|].
       intros [_ Hf]. subst ls. apply Forall_cons in Hf as [Hf _]. by apply Hseg in Hf. }
  rewrite u32_id by lia. rewrite arr_set_in by lia.
  destruct (IH (i + 1) (mk_plan (pl_entry plan) (pl_segment_count plan + 1)
     (<[Z.to_nat (pl_segment_count plan) := seg_of ph]> (pl_segments plan))))
    as (rc & p & -> & H1 & H2 & H3); cbn [pl_segment_count pl_segments]; try done; try lia.
  { by rewrite length_insert. }
  exists rc, p. split; [done|]. cbn [pl_segment_count pl_segments pl_entry] in *.
  fold ls' in H1, H2. subst ls c. cbn [length]. rewrite Forall_cons. split; [|split; [|done]].
  - rewrite H1. apply Hseg in Ev. split; intros [? ?]; (split; [lia|]); tauto.
  - intros E. rewrite (H2 E). f_equal; [lia|].
    replace (Z.to_nat (pl_segment_count plan + 1)) with (S (Z.to_nat (pl_segment_count plan))) by lia.
    apply splice_cons. lia.
Qed.

Lemma plan_loop_zero n i image image_size phoff r plan rc p :
  plan_loop n i image image_size phoff r plan = Some (rc, p) -> rc <> M11_OK ->
  p = m11_zero_plan.
Proof.
  revert i plan. induction n as [|n IH]; intros i plan H Hrc; cbn [plan_loop] in H; [congruence|].
  destruct (read_phdr _ _) as [ph|]; [|done].
  case_if_in H; [by eapply IH|]. case_if_in H; [congruence|]. case_if_in H; [congruence|].
  destruct (arr_set _ _ _); [|done]. by eapply IH.
Qed.

(** The images that can be loaded. *)
Record elf_valid (image : list Z) (image_size : Z) (r : m11_user_region)
    (eh : m11_elf64_ehdr) : Prop := mk_elf_valid {
  ev_size : 64 <= image_size;
  ev_ident : take 7 (e_ident eh) = [0x7f; 69; 76; 70; 2; 1; 1] /\ e_version eh = 1;
  ev_type : e_type eh = 2 \/ e_type eh = 3;
  ev_machine : e_machine eh = 62;
  ev_sizes : e_ehsize eh = 64 /\ e_phentsize eh = 56;
  ev_table : 0 < e_phnum eh /\ e_phoff eh + 56 * e_phnum eh <= image_size;
  ev_entry : in_region r (e_entry eh) 1;
  ev_count : (1 <= length (loads (phdrs image (e_phoff eh) 0 (Z.to_nat (e_phnum eh)))) <= 8)%nat;
  ev_segs : Forall (seg_valid image_size r)
              (loads (phdrs image (e_phoff eh) 0 (Z.to_nat (e_phnum eh))))
}.

Lemma ident_spec eh :
  length (e_ident eh) = 16%nat ->
  m11_validate_ident eh = M11_OK
  <-> take 7 (e_ident eh) = [0x7f; 69; 76; 70; 2; 1; 1] /\ e_version eh = 1.
Proof.
  intros Hl. unfold m11_validate_ident. destruct (e_ident eh) as [|i0 l]; [done|].
  destruct l as [|i1 l]; [done|]. destruct l as [|i2 l]; [done|]. destruct l as [|i3 l]; [done|].
  destruct l as [|i4 l]; [done|]. destruct l as [|i5 l]; [done|]. destruct l as [|i6 l]; [done|].
  set (all := i0 :: _). change (nthZ all 0) with i0. change (nthZ all 1) with i1.
  change (nthZ all 2) with i2. change (nthZ all 3) with i3. change (nthZ all 4) with i4.
  change (nthZ all 5) with i5. change (nthZ all 6) with i6.
  change (take 7 all) with [i0; i1; i2; i3; i4; i5; i6].
  unfold M11_ELFMAG0, M11_ELFMAG1, M11_ELFMAG2, M11_ELFMAG3, M11_ELFCLASS64,
    M11_ELFDATA2LSB, M11_EV_CURRENT. clear all Hl.
  repeat (match goal with |- context [?a =? ?b] => destruct (Z.eqb_spec a b) as [->|] end;
    cbn [negb orb]; [|split; [discriminate|intros [[=] ?]; congruence]]).
  done.
Qed.

Lemma phdr_bounds_spec eh image_size :
  0 <= e_phoff eh < 2 ^ 64 -> 0 <= e_phnum eh < 2 ^ 16 -> 0 <= image_size < 2 ^ 64 ->
  m11_validate_phdr_bounds eh image_size = M11_OK
  <-> e_phentsize eh = 56 /\ 0 < e_phnum eh /\ e_phoff eh + 56 * e_phnum eh <= image_size.
Proof.
  intros Ho Hn Hs. unfold m11_validate_phdr_bounds, sizeof_phdr.
  destruct (Z.eqb_spec (e_phnum eh) 0); [split; [done|lia]|].
  destruct (Z.eqb_spec (e_phentsize eh) 56) as [->|]; cbn [negb]; [|split; [done|lia]].
  rewrite u64_id by lia. rewrite Z.div_mul by done. cbn [Z.eqb andb negb].
  rewrite add_overflow_spec by lia.
  destruct (Z.ltb_spec (e_phoff eh + 56 * e_phnum eh) (2 ^ 64)); [|split; [done|lia]].
  destruct ((image_size <? _) || _) eqn:E; zbool; [|split; [lia|done]].
  split; [done|]. destruct E as [E|E]; zbool; lia.
Qed.

Lemma read_ehdr_in image :
  64 <= Z.of_nat (length image) -> Forall is_byte image ->
  exists eh, read_ehdr image = Some eh /\ length (e_ident eh) = 16%nat
    /\ 0 <= e_phoff eh < 2 ^ 64 /\ 0 <= e_phnum eh < 2 ^ 16 /\ 0 <= e_entry eh < 2 ^ 64.
Proof.
  intros Hl Hb. unfold read_ehdr, sizeof_ehdr. rewrite (proj2 (Z.ltb_ge _ _)) by lia.
  eexists. split; [done|]. cbn [e_ident e_phoff e_phnum e_entry].
  split; [apply length_sub; lia|].
  split; [apply (le_get_bound 32 8 image Hb); lia|].
  split; [apply (le_get_bound 56 2 image Hb); lia|apply (le_get_bound 24 8 image Hb); lia].
Qed.

(** What a result of the loader says about the image. *)
Definition elf_post (image : list Z) (image_size : Z) (r : m11_user_region)
    (rc : Z) (p : m11_process_image_plan) : Prop :=
  (image_size < 64 -> rc = M11_ERR_SIZE)
  /\ (rc = M11_OK <-> exists eh, read_ehdr image = Some eh /\ elf_valid image image_size r eh)
  /\ (forall eh, rc = M11_OK -> read_ehdr image = Some eh ->
      let ls := loads (phdrs image (e_phoff eh) 0 (Z.to_nat (e_phnum eh))) in
      pl_entry p = e_entry eh /\ pl_segment_count p = Z.of_nat (length ls)
      /\ take (length ls) (pl_segments p) = seg_of <$> ls).

Lemma elf_fail image image_size r eh rc p :
  64 <= image_size -> read_ehdr image = Some eh ->
  rc <> M11_OK -> ~ elf_valid image image_size r eh ->
  exists rc' p', Some (rc, Some p) = Some (rc', Some p') /\ elf_post image image_size r rc' p'.
Proof.
  intros Hs Hrd Hrc Hv. exists rc, p. split; [done|]. unfold elf_post. split; [lia|].
  split; [|done]. split; [done|]. intros (eh' & E & Hv'). rewrite Hrd in E. injection E as <-. done.
Qed.

(** C14: The loader decides exactly [elf_valid]: on any image of at least
    [image_size] bytes, however short, it returns (so it never reads outside
    the image), with [M11_ERR_SIZE] when [image_size] is smaller than the ELF
    header, and it reports success if and only if the header is a little-endian
    x86-64 ELF header whose program header table lies in the image, whose entry
    lies in the user region, and which has 1 to 8 PT_LOAD headers, all valid
    (file part inside the image, memory part inside the region, W^X, congruent
    alignment), all of it computed without wrap-around.  On success the plan lists those
    headers, in order. *)
Theorem elf_plan_exact image image_size r plan0 :
  Forall is_byte image -> 0 <= image_size <= Z.of_nat (length image) -> image_size < 2 ^ 64 ->
  region_ok r ->
  exists rc p, m11_elf64_plan_load (Some image) image_size r (Some plan0) = Some (rc, Some p)
    /\ elf_post image image_size r rc p.
Proof.
  intros Hb Hs Hs64 Hr. unfold m11_elf64_plan_load, sizeof_ehdr.
  destruct (Z.ltb_spec image_size 64).
  { exists M11_ERR_SIZE, m11_zero_plan. split; [done|]. split; [done|]. split; [|done].
    split; [done|]. intros (eh & _ & []). lia. }
  destruct (read_ehdr_in image) as (eh & Hrd & Hid & Hpo & Hpn & Hen); [lia|done|].
  pose proof (elf_fail image image_size r eh) as Hfail. rewrite Hrd.
  specialize (fun rc p => Hfail rc p ltac:(done) Hrd).
  pose proof (ident_spec eh Hid) as Hident.
  destruct (Z.eqb_spec (m11_validate_ident eh) M11_OK) as [Ei|Ei]; cbn [negb];
    [|apply Hfail; [done|intros []; tauto]].
  unfold M11_ET_EXEC, M11_ET_DYN, M11_EM_X86_64.
  destruct (negb (e_type eh =? 2) && negb (e_type eh =? 3)) eqn:Et; zbool.
  { apply Hfail; [done|]. intros []. lia. }
  destruct (Z.eqb_spec (e_machine eh) 62); cbn [negb]; [|apply Hfail; [done|intros []; lia]].
  destruct (Z.eqb_spec (e_ehsize eh) 64); cbn [negb]; [|apply Hfail; [done|intros []; lia]].
  pose proof (phdr_bounds_spec eh image_size Hpo Hpn ltac:(lia)) as Hph.
  destruct (Z.eqb_spec (m11_validate_phdr_bounds eh image_size) M11_OK) as [Ep|Ep]; cbn [negb];
    [|apply Hfail; [done|intros []; tauto]].
  pose proof (user_range_spec r (e_entry eh) 1 Hr Hen ltac:(lia)) as Hue.
  destruct (Z.eqb_spec (m11_validate_user_range r (e_entry eh) 1) M11_OK) as [Ee|Ee]; cbn [negb];
    [|apply Hfail; [done|intros []; tauto]].
  apply Hident in Ei. apply Hph in Ep as (Ep1 & Ep2 & Ep3). apply Hue in Ee.
  destruct (plan_loop_spec (Z.to_nat (e_phnum eh)) 0 image image_size (e_phoff eh) r
    (mk_plan (e_entry eh) 0 (pl_segments m11_zero_plan)))
    as (rc & p & Hloop & H1 & H2 & H3); try done; try (simpl; lia).
  rewrite Hloop. cbn [fst snd pl_segment_count pl_entry pl_segments] in *.
  set (ls := loads _) in *. rewrite Z.add_0_l in *.
  destruct (Z.eqb_spec rc M11_OK) as [->|Hrc]; cbn [negb].
  2: { apply Hfail; [done|]. intros []. fold ls in ev_count0, ev_segs0. apply Hrc, H1. split; [lia|done]. }
  destruct (proj1 H1 eq_refl) as [Hcnt Hall]. rewrite (H2 eq_refl). cbn [pl_segment_count].
  destruct (Z.eqb_spec (Z.of_nat (length ls)) 0).
  { apply Hfail; [done|]. intros []. fold ls in ev_count0. lia. }
  eexists _, _. split; [done|]. unfold elf_post. split; [lia|]. split.
  - split; [|done]. intros _. exists eh. split; [done|]. split; try done; try tauto; try lia.
    fold ls. lia.
  - intros eh' _ E. rewrite Hrd in E. injection E as <-. fold ls. cbn [pl_entry pl_segment_count pl_segments]. split; [done|]. split; [done|].
    unfold splice. change (Z.to_nat 0) with 0%nat. rewrite take_0. cbn [app].
    rewrite take_app_le by (rewrite length_fmap; lia). apply take_ge. rewrite length_fmap. lia.
Qed.

(** Failures leave nothing to load: whatever the image and its size, a
    result other than M11_OK comes with a plan of no segments, which is the
    zero plan except that the entry is still set when the image has no
    PT_LOAD header at all; a null image or plan is refused. *)
Theorem elf_failure_plan image image_size r plan0 rc p :
  m11_elf64_plan_load (Some image) image_size r (Some plan0) = Some (rc, Some p) ->
  rc <> M11_OK ->
  p = m11_zero_plan
  \/ (rc = M11_ERR_SEGCOUNT /\ pl_segment_count p = 0).
Proof.
  intros H Hrc. unfold m11_elf64_plan_load in H.
  case_if_in H; [left; congruence|]. destruct (read_ehdr image) as [eh|]; [|done].
  do 6 (case_if_in H; [left; congruence|]).
  destruct (plan_loop _ _ _ _ _ _ _) as [[rc' p']|] eqn:El; [|done]. cbn [fst snd] in H.
  case_if_in H; zbool.
  - left. injection H as -> ->. by eapply plan_loop_zero.
  - case_if_in H; zbool; [right|congruence]. split; congruence.
Qed.

(** ** Witnesses: a header with one segment of 4 bytes after it. *)
Definition demo_elf : list Z :=
  [0x7f; 69; 76; 70; 2; 1; 1; 0; 0; 0; 0; 0; 0; 0; 0; 0]
  ++ le_bytes 2 2 ++ le_bytes 2 62 ++ le_bytes 4 1 ++ le_bytes 8 0x400078 ++ le_bytes 8 64
  ++ le_bytes 8 0 ++ le_bytes 4 0 ++ le_bytes 2 64 ++ le_bytes 2 56 ++ le_bytes 2 1
  ++ le_bytes 2 0 ++ le_bytes 2 0 ++ le_bytes 2 0
  ++ le_bytes 4 1 ++ le_bytes 4 5 ++ le_bytes 8 120 ++ le_bytes 8 0x400078 ++ le_bytes 8 0
  ++ le_bytes 8 4 ++ le_bytes 8 4096 ++ le_bytes 8 4096
  ++ [144; 144; 144; 195].
Definition demo_region : m11_user_region := mk_uregion 0x400000 0x800000.

Lemma demo_elf_bytes : Forall is_byte demo_elf.
Proof.
  assert (H : forallb (fun x => (0 <=? x) && (x <? 256)) demo_elf = true)
    by (vm_compute; reflexivity).
  rewrite forallb_forall in H. apply List.Forall_forall. intros x Hx.
  specialize (H x Hx). zbool. unfold is_byte. lia.
Qed.

Lemma elf_plan_exact_witness :
  exists rc p, m11_elf64_plan_load (Some demo_elf) 124 demo_region (Some m11_zero_plan)
      = Some (rc, Some p)
    /\ elf_post demo_elf 124 demo_region rc p.
Proof.
  apply (elf_plan_exact demo_elf 124 demo_region m11_zero_plan).
  - apply demo_elf_bytes.
  - vm_compute. split; discriminate.
  - reflexivity.
  - vm_compute. repeat split; discriminate.
Defined.

(** The demonstration image is accepted. *)
Lemma demo_elf_loads :
  fst <$> m11_elf64_plan_load (Some demo_elf) 124 demo_region (Some m11_zero_plan) = Some M11_OK.
Proof. vm_compute. reflexivity. Qed.

Lemma elf_failure_plan_witness :
  m11_zero_plan = m11_zero_plan \/ (M11_ERR_SIZE = M11_ERR_SEGCOUNT /\ pl_segment_count m11_zero_plan = 0).
Proof.
  apply (elf_failure_plan demo_elf 63 demo_region m11_zero_plan M11_ERR_SIZE m11_zero_plan).
  - vm_compute. reflexivity.
  - discriminate.
Defined.
