(* ===== verification/Syscall.v ===== *)
(** * System calls ([kernel/syscall/syscall.c], [include/mcsos/syscall.h])

    The dispatcher calls back into the kernel through [mcsos_syscall_ops]; the
    callbacks act on a world [W] the model does not look into.  Memory is a map
    from addresses to bytes, where an access outside the map is undefined. *)
From S2P Require Import Prelude.

Definition MCSOS_SYS_PING : Z := 0.
Definition MCSOS_SYS_GET_TICKS : Z := 1.
Definition MCSOS_SYS_WRITE_SERIAL : Z := 2.
Definition MCSOS_SYS_YIELD : Z := 3.
Definition MCSOS_SYS_EXIT_THREAD : Z := 4.
Definition MCSOS_SYS_MAX : Z := 5.

Definition MCSOS_OK : Z := 0.
Definition MCSOS_EINVAL : Z := -22.
Definition MCSOS_ENOSYS : Z := -38.
Definition MCSOS_EFAULT : Z := -14.
Definition MCSOS_EBUSY : Z := -16.

Record mcsos_user_region := mk_user_region { base : Z; limit : Z }.

Definition mcsos_user_check_range (g_user_region : mcsos_user_region) (addr len : Z) : bool :=
  if len =? 0 then true else
  if (base g_user_region =? 0) || (limit g_user_region <=? base g_user_region) then false else
  if addr <? base g_user_region then false else
  if limit g_user_region <? addr then false else
  let last := u64 (u64 (addr + len) - 1) in
  if last <? addr then false else
  if limit g_user_region <=? last then false else true.

(** [for (i = 0; i < len; ++i) d[i] = s[i]]. *)
Fixpoint copy_bytes (n : nat) (dst src : Z) (m : gmap Z Z) : option (gmap Z Z) :=
  match n with
  | O => Some m
  | S n =>
      let* b := m !! src in
      let* _ := m !! dst in
      copy_bytes n (dst + 1) (src + 1) (<[dst := b]> m)
  end.

Definition mcsos_copy_from_user (g_user_region : mcsos_user_region) (dst src len : Z)
    (m : gmap Z Z) : option (Z * gmap Z Z) :=
  if len =? 0 then Some (MCSOS_OK, m) else
  if (dst =? 0) || (src =? 0) then Some (MCSOS_EINVAL, m) else
  if negb (mcsos_user_check_range g_user_region src len) then Some (MCSOS_EFAULT, m) else
  let* m' := copy_bytes (Z.to_nat len) dst src m in
  Some (MCSOS_OK, m').

Section dispatch.
Context {W : Type}.

Record mcsos_syscall_ops := mk_ops {
  get_ticks : option (W -> Z * W);
  yield_current : option (W -> W);
  exit_current : option (Z -> W -> W);
  write_serial : option (Z -> Z -> W -> Z * W)
}.

Record sys_state := mk_sys {
  g_ops : mcsos_syscall_ops;
  g_user_region : mcsos_user_region;
  world : W
}.

Definition set_world (s : sys_state) (w : W) : sys_state :=
  mk_sys (g_ops s) (g_user_region s) w.

Definition default_write_serial (buf len : Z) (w : W) : Z * W := (s64 len, w).

Definition or_else {A} (a b : option A) : option A := match a with Some _ => a | None => b end.

(** A null callback keeps the default. *)
Definition mcsos_syscall_init (ops : option mcsos_syscall_ops) (s : sys_state) : sys_state :=
  mk_sys
    (match ops with
     | None => mk_ops None None None (Some default_write_serial)
     | Some o => mk_ops (get_ticks o) (yield_current o) (exit_current o)
                   (or_else (write_serial o) (Some default_write_serial))
     end)
    (g_user_region s) (world s).

Definition mcsos_syscall_set_user_region (r : mcsos_user_region) (s : sys_state) : sys_state :=
  mk_sys (g_ops s) r (world s).

Definition sys_ping (s : sys_state) : option (Z * sys_state) := Some (0x2605020A, s).

Definition sys_get_ticks (s : sys_state) : option (Z * sys_state) :=
  match get_ticks (g_ops s) with
  | None => Some (MCSOS_EBUSY, s)
  | Some f => let '(v, w) := f (world s) in Some (s64 v, set_world s w)
  end.

(** The call through a null [write_serial] is undefined. *)
Definition sys_write_serial (ptr len : Z) (s : sys_state) : option (Z * sys_state) :=
  if ptr =? 0 then Some (MCSOS_EINVAL, s) else
  if 4096 <? len then Some (MCSOS_EINVAL, s) else
  if negb (mcsos_user_check_range (g_user_region s) ptr len) then Some (MCSOS_EFAULT, s) else
  let* f := write_serial (g_ops s) in
  let '(v, w) := f ptr len (world s) in Some (v, set_world s w).

Definition sys_yield (s : sys_state) : option (Z * sys_state) :=
  match yield_current (g_ops s) with
  | None => Some (MCSOS_EBUSY, s)
  | Some f => Some (MCSOS_OK, set_world s (f (world s)))
  end.

Definition sys_exit_thread (code : Z) (s : sys_state) : option (Z * sys_state) :=
  match exit_current (g_ops s) with
  | None => Some (MCSOS_EBUSY, s)
  | Some f => Some (MCSOS_OK, set_world s (f (s32 code) (world s)))
  end.

(** [g_table[nr]]; every entry of the table is set. *)
Definition g_table (nr : Z) (a0 a1 a2 a3 a4 a5 : Z) : sys_state -> option (Z * sys_state) :=
  if nr =? MCSOS_SYS_PING then sys_ping else
  if nr =? MCSOS_SYS_GET_TICKS then sys_get_ticks else
  if nr =? MCSOS_SYS_WRITE_SERIAL then sys_write_serial a0 a1 else
  if nr =? MCSOS_SYS_YIELD then sys_yield else
  sys_exit_thread a0.

Definition mcsos_syscall_dispatch (nr a0 a1 a2 a3 a4 a5 : Z) (s : sys_state)
    : option (Z * sys_state) :=
  if MCSOS_SYS_MAX <=? nr then Some (MCSOS_ENOSYS, s)
  else g_table nr a0 a1 a2 a3 a4 a5 s.

Record mcsos_syscall_frame := mk_frame {
  f_nr : Z;
  f_arg0 : Z; f_arg1 : Z; f_arg2 : Z; f_arg3 : Z; f_arg4 : Z; f_arg5 : Z;
  f_ret : Z
}.

(** [trace] is the effect of the message written to the serial port. *)
Definition mcsos_syscall_dispatch_frame (trace : W -> W) (frame : option mcsos_syscall_frame)
    (s : sys_state) : option (option mcsos_syscall_frame * sys_state) :=
  let s := set_world s (trace (world s)) in
  match frame with
  | None => Some (None, s)
  | Some f =>
      let* r := mcsos_syscall_dispatch (f_nr f) (f_arg0 f) (f_arg1 f) (f_arg2 f) (f_arg3 f)
                  (f_arg4 f) (f_arg5 f) s in
      Some (Some (mk_frame (f_nr f) (f_arg0 f) (f_arg1 f) (f_arg2 f) (f_arg3 f) (f_arg4 f)
                    (f_arg5 f) r.1), r.2)
  end.
End dispatch.
Arguments mcsos_syscall_ops : clear implicits.
Arguments sys_state : clear implicits.
