(* ===== verification/SyscallTheorems.v ===== *)
(** * System calls: properties

    What the user range check accepts, what a copy from user space reads and
    writes, and that no system call hands the kernel a buffer outside the user
    region. *)
From S2P Require Import Prelude Syscall.

Definition region_u64 (r : mcsos_user_region) : Prop :=
  0 <= base r < 2 ^ 64 /\ 0 <= limit r < 2 ^ 64.

(** A range that user code owns; the empty range always is. *)
Definition user_range (r : mcsos_user_region) (addr len : Z) : Prop :=
  len = 0 \/ (base r <> 0 /\ base r <= addr /\ addr + len <= limit r).

Lemma check_range_spec r addr len :
  region_u64 r -> 0 <= addr < 2 ^ 64 -> 0 <= len < 2 ^ 64 ->
  mcsos_user_check_range r addr len = true <-> user_range r addr len.
Proof.
  intros [Hb Hl] Ha Hn. unfold mcsos_user_check_range, user_range.
  destruct (Z.eqb_spec len 0); [split; [by left|done]|].
  destruct (Z.eqb_spec (base r) 0), (Z.leb_spec (limit r) (base r)); cbn [orb];
    try (split; [done|lia]).
  destruct (Z.ltb_spec addr (base r)); [split; [done|lia]|].
  destruct (Z.ltb_spec (limit r) addr); [split; [done|lia]|].
  assert (Hlast : u64 (u64 (addr + len) - 1)
                  = if addr + len <=? 2 ^ 64 then addr + len - 1 else addr + len - 1 - 2 ^ 64).
  { destruct (Z.leb_spec (addr + len) (2 ^ 64)).
    - destruct (decide (addr + len = 2 ^ 64)) as [->|]; [done|]. rewrite (u64_id (addr + len)) by lia.
      apply u64_id. lia.
    - rewrite (u64_over (addr + len)) by lia. rewrite u64_id by lia. lia. }
  rewrite Hlast. destruct (Z.leb_spec (addr + len) (2 ^ 64)).
  - rewrite (proj2 (Z.ltb_ge _ _)) by lia.
    destruct (Z.leb_spec (limit r) (addr + len - 1)); [split; [done|lia]|].
    split; [|done]. intros _. right. lia.
  - rewrite (proj2 (Z.ltb_lt _ _)) by lia. split; [done|lia].
Qed.

(** The user range check is exact: it accepts a non-empty range exactly
    when a region is set and the whole range lies inside it, without
    wrap-around at the end of the address space. *)
Theorem user_check_range_exact r addr len :
  region_u64 r -> 0 <= addr < 2 ^ 64 -> 0 <= len < 2 ^ 64 ->
  mcsos_user_check_range r addr len = true
  <-> len = 0 \/ (base r <> 0 /\ base r <= addr /\ addr + len <= limit r).
Proof. apply check_range_spec. Qed.

(** ** Copy from user space *)

Definition mapped (m : gmap Z Z) (a len : Z) : Prop :=
  forall i, 0 <= i < len -> is_Some (m !! (a + i)).

Definition disjoint_ranges (a b len : Z) : Prop := a + len <= b \/ b + len <= a.

Lemma copy_bytes_spec n dst src m :
  mapped m src (Z.of_nat n) -> mapped m dst (Z.of_nat n) ->
  disjoint_ranges dst src (Z.of_nat n) ->
  exists m', copy_bytes n dst src m = Some m'
    /\ (forall i, 0 <= i < Z.of_nat n -> m' !! (dst + i) = m !! (src + i))
    /\ (forall a, a < dst \/ dst + Z.of_nat n <= a -> m' !! a = m !! a).
Proof.
  unfold disjoint_ranges. revert dst src m. induction n as [|n IH]; intros dst src m Hs Hd Hdis.
  { exists m. split; [done|]. split; [intros; lia|done]. }
  cbn [copy_bytes]. destruct (Hs 0) as [b Hb]; [lia|]. destruct (Hd 0) as [x Hx]; [lia|].
  rewrite Z.add_0_r in Hb, Hx. rewrite Hb, Hx.
  destruct (IH (dst + 1) (src + 1) (<[dst := b]> m)) as (m' & -> & H1 & H2).
  - intros i Hi. rewrite lookup_insert_ne by lia. rewrite <- Z.add_assoc. apply Hs. lia.
  - intros i Hi. rewrite lookup_insert_ne by lia. rewrite <- Z.add_assoc. apply Hd. lia.
  - lia.
  - exists m'. split; [done|]. split.
    + intros i Hi. destruct (decide (i = 0)) as [->|].
      * rewrite !Z.add_0_r, H2 by lia. rewrite lookup_insert_eq. done.
      * replace (dst + i) with (dst + 1 + (i - 1)) by lia. rewrite H1 by lia.
        rewrite lookup_insert_ne by lia. f_equal. lia.
    + intros a Ha. rewrite H2 by lia. apply lookup_insert_ne. lia.
Qed.

(** [mcsos_copy_from_user] on every branch: it copies exactly the bytes of
    a user range to the destination and touches nothing else; an argument that
    is null, or a range that is not the user's, is refused before any byte is
    read. *)
Theorem copy_from_user_exact r dst src len m :
  region_u64 r -> 0 <= dst < 2 ^ 64 -> 0 <= src < 2 ^ 64 -> 0 <= len < 2 ^ 64 ->
  (user_range r src len -> mapped m src len /\ mapped m dst len
                           /\ disjoint_ranges dst src len) ->
  exists rc m', mcsos_copy_from_user r dst src len m = Some (rc, m')
    /\ (rc = MCSOS_OK <-> len = 0 \/ (dst <> 0 /\ src <> 0 /\ user_range r src len))
    /\ (rc <> MCSOS_OK -> m' = m)
    /\ (rc = MCSOS_OK -> (forall i, 0 <= i < len -> m' !! (dst + i) = m !! (src + i))
                         /\ forall a, a < dst \/ dst + len <= a -> m' !! a = m !! a).
Proof.
  intros Hr Hd Hs Hl Hm. unfold mcsos_copy_from_user.
  destruct (Z.eqb_spec len 0) as [->|Hn].
  { exists MCSOS_OK, m. split; [done|]. split; [split; [by left|done]|]. split; [done|].
    intros _. split; [intros; lia|done]. }
  destruct (Z.eqb_spec dst 0), (Z.eqb_spec src 0); cbn [orb];
    try (exists MCSOS_EINVAL, m; split; [done|]; split; [split; [done|lia]|]; done).
  pose proof (check_range_spec r src len Hr Hs Hl) as Hc.
  destruct (mcsos_user_check_range r src len); cbn [negb].
  - destruct (proj1 Hc eq_refl) as [|Hu]; [done|]. destruct Hm as (M1 & M2 & M3); [by right|].
    rewrite <- (Z2Nat.id len) in M1, M2, M3 by lia.
    destruct (copy_bytes_spec _ dst src m M1 M2 M3) as (m' & -> & H1 & H2).
    rewrite Z2Nat.id in H1, H2 by lia. exists MCSOS_OK, m'. split; [done|].
    split; [|split; [done|done]]. split; [|done]. intros _. right. split; [done|]. split; [done|].
    by right.
  - exists MCSOS_EFAULT, m. split; [done|]. split; [|done]. split; [done|].
    intros [?|(_ & _ & Hu)]; [done|]. by apply Hc in Hu.
Qed.

(** ** Confinement *)

Section confinement.
Context {W : Type}.
Implicit Types (s : sys_state W).

Definition with_serial s (f : Z -> Z -> W -> Z * W) : sys_state W :=
  mk_sys (mk_ops (get_ticks (g_ops s)) (yield_current (g_ops s)) (exit_current (g_ops s)) (Some f))
    (g_user_region s) (world s).

(** C15: Confinement: whatever the system call number and arguments, the
    kernel passes the serial driver only buffers that are not null, at most
    4096 bytes long and inside the user region: two drivers that agree on
    those are indistinguishable to any system call.  The dispatcher is defined
    on every number and argument, and refuses unknown numbers with ENOSYS and
    no effect. *)
Theorem syscall_confined s f g nr a0 a1 a2 a3 a4 a5 :
  region_u64 (g_user_region s) -> 0 <= a0 < 2 ^ 64 -> 0 <= a1 < 2 ^ 64 -> 0 <= nr ->
  (forall p n w, p <> 0 -> n <= 4096 -> user_range (g_user_region s) p n -> f p n w = g p n w) ->
  (fst <$> mcsos_syscall_dispatch nr a0 a1 a2 a3 a4 a5 (with_serial s f)
   = fst <$> mcsos_syscall_dispatch nr a0 a1 a2 a3 a4 a5 (with_serial s g))
  /\ (world ∘ snd <$> mcsos_syscall_dispatch nr a0 a1 a2 a3 a4 a5 (with_serial s f)
      = world ∘ snd <$> mcsos_syscall_dispatch nr a0 a1 a2 a3 a4 a5 (with_serial s g))
  /\ is_Some (mcsos_syscall_dispatch nr a0 a1 a2 a3 a4 a5 (with_serial s f))
  /\ (5 <= nr -> mcsos_syscall_dispatch nr a0 a1 a2 a3 a4 a5 s = Some (MCSOS_ENOSYS, s)).
Proof.
  intros Hr H0 H1 Hnr Hfg. unfold mcsos_syscall_dispatch, g_table, MCSOS_SYS_MAX.
  destruct (Z.leb_spec 5 nr); [by auto|].
  destruct (nr =? MCSOS_SYS_PING); [split_all; try done; lia|].
  destruct (nr =? MCSOS_SYS_GET_TICKS).
  { unfold sys_get_ticks. cbn [with_serial g_ops get_ticks world].
    destruct (get_ticks (g_ops s)) as [h|]; [destruct (h (world s))|]; split_all; done || lia. }
  destruct (nr =? MCSOS_SYS_WRITE_SERIAL).
  { unfold sys_write_serial. cbn [with_serial g_ops g_user_region world write_serial].
    pose proof (check_range_spec (g_user_region s) a0 a1 Hr H0 H1) as Hc.
    destruct (Z.eqb_spec a0 0); [split_all; done || lia|].
    destruct (Z.ltb_spec 4096 a1); [split_all; done || lia|].
    destruct (mcsos_user_check_range (g_user_region s) a0 a1); cbn [negb]; [|split_all; done || lia].
    rewrite (Hfg a0 a1 (world s)) by (done || lia || by apply Hc).
    destruct (g a0 a1 (world s)). split_all; done || lia. }
  destruct (nr =? MCSOS_SYS_YIELD).
  { unfold sys_yield. cbn [with_serial g_ops yield_current world].
    destruct (yield_current (g_ops s)); split_all; done || lia. }
  unfold sys_exit_thread. cbn [with_serial g_ops exit_current world].
  destruct (exit_current (g_ops s)); split_all; done || lia.
Qed.
End confinement.

(** ** Witnesses *)
Definition demo_uregion : mcsos_user_region := mk_user_region 4096 8192.

Lemma demo_uregion_ok : region_u64 demo_uregion.
Proof. split; simpl; lia. Qed.

Lemma user_check_range_exact_witness :
  mcsos_user_check_range demo_uregion 8000 192 = true
  <-> 192 = 0 \/ (base demo_uregion <> 0 /\ base demo_uregion <= 8000
                  /\ 8000 + 192 <= limit demo_uregion).
Proof. apply (user_check_range_exact demo_uregion 8000 192 demo_uregion_ok); lia. Defined.

Definition demo_umem : gmap Z Z := <[5000 := 11]> (<[5001 := 12]> (<[100 := 0]> {[101 := 0]})).

Lemma copy_from_user_exact_witness :
  exists rc m', mcsos_copy_from_user demo_uregion 100 5000 2 demo_umem = Some (rc, m').
Proof.
  destruct (copy_from_user_exact demo_uregion 100 5000 2 demo_umem) as (rc & m' & H & _).
  - apply demo_uregion_ok.
  - lia.
  - lia.
  - lia.
  - intros _. split; [|split; [|left; lia]]; intros i Hi;
      (assert (i = 0 \/ i = 1) as [->| ->] by lia); by eexists.
  - exists rc, m'. exact H.
Defined.

Definition demo_sys : sys_state unit := mk_sys (mk_ops None None None None) demo_uregion tt.

Lemma syscall_confined_witness :
  is_Some (mcsos_syscall_dispatch 2 5000 16 0 0 0 0
             (with_serial demo_sys (fun _ n w => (n, w)))).
Proof.
  apply (syscall_confined demo_sys (fun _ n w => (n, w)) (fun _ n w => (n, w)) 2 5000 16 0 0 0 0).
  - apply demo_uregion_ok.
  - lia.
  - lia.
  - lia.
  - reflexivity.
Defined.
