(* ===== verification/Block.v ===== *)
(** * Block layer ([kernel/block/block.c], [ramblk.c], [bcache.c],
      [include/mcsos/block.h])

    Device objects, the registry, the RAM disk driver and the write-back block
    cache.  A pointer to a device or to a RAM disk is a key of a map; the
    RAM disks ([ram]) are the only state the driver changes.  A cache entry
    owns its slice of the data pool ([mcsos_bcache_init] gives entry [i] the
    bytes from [i * block_size] on, so the slices never overlap).  Copies
    outside a buffer are undefined.  A C string is the list of its bytes, whose
    terminator is the 0 that [nthZ] reads after the last one; the buffer a
    caller passes to the cache is not part of its data pool. *)
From S2P Require Import Prelude.

Definition MCSOS_BLK_NAME_MAX : Z := 16.
Definition MCSOS_BLK_MAX_DEVICES : Z := 8.
Definition MCSOS_BLK_DEFAULT_SECTOR_SIZE : Z := 512.

Definition MCSOS_BLK_OK : Z := 0.
Definition MCSOS_BLK_EINVAL : Z := -1.
Definition MCSOS_BLK_ERANGE : Z := -2.
Definition MCSOS_BLK_EFULL : Z := -3.
Definition MCSOS_BLK_EIO : Z := -4.

Record mcsos_ramblk := mk_ramblk {
  storage : list Z;
  storage_size : Z
}.

Abbreviation ram_map := (gmap Z mcsos_ramblk).

(** [mcsos_blk_rw_fn]: from the device's [block_size] and [driver_data], the
    request, and the buffer ([None] for a null pointer), to the status, the
    buffer and the disks. *)
Definition rw_result : Type := Z * option (list Z) * ram_map.
Definition rw_fn : Type :=
  Z -> option Z -> Z -> Z -> option (list Z) -> ram_map -> option rw_result.

Record mcsos_blk_ops := mk_blk_ops {
  op_read : option rw_fn;
  op_write : option rw_fn;
  op_flush : option rw_fn
}.

Record mcsos_blk_device := mk_blk_device {
  d_name : list Z;
  d_block_size : Z;
  d_block_count : Z;
  d_flags : Z;
  d_ops : option mcsos_blk_ops;
  d_driver_data : option Z
}.

(** ** Registry *)

Record blk_registry := mk_registry {
  g_blk_devices : list (option Z);
  g_blk_count : Z
}.

Definition mcsos_is_power_of_two_u32 (value : Z) : bool :=
  negb (value =? 0) && (value .& u32 (value - 1) =? 0).

Definition mcsos_name_is_nonempty (s : list Z) : bool := negb (nthZ s 0 =? 0).

(** [i] is where the terminator goes; [fuel] bounds the loop by the size of
    the field. *)
Fixpoint copy_name_loop (fuel : nat) (i : Z) (src : list Z) (dst : list Z) : list Z :=
  match fuel with
  | O => <[Z.to_nat i := 0]> dst
  | S fuel =>
      if (i + 1 <? MCSOS_BLK_NAME_MAX) && negb (nthZ src i =? 0)
      then copy_name_loop fuel (i + 1) src (<[Z.to_nat i := nthZ src i]> dst)
      else <[Z.to_nat i := 0]> dst
  end.

Definition mcsos_copy_name (dst : list Z) (src : option (list Z)) : list Z :=
  match src with
  | None => <[0%nat := 0]> dst
  | Some s => copy_name_loop (Z.to_nat MCSOS_BLK_NAME_MAX) 0 s dst
  end.

Definition mcsos_blk_registry_reset : blk_registry :=
  mk_registry (replicate (Z.to_nat MCSOS_BLK_MAX_DEVICES) None) 0.

(** [p] points to [dev]; a null device is [None]. *)
Definition mcsos_blk_register (dev : option (Z * mcsos_blk_device)) (g : blk_registry)
    : Z * blk_registry :=
  match dev with
  | None => (MCSOS_BLK_EINVAL, g)
  | Some (p, d) =>
      match d_ops d with
      | None => (MCSOS_BLK_EINVAL, g)
      | Some o =>
          match op_read o, op_write o with
          | Some _, Some _ =>
              if negb (mcsos_name_is_nonempty (d_name d)) || (d_block_count d =? 0)
                 || (d_block_size d <? MCSOS_BLK_DEFAULT_SECTOR_SIZE)
                 || negb (mcsos_is_power_of_two_u32 (d_block_size d))
              then (MCSOS_BLK_EINVAL, g) else
              if MCSOS_BLK_MAX_DEVICES <=? g_blk_count g then (MCSOS_BLK_EFULL, g) else
              (MCSOS_BLK_OK,
               mk_registry (<[Z.to_nat (g_blk_count g) := Some p]> (g_blk_devices g))
                 (u32 (g_blk_count g + 1)))
          | _, _ => (MCSOS_BLK_EINVAL, g)
          end
      end
  end.

Definition mcsos_blk_get (index : Z) (g : blk_registry) : option Z :=
  if g_blk_count g <=? index then None
  else default None (g_blk_devices g !! Z.to_nat index).

Definition mcsos_blk_count (g : blk_registry) : Z := g_blk_count g.

(** ** Requests *)

Definition mcsos_blk_validate_range (dev : option mcsos_blk_device) (lba count : Z)
    (buffer : option (list Z)) : Z :=
  match dev, buffer with
  | Some d, Some _ =>
      if (count =? 0) || match d_ops d with None => true | Some _ => false end
      then MCSOS_BLK_EINVAL else
      if d_block_count d <=? lba then MCSOS_BLK_ERANGE else
      if d_block_count d - lba <? count then MCSOS_BLK_ERANGE else MCSOS_BLK_OK
  | _, _ => MCSOS_BLK_EINVAL
  end.

Definition mcsos_blk_read (dev : option mcsos_blk_device) (lba count : Z)
    (buffer : option (list Z)) (r : ram_map) : option rw_result :=
  let st := mcsos_blk_validate_range dev lba count buffer in
  if negb (st =? MCSOS_BLK_OK) then Some (st, buffer, r) else
  let* d := dev in
  let* o := d_ops d in
  match op_read o with
  | None => Some (MCSOS_BLK_EINVAL, buffer, r)
  | Some read => read (d_block_size d) (d_driver_data d) lba count buffer r
  end.

Definition mcsos_blk_write (dev : option mcsos_blk_device) (lba count : Z)
    (buffer : option (list Z)) (r : ram_map) : option rw_result :=
  let st := mcsos_blk_validate_range dev lba count buffer in
  if negb (st =? MCSOS_BLK_OK) then Some (st, buffer, r) else
  let* d := dev in
  let* o := d_ops d in
  match op_write o with
  | None => Some (MCSOS_BLK_EINVAL, buffer, r)
  | Some write => write (d_block_size d) (d_driver_data d) lba count buffer r
  end.

Definition mcsos_blk_flush (dev : option mcsos_blk_device) (r : ram_map) : option rw_result :=
  match dev with
  | None => Some (MCSOS_BLK_EINVAL, None, r)
  | Some d =>
      match d_ops d with
      | None => Some (MCSOS_BLK_EINVAL, None, r)
      | Some o =>
          match op_flush o with
          | None => Some (MCSOS_BLK_OK, None, r)
          | Some flush => flush (d_block_size d) (d_driver_data d) 0 0 None r
          end
      end
  end.

(** ** RAM disk *)

(** [memcpy(dst + off, src, n)] and [memcpy(dst, src + off, n)]. *)
Definition copy_into (off n : nat) (dst src : list Z) : option (list Z) :=
  let* t := copy_loop n (drop off dst) src in Some (take off dst ++ t).
Definition copy_out (off n : nat) (dst src : list Z) : option (list Z) :=
  copy_loop n dst (drop off src).

Definition mcsos_ramblk_rw (is_write : bool) : rw_fn :=
  fun block_size driver_data lba count buffer r =>
  match driver_data, buffer with
  | Some p, Some buf =>
      let* rb := r !! p in
      let byte_offset := u64 (lba * block_size) in
      let byte_count := u64 (count * block_size) in
      if (storage_size rb <? byte_offset) || (storage_size rb - byte_offset <? byte_count)
      then Some (MCSOS_BLK_ERANGE, buffer, r) else
      if is_write then
        let* st := copy_into (Z.to_nat byte_offset) (Z.to_nat byte_count) (storage rb) buf in
        Some (MCSOS_BLK_OK, buffer, <[p := mk_ramblk st (storage_size rb)]> r)
      else
        let* b := copy_out (Z.to_nat byte_offset) (Z.to_nat byte_count) buf (storage rb) in
        Some (MCSOS_BLK_OK, Some b, r)
  | _, _ => Some (MCSOS_BLK_EINVAL, buffer, r)
  end.

Definition mcsos_ramblk_read : rw_fn := mcsos_ramblk_rw false.
Definition mcsos_ramblk_write : rw_fn := mcsos_ramblk_rw true.
Definition mcsos_ramblk_flush : rw_fn :=
  fun _ _ _ _ buffer r => Some (MCSOS_BLK_OK, buffer, r).

Definition g_ramblk_ops : mcsos_blk_ops :=
  mk_blk_ops (Some mcsos_ramblk_read) (Some mcsos_ramblk_write) (Some mcsos_ramblk_flush).

(** The device and RAM disk objects after initialisation; [dev] is the device
    object as found, [p] the pointer to the RAM disk, [None] a null pointer. *)
Definition mcsos_ramblk_init (dev : option mcsos_blk_device) (ram : option Z)
    (name storage_ : option (list Z)) (size block_size : Z)
    : Z + (mcsos_blk_device * mcsos_ramblk) :=
  match dev, ram, storage_, name with
  | Some d, Some p, Some st, Some _ =>
      if (block_size <? MCSOS_BLK_DEFAULT_SECTOR_SIZE)
         || negb (mcsos_is_power_of_two_u32 block_size) then inl MCSOS_BLK_EINVAL else
      if (size <? block_size) || negb (size mod block_size =? 0) then inl MCSOS_BLK_EINVAL else
      inr (mk_blk_device (mcsos_copy_name (d_name d) name) block_size
             (size / block_size) 0 (Some g_ramblk_ops) (Some p),
           mk_ramblk st size)
  | _, _, _, _ => inl MCSOS_BLK_EINVAL
  end.

(** ** Block cache *)

Record mcsos_bcache_entry := mk_entry {
  e_data : list Z;
  e_capacity : Z;
  e_lba : Z;
  e_valid : bool;
  e_dirty : bool;
  e_dev : option Z
}.

Record mcsos_bcache := mk_bcache {
  entries : list mcsos_bcache_entry;
  entry_count : Z;
  bc_block_size : Z;
  clock_hand : Z
}.

Record bc_state := mk_bc { cache : mcsos_bcache; ram : ram_map }.

Definition set_entries (c : mcsos_bcache) (es : list mcsos_bcache_entry) : mcsos_bcache :=
  mk_bcache es (entry_count c) (bc_block_size c) (clock_hand c).
Definition set_hand (c : mcsos_bcache) (h : Z) : mcsos_bcache :=
  mk_bcache (entries c) (entry_count c) (bc_block_size c) h.

Definition bc (A : Type) : Type := em bc_state A.

Definition get_entry (i : Z) : bc mcsos_bcache_entry := fun s =>
  let* e := entries (cache s) !! Z.to_nat i in Some (inr e, s).
Definition put_entry (i : Z) (e : mcsos_bcache_entry) : bc unit := fun s =>
  let* _ := entries (cache s) !! Z.to_nat i in
  Some (inr tt, mk_bc (set_entries (cache s) (<[Z.to_nat i := e]> (entries (cache s)))) (ram s)).

Definition blank_entry : mcsos_bcache_entry := mk_entry [] 0 0 false false None.
Definition entry_at (c : mcsos_bcache) (i : Z) : mcsos_bcache_entry :=
  default blank_entry (entries c !! Z.to_nat i).

Definition mcsos_bcache_find (c : mcsos_bcache) (dev lba : Z) : option Z :=
  first_from (Z.to_nat (entry_count c)) 0 (fun i =>
    let e := entry_at c i in
    e_valid e && bool_decide (e_dev e = Some dev) && (e_lba e =? lba)).

(** [init_loop n i]: the [n] entries from [i] on. *)
Fixpoint init_loop (n i : nat) (pool : list Z) (block_size : Z) (es : list mcsos_bcache_entry)
    : option (list mcsos_bcache_entry) :=
  match n with
  | O => Some es
  | S n =>
      let* _ := es !! i in
      let data := sub (i * Z.to_nat block_size) (Z.to_nat block_size) pool in
      init_loop n (S i) pool block_size
        (<[i := mk_entry data block_size 0 false false None]> es)
  end.

(** [es] is the entry array, [pool] the bytes of the data pool. *)
Definition mcsos_bcache_init (es : option (list mcsos_bcache_entry)) (count : Z)
    (data_pool : option (list Z)) (block_size : Z) : option (Z + mcsos_bcache) :=
  match es, data_pool with
  | Some es, Some pool =>
      if (count =? 0) || (block_size =? 0) then Some (inl MCSOS_BLK_EINVAL) else
      let* es := init_loop (Z.to_nat count) 0 pool block_size es in
      Some (inr (mk_bcache es count block_size 0))
  | _, _ => Some (inl MCSOS_BLK_EINVAL)
  end.

Section bcache.
(** The device objects. *)
Context (devs : gmap Z mcsos_blk_device).

(** The object a device pointer designates. *)
Definition deref (p : option Z) : option (option mcsos_blk_device) :=
  match p with
  | None => Some None
  | Some p => let* d := devs !! p in Some (Some d)
  end.

Definition mcsos_bcache_flush_entry (i : Z) : bc unit :=
  let? e := get_entry i in
  if negb (e_valid e) || negb (e_dirty e) then eret tt else
  (fun s =>
     let* d := deref (e_dev e) in
     let* r := mcsos_blk_write d (e_lba e) 1 (Some (e_data e)) (ram s) in
     let s := mk_bc (cache s) r.2 in
     if negb (r.1.1 =? MCSOS_BLK_OK) then efail r.1.1 s else
     put_entry i (mk_entry (e_data e) (e_capacity e) (e_lba e) (e_valid e) false (e_dev e)) s).

Definition mcsos_bcache_select_victim : bc Z := fun s =>
  let c := cache s in
  if entry_count c =? 0 then efail MCSOS_BLK_EINVAL s else
  let start := u32 (clock_hand c mod entry_count c) in
  let idx pass := u32 (start + pass) mod entry_count c in
  match first_from (Z.to_nat (entry_count c)) 0
          (fun pass => negb (e_valid (entry_at c (idx pass)))) with
  | Some pass =>
      eret (idx pass) (mk_bc (set_hand c (u32 (idx pass + 1))) (ram s))
  | None =>
      (mcsos_bcache_flush_entry start ;? eret start)
        (mk_bc (set_hand c (u32 (start + 1))) (ram s))
  end.

(** The miss path of [mcsos_bcache_read]: fills the victim [i] from the
    device [d] at pointer [dev]. *)
Definition bcache_fill (dev : Z) (d : mcsos_blk_device) (lba i : Z) : bc Z :=
  let? e := get_entry i in
  (fun s =>
     let* r := mcsos_blk_read (Some d) lba 1 (Some (e_data e)) (ram s) in
     let data := default (e_data e) r.1.2 in
     let s := mk_bc (cache s) r.2 in
     if negb (r.1.1 =? MCSOS_BLK_OK) then
       (put_entry i (mk_entry data (e_capacity e) (e_lba e) false (e_dirty e) (e_dev e)) ;?
        efail r.1.1) s
     else
       (put_entry i (mk_entry data (e_capacity e) lba true false (Some dev)) ;? eret i) s).

(** The cache is not null; a null device or buffer is [None]. *)
Definition mcsos_bcache_read (dev : option Z) (lba : Z) (buffer : option (list Z))
    : bc (list Z) := fun s =>
  match dev, buffer with
  | Some dev, Some buffer =>
      let* d := devs !! dev in
      if negb (bc_block_size (cache s) =? d_block_size d) then efail MCSOS_BLK_EINVAL s else
      (let? i := match mcsos_bcache_find (cache s) dev lba with
                 | Some i => eret i
                 | None => let? i := mcsos_bcache_select_victim in bcache_fill dev d lba i
                 end in
       let? e := get_entry i in
       (fun s =>
          let* b := copy_loop (Z.to_nat (bc_block_size (cache s))) buffer (e_data e) in
          eret b s)) s
  | _, _ => efail MCSOS_BLK_EINVAL s
  end.

(** The miss path of [mcsos_bcache_write]: takes over the victim [i] without
    reading the block, which is about to be overwritten. *)
Definition bcache_claim (dev lba i : Z) : bc Z :=
  let? e := get_entry i in
  put_entry i (mk_entry (e_data e) (e_capacity e) lba true false (Some dev)) ;? eret i.

Definition mcsos_bcache_write (dev : option Z) (lba : Z) (buffer : option (list Z))
    : bc unit := fun s =>
  match dev, buffer with
  | Some dev, Some buffer =>
      let* d := devs !! dev in
      if negb (bc_block_size (cache s) =? d_block_size d) then efail MCSOS_BLK_EINVAL s else
      (let? i := match mcsos_bcache_find (cache s) dev lba with
                 | Some i => eret i
                 | None => let? i := mcsos_bcache_select_victim in bcache_claim dev lba i
                 end in
       let? e := get_entry i in
       (fun s =>
          let* data := copy_loop (Z.to_nat (bc_block_size (cache s))) (e_data e) buffer in
          put_entry i (mk_entry data (e_capacity e) (e_lba e) (e_valid e) true (e_dev e)) s)) s
  | _, _ => efail MCSOS_BLK_EINVAL s
  end.

(** [flush_loop n i]: the [n] entries from [i] on. *)
Fixpoint flush_loop (n : nat) (i : Z) : bc unit :=
  match n with
  | O => eret tt
  | S n => mcsos_bcache_flush_entry i ;? flush_loop n (i + 1)
  end.

Definition mcsos_bcache_flush_all : bc unit := fun s =>
  flush_loop (Z.to_nat (entry_count (cache s))) 0 s.
End bcache.
