(* ===== verification/BlockFacts.v ===== *)
(** * Block layer: the interface of a block device and the cache's lemmas

    [BlkDisk] states what the cache relies on from the devices below it; the
    RAM disk discharges it ([ramblk_disk]).  The lemmas on the cache are proved
    against the interface. *)
From S2P Require Import Prelude Block.

(** ** The interface *)

(** What the devices hold. *)
Class BlkView (devs : gmap Z mcsos_blk_device) := {
  (** The drivers' state is as initialisation and requests leave it. *)
  disk_ok : ram_map -> Prop;
  (** Block [lba] of the device at pointer [p]. *)
  disk_block : ram_map -> Z -> Z -> list Z;
  disk_geometry p d : devs !! p = Some d ->
    0 < d_block_size d < 2 ^ 32 /\ 0 <= d_block_count d;
  disk_block_length r p d lba : disk_ok r -> devs !! p = Some d ->
    0 <= lba < d_block_count d ->
    length (disk_block r p lba) = Z.to_nat (d_block_size d)
}.

(** Requests that are in range succeed. *)
Class BlkDisk (devs : gmap Z mcsos_blk_device) `{!BlkView devs} : Prop := {
  disk_read r p d lba buf : disk_ok r -> devs !! p = Some d -> 0 <= lba ->
    length buf = Z.to_nat (d_block_size d) ->
    mcsos_blk_read (Some d) lba 1 (Some buf) r =
      Some (if lba <? d_block_count d then (MCSOS_BLK_OK, Some (disk_block r p lba), r)
            else (MCSOS_BLK_ERANGE, Some buf, r));
  disk_write r p d lba buf : disk_ok r -> devs !! p = Some d ->
    0 <= lba < d_block_count d -> length buf = Z.to_nat (d_block_size d) ->
    exists r', mcsos_blk_write (Some d) lba 1 (Some buf) r =
        Some (MCSOS_BLK_OK, Some buf, r') /\
      disk_ok r' /\
      forall p' d' lba', devs !! p' = Some d' -> 0 <= lba' < d_block_count d' ->
        disk_block r' p' lba' =
          if decide (p' = p /\ lba' = lba) then buf else disk_block r p' lba';
  disk_write_range r p d lba buf : devs !! p = Some d -> d_block_count d <= lba ->
    mcsos_blk_write (Some d) lba 1 (Some buf) r = Some (MCSOS_BLK_ERANGE, Some buf, r)
}.

(** ** RAM disks implement it *)

(** [dev] is the device [mcsos_ramblk_init] makes for the RAM disk at [q]. *)
Definition ram_device (d : mcsos_blk_device) (q : Z) (rb : mcsos_ramblk) : Prop :=
  d_ops d = Some g_ramblk_ops /\ d_driver_data d = Some q /\
  0 < d_block_size d < 2 ^ 32 /\ 0 < d_block_count d /\
  storage_size rb = d_block_count d * d_block_size d /\
  storage_size rb < 2 ^ 64 /\
  Z.of_nat (length (storage rb)) = storage_size rb.

Lemma ramblk_init_device d p name st size bs d' rb :
  0 <= size < 2 ^ 64 -> 0 <= bs < 2 ^ 32 -> Z.of_nat (length st) = size ->
  mcsos_ramblk_init (Some d) (Some p) (Some name) (Some st) size bs = inr (d', rb) ->
  ram_device d' p rb.
Proof.
  intros Hs Hb Hl. unfold mcsos_ramblk_init, MCSOS_BLK_DEFAULT_SECTOR_SIZE.
  case_if; [done|]. case_if; [done|]. zbool. intros Hi. simplify_eq.
  pose proof (Z.div_mod (Z.of_nat (length st)) bs).
  assert (0 < Z.of_nat (length st) / bs) by (apply Z.div_str_pos; lia).
  unfold ram_device; simpl; split_all; try done; lia.
Qed.

(** The blocks [lba .. lba + count - 1] of a device, as bytes. *)
Definition blocks (rb : mcsos_ramblk) (bs lba count : Z) : list Z :=
  sub (Z.to_nat (lba * bs)) (Z.to_nat (count * bs)) (storage rb).

(** The RAM disk with the bytes [data] stored from block [lba] on. *)
Definition put_blocks (rb : mcsos_ramblk) (bs lba : Z) (data : list Z) : mcsos_ramblk :=
  mk_ramblk (splice (Z.to_nat (lba * bs)) data (storage rb)) (storage_size rb).

Lemma copy_into_spec off n dst src :
  (off + n <= length dst)%nat -> (n <= length src)%nat ->
  copy_into off n dst src = Some (splice off (take n src) dst).
Proof.
  intros Hd Hs. unfold copy_into. rewrite copy_loop_spec by (rewrite ?length_drop; lia).
  unfold splice. rewrite drop_drop, length_take, Nat.min_l by lia. done.
Qed.

Lemma copy_out_spec off n dst src :
  (off + n <= length src)%nat -> (n <= length dst)%nat ->
  copy_out off n dst src = Some (sub off n src ++ drop n dst).
Proof.
  intros Hd Hs. unfold copy_out. by rewrite copy_loop_spec by (rewrite ?length_drop; lia).
Qed.

Section ramblk.
Context (r : ram_map) (d : mcsos_blk_device) (q : Z) (rb : mcsos_ramblk).
Context (Hrb : r !! q = Some rb) (Hd : ram_device d q rb).

(** A request accepted by the range check stays inside the storage. *)
Lemma request_bounds lba count :
  0 <= lba -> 0 < count -> lba + count <= d_block_count d ->
  0 <= lba * d_block_size d /\ 0 <= count * d_block_size d /\
  lba * d_block_size d + count * d_block_size d <= storage_size rb.
Proof. destruct Hd as (_ & _ & ? & ? & ? & ? & ?). intros. nia. Qed.

Lemma validate_ram lba count buf :
  0 <= lba -> 0 <= count ->
  mcsos_blk_validate_range (Some d) lba count (Some buf) =
    if count =? 0 then MCSOS_BLK_EINVAL
    else if lba + count <=? d_block_count d then MCSOS_BLK_OK else MCSOS_BLK_ERANGE.
Proof.
  intros Hl Hc. unfold mcsos_blk_validate_range. destruct Hd as (-> & _).
  rewrite orb_false_r. case_if; [done|]. zbool.
  destruct (Z.leb_spec (d_block_count d) lba), (Z.leb_spec (lba + count) (d_block_count d));
    try done; try lia.
  - by rewrite (proj2 (Z.ltb_ge _ _)) by lia.
  - by rewrite (proj2 (Z.ltb_lt _ _)) by lia.
Qed.

Lemma ramblk_rw_ok w lba count buf :
  0 <= lba -> 0 < count -> lba + count <= d_block_count d ->
  count * d_block_size d <= Z.of_nat (length buf) ->
  mcsos_ramblk_rw w (d_block_size d) (d_driver_data d) lba count (Some buf) r =
    Some (if w : bool
          then (MCSOS_BLK_OK, Some buf,
                <[q := put_blocks rb (d_block_size d) lba
                         (take (Z.to_nat (count * d_block_size d)) buf)]> r)
          else (MCSOS_BLK_OK,
                Some (blocks rb (d_block_size d) lba count ++
                      drop (Z.to_nat (count * d_block_size d)) buf), r)).
Proof.
  intros Hl Hc Hr Hb. pose proof (request_bounds lba count Hl Hc Hr) as (? & ? & ?).
  destruct Hd as (_ & -> & ? & ? & ? & ? & Hlen). unfold mcsos_ramblk_rw. rewrite Hrb.
  rewrite !u64_id by lia. cbv zeta.
  rewrite !(proj2 (Z.ltb_ge _ _)) by lia. cbn [orb].
  destruct w; [rewrite copy_into_spec by lia|rewrite copy_out_spec by lia]; done.
Qed.

Lemma ram_read_spec lba count buf :
  0 <= lba -> 0 <= count -> count * d_block_size d <= Z.of_nat (length buf) ->
  mcsos_blk_read (Some d) lba count (Some buf) r =
    Some (if count =? 0 then (MCSOS_BLK_EINVAL, Some buf, r)
          else if lba + count <=? d_block_count d
          then (MCSOS_BLK_OK,
                Some (blocks rb (d_block_size d) lba count ++
                      drop (Z.to_nat (count * d_block_size d)) buf), r)
          else (MCSOS_BLK_ERANGE, Some buf, r)).
Proof.
  intros Hl Hc Hb. unfold mcsos_blk_read. rewrite validate_ram by done.
  destruct (Z.eqb_spec count 0); [done|].
  destruct (Z.leb_spec (lba + count) (d_block_count d)); [|done].
  rewrite (proj1 Hd). cbn. apply (ramblk_rw_ok false); lia.
Qed.

Lemma ram_write_spec lba count buf :
  0 <= lba -> 0 <= count -> count * d_block_size d <= Z.of_nat (length buf) ->
  mcsos_blk_write (Some d) lba count (Some buf) r =
    Some (if count =? 0 then (MCSOS_BLK_EINVAL, Some buf, r)
          else if lba + count <=? d_block_count d
          then (MCSOS_BLK_OK, Some buf,
                <[q := put_blocks rb (d_block_size d) lba
                         (take (Z.to_nat (count * d_block_size d)) buf)]> r)
          else (MCSOS_BLK_ERANGE, Some buf, r)).
Proof.
  intros Hl Hc Hb. unfold mcsos_blk_write. rewrite validate_ram by done.
  destruct (Z.eqb_spec count 0); [done|].
  destruct (Z.leb_spec (lba + count) (d_block_count d)); [|done].
  rewrite (proj1 Hd). cbn. apply (ramblk_rw_ok true); lia.
Qed.

End ramblk.

Section ram_disks.
Context (devs : gmap Z mcsos_blk_device).

(** The device objects are RAM disks on different storages. *)
Definition ram_devices : Prop :=
  (forall p d, devs !! p = Some d ->
     d_ops d = Some g_ramblk_ops /\ 0 < d_block_size d < 2 ^ 32 /\ 0 < d_block_count d) /\
  (forall p1 p2 d1 d2, devs !! p1 = Some d1 -> devs !! p2 = Some d2 ->
     d_driver_data d1 = d_driver_data d2 -> p1 = p2).

Definition ram_ok (r : ram_map) : Prop :=
  forall p d, devs !! p = Some d -> exists q rb, r !! q = Some rb /\ ram_device d q rb.

(** The RAM disk behind a device pointer. *)
Definition ram_of (r : ram_map) (p : Z) : option (mcsos_blk_device * mcsos_ramblk) :=
  let* d := devs !! p in
  let* q := d_driver_data d in
  let* rb := r !! q in Some (d, rb).

Definition ram_block (r : ram_map) (p lba : Z) : list Z :=
  match ram_of r p with
  | Some (d, rb) => blocks rb (d_block_size d) lba 1
  | None => []
  end.

Lemma ram_block_eq r p d q rb lba :
  devs !! p = Some d -> ram_device d q rb -> r !! q = Some rb ->
  ram_block r p lba = blocks rb (d_block_size d) lba 1.
Proof. intros Hp (_ & Hq & _) Hr. unfold ram_block, ram_of. by rewrite Hp, Hq, Hr. Qed.

Lemma length_blocks d q rb lba count :
  ram_device d q rb -> 0 <= lba -> 0 < count -> lba + count <= d_block_count d ->
  length (blocks rb (d_block_size d) lba count) = Z.to_nat (count * d_block_size d).
Proof.
  intros Hd ? ? ?. pose proof (request_bounds d q rb Hd lba count) as Hb.
  destruct Hd as (_ & _ & _ & _ & _ & _ & Hl). apply length_sub. lia.
Qed.

Lemma put_blocks_device d q rb lba data :
  ram_device d q rb -> 0 <= lba < d_block_count d ->
  length data = Z.to_nat (d_block_size d) ->
  ram_device d q (put_blocks rb (d_block_size d) lba data).
Proof.
  intros Hd Hl Hdata. pose proof (request_bounds d q rb Hd lba 1) as Hb.
  destruct Hd as (? & ? & ? & ? & ? & ? & Hlen).
  unfold ram_device, put_blocks; simpl. rewrite length_splice by lia. done.
Qed.

(** Storing a block changes that block only. *)
Lemma blocks_put_blocks d q rb lba lba' data :
  ram_device d q rb -> 0 <= lba < d_block_count d -> 0 <= lba' < d_block_count d ->
  length data = Z.to_nat (d_block_size d) ->
  blocks (put_blocks rb (d_block_size d) lba data) (d_block_size d) lba' 1 =
    if decide (lba' = lba) then data else blocks rb (d_block_size d) lba' 1.
Proof.
  intros Hd Hl Hl' Hdata. pose proof (request_bounds d q rb Hd lba 1) as Hb.
  destruct Hd as (? & ? & Hbs & ? & ? & ? & Hlen). unfold blocks, put_blocks; cbn [storage].
  rewrite Z.mul_1_l. case_decide as E.
  - subst lba'. apply sub_splice_same; lia.
  - apply sub_splice_other; [lia|].
    assert (lba' * d_block_size d + d_block_size d <= lba * d_block_size d \/
            lba * d_block_size d + d_block_size d <= lba' * d_block_size d) by nia.
    assert (0 <= lba' * d_block_size d) by nia. lia.
Qed.

Lemma ram_write_block r p d lba buf :
  ram_devices -> ram_ok r -> devs !! p = Some d ->
  0 <= lba < d_block_count d -> length buf = Z.to_nat (d_block_size d) ->
  exists r', mcsos_blk_write (Some d) lba 1 (Some buf) r =
      Some (MCSOS_BLK_OK, Some buf, r') /\
    ram_ok r' /\
    forall p' d' lba', devs !! p' = Some d' -> 0 <= lba' < d_block_count d' ->
      ram_block r' p' lba' =
        if decide (p' = p /\ lba' = lba) then buf else ram_block r p' lba'.
Proof.
  intros (_ & Hinj) Hr Hp Hl Hbuf. destruct (Hr p d Hp) as (q & rb & Hq & Hd).
  assert (0 < d_block_size d < 2 ^ 32) by apply Hd.
  eexists. split; [rewrite (ram_write_spec r d q rb Hq Hd) by lia|].
  { rewrite (proj2 (Z.leb_le _ _)) by lia. rewrite Z.mul_1_l, take_ge by lia. done. }
  assert (forall p' d' q' rb', devs !! p' = Some d' -> ram_device d' q' rb' -> p' <> p ->
            q' <> q) as Hne.
  { intros p' d' q' rb' Hp' (_ & Hq' & _) Hpp ->. apply Hpp.
    apply (Hinj p' p d' d); [done..|]. rewrite Hq'. symmetry. apply Hd. }
  assert (ram_device d q (put_blocks rb (d_block_size d) lba buf))
    by (by apply put_blocks_device).
  split.
  - intros p' d' Hp'. destruct (decide (p' = p)) as [->|Hpp].
    { simplify_eq. exists q, (put_blocks rb (d_block_size d) lba buf).
      by rewrite lookup_insert_eq. }
    destruct (Hr p' d' Hp') as (q' & rb' & Hq' & Hd'). exists q', rb'.
    rewrite lookup_insert_ne; [done|]. by apply not_eq_sym, (Hne p' d' q' rb').
  - intros p' d' lba' Hp' Hl'. destruct (decide (p' = p)) as [->|Hpp].
    { simplify_eq. rewrite (ram_block_eq r p d q rb) by done.
      rewrite (ram_block_eq _ p d q (put_blocks rb (d_block_size d) lba buf))
        by (done || apply lookup_insert_eq).
      erewrite blocks_put_blocks by done.
      destruct (decide (lba' = lba)); [by rewrite decide_True|].
      by rewrite decide_False by tauto. }
    rewrite decide_False by tauto. destruct (Hr p' d' Hp') as (q' & rb' & Hq' & Hd').
    rewrite !(ram_block_eq _ p' d' q' rb'); try done.
    rewrite lookup_insert_ne; [done|]. by apply not_eq_sym, (Hne p' d' q' rb').
Qed.

#[program] Definition ram_view (H : ram_devices) : BlkView devs :=
  {| disk_ok := ram_ok; disk_block := ram_block |}.
Next Obligation. intros (H & _) p d Hp. apply H in Hp. lia. Qed.
Next Obligation.
  intros _ r p d lba Hr Hp Hl. simpl in *. destruct (Hr p d Hp) as (q & rb & Hq & Hd).
  erewrite ram_block_eq, length_blocks by (done || lia). f_equal. lia.
Qed.

Lemma ramblk_disk (H : ram_devices) : @BlkDisk devs (ram_view H).
Proof.
  split.
  - intros r p d lba buf Hr Hp Hl Hb. simpl in *.
    destruct (Hr p d Hp) as (q & rb & Hq & Hd).
    assert (0 < d_block_size d < 2 ^ 32) by apply Hd.
    rewrite (ram_read_spec r d q rb Hq Hd) by lia. erewrite ram_block_eq by done.
    rewrite (drop_ge buf), app_nil_r by lia.
    destruct (Z.ltb_spec lba (d_block_count d)), (Z.leb_spec (lba + 1) (d_block_count d));
      (done || lia).
  - intros r p d lba buf. by apply ram_write_block.
  - destruct H as (H & _). intros r p d lba buf Hp Hl. destruct (H p d Hp) as (Ho & _ & _).
    unfold mcsos_blk_write, mcsos_blk_validate_range. rewrite Ho.
    by rewrite (proj2 (Z.leb_le _ _)) by lia.
Qed.

End ram_disks.

(** ** The cache *)

(** The block a valid entry holds. *)
Definition key_of (e : mcsos_bcache_entry) : option (Z * Z) :=
  if e_valid e then let* p := e_dev e in Some (p, e_lba e) else None.

Lemma key_of_Some e p lba :
  key_of e = Some (p, lba) <-> e_valid e = true /\ e_dev e = Some p /\ e_lba e = lba.
Proof.
  unfold key_of. destruct (e_valid e), (e_dev e); split; intros; naive_solver.
Qed.

Section cache.
Context (devs : gmap Z mcsos_blk_device) `{!BlkView devs}.

(** Contents of all the devices, by device pointer and block number. *)
Abbreviation contents := (Z -> Z -> list Z).

Implicit Types (D : contents) (s : bc_state) (e : mcsos_bcache_entry).

Definition in_range (p lba : Z) : Prop :=
  exists d, devs !! p = Some d /\ 0 <= lba < d_block_count d.

(** An entry holds a block of a device of the cache's block size, and that
    block's current contents. *)
Record entry_ok (bs : Z) D (e : mcsos_bcache_entry) : Prop := {
  eo_length : length (e_data e) = Z.to_nat bs;
  eo_valid : e_valid e = true -> exists p d,
    e_dev e = Some p /\ devs !! p = Some d /\ d_block_size d = bs /\
    0 <= e_lba e < d_block_count d /\ e_data e = D p (e_lba e)
}.

Definition block_clean (es : list mcsos_bcache_entry) (p lba : Z) : Prop :=
  forall i e, es !! i = Some e -> key_of e = Some (p, lba) -> e_dirty e = false.

(** [bc_rep D s]: the cache over the devices represents the contents [D]. *)
Record bc_rep D s : Prop := {
  br_disk : disk_ok (ram s);
  br_count : 0 < entry_count (cache s) < 2 ^ 32;
  br_length : length (entries (cache s)) = Z.to_nat (entry_count (cache s));
  br_hand : 0 <= clock_hand (cache s);
  br_entries i e : entries (cache s) !! i = Some e -> entry_ok (bc_block_size (cache s)) D e;
  br_unique i j ei ej k : entries (cache s) !! i = Some ei -> entries (cache s) !! j = Some ej ->
    key_of ei = Some k -> key_of ej = Some k -> i = j;
  br_clean p lba : in_range p lba -> block_clean (entries (cache s)) p lba ->
    disk_block (ram s) p lba = D p lba
}.

Lemma entry_at_lookup (c : mcsos_bcache) (i : nat) e :
  entries c !! i = Some e -> entry_at c (Z.of_nat i) = e.
Proof. intros H. unfold entry_at. by rewrite Nat2Z.id, H. Qed.

Lemma find_Some D s p lba i :
  bc_rep D s -> mcsos_bcache_find (cache s) p lba = Some i ->
  exists e, entries (cache s) !! Z.to_nat i = Some e /\ key_of e = Some (p, lba) /\ 0 <= i.
Proof.
  intros Hs H. apply first_from_Some in H as (Hi & Hp & _). cbv zeta in Hp.
  pose proof (br_length _ _ Hs). pose proof (br_count _ _ Hs).
  destruct (lookup_lt_is_Some_2 (entries (cache s)) (Z.to_nat i)) as [e He]; [lia|].
  rewrite <- (Z2Nat.id i) in Hp by lia. rewrite (entry_at_lookup _ _ e He) in Hp.
  zbool. apply bool_decide_eq_true in H3 as ?. exists e. split_all; [done| |lia].
  by apply key_of_Some.
Qed.

Lemma find_None D s p lba i e :
  bc_rep D s -> mcsos_bcache_find (cache s) p lba = None ->
  entries (cache s) !! i = Some e -> key_of e <> Some (p, lba).
Proof.
  intros Hs H He Hk. pose proof (br_length _ _ Hs). pose proof (br_count _ _ Hs).
  apply lookup_lt_Some in He as Hlt. unfold mcsos_bcache_find in H.
  pose proof (proj1 (first_from_None _ _ _) H (Z.of_nat i)) as Hi. cbv zeta beta in Hi.
  rewrite (entry_at_lookup _ _ e He) in Hi. apply key_of_Some in Hk as (Hv & Hd & Hl).
  rewrite Hv, Hl, Z.eqb_refl, bool_decide_eq_true_2 in Hi by done.
  discriminate Hi. lia.
Qed.

(** Replacing one entry. *)
Definition with_entry s (i : nat) e : bc_state :=
  mk_bc (set_entries (cache s) (<[i := e]> (entries (cache s)))) (ram s).

Lemma get_entry_eq s i e :
  entries (cache s) !! Z.to_nat i = Some e -> get_entry i s = Some (inr e, s).
Proof. intros H. unfold get_entry. by rewrite H. Qed.

Lemma put_entry_eq s i e e' :
  entries (cache s) !! Z.to_nat i = Some e ->
  put_entry i e' s = Some (inr tt, with_entry s (Z.to_nat i) e').
Proof. intros H. unfold put_entry. by rewrite H. Qed.

Lemma rep_with_entry D D' s i e e' :
  bc_rep D s -> entries (cache s) !! i = Some e ->
  entry_ok (bc_block_size (cache s)) D' e' ->
  (forall j ej, j <> i -> entries (cache s) !! j = Some ej ->
     entry_ok (bc_block_size (cache s)) D' ej) ->
  (forall j ej k, j <> i -> entries (cache s) !! j = Some ej -> key_of ej = Some k ->
     key_of e' <> Some k) ->
  (forall p lba, in_range p lba -> block_clean (<[i := e']> (entries (cache s))) p lba ->
     disk_block (ram s) p lba = D' p lba) ->
  bc_rep D' (with_entry s i e').
Proof.
  intros [H1 H2 H3 H4 H5 H6 H7] He Hok Hoth Huniq Hclean.
  apply lookup_lt_Some in He as Hlt.
  split; cbn; try done.
  - by rewrite length_insert.
  - intros j ej Hj. apply list_lookup_insert_Some in Hj as [(-> & -> & _)|(Hne & Hj)];
      [done|]. by apply (Hoth j).
  - intros j j' ej ej' k Hj Hj' Hk Hk'.
    apply list_lookup_insert_Some in Hj as [(-> & -> & _)|(Hne & Hj)];
      apply list_lookup_insert_Some in Hj' as [(-> & -> & _)|(Hne' & Hj')]; try done.
    + by destruct (Huniq j' ej' k).
    + by destruct (Huniq j ej k).
    + by apply (H6 j j' ej ej' k).
Qed.

Lemma rep_hand D s h :
  bc_rep D s -> 0 <= h -> bc_rep D (mk_bc (set_hand (cache s) h) (ram s)).
Proof. intros [] ?. by split. Qed.

(** Storing a block's current contents on its device. *)
Lemma rep_writeback D s p lba r' :
  bc_rep D s -> disk_ok r' ->
  (forall p' d' lba', devs !! p' = Some d' -> 0 <= lba' < d_block_count d' ->
     disk_block r' p' lba' =
       if decide (p' = p /\ lba' = lba) then D p lba else disk_block (ram s) p' lba') ->
  bc_rep D (mk_bc (cache s) r').
Proof.
  intros [H1 H2 H3 H4 H5 H6 H7] Hok Hw. split; cbn; try done.
  intros p' lba' Hr Hc. destruct Hr as (d' & Hp' & Hl'). rewrite (Hw p' d') by done.
  case_decide as E; [by destruct E as [-> ->]|]. apply H7; [by exists d'|done].
Qed.

Definition mark_clean e : mcsos_bcache_entry :=
  mk_entry (e_data e) (e_capacity e) (e_lba e) (e_valid e) false (e_dev e).

Lemma rep_mark_clean D s i e :
  bc_rep D s -> entries (cache s) !! i = Some e ->
  (forall p lba, in_range p lba -> key_of e = Some (p, lba) ->
     disk_block (ram s) p lba = D p lba) ->
  bc_rep D (with_entry s i (mark_clean e)).
Proof.
  intros Hs He Hd. pose proof (br_entries _ _ Hs) as Hes.
  apply (rep_with_entry D D s i e); try done.
  - destruct (Hes i e He) as [H1 H2]. by split.
  - intros j ej _ Hj. by apply (Hes j).
  - intros j ej k Hne Hj Hk Hk'. apply Hne. by apply (br_unique _ _ Hs j i ej e k).
  - intros p lba Hr Hc. destruct (decide (key_of e = Some (p, lba))) as [Hk|Hk]; [by apply Hd|].
    apply (br_clean _ _ Hs); [done|]. intros j ej Hj Hkj. apply (Hc j ej); [|done].
    rewrite list_lookup_insert_ne; [done|]. intros ->. congruence.
Qed.

(** [evolves s s']: same geometry, and the entries hold the same blocks. *)
Definition evolves s s' : Prop :=
  entry_count (cache s') = entry_count (cache s) /\
  bc_block_size (cache s') = bc_block_size (cache s) /\
  key_of <$> entries (cache s') = key_of <$> entries (cache s).

Lemma evolves_with_entry s i e e' :
  entries (cache s) !! i = Some e -> key_of e' = key_of e -> evolves s (with_entry s i e').
Proof.
  intros He Hk. unfold evolves; cbn. split_all; [done..|].
  rewrite list_fmap_insert, Hk. apply list_insert_id. by rewrite list_lookup_fmap, He.
Qed.

(** What is left of a flushed entry. *)
Definition flushed e : Prop := e_valid e = true -> e_dirty e = false.

Context `{!BlkDisk devs}.

Lemma flush_entry_ok D s i e :
  bc_rep D s -> entries (cache s) !! Z.to_nat i = Some e ->
  exists s' e', mcsos_bcache_flush_entry devs i s = Some (inr tt, s') /\
    bc_rep D s' /\ evolves s s' /\ flushed e' /\
    entries (cache s') = <[Z.to_nat i := e']> (entries (cache s)).
Proof.
  intros Hs He. unfold mcsos_bcache_flush_entry, ebind.
  rewrite (get_entry_eq s i e He). case_if.
  - exists s, e. split_all; try done; [|by rewrite list_insert_id].
    intros Hv. rewrite Hv in Hif. by destruct (e_dirty e).
  - zbool. destruct (br_entries _ _ Hs _ _ He) as [Hlen Hval].
    destruct Hval as (p & d & Hp & Hd & Hbs & Hl & Hdata); [done|].
    rewrite Hp. cbn [deref]. rewrite Hd.
    destruct (disk_write (ram s) p d (e_lba e) (e_data e)) as (r' & Hw & Hok & Hb);
      [apply Hs|done|done|by rewrite Hbs|].
    rewrite Hw. cbn [fst snd negb MCSOS_BLK_OK Z.eqb].
    rewrite (put_entry_eq (mk_bc (cache s) r') i e) by done.
    eexists _, (mark_clean e). rewrite <- Hp.
    split_all; [reflexivity| |by apply (evolves_with_entry s _ e)|done|done].
    apply (rep_mark_clean D (mk_bc (cache s) r')); [|done|].
    + apply (rep_writeback D s p (e_lba e)); [done..|]. by rewrite <- Hdata.
    + intros p' lba' (d' & Hp' & Hl') (_ & Hdev & <-)%key_of_Some. cbn.
      assert (p' = p) as -> by congruence.
      rewrite (Hb p d') by done. by rewrite decide_True.
Qed.

Lemma mk_bc_eta s : mk_bc (cache s) (ram s) = s.
Proof. by destruct s. Qed.

Lemma evolves_lookup s s' i e' :
  evolves s s' -> entries (cache s') !! i = Some e' ->
  exists e, entries (cache s) !! i = Some e /\ key_of e = key_of e'.
Proof.
  intros (_ & _ & Hk) He'.
  assert ((key_of <$> entries (cache s)) !! i = Some (key_of e')) as H
    by (rewrite <- Hk, list_lookup_fmap, He'; done).
  rewrite list_lookup_fmap in H. destruct (entries (cache s) !! i) as [e|]; [|done].
  exists e. split; [done|]. by simplify_eq/=.
Qed.

Lemma select_victim_ok D s :
  bc_rep D s ->
  exists i s' e, mcsos_bcache_select_victim devs s = Some (inr i, s') /\
    bc_rep D s' /\ evolves s s' /\
    entries (cache s') !! Z.to_nat i = Some e /\ flushed e.
Proof.
  intros Hs. pose proof (br_count _ _ Hs) as Hc. pose proof (br_length _ _ Hs) as Hlen.
  unfold mcsos_bcache_select_victim. rewrite (proj2 (Z.eqb_neq _ _)) by lia. cbv zeta.
  destruct (first_from _ _ _) as [pass|] eqn:E.
  - apply first_from_Some in E as (_ & Hv & _). set (i := u32 _ mod _) in *.
    assert (0 <= i < entry_count (cache s)) as Hi by (apply Z.mod_pos_bound; lia).
    destruct (lookup_lt_is_Some_2 (entries (cache s)) (Z.to_nat i)) as [e He]; [lia|].
    exists i. eexists _, e. split_all; [reflexivity| |done|done|].
    + apply rep_hand; [done|]. apply u32_bounds.
    + unfold entry_at in Hv. rewrite He in Hv. cbn [default] in Hv. zbool.
      intros Hv2. unfold id in Hv. congruence.
  - clear E. pose proof (Z.mod_pos_bound (clock_hand (cache s)) (entry_count (cache s))) as Hm.
    rewrite (u32_id (_ mod _)) by lia. set (i := _ mod _) in *.
    destruct (lookup_lt_is_Some_2 (entries (cache s)) (Z.to_nat i)) as [e He]; [lia|].
    destruct (flush_entry_ok D (mk_bc (set_hand (cache s) (u32 (i + 1))) (ram s)) i e)
      as (s' & e' & Hf & Hs' & Hev & Hfl & Hes); [|done|].
    { apply rep_hand; [done|]. apply u32_bounds. }
    exists i, s', e'. unfold ebind. rewrite Hf, Hes. split_all; try done.
    apply list_lookup_insert_eq. cbn. lia.
Qed.

(** Giving up an entry that holds nothing unsaved. *)
Lemma clean_evict (es : list mcsos_bcache_entry) i e e' p lba :
  es !! i = Some e -> flushed e -> block_clean (<[i := e']> es) p lba -> block_clean es p lba.
Proof.
  intros He Hf Hc j ej Hj Hk. destruct (decide (j = i)) as [->|Hne].
  - simplify_eq. apply Hf. by apply key_of_Some in Hk as (? & _).
  - apply (Hc j ej); [|done]. by rewrite list_lookup_insert_ne.
Qed.

Definition absent s p lba : Prop :=
  forall i e, entries (cache s) !! i = Some e -> key_of e <> Some (p, lba).

Lemma fill_ok D s p d lba i e :
  bc_rep D s -> entries (cache s) !! Z.to_nat i = Some e -> flushed e -> absent s p lba ->
  devs !! p = Some d -> d_block_size d = bc_block_size (cache s) -> 0 <= lba ->
  exists s', bc_rep D s' /\ bc_block_size (cache s') = bc_block_size (cache s) /\
    if lba <? d_block_count d
    then bcache_fill p d lba i s = Some (inr i, s') /\
         exists e', entries (cache s') !! Z.to_nat i = Some e' /\ key_of e' = Some (p, lba)
    else bcache_fill p d lba i s = Some (inl MCSOS_BLK_ERANGE, s').
Proof.
  intros Hs He Hf Ha Hp Hbs Hl. pose proof (br_entries _ _ Hs) as Hes.
  pose proof (Hes _ _ He) as [Hlen _]. apply lookup_lt_Some in He as Hlt.
  unfold bcache_fill, ebind. rewrite (get_entry_eq s i e He).
  rewrite (disk_read (ram s) p d lba (e_data e)) by (apply Hs || congruence || lia).
  destruct (Z.ltb_spec lba (d_block_count d)) as [Hr|Hr].
  - cbn [fst snd negb MCSOS_BLK_OK Z.eqb default from_option id].
    rewrite mk_bc_eta, (put_entry_eq _ i e) by done. eexists.
    split; [|split; [|split; [reflexivity|]]]; [|done|].
    + assert (in_range p lba) by (by exists d).
      assert (disk_block (ram s) p lba = D p lba) as Hd
        by (apply Hs; [done|]; intros j ej Hj Hk; by destruct (Ha j ej)).
      apply (rep_with_entry D D _ _ e); cbn; try done.
      * split; cbn; [rewrite (disk_block_length _ _ d); [congruence|apply Hs|done|done]|].
        intros _. exists p, d. done.
      * intros j ej _ Hj. by apply (Hes j).
      * intros j ej k _ Hj Hk. rewrite <- Hk. apply not_eq_sym. by apply (Ha j).
      * intros p' lba' Hr' Hc. apply Hs; [done|]. by eapply clean_evict.
    + eexists. cbn. rewrite list_lookup_insert_eq by done. done.
  - cbn [fst snd negb MCSOS_BLK_OK MCSOS_BLK_ERANGE Z.eqb default from_option id].
    rewrite mk_bc_eta, (put_entry_eq _ i e) by done. eexists.
    split; [|split; [|reflexivity]]; [|done].
    apply (rep_with_entry D D _ _ e); cbn; try done.
    + intros j ej _ Hj. by apply (Hes j).
    + intros p' lba' Hr' Hc. apply Hs; [done|]. by eapply clean_evict.
Qed.

(** [upd_contents D p lba b]: [D] with block [lba] of [p] set to [b]. *)
Definition upd_contents D (p lba : Z) (b : list Z) : contents := fun p' lba' =>
  if decide (p' = p /\ lba' = lba) then b else D p' lba'.

(** The entry [mcsos_bcache_write] leaves. *)
Definition dirty_entry (data : list Z) (cap lba p : Z) : mcsos_bcache_entry :=
  mk_entry data cap lba true true (Some p).

Lemma rep_store D s p d lba i e data cap :
  bc_rep D s -> entries (cache s) !! i = Some e ->
  key_of e = Some (p, lba) \/ (flushed e /\ absent s p lba) ->
  devs !! p = Some d -> d_block_size d = bc_block_size (cache s) ->
  0 <= lba < d_block_count d -> length data = Z.to_nat (bc_block_size (cache s)) ->
  bc_rep (upd_contents D p lba data) (with_entry s i (dirty_entry data cap lba p)).
Proof.
  intros Hs He Hk Hp Hbs Hl Hlen. pose proof (br_entries _ _ Hs) as Hes.
  apply lookup_lt_Some in He as Hlt.
  assert (forall j ej, j <> i -> entries (cache s) !! j = Some ej ->
            key_of ej <> Some (p, lba)) as Hoth.
  { intros j ej Hne Hj Hkj. destruct Hk as [Hk|[_ Ha]]; [|by apply (Ha j ej)].
    apply Hne. by apply (br_unique _ _ Hs j i ej e (p, lba)). }
  apply (rep_with_entry D _ s i e); try done.
  - split; [done|]. intros _. exists p, d. split_all; try done; [cbn; lia..|].
    unfold upd_contents; cbn. by rewrite decide_True.
  - intros j ej Hne Hj. destruct (Hes j ej Hj) as [H1 H2]. split; [done|]. intros Hv.
    destruct (H2 Hv) as (p' & d' & Hdev & Hp' & Hbs' & Hl' & Hdata).
    exists p', d'. split_all; try done; [lia..|]. unfold upd_contents.
    rewrite decide_False; [done|]. intros (-> & Heq). apply (Hoth j ej Hne Hj).
    apply key_of_Some. done.
  - intros j ej k Hne Hj Hkj Hkd. apply (Hoth j ej Hne Hj). rewrite Hkj. symmetry. exact Hkd.
  - intros p' lba' Hr Hc. unfold upd_contents.
    rewrite decide_False; last first.
    { intros (-> & ->). specialize (Hc i (dirty_entry data cap lba p)).
      discriminate Hc; [by apply list_lookup_insert_eq|done]. }
    apply Hs; [done|]. destruct Hk as [Hk|[Hf _]]; [|by eapply clean_evict].
    intros j ej Hj Hkj. apply (Hc j ej); [|done].
    rewrite list_lookup_insert_ne; [done|]. intros <-. simplify_eq.
    specialize (Hc i (dirty_entry data cap lba p)).
    discriminate Hc; [by apply list_lookup_insert_eq|done].
Qed.

Section one_block.
Context (p lba : Z) (d : mcsos_blk_device) (s : bc_state).
Context (Hp : devs !! p = Some d) (Hbs : d_block_size d = bc_block_size (cache s)).

(** On a miss the victim becomes available for the block. *)
Lemma victim_for D :
  bc_rep D s -> mcsos_bcache_find (cache s) p lba = None ->
  exists i s' e, mcsos_bcache_select_victim devs s = Some (inr i, s') /\
    bc_rep D s' /\ bc_block_size (cache s') = bc_block_size (cache s) /\
    entries (cache s') !! Z.to_nat i = Some e /\ flushed e /\ absent s' p lba.
Proof.
  intros Hs Hf. destruct (select_victim_ok D s Hs) as (i & s' & e & Hsel & Hs' & Hev & He & Hfl).
  exists i, s', e. split_all; try done; [by destruct Hev as (_ & ? & _)|].
  intros j ej Hj. destruct (evolves_lookup _ _ _ _ Hev Hj) as (e0 & He0 & <-).
  by apply (find_None D s p lba j).
Qed.

Lemma read_entry D s' i e buffer :
  bc_rep D s' -> entries (cache s') !! Z.to_nat i = Some e -> key_of e = Some (p, lba) ->
  bc_block_size (cache s') <= Z.of_nat (length buffer) ->
  (let? e := get_entry i in
   (fun s => let* b := copy_loop (Z.to_nat (bc_block_size (cache s))) buffer (e_data e) in
             eret b s)) s' =
    Some (inr (D p lba ++ drop (Z.to_nat (bc_block_size (cache s'))) buffer), s').
Proof.
  intros Hs He Hk Hl. destruct (br_entries _ _ Hs _ _ He) as [Hlen Hval].
  apply key_of_Some in Hk as (Hv & Hd & <-).
  destruct (Hval Hv) as (p' & d' & Hd' & _ & _ & _ & Hdata). simplify_eq.
  unfold ebind. rewrite (get_entry_eq _ _ _ He), copy_loop_spec by lia.
  rewrite <- Hdata, take_ge by lia. done.
Qed.

Lemma key_in_range D i e :
  bc_rep D s -> entries (cache s) !! i = Some e -> key_of e = Some (p, lba) ->
  0 <= lba < d_block_count d.
Proof.
  intros Hs He (Hv & Hd & <-)%key_of_Some.
  destruct (br_entries _ _ Hs _ _ He) as [_ Hval].
  destruct (Hval Hv) as (p' & d' & Hd' & Hp' & _ & Hr & _). by simplify_eq.
Qed.

Lemma read_ok D buffer :
  bc_rep D s -> 0 <= lba -> bc_block_size (cache s) <= Z.of_nat (length buffer) ->
  exists s', bc_rep D s' /\ bc_block_size (cache s') = bc_block_size (cache s) /\
    mcsos_bcache_read devs (Some p) lba (Some buffer) s =
      Some (if lba <? d_block_count d
            then inr (D p lba ++ drop (Z.to_nat (d_block_size d)) buffer)
            else inl MCSOS_BLK_ERANGE, s').
Proof.
  intros Hs Hl Hlen. unfold mcsos_bcache_read. rewrite Hp, Hbs, Z.eqb_refl. cbn [negb].
  destruct (mcsos_bcache_find (cache s) p lba) as [i|] eqn:E.
  - destruct (find_Some D s p lba i Hs E) as (e & He & Hk & _). exists s.
    pose proof (key_in_range D _ e Hs He Hk). split_all; try done.
    rewrite (proj2 (Z.ltb_lt _ _)) by lia. by apply (read_entry D s i e).
  - destruct (victim_for D Hs E) as (i & s1 & e & Hsel & Hs1 & Hb1 & He & Hfl & Ha).
    destruct (fill_ok D s1 p d lba i e) as (s2 & Hs2 & Hb2 & Hfill); try done; [congruence|].
    exists s2. split_all; [done|congruence|]. unfold ebind at 1 2. rewrite Hsel.
    destruct (lba <? d_block_count d).
    + destruct Hfill as (-> & e2 & He2 & Hk2).
      rewrite (read_entry D s2 i e2) by (done || congruence). congruence.
    + by rewrite Hfill.
Qed.

(** A write ends with the block's entry holding the caller's data, dirty. *)
Lemma write_eq D buffer :
  bc_rep D s -> bc_block_size (cache s) <= Z.of_nat (length buffer) ->
  exists s' i e cap, bc_rep D s' /\ bc_block_size (cache s') = bc_block_size (cache s) /\
    entries (cache s') !! i = Some e /\
    (key_of e = Some (p, lba) \/ (flushed e /\ absent s' p lba)) /\
    mcsos_bcache_write devs (Some p) lba (Some buffer) s =
      Some (inr tt, with_entry s' i
        (dirty_entry (take (Z.to_nat (d_block_size d)) buffer) cap lba p)).
Proof.
  intros Hs Hlen. unfold mcsos_bcache_write. rewrite Hp, Hbs, Z.eqb_refl. cbn [negb].
  assert (forall s' (e : mcsos_bcache_entry), bc_rep D s' -> length (e_data e) = Z.to_nat (bc_block_size (cache s')) ->
    bc_block_size (cache s') = bc_block_size (cache s) ->
    copy_loop (Z.to_nat (bc_block_size (cache s'))) (e_data e) buffer =
      Some (take (Z.to_nat (bc_block_size (cache s))) buffer)) as Hcopy.
  { intros s' e Hs' Hl Hb. rewrite copy_loop_spec, Hb, (drop_ge (e_data e)), app_nil_r by lia.
    done. }
  destruct (mcsos_bcache_find (cache s) p lba) as [i|] eqn:E.
  - destruct (find_Some D s p lba i Hs E) as (e & He & Hk & _).
    exists s, (Z.to_nat i), e, (e_capacity e). split_all; try done; [by left|].
    apply key_of_Some in Hk as (Hv & Hd & Hlba). unfold ebind, eret.
    rewrite (get_entry_eq _ _ _ He), Hcopy; [|done|apply (br_entries _ _ Hs _ _ He)|done].
    by rewrite (put_entry_eq _ _ _ _ He), Hv, Hd, Hlba.
  - destruct (victim_for D Hs E) as (i & s1 & e & Hsel & Hs1 & Hb1 & He & Hfl & Ha).
    exists s1, (Z.to_nat i), e, (e_capacity e). split_all; try done; [by right|].
    unfold bcache_claim, ebind, eret.
    rewrite Hsel, (get_entry_eq _ _ _ He), (put_entry_eq _ _ _ _ He).
    apply lookup_lt_Some in He as Hlt.
    erewrite get_entry_eq by (cbn; by apply list_lookup_insert_eq). cbn [with_entry cache set_entries bc_block_size].
    rewrite Hcopy; [|done| |done]; [|apply (br_entries _ _ Hs1 _ _ He)].
    erewrite put_entry_eq by (cbn; by apply list_lookup_insert_eq).
    unfold with_entry; cbn. by rewrite list_insert_insert_eq.
Qed.

Lemma write_ok D buffer :
  bc_rep D s -> 0 <= lba < d_block_count d ->
  bc_block_size (cache s) <= Z.of_nat (length buffer) ->
  exists s', bc_rep (upd_contents D p lba (take (Z.to_nat (d_block_size d)) buffer)) s' /\
    bc_block_size (cache s') = bc_block_size (cache s) /\
    mcsos_bcache_write devs (Some p) lba (Some buffer) s = Some (inr tt, s').
Proof.
  intros Hs Hl Hlen.
  destruct (write_eq D buffer Hs Hlen) as (s' & i & e & cap & Hs' & Hb & He & Hk & ->).
  eexists. split; [|split; [|reflexivity]]; [|exact Hb].
  apply (rep_store D s' p d lba i e); try done; [congruence|].
  rewrite length_take, Hb, <- Hbs. rewrite <- Hbs in Hlen. lia.
Qed.

End one_block.

(** ** Flushing *)

Definition flushed_below s (n : nat) : Prop :=
  forall j e, (j < n)%nat -> entries (cache s) !! j = Some e -> flushed e.

Lemma flush_loop_ok D s n i :
  bc_rep D s -> (i + n <= length (entries (cache s)))%nat -> flushed_below s i ->
  exists s', flush_loop devs n (Z.of_nat i) s = Some (inr tt, s') /\ bc_rep D s' /\
    evolves s s' /\ length (entries (cache s')) = length (entries (cache s)) /\
    flushed_below s' (i + n).
Proof.
  revert s i. induction n as [|n IH]; intros s i Hs Hlen Hbelow.
  { exists s. rewrite Nat.add_0_r. done. }
  destruct (lookup_lt_is_Some_2 (entries (cache s)) i) as [e He]; [lia|].
  destruct (flush_entry_ok D s (Z.of_nat i) e) as (s1 & e1 & Hf & Hs1 & Hev & Hfl & Hes);
    [done|by rewrite Nat2Z.id|]. rewrite Nat2Z.id in Hes.
  destruct (IH s1 (S i)) as (s2 & Hf2 & Hs2 & Hev2 & Hl2 & Hb2); [done| | |].
  - rewrite Hes, length_insert. lia.
  - intros j ej Hj Hej. rewrite Hes in Hej.
    apply list_lookup_insert_Some in Hej as [(-> & -> & _)|(Hne & Hej)]; [done|].
    apply (Hbelow j); [lia|done].
  - exists s2. cbn [flush_loop]. unfold ebind. rewrite Hf.
    replace (Z.of_nat i + 1) with (Z.of_nat (S i)) by lia. split_all; try done.
    + destruct Hev as (? & ? & ?), Hev2 as (? & ? & ?). unfold evolves. split_all; congruence.
    + by rewrite Hl2, Hes, length_insert.
    + by rewrite Nat.add_succ_r.
Qed.

Lemma flush_all_ok D s :
  bc_rep D s ->
  exists s', mcsos_bcache_flush_all devs s = Some (inr tt, s') /\ bc_rep D s' /\
    bc_block_size (cache s') = bc_block_size (cache s) /\
    (forall i e, entries (cache s') !! i = Some e -> flushed e) /\
    forall p lba, in_range p lba -> disk_block (ram s') p lba = D p lba.
Proof.
  intros Hs. pose proof (br_length _ _ Hs) as Hlen. unfold mcsos_bcache_flush_all.
  destruct (flush_loop_ok D s (Z.to_nat (entry_count (cache s))) 0)
    as (s' & Hf & Hs' & Hev & Hl & Hb); [done|lia|intros j e; lia|].
  assert (forall i e, entries (cache s') !! i = Some e -> flushed e) as Hall.
  { intros i e He. apply (Hb i); [|done]. apply lookup_lt_Some in He. lia. }
  exists s'. split_all; try done; [by destruct Hev as (_ & ? & _)|].
  intros p lba Hr. apply Hs'; [done|]. intros i e He Hk. apply (Hall i e He).
  by apply key_of_Some in Hk as (? & _).
Qed.

(** ** Entries that cannot be flushed *)

(** A flush of another entry does not depend on entry [i]. *)
Lemma flush_entry_frame s j i b s' e :
  entries (cache s) !! j = Some e -> i <> j ->
  mcsos_bcache_flush_entry devs (Z.of_nat j) s = Some (inr tt, s') ->
  mcsos_bcache_flush_entry devs (Z.of_nat j) (with_entry s i b) =
    Some (inr tt, with_entry s' i b).
Proof.
  intros He Hne. unfold mcsos_bcache_flush_entry, ebind.
  rewrite (get_entry_eq s _ e), (get_entry_eq (with_entry s i b) _ e); rewrite ?Nat2Z.id;
    [|by cbn; rewrite list_lookup_insert_ne|done].
  case_if; [by intros [= <-]|]. cbn [with_entry ram cache].
  destruct (deref devs (e_dev e)) as [d|]; [|done].
  destruct (mcsos_blk_write _ _ _ _ _) as [r|]; [|done]. case_if; [done|].
  rewrite (put_entry_eq (mk_bc (cache s) _) _ e) by (by rewrite Nat2Z.id).
  erewrite (put_entry_eq (mk_bc _ _))
    by (cbn; rewrite Nat2Z.id, list_lookup_insert_ne by done; exact He).
  intros [= <-]. unfold with_entry; cbn. rewrite Nat2Z.id.
  by rewrite list_insert_insert_ne by done.
Qed.

(** A valid, dirty entry for a block past the end of its device. *)
Definition stuck_entry e : Prop :=
  exists p d, e_valid e = true /\ e_dirty e = true /\ e_dev e = Some p /\
    devs !! p = Some d /\ d_block_count d <= e_lba e.

Lemma flush_stuck s i e :
  entries (cache s) !! i = Some e -> stuck_entry e ->
  mcsos_bcache_flush_entry devs (Z.of_nat i) s = Some (inl MCSOS_BLK_ERANGE, s).
Proof.
  intros He (p & d & Hv & Hd & Hdev & Hp & Hl). unfold mcsos_bcache_flush_entry, ebind.
  rewrite (get_entry_eq s _ e) by (by rewrite Nat2Z.id). rewrite Hv, Hd, Hdev. cbn [negb orb deref].
  rewrite Hp, (disk_write_range (ram s) p d) by done. cbn. by rewrite mk_bc_eta.
Qed.

(** [poisoned s]: a representing state in which one entry was replaced by an
    entry that cannot be flushed. *)
Definition poisoned s : Prop :=
  exists D s0 i b, bc_rep D s0 /\ (i < length (entries (cache s0)))%nat /\
    stuck_entry b /\ s = with_entry s0 i b.

Lemma flush_loop_stuck D s i b k n :
  bc_rep D s -> (i < length (entries (cache s)))%nat -> stuck_entry b ->
  (n <= i < n + k)%nat ->
  exists s', flush_loop devs k (Z.of_nat n) (with_entry s i b) =
      Some (inl MCSOS_BLK_ERANGE, with_entry s' i b) /\
    bc_rep D s' /\ (i < length (entries (cache s')))%nat /\
    forall j, (i < j)%nat -> entries (cache s') !! j = entries (cache s) !! j.
Proof.
  revert s n. induction k as [|k IH]; intros s n Hs Hi Hb Hn; [lia|]. cbn [flush_loop].
  unfold ebind. destruct (decide (n = i)) as [->|Hne].
  - exists s. rewrite (flush_stuck _ i b); [done| |done].
    cbn. by apply list_lookup_insert_eq.
  - destruct (lookup_lt_is_Some_2 (entries (cache s)) n) as [e He]; [lia|].
    destruct (flush_entry_ok D s (Z.of_nat n) e) as (s1 & e1 & Hf & Hs1 & Hev & Hfl & Hes);
      [done|by rewrite Nat2Z.id|]. rewrite Nat2Z.id in Hes.
    rewrite (flush_entry_frame s n i b s1 e) by done.
    replace (Z.of_nat n + 1) with (Z.of_nat (S n)) by lia.
    destruct (IH s1 (S n)) as (s2 & Hl2 & Hs2 & Hi2 & Hj2);
      [done|by rewrite Hes, length_insert|done|lia|].
    exists s2. split_all; try done. intros j Hj.
    rewrite Hj2, Hes, list_lookup_insert_ne by lia. done.
Qed.

(** A poisoned cache can no longer be flushed, and the entries behind the
    stuck one are never written. *)
Lemma flush_all_poisoned s :
  poisoned s ->
  exists s', mcsos_bcache_flush_all devs s = Some (inl MCSOS_BLK_ERANGE, s') /\ poisoned s'.
Proof.
  intros (D & s0 & i & b & Hs & Hi & Hb & ->). pose proof (br_length _ _ Hs).
  destruct (flush_loop_stuck D s0 i b (Z.to_nat (entry_count (cache s0))) 0)
    as (s' & Hf & Hs' & Hi' & _); [done..|lia|].
  exists (with_entry s' i b). split; [exact Hf|]. by exists D, s', i, b.
Qed.

End cache.

(** ** Initialisation *)

Definition fresh (bs : nat) (e : mcsos_bcache_entry) : Prop :=
  e_valid e = false /\ length (e_data e) = bs.

Lemma init_loop_spec n i pool bs es :
  (i + n <= length es)%nat -> ((i + n) * Z.to_nat bs <= length pool)%nat ->
  (forall j e, (j < i)%nat -> es !! j = Some e -> fresh (Z.to_nat bs) e) ->
  exists es', init_loop n i pool bs es = Some es' /\ length es' = length es /\
    forall j e, (j < i + n)%nat -> es' !! j = Some e -> fresh (Z.to_nat bs) e.
Proof.
  revert i es. induction n as [|n IH]; intros i es Hl Hp Hf.
  { exists es. rewrite Nat.add_0_r. done. }
  cbn [init_loop]. destruct (lookup_lt_is_Some_2 es i) as [e He]; [lia|]. rewrite He.
  rewrite Nat.add_succ_r, <- Nat.add_succ_l in *.
  set (es1 := <[i := _]> es).
  assert (length es1 = length es) as Hl1 by apply length_insert. rewrite <- Hl1.
  apply IH; [lia|done|]. intros j ej Hj Hej.
  apply list_lookup_insert_Some in Hej as [(-> & <- & _)|(Hne & Hej)].
  - split; [done|]. cbn. apply length_sub. nia.
  - apply (Hf j); [lia|done].
Qed.

Lemma init_rep devs `{!BlkView devs} es count pool bs r :
  disk_ok r -> 0 < count < 2 ^ 32 -> 0 < bs -> Z.of_nat (length es) = count ->
  count * bs <= Z.of_nat (length pool) ->
  exists c, mcsos_bcache_init (Some es) count (Some pool) bs = Some (inr c) /\
    bc_block_size c = bs /\ bc_rep devs (disk_block r) (mk_bc c r).
Proof.
  intros Hr Hc Hb Hl Hp. unfold mcsos_bcache_init.
  rewrite !(proj2 (Z.eqb_neq _ _)) by lia. cbn [orb].
  destruct (init_loop_spec (Z.to_nat count) 0 pool bs es) as (es' & -> & Hl' & Hf);
    [lia|nia|intros j e; lia|].
  assert (forall i e, es' !! i = Some e -> fresh (Z.to_nat bs) e) as Hall.
  { intros i e He. apply (Hf i); [|done]. apply lookup_lt_Some in He. lia. }
  eexists. split_all; [reflexivity|done|]. split; cbn; try done; [lia| |].
  - intros i e He. destruct (Hall i e He) as [Hv Hlen]. split; [done|]. by rewrite Hv.
  - intros i j ei ej [p lba] Hi Hj (Hv & _)%key_of_Some.
    destruct (Hall i ei Hi). congruence.
Qed.
