(* ===== verification/BlockTheorems.v ===== *)
(** * Block layer: theorems

    The requests on a RAM disk and their exact results; the cache as a
    refinement of uncached devices, for every sequence of calls; what
    [mcsos_bcache_flush_all] makes durable, and the writes it can never make
    durable. *)
From S2P Require Import Prelude Block BlockFacts.

(** ** RAM disks *)

(** C30: a device set up by [mcsos_ramblk_init] serves requests exactly.  For
    every 64-bit block number and 32-bit count, and a buffer that holds
    [count] blocks, [mcsos_blk_read] and [mcsos_blk_write] return [EINVAL] for
    an empty request, [ERANGE] exactly when the request reaches past the last
    block (also when [lba + count] exceeds 64 bits), and otherwise transfer
    exactly the requested bytes without leaving the storage or the buffer;
    a read of what was just written returns it. *)
Theorem ramblk_requests_exact dev p name st size bs d rb r lba count buf :
  0 <= size < 2 ^ 64 -> 0 <= bs < 2 ^ 32 -> Z.of_nat (length st) = size ->
  mcsos_ramblk_init (Some dev) (Some p) (Some name) (Some st) size bs = inr (d, rb) ->
  r !! p = Some rb -> 0 <= lba < 2 ^ 64 -> 0 <= count < 2 ^ 32 ->
  count * bs <= Z.of_nat (length buf) ->
  let n := Z.to_nat (count * bs) in
  let off := Z.to_nat (lba * bs) in
  let bad := if count =? 0 then Some MCSOS_BLK_EINVAL
             else if lba + count <=? size / bs then None else Some MCSOS_BLK_ERANGE in
  let disk := mk_ramblk (splice off (take n buf) st) size in
  mcsos_blk_read (Some d) lba count (Some buf) r =
    Some (match bad with
          | Some rc => (rc, Some buf, r)
          | None => (MCSOS_BLK_OK, Some (sub off n st ++ drop n buf), r)
          end) /\
  mcsos_blk_write (Some d) lba count (Some buf) r =
    Some (match bad with
          | Some rc => (rc, Some buf, r)
          | None => (MCSOS_BLK_OK, Some buf, <[p := disk]> r)
          end) /\
  (bad = None -> forall buf', length buf' = n ->
     mcsos_blk_read (Some d) lba count (Some buf') (<[p := disk]> r) =
       Some (MCSOS_BLK_OK, Some (take n buf), <[p := disk]> r)).
Proof.
  intros Hs Hb Hl Hi Hr Hlba Hc Hbuf n off bad disk.
  assert (ram_device d p rb) as Hd by (by apply (ramblk_init_device dev p name st size bs)).
  assert (d_block_size d = bs /\ d_block_count d = size / bs /\ rb = mk_ramblk st size)
    as (Hds & Hdc & ->).
  { unfold mcsos_ramblk_init in Hi. case_if_in Hi; [done|]. case_if_in Hi; [done|].
    by simplify_eq. }
  rewrite (ram_read_spec r d p _ Hr Hd), (ram_write_spec r d p _ Hr Hd), Hds, Hdc by lia.
  subst bad. destruct (Z.eqb_spec count 0) as [->|Hc0]; [done|].
  destruct (Z.leb_spec (lba + count) (size / bs)) as [Hle|Hle]; [|done].
  split_all; try done. intros _ buf' Hbuf'.
  pose proof (request_bounds d p _ Hd lba count) as Hbd. cbn in Hbd.
  assert (ram_device d p disk) as Hd'.
  { destruct Hd as (? & ? & ? & ? & ? & ? & ?). unfold ram_device; split_all; try done; try lia.
    subst disk; cbn in *. rewrite length_splice; [lia|]. rewrite length_take. lia. }
  rewrite (ram_read_spec _ d p disk) by (done || apply lookup_insert_eq || lia).
  rewrite Hds, Hdc, (proj2 (Z.leb_le _ _)), (proj2 (Z.eqb_neq _ _)) by lia.
  rewrite (drop_ge buf'), app_nil_r by (subst n; lia). subst disk. unfold blocks; cbn.
  rewrite sub_splice_same; [done|rewrite length_take; lia|rewrite length_take; lia].
Qed.

(** ** The cache *)

(** Calls of a client of the cache. *)
Inductive bc_op :=
  | BRead (p lba : Z) (buffer : list Z)
  | BWrite (p lba : Z) (buffer : list Z)
  | BFlushAll.

Section runs.
Context (devs : gmap Z mcsos_blk_device).

Definition run_op (op : bc_op) : bc (list Z) :=
  match op with
  | BRead p lba buffer => mcsos_bcache_read devs (Some p) lba (Some buffer)
  | BWrite p lba buffer => mcsos_bcache_write devs (Some p) lba (Some buffer) ;? eret []
  | BFlushAll => mcsos_bcache_flush_all devs ;? eret []
  end.

(** The results of the calls, an error code or the caller's buffer, in
    order. *)
Fixpoint run_ops (ops : list bc_op) (s : bc_state) : option (list (Z + list Z) * bc_state) :=
  match ops with
  | [] => Some ([], s)
  | op :: ops =>
      let* x := run_op op s in
      let* y := run_ops ops x.2 in
      Some (x.1 :: y.1, y.2)
  end.

(** The same calls on uncached devices with the contents [D]. *)
Definition spec_op (op : bc_op) (D : Z -> Z -> list Z) : (Z + list Z) * (Z -> Z -> list Z) :=
  match op with
  | BRead p lba buffer =>
      match devs !! p with
      | Some d =>
          (if lba <? d_block_count d
           then inr (D p lba ++ drop (Z.to_nat (d_block_size d)) buffer)
           else inl MCSOS_BLK_ERANGE, D)
      | None => (inl MCSOS_BLK_EINVAL, D)
      end
  | BWrite p lba buffer =>
      match devs !! p with
      | Some d => (inr [], upd_contents D p lba (take (Z.to_nat (d_block_size d)) buffer))
      | None => (inl MCSOS_BLK_EINVAL, D)
      end
  | BFlushAll => (inr [], D)
  end.

Fixpoint spec_ops (ops : list bc_op) (D : Z -> Z -> list Z)
    : list (Z + list Z) * (Z -> Z -> list Z) :=
  match ops with
  | [] => ([], D)
  | op :: ops =>
      let x := spec_op op D in
      let y := spec_ops ops x.2 in
      (x.1 :: y.1, y.2)
  end.

(** The calls of a client: existing devices of the cache's block size,
    buffers that hold a block, and writes inside the device. *)
Definition op_ok (bs : Z) (op : bc_op) : Prop :=
  match op with
  | BRead p lba buffer => exists d, devs !! p = Some d /\ d_block_size d = bs /\ 0 <= lba /\
      bs <= Z.of_nat (length buffer)
  | BWrite p lba buffer => exists d, devs !! p = Some d /\ d_block_size d = bs /\
      0 <= lba < d_block_count d /\ bs <= Z.of_nat (length buffer)
  | BFlushAll => True
  end.

Lemma run_op_ok `{!BlkView devs, !BlkDisk devs} D s op :
  bc_rep devs D s -> op_ok (bc_block_size (cache s)) op ->
  exists s', run_op op s = Some ((spec_op op D).1, s') /\
    bc_rep devs (spec_op op D).2 s' /\ bc_block_size (cache s') = bc_block_size (cache s).
Proof.
  intros Hs Hop. destruct op as [p lba buffer|p lba buffer|]; cbn [run_op spec_op op_ok] in *.
  - destruct Hop as (d & Hp & Hbs & Hl & Hlen). rewrite Hp.
    destruct (read_ok devs p lba d s Hp Hbs D buffer) as (s' & Hs' & Hb & Hr); [done..|].
    by exists s'.
  - destruct Hop as (d & Hp & Hbs & Hl & Hlen). rewrite Hp.
    destruct (write_ok devs p lba d s Hp Hbs D buffer) as (s' & Hs' & Hb & Hr); [done..|].
    exists s'. unfold ebind. by rewrite Hr.
  - destruct (flush_all_ok devs D s Hs) as (s' & Hf & Hs' & Hb & _).
    exists s'. unfold ebind. by rewrite Hf.
Qed.

Lemma run_ops_ok `{!BlkView devs, !BlkDisk devs} ops : forall D s,
  bc_rep devs D s -> Forall (op_ok (bc_block_size (cache s))) ops ->
  exists s', run_ops ops s = Some ((spec_ops ops D).1, s') /\
    bc_rep devs (spec_ops ops D).2 s' /\ bc_block_size (cache s') = bc_block_size (cache s).
Proof.
  induction ops as [|op ops IH]; intros D s Hs Hops; [by exists s|].
  inversion Hops as [|? ? Hop Hrest]; subst.
  destruct (run_op_ok D s op Hs Hop) as (s1 & H1 & Hs1 & Hb1).
  destruct (IH (spec_op op D).2 s1 Hs1) as (s2 & H2 & Hs2 & Hb2); [by rewrite Hb1|].
  exists s2. cbn [run_ops spec_ops]. rewrite H1. cbn [fst snd]. rewrite H2.
  split_all; [done..|congruence].
Qed.

(** [n] calls of [mcsos_bcache_flush_all] in a row, and their statuses. *)
Fixpoint flush_times (n : nat) (s : bc_state) : option (list Z) :=
  match n with
  | O => Some []
  | S n =>
      let* x := mcsos_bcache_flush_all devs s in
      let* l := flush_times n x.2 in
      Some (match x.1 with inl rc => rc | inr _ => MCSOS_BLK_OK end :: l)
  end.

Lemma flush_times_poisoned `{!BlkView devs, !BlkDisk devs} n s :
  poisoned devs s -> flush_times n s = Some (replicate n MCSOS_BLK_ERANGE).
Proof.
  revert s. induction n as [|n IH]; intros s Hs; [done|]. cbn [flush_times].
  destruct (flush_all_poisoned devs s Hs) as (s' & Hf & Hs').
  rewrite Hf. cbn [fst snd]. by rewrite IH.
Qed.

End runs.

(** A cache just initialised over RAM disks. *)
Record cache_setup (devs : gmap Z mcsos_blk_device) (r : ram_map)
    (es : list mcsos_bcache_entry) (count : Z) (pool : list Z) (bs : Z) : Prop := {
  cs_devices : ram_devices devs;
  cs_ram : ram_ok devs r;
  cs_count : 0 < count < 2 ^ 32;
  cs_size : 0 < bs;
  cs_entries : Z.of_nat (length es) = count;
  cs_pool : count * bs <= Z.of_nat (length pool)
}.

Lemma setup_run devs r es count pool bs ops :
  cache_setup devs r es count pool bs -> Forall (op_ok devs bs) ops ->
  exists (view : BlkView devs) c s', BlkDisk devs /\
    (forall r p lba, disk_block r p lba = ram_block devs r p lba) /\
    mcsos_bcache_init (Some es) count (Some pool) bs = Some (inr c) /\
    run_ops devs ops (mk_bc c r) = Some ((spec_ops devs ops (ram_block devs r)).1, s') /\
    bc_rep devs (spec_ops devs ops (ram_block devs r)).2 s' /\
    bc_block_size (cache s') = bs.
Proof.
  intros [Hd Hr Hc Hs He Hp] Hops. pose (view := ram_view devs Hd).
  pose proof (ramblk_disk devs Hd : BlkDisk devs) as disk.
  destruct (init_rep devs es count pool bs r) as (c & Hi & Hb & Hrep); [done..|].
  destruct (run_ops_ok devs ops _ _ Hrep) as (s' & Hrun & Hrep' & Hb');
    [by cbn; rewrite Hb|].
  exists view, c, s'. split_all; try done. by rewrite Hb', <- Hb.
Qed.

(** C6: the cache is transparent.  After [mcsos_bcache_init] over RAM disks,
    for every sequence of reads, in-range writes and flushes, every call
    succeeds or fails exactly as on uncached devices, and every read returns
    the contents the devices would have without the cache, whatever was
    evicted, written back or still dirty in between. *)
Theorem bcache_refines_disk devs r es count pool bs ops :
  cache_setup devs r es count pool bs -> Forall (op_ok devs bs) ops ->
  exists c s', mcsos_bcache_init (Some es) count (Some pool) bs = Some (inr c) /\
    run_ops devs ops (mk_bc c r) = Some ((spec_ops devs ops (ram_block devs r)).1, s').
Proof.
  intros Hs Hops. destruct (setup_run _ _ _ _ _ _ _ Hs Hops) as (_ & c & s' & _ & _ & H1 & H2 & _).
  by exists c, s'.
Qed.

(** C22: [mcsos_bcache_flush_all] makes the writes durable.  After any such
    sequence of calls it succeeds, leaves no dirty entry, and every block of
    every device holds the last data written to it. *)
Theorem bcache_flush_all_durable devs r es count pool bs ops :
  cache_setup devs r es count pool bs -> Forall (op_ok devs bs) ops ->
  exists c res s1 s2, mcsos_bcache_init (Some es) count (Some pool) bs = Some (inr c) /\
    run_ops devs ops (mk_bc c r) = Some (res, s1) /\
    mcsos_bcache_flush_all devs s1 = Some (inr tt, s2) /\
    (forall e, e ∈ entries (cache s2) -> e_valid e = true -> e_dirty e = false) /\
    forall p d lba, devs !! p = Some d -> 0 <= lba < d_block_count d ->
      ram_block devs (ram s2) p lba = (spec_ops devs ops (ram_block devs r)).2 p lba.
Proof.
  intros Hs Hops.
  destruct (setup_run _ _ _ _ _ _ _ Hs Hops) as (view & c & s1 & disk & Hd & Hi & Hr & Hrep & _).
  destruct (flush_all_ok devs _ s1 Hrep) as (s2 & Hf & _ & _ & Hcl & Hblk).
  eexists c, _, s1, s2. split_all; [done..| |].
  - intros e (i & He)%list_elem_of_lookup. by apply (Hcl i).
  - intros p d lba Hp Hl. rewrite <- Hd. apply Hblk. by exists d.
Qed.

(** A write past the end of a device is accepted and can never be
    flushed.  [mcsos_bcache_write] does not check the block number: after any
    sequence of calls it returns OK for a block past the last one, and from
    then on every [mcsos_bcache_flush_all] stops at that entry with
    [ERANGE]. *)
Theorem bcache_write_past_end devs r es count pool bs ops p d lba buffer n :
  cache_setup devs r es count pool bs -> Forall (op_ok devs bs) ops ->
  devs !! p = Some d -> d_block_size d = bs -> d_block_count d <= lba ->
  bs <= Z.of_nat (length buffer) ->
  exists c res s1 s2, mcsos_bcache_init (Some es) count (Some pool) bs = Some (inr c) /\
    run_ops devs ops (mk_bc c r) = Some (res, s1) /\
    mcsos_bcache_write devs (Some p) lba (Some buffer) s1 = Some (inr tt, s2) /\
    flush_times devs n s2 = Some (replicate n MCSOS_BLK_ERANGE).
Proof.
  intros Hs Hops Hp Hbs Hl Hb.
  destruct (setup_run _ _ _ _ _ _ _ Hs Hops) as (view & c & s1 & disk & _ & Hi & Hr & Hrep & Hsz).
  destruct (write_eq devs p lba d s1 Hp) with (D := (spec_ops devs ops (ram_block devs r)).2)
    (buffer := buffer) as (s' & i & e & cap & Hs' & _ & He & _ & Hw); [congruence|done|lia|].
  eexists c, _, s1, _. split; [done|]. split; [done|]. split; [exact Hw|].
  apply (flush_times_poisoned devs). do 4 eexists. split_all; [exact Hs'| | |reflexivity].
  - by apply lookup_lt_Some in He.
  - by exists p, d.
Qed.

(** ** Concrete instances *)

Definition dev0 : mcsos_blk_device := mk_blk_device (replicate 16 0) 0 0 0 None None.
Definition disk0 : mcsos_ramblk := mk_ramblk (replicate 1024 0) 1024.
Definition ram0 : mcsos_blk_device :=
  mk_blk_device (mcsos_copy_name (replicate 16 0) (Some [114; 48])) 512 2 0
    (Some g_ramblk_ops) (Some 9).
Definition devs0 : gmap Z mcsos_blk_device := {[ 1 := ram0 ]}.
Definition r0 : ram_map := {[ 9 := disk0 ]}.

Lemma ram_devices0 : ram_devices devs0.
Proof.
  split.
  - unfold devs0. intros p d (<- & <-)%lookup_singleton_Some. cbn. split_all; done || lia.
  - unfold devs0. intros p1 p2 d1 d2 (<- & _)%lookup_singleton_Some (<- & _)%lookup_singleton_Some. done.
Qed.

Lemma ram_ok0 : ram_ok devs0 r0.
Proof.
  unfold ram_ok, devs0. intros p d (<- & <-)%lookup_singleton_Some. exists 9, disk0.
  split; [apply lookup_singleton_eq|]. unfold ram_device. split_all; try done.
Qed.

Lemma setup0 : cache_setup devs0 r0 [blank_entry; blank_entry] 2 (replicate 1024 0) 512.
Proof. split; try done; [apply ram_devices0|apply ram_ok0]. Qed.

Definition ops0 : list bc_op :=
  [BWrite 1 0 (replicate 512 7); BRead 1 1 (replicate 512 3); BRead 1 5 (replicate 512 3);
   BFlushAll; BRead 1 0 (replicate 512 3)].

Lemma ops_ok0 : Forall (op_ok devs0 512) ops0.
Proof. repeat constructor; exists ram0; split_all; done. Qed.

Lemma ramblk_init0 :
  mcsos_ramblk_init (Some dev0) (Some 9) (Some [114; 48]) (Some (replicate 1024 0)) 1024 512 =
    inr (ram0, disk0).
Proof.
  unfold mcsos_ramblk_init. case_if; [vm_compute in Hif; discriminate|].
  case_if; [vm_compute in Hif0; discriminate|]. reflexivity.
Qed.

Lemma ramblk_requests_exact_witness :
  mcsos_blk_read (Some ram0) 1 1 (Some (replicate 512 7)) r0 =
    Some (MCSOS_BLK_OK, Some (replicate 512 0), r0).
Proof.
  pose proof (ramblk_requests_exact dev0 9 [114; 48] (replicate 1024 0) 1024 512 ram0 disk0 r0
    1 1 (replicate 512 7)) as H.
  etransitivity; [apply H|vm_compute; reflexivity].
  - vm_compute. split; [discriminate|reflexivity].
  - vm_compute. split; [discriminate|reflexivity].
  - vm_compute. reflexivity.
  - apply ramblk_init0.
  - apply lookup_singleton_eq.
  - vm_compute. split; [discriminate|reflexivity].
  - vm_compute. split; [discriminate|reflexivity].
  - vm_compute. discriminate.
Defined.

Lemma bcache_refines_disk_witness :
  exists c s', mcsos_bcache_init (Some [blank_entry; blank_entry]) 2
      (Some (replicate 1024 0)) 512 = Some (inr c) /\
    run_ops devs0 ops0 (mk_bc c r0) =
      Some ([inr []; inr (replicate 512 0); inl MCSOS_BLK_ERANGE; inr [];
             inr (replicate 512 7)], s').
Proof.
  destruct (bcache_refines_disk devs0 r0 _ _ _ _ ops0 setup0 ops_ok0) as (c & s' & Hi & Hr).
  exists c, s'. split; [exact Hi|]. etransitivity; [exact Hr|]. vm_compute. reflexivity.
Defined.

Lemma bcache_flush_all_durable_witness :
  exists s2, ram_block devs0 (ram s2) 1 0 = replicate 512 7.
Proof.
  destruct (bcache_flush_all_durable devs0 r0 _ _ _ _ ops0 setup0 ops_ok0)
    as (c & res & s1 & s2 & _ & _ & _ & _ & H).
  exists s2. etransitivity; [apply (H 1 ram0 0); [reflexivity|vm_compute; split; [discriminate|reflexivity]]|].
  vm_compute. reflexivity.
Defined.

Lemma bcache_write_past_end_witness :
  exists s1 s2,
    mcsos_bcache_write devs0 (Some 1) 2 (Some (replicate 512 7)) s1 = Some (inr tt, s2) /\
    flush_times devs0 3 s2 = Some [MCSOS_BLK_ERANGE; MCSOS_BLK_ERANGE; MCSOS_BLK_ERANGE].
Proof.
  destruct (bcache_write_past_end devs0 r0 _ _ _ _ ops0 1 ram0 2 (replicate 512 7) 3 setup0 ops_ok0)
    as (c & res & s1 & s2 & _ & _ & Hw & Hf); [reflexivity|reflexivity|done|done|].
  exists s1, s2. split; [exact Hw|exact Hf].
Defined.
