(* ===== verification/BlockFault.v ===== *)
(** * Block layer: the cache over devices that fail

    [FlakyDisk]: a request may fail at any time; a write that fails changes
    nothing, a read that fails may leave anything in the buffer.  The cache
    then never loses data: a read returns the last data a write accepted, or
    an error, and a flush that succeeds has stored everything. *)
From S2P Require Import Prelude Block BlockFacts BlockTheorems.

Section interface.
Context (devs : gmap Z mcsos_blk_device) `{!BlkView devs}.

Definition same_disk (r r' : ram_map) : Prop :=
  disk_ok r' /\ forall p d lba, devs !! p = Some d -> 0 <= lba < d_block_count d ->
    disk_block r' p lba = disk_block r p lba.

Class FlakyDisk : Prop := {
  flaky_read r p d lba buf : disk_ok r -> devs !! p = Some d -> 0 <= lba ->
    length buf = Z.to_nat (d_block_size d) ->
    exists st b r', mcsos_blk_read (Some d) lba 1 (Some buf) r = Some (st, Some b, r') /\
      same_disk r r' /\ length b = length buf /\
      (st = MCSOS_BLK_OK -> lba < d_block_count d /\ b = disk_block r p lba);
  flaky_write r p d lba buf : disk_ok r -> devs !! p = Some d ->
    0 <= lba < d_block_count d -> length buf = Z.to_nat (d_block_size d) ->
    exists st b r', mcsos_blk_write (Some d) lba 1 (Some buf) r = Some (st, b, r') /\
      disk_ok r' /\
      forall p' d' lba', devs !! p' = Some d' -> 0 <= lba' < d_block_count d' ->
        disk_block r' p' lba' =
          if decide (st = MCSOS_BLK_OK /\ p' = p /\ lba' = lba) then buf else disk_block r p' lba'
}.

(** A reliable device is one. *)
#[export] Instance reliable_flaky : BlkDisk devs -> FlakyDisk.
Proof.
  intros disk. split.
  - intros r p d lba buf Hr Hp Hl Hb. rewrite (disk_read r p d lba buf) by done.
    destruct (Z.ltb_spec lba (d_block_count d)) as [Hlt|Hge].
    + do 3 eexists. split; [reflexivity|]. split_all; try done.
      rewrite (disk_block_length r p d) by (done || lia). done.
    + do 3 eexists. split; [reflexivity|]. by split_all.
  - intros r p d lba buf Hr Hp Hl Hb.
    destruct (disk_write r p d lba buf Hr Hp Hl Hb) as (r' & E & Hok & Hw).
    do 3 eexists. split; [exact E|]. split; [done|]. intros p' d' lba' Hp' Hl'.
    rewrite (Hw p' d') by done. apply decide_ext. naive_solver.
Qed.
End interface.

Section cache.
Context (devs : gmap Z mcsos_blk_device) `{!BlkView devs, !FlakyDisk devs}.
Implicit Types (D : Z -> Z -> list Z) (s : bc_state) (e : mcsos_bcache_entry).

Lemma rep_same_disk D s r' :
  bc_rep devs D s -> same_disk devs (ram s) r' -> bc_rep devs D (mk_bc (cache s) r').
Proof.
  intros [H1 H2 H3 H4 H5 H6 H7] [Hok Hsame]. split; cbn; try done.
  intros p lba Hr Hc. rewrite <- (H7 p lba Hr Hc). destruct Hr as (d & Hp & Hl). by apply (Hsame p d).
Qed.

(** A flush that fails keeps the entry dirty. *)
Lemma flaky_flush_entry D s i e :
  bc_rep devs D s -> entries (cache s) !! Z.to_nat i = Some e ->
  exists x s', mcsos_bcache_flush_entry devs i s = Some (x, s') /\
    bc_rep devs D s' /\ evolves s s' /\
    match x with
    | inr _ => exists e', flushed e' /\ entries (cache s') = <[Z.to_nat i := e']> (entries (cache s))
    | inl _ => entries (cache s') = entries (cache s)
    end.
Proof.
  intros Hs He. unfold mcsos_bcache_flush_entry, ebind.
  rewrite (get_entry_eq s i e He). case_if.
  - exists (inr tt), s. split_all; try done. exists e. split; [|by rewrite list_insert_id].
    intros Hv. rewrite Hv in Hif. by destruct (e_dirty e).
  - zbool. destruct (br_entries _ _ _ Hs _ _ He) as [Hlen Hval].
    destruct Hval as (p & d & Hp & Hd & Hbs & Hl & Hdata); [done|].
    rewrite Hp. cbn [deref]. rewrite Hd.
    destruct (flaky_write devs (ram s) p d (e_lba e) (e_data e)) as (st & b & r' & Hw & Hok & Hb);
      [apply Hs|done|done|by rewrite Hbs|].
    rewrite Hw. cbn [fst snd]. destruct (Z.eqb_spec st MCSOS_BLK_OK) as [->|Hst]; cbn [negb].
    + rewrite (put_entry_eq (mk_bc (cache s) r') i e) by done.
      eexists (inr tt), _. rewrite <- Hp.
      split_all; [reflexivity| |by apply (evolves_with_entry s _ e)|by exists (mark_clean e)].
      apply (rep_mark_clean devs D (mk_bc (cache s) r')); [|done|].
      * apply (rep_writeback devs D s p (e_lba e)); [done..|]. intros p' d' lba' Hp' Hl'.
        rewrite (Hb p' d') by done. rewrite <- Hdata. apply decide_ext. naive_solver.
      * intros p' lba' (d' & Hp' & Hl') (_ & Hdev & <-)%key_of_Some. cbn.
        assert (p' = p) as -> by congruence.
        rewrite (Hb p d') by done. by rewrite decide_True.
    + eexists (inl st), _. split_all; [reflexivity| |done|done].
      apply rep_same_disk; [done|]. split; [done|]. intros p' d' lba' Hp' Hl'.
      rewrite (Hb p' d') by done. by rewrite decide_False by tauto.
Qed.

Lemma flaky_victim D s :
  bc_rep devs D s ->
  exists x s', mcsos_bcache_select_victim devs s = Some (x, s') /\
    bc_rep devs D s' /\ evolves s s' /\
    forall i, x = inr i -> exists e, entries (cache s') !! Z.to_nat i = Some e /\ flushed e.
Proof.
  intros Hs. pose proof (br_count _ _ _ Hs) as Hc. pose proof (br_length _ _ _ Hs) as Hlen.
  unfold mcsos_bcache_select_victim. rewrite (proj2 (Z.eqb_neq _ _)) by lia. cbv zeta.
  destruct (first_from _ _ _) as [pass|] eqn:E.
  - apply first_from_Some in E as (_ & Hv & _). set (i := u32 _ mod _) in *.
    assert (0 <= i < entry_count (cache s)) as Hi by (apply Z.mod_pos_bound; lia).
    destruct (lookup_lt_is_Some_2 (entries (cache s)) (Z.to_nat i)) as [e He]; [lia|].
    exists (inr i). eexists. split_all; [reflexivity| |done|].
    + apply rep_hand; [done|]. apply u32_bounds.
    + intros ? [= <-]. exists e. split; [done|]. unfold entry_at in Hv. rewrite He in Hv.
      cbn [default] in Hv. zbool. intros Hv2. unfold id in Hv. congruence.
  - clear E. pose proof (Z.mod_pos_bound (clock_hand (cache s)) (entry_count (cache s))) as Hm.
    rewrite (u32_id (_ mod _)) by lia. set (i := _ mod _) in *.
    destruct (lookup_lt_is_Some_2 (entries (cache s)) (Z.to_nat i)) as [e He]; [lia|].
    destruct (flaky_flush_entry D (mk_bc (set_hand (cache s) (u32 (i + 1))) (ram s)) i e)
      as (x & s' & Hf & Hs' & Hev & Hx); [|done|].
    { apply rep_hand; [done|]. apply u32_bounds. }
    unfold ebind. rewrite Hf. destruct x as [rc|[]].
    + exists (inl rc), s'. by split_all.
    + destruct Hx as (e' & Hfl & Hes). exists (inr i), s'. split_all; try done.
      intros ? [= <-]. exists e'. split; [|done]. rewrite Hes. apply list_lookup_insert_eq. cbn. lia.
Qed.

(** A read that fails gives the entry up; it held nothing unsaved. *)
Lemma flaky_fill D s p d lba i e :
  bc_rep devs D s -> entries (cache s) !! Z.to_nat i = Some e -> flushed e -> absent s p lba ->
  devs !! p = Some d -> d_block_size d = bc_block_size (cache s) -> 0 <= lba ->
  exists x s', bcache_fill p d lba i s = Some (x, s') /\ bc_rep devs D s' /\
    bc_block_size (cache s') = bc_block_size (cache s) /\
    forall k, x = inr k -> k = i /\ lba < d_block_count d /\
      exists e', entries (cache s') !! Z.to_nat i = Some e' /\ key_of e' = Some (p, lba).
Proof.
  intros Hs He Hf Ha Hp Hbs Hl. pose proof (br_entries _ _ _ Hs) as Hes.
  pose proof (Hes _ _ He) as [Hlen _]. apply lookup_lt_Some in He as Hlt.
  unfold bcache_fill, ebind. rewrite (get_entry_eq s i e He).
  destruct (flaky_read devs (ram s) p d lba (e_data e)) as (st & b & r' & E & Hsame & Hb & Hst);
    [apply Hs|done|done|congruence|].
  rewrite E. cbn [fst snd default from_option id].
  pose proof (rep_same_disk D s r' Hs Hsame) as Hs1.
  destruct (Z.eqb_spec st MCSOS_BLK_OK) as [->|Hne]; cbn [negb].
  - destruct (Hst eq_refl) as [Hr ->]. rewrite (put_entry_eq _ i e) by done.
    eexists (inr i), _. split; [reflexivity|]. split; [|split; [done|]].
    + assert (in_range devs p lba) by (by exists d).
      assert (disk_block (ram s) p lba = D p lba) as Hd
        by (apply Hs; [done|]; intros j ej Hj Hk; by destruct (Ha j ej)).
      apply (rep_with_entry devs D D _ _ e); cbn; try done.
      * split; cbn; [rewrite Hb; congruence|]. intros _. by exists p, d.
      * intros j ej _ Hj. by apply (Hes j).
      * intros j ej k _ Hj Hk. rewrite <- Hk. apply not_eq_sym. by apply (Ha j).
      * intros p' lba' Hr' Hc. apply Hs1; [done|]. by eapply clean_evict.
    + intros k [= <-]. split_all; try done. eexists. cbn. rewrite list_lookup_insert_eq by done. done.
  - rewrite (put_entry_eq _ i e) by done.
    eexists (inl st), _. split; [reflexivity|]. split; [|split; [done|done]].
    apply (rep_with_entry devs D D _ _ e); cbn; try done.
    + split; cbn; [congruence|done].
    + intros j ej _ Hj. by apply (Hes j).
    + intros p' lba' Hr' Hc. apply Hs1; [done|]. by eapply clean_evict.
Qed.

Section one_block.
Context (p lba : Z) (d : mcsos_blk_device) (s : bc_state).
Context (Hp : devs !! p = Some d) (Hbs : d_block_size d = bc_block_size (cache s)).

Lemma flaky_victim_for D :
  bc_rep devs D s -> mcsos_bcache_find (cache s) p lba = None ->
  exists x s', mcsos_bcache_select_victim devs s = Some (x, s') /\
    bc_rep devs D s' /\ bc_block_size (cache s') = bc_block_size (cache s) /\
    forall i, x = inr i ->
      exists e, entries (cache s') !! Z.to_nat i = Some e /\ flushed e /\ absent s' p lba.
Proof.
  intros Hs Hf. destruct (flaky_victim D s Hs) as (x & s' & Hsel & Hs' & Hev & Hx).
  exists x, s'. split_all; try done; [by destruct Hev as (_ & ? & _)|].
  intros i Hi. destruct (Hx i Hi) as (e & He & Hfl). exists e. split_all; try done.
  intros j ej Hj. destruct (evolves_lookup _ _ _ _ Hev Hj) as (e0 & He0 & <-).
  by apply (find_None devs D s p lba j).
Qed.

Lemma flaky_read_ok D buffer :
  bc_rep devs D s -> 0 <= lba -> bc_block_size (cache s) <= Z.of_nat (length buffer) ->
  exists x s', mcsos_bcache_read devs (Some p) lba (Some buffer) s = Some (x, s') /\
    bc_rep devs D s' /\ bc_block_size (cache s') = bc_block_size (cache s) /\
    forall b, x = inr b -> b = D p lba ++ drop (Z.to_nat (d_block_size d)) buffer.
Proof.
  intros Hs Hl Hlen. unfold mcsos_bcache_read. rewrite Hp, Hbs, Z.eqb_refl. cbn [negb].
  destruct (mcsos_bcache_find (cache s) p lba) as [i|] eqn:E.
  - destruct (find_Some devs D s p lba i Hs E) as (e & He & Hk & _).
    eexists (inr _), s. split; [by apply (read_entry devs p lba D s i e)|].
    split_all; try done. by intros b [= <-].
  - destruct (flaky_victim_for D Hs E) as (x & s1 & Hsel & Hs1 & Hb1 & Hx).
    unfold ebind at 1 2. rewrite Hsel. destruct x as [rc|i]; [by exists (inl rc), s1|].
    destruct (Hx i eq_refl) as (e & He & Hfl & Ha).
    destruct (flaky_fill D s1 p d lba i e) as (x & s2 & Hfill & Hs2 & Hb2 & Hx2); try done; [congruence|].
    rewrite Hfill. destruct x as [rc|k]; [exists (inl rc), s2; split_all; try done; congruence|].
    destruct (Hx2 k eq_refl) as (-> & _ & e2 & He2 & Hk2).
    rewrite (read_entry devs p lba D s2 i e2) by (done || congruence).
    eexists (inr _), s2. split; [reflexivity|]. split_all; [done|congruence|].
    intros b [= <-]. do 2 f_equal. congruence.
Qed.

(** The data is stored in entry [i], for which [e] was made available. *)
Lemma store_entry D s' i e (buffer : list Z) :
  bc_rep devs D s' -> bc_block_size (cache s') = bc_block_size (cache s) ->
  entries (cache s') !! i = Some e -> 0 <= lba < d_block_count d ->
  key_of e = Some (p, lba) \/ (flushed e /\ absent s' p lba) ->
  bc_block_size (cache s) <= Z.of_nat (length buffer) ->
  copy_loop (Z.to_nat (bc_block_size (cache s'))) (e_data e) buffer =
    Some (take (Z.to_nat (d_block_size d)) buffer) /\
  bc_rep devs (upd_contents D p lba (take (Z.to_nat (d_block_size d)) buffer))
    (with_entry s' i (dirty_entry (take (Z.to_nat (d_block_size d)) buffer) (e_capacity e) lba p)).
Proof.
  intros Hs' Hb He Hl Hk Hlen. destruct (br_entries _ _ _ Hs' _ _ He) as [Hel _]. split.
  - rewrite copy_loop_spec, Hb, Hbs, (drop_ge (e_data e)), app_nil_r by lia. done.
  - apply (rep_store devs D s' p d lba i e); try done; [congruence|].
    rewrite length_take, Hb, <- Hbs. rewrite <- Hbs in Hlen. lia.
Qed.

Lemma flaky_write_ok D buffer :
  bc_rep devs D s -> 0 <= lba < d_block_count d ->
  bc_block_size (cache s) <= Z.of_nat (length buffer) ->
  exists x s', mcsos_bcache_write devs (Some p) lba (Some buffer) s = Some (x, s') /\
    bc_block_size (cache s') = bc_block_size (cache s) /\
    bc_rep devs match x with
                | inr _ => upd_contents D p lba (take (Z.to_nat (d_block_size d)) buffer)
                | inl _ => D
                end s'.
Proof.
  intros Hs Hl Hlen. unfold mcsos_bcache_write. rewrite Hp, Hbs, Z.eqb_refl. cbn [negb].
  destruct (mcsos_bcache_find (cache s) p lba) as [i|] eqn:E.
  - destruct (find_Some devs D s p lba i Hs E) as (e & He & Hk & _).
    destruct (store_entry D s (Z.to_nat i) e buffer) as [Hc Hrep]; try done; [by left|].
    apply key_of_Some in Hk as (Hv & Hd & Hlba). unfold ebind, eret.
    rewrite (get_entry_eq _ _ _ He), Hc, (put_entry_eq _ _ _ _ He), Hv, Hd, Hlba.
    eexists (inr tt), _. split; [reflexivity|]. split; [done|]. rewrite <- Hbs. exact Hrep.
  - destruct (flaky_victim_for D Hs E) as (x & s1 & Hsel & Hs1 & Hb1 & Hx).
    unfold bcache_claim, ebind, eret. rewrite Hsel. destruct x as [rc|i]; [by exists (inl rc), s1|].
    destruct (Hx i eq_refl) as (e & He & Hfl & Ha).
    destruct (store_entry D s1 (Z.to_nat i) e buffer) as [Hc Hrep]; try done; [by right|].
    apply lookup_lt_Some in He as Hlt. rewrite (get_entry_eq _ _ _ He), (put_entry_eq _ _ _ _ He).
    erewrite get_entry_eq by (cbn; by apply list_lookup_insert_eq).
    cbn [with_entry cache set_entries bc_block_size e_data e_capacity e_lba e_valid e_dev]. rewrite Hc.
    erewrite put_entry_eq by (cbn; by apply list_lookup_insert_eq).
    eexists (inr tt), _. split; [reflexivity|]. split; [done|].
    unfold with_entry in *; cbn in *. rewrite list_insert_insert_eq. rewrite <- Hbs. exact Hrep.
Qed.
End one_block.

Lemma flaky_flush_loop D n : forall s i,
  bc_rep devs D s -> (i + n <= length (entries (cache s)))%nat -> flushed_below s i ->
  exists x s', flush_loop devs n (Z.of_nat i) s = Some (x, s') /\ bc_rep devs D s' /\
    evolves s s' /\ (x = inr tt -> flushed_below s' (i + n)).
Proof.
  induction n as [|n IH]; intros s i Hs Hlen Hbelow.
  { exists (inr tt), s. rewrite Nat.add_0_r. by split_all. }
  destruct (lookup_lt_is_Some_2 (entries (cache s)) i) as [e He]; [lia|].
  destruct (flaky_flush_entry D s (Z.of_nat i) e) as (x & s1 & Hf & Hs1 & Hev & Hx);
    [done|by rewrite Nat2Z.id|]. rewrite Nat2Z.id in Hx.
  cbn [flush_loop]. unfold ebind. rewrite Hf. destruct x as [rc|[]]; [by exists (inl rc), s1|].
  destruct Hx as (e1 & Hfl & Hes).
  replace (Z.of_nat i + 1) with (Z.of_nat (S i)) by lia.
  destruct (IH s1 (S i)) as (x & s2 & Hf2 & Hs2 & Hev2 & Hx2); [done| | |].
  - rewrite Hes, length_insert. lia.
  - intros j ej Hj Hej. rewrite Hes in Hej.
    apply list_lookup_insert_Some in Hej as [(-> & -> & _)|(Hne & Hej)]; [done|].
    apply (Hbelow j); [lia|done].
  - exists x, s2. split_all; try done.
    + destruct Hev as (? & ? & ?), Hev2 as (? & ? & ?). unfold evolves. split_all; congruence.
    + by rewrite Nat.add_succ_r.
Qed.

Lemma flaky_flush_all D s :
  bc_rep devs D s ->
  exists x s', mcsos_bcache_flush_all devs s = Some (x, s') /\ bc_rep devs D s' /\
    bc_block_size (cache s') = bc_block_size (cache s) /\
    (x = inr tt -> forall p lba, in_range devs p lba -> disk_block (ram s') p lba = D p lba).
Proof.
  intros Hs. pose proof (br_length _ _ _ Hs) as Hlen. unfold mcsos_bcache_flush_all.
  destruct (flaky_flush_loop D (Z.to_nat (entry_count (cache s))) s 0)
    as (x & s' & Hf & Hs' & Hev & Hx); [done|lia|intros j e; lia|].
  exists x, s'. split_all; try done; [by destruct Hev as (_ & ? & _)|].
  intros -> p lba Hr. apply Hs'; [done|]. intros i e He Hk.
  apply (Hx eq_refl i e); [|done|by apply key_of_Some in Hk as (? & _)].
  apply lookup_lt_Some in He. rewrite (br_length _ _ _ Hs') in He.
  destruct Hev as (Hc & _). rewrite Hc in He. lia.
Qed.

End cache.

(** ** Sequences of calls *)

Section runs.
Context (devs : gmap Z mcsos_blk_device).

(** The contents after the writes that were accepted. *)
Fixpoint accepted (ops : list bc_op) (rs : list (Z + list Z)) (D : Z -> Z -> list Z)
    : Z -> Z -> list Z :=
  match ops, rs with
  | BWrite p lba buffer :: ops, inr _ :: rs =>
      match devs !! p with
      | Some d => accepted ops rs (upd_contents D p lba (take (Z.to_nat (d_block_size d)) buffer))
      | None => accepted ops rs D
      end
  | _ :: ops, _ :: rs => accepted ops rs D
  | _, _ => D
  end.

(** Every read that succeeds returns what was last accepted. *)
Fixpoint reads_ok (ops : list bc_op) (rs : list (Z + list Z)) (D : Z -> Z -> list Z) : Prop :=
  match ops, rs with
  | [], [] => True
  | op :: ops, r :: rs =>
      match op, r with
      | BRead p lba buffer, inr b =>
          exists d, devs !! p = Some d /\ b = D p lba ++ drop (Z.to_nat (d_block_size d)) buffer
      | _, _ => True
      end /\ reads_ok ops rs (accepted [op] [r] D)
  | _, _ => False
  end.

Context `{!BlkView devs, !FlakyDisk devs}.

Lemma flaky_op op D s :
  bc_rep devs D s -> op_ok devs (bc_block_size (cache s)) op ->
  exists x s', run_op devs op s = Some (x, s') /\
    bc_rep devs (accepted [op] [x] D) s' /\ bc_block_size (cache s') = bc_block_size (cache s) /\
    reads_ok [op] [x] D.
Proof.
  intros Hs Hop. destruct op as [p lba buffer|p lba buffer|]; cbn [run_op op_ok] in *.
  - destruct Hop as (d & Hp & Hbs & Hl & Hlen).
    destruct (flaky_read_ok devs p lba d s Hp Hbs D buffer) as (x & s' & E & Hs' & Hb & Hx); [done..|].
    exists x, s'. split_all; try done. cbn [reads_ok]. split; [|done].
    destruct x as [rc|b]; [done|]. exists d. split; [done|by apply Hx].
  - destruct Hop as (d & Hp & Hbs & Hl & Hlen).
    destruct (flaky_write_ok devs p lba d s Hp Hbs D buffer) as (x & s' & E & Hb & Hs'); [done..|].
    unfold ebind. rewrite E. destruct x as [rc|[]].
    + exists (inl rc), s'. by split_all.
    + exists (inr []), s'. split_all; try done. cbn [accepted]. by rewrite Hp.
  - destruct (flaky_flush_all devs D s Hs) as (x & s' & E & Hs' & Hb & _).
    unfold ebind. rewrite E. destruct x as [rc|[]].
    + exists (inl rc), s'. by split_all.
    + exists (inr []), s'. by split_all.
Qed.

Lemma accepted_cons op ops r rs D :
  accepted (op :: ops) (r :: rs) D = accepted ops rs (accepted [op] [r] D).
Proof. by destruct op, r as [rc|b]; cbn; try (destruct (devs !! p)); destruct ops, rs. Qed.

Lemma flaky_ops ops : forall D s,
  bc_rep devs D s -> Forall (op_ok devs (bc_block_size (cache s))) ops ->
  exists rs s', run_ops devs ops s = Some (rs, s') /\
    bc_rep devs (accepted ops rs D) s' /\ bc_block_size (cache s') = bc_block_size (cache s) /\
    reads_ok ops rs D.
Proof.
  induction ops as [|op ops IH]; intros D s Hs Hops; [by exists [], s|].
  inversion Hops as [|? ? Hop Hrest]; subst.
  destruct (flaky_op op D s Hs Hop) as (x & s1 & E1 & Hs1 & Hb1 & [Hr1 _]).
  destruct (IH (accepted [op] [x] D) s1 Hs1) as (rs & s2 & E2 & Hs2 & Hb2 & Hr2); [by rewrite Hb1|].
  exists (x :: rs), s2. cbn [run_ops]. rewrite E1. cbn [fst snd]. rewrite E2.
  split_all; [done|by rewrite accepted_cons|congruence|done].
Qed.

End runs.

(** C7: the cache loses nothing when devices fail.  Over any devices whose
    requests may fail (a failed write changing nothing), for every sequence of
    reads, in-range writes and flushes after [mcsos_bcache_init]: every call
    returns, every read that succeeds returns the data of the last write to
    that block that was accepted, whatever failed in between, and whenever
    [mcsos_bcache_flush_all] succeeds the devices hold exactly these
    contents. *)
Theorem bcache_no_data_loss devs `{!BlkView devs, !FlakyDisk devs} r es count pool bs ops :
  disk_ok r -> 0 < count < 2 ^ 32 -> 0 < bs -> Z.of_nat (length es) = count ->
  count * bs <= Z.of_nat (length pool) -> Forall (op_ok devs bs) ops ->
  exists c rs s x s', mcsos_bcache_init (Some es) count (Some pool) bs = Some (inr c) /\
    run_ops devs ops (mk_bc c r) = Some (rs, s) /\
    reads_ok devs ops rs (disk_block r) /\
    mcsos_bcache_flush_all devs s = Some (x, s') /\
    (x = inr tt -> forall p d lba, devs !! p = Some d -> 0 <= lba < d_block_count d ->
       disk_block (ram s') p lba = accepted devs ops rs (disk_block r) p lba).
Proof.
  intros Hr Hc Hb Hl Hp Hops.
  destruct (init_rep devs es count pool bs r) as (c & Hi & Hbc & Hrep); [done..|].
  destruct (flaky_ops devs ops (disk_block r) (mk_bc c r) Hrep) as (rs & s & E & Hs & _ & Hreads);
    [by cbn; rewrite Hbc|].
  destruct (flaky_flush_all devs _ s Hs) as (x & s' & Ef & _ & _ & Hx).
  exists c, rs, s, x, s'. split_all; try done. intros -> p d lba Hpd Hlb. apply (Hx eq_refl). by exists d.
Qed.

(** ** RAM disks with bad blocks *)

Definition bad_rw (bad : Z -> bool) (f : rw_fn) : rw_fn :=
  fun block_size driver_data lba count buffer r =>
    if bad lba then Some (MCSOS_BLK_EIO, buffer, r)
    else f block_size driver_data lba count buffer r.

(** The device [d] with a driver that refuses requests at bad blocks. *)
Definition with_bad (bad : Z -> bool) (d : mcsos_blk_device) : mcsos_blk_device :=
  mk_blk_device (d_name d) (d_block_size d) (d_block_count d) (d_flags d)
    (Some (mk_blk_ops (Some (bad_rw bad mcsos_ramblk_read)) (Some (bad_rw bad mcsos_ramblk_write)) None))
    (d_driver_data d).

Section bad_blocks.
Context (bad : Z -> bool) (devs : gmap Z mcsos_blk_device) (Hdevs : ram_devices devs).

Lemma bad_validate d lba buf :
  d_ops d = Some g_ramblk_ops ->
  mcsos_blk_validate_range (Some (with_bad bad d)) lba 1 (Some buf) =
  mcsos_blk_validate_range (Some d) lba 1 (Some buf).
Proof. intros Ho. unfold mcsos_blk_validate_range. by rewrite Ho. Qed.

Lemma bad_requests d lba buf r :
  d_ops d = Some g_ramblk_ops ->
  mcsos_blk_read (Some (with_bad bad d)) lba 1 (Some buf) r =
    (if (mcsos_blk_validate_range (Some d) lba 1 (Some buf) =? MCSOS_BLK_OK) && bad lba
     then Some (MCSOS_BLK_EIO, Some buf, r) else mcsos_blk_read (Some d) lba 1 (Some buf) r) /\
  mcsos_blk_write (Some (with_bad bad d)) lba 1 (Some buf) r =
    (if (mcsos_blk_validate_range (Some d) lba 1 (Some buf) =? MCSOS_BLK_OK) && bad lba
     then Some (MCSOS_BLK_EIO, Some buf, r) else mcsos_blk_write (Some d) lba 1 (Some buf) r).
Proof.
  intros Ho. unfold mcsos_blk_read, mcsos_blk_write. rewrite (bad_validate d lba buf Ho), Ho.
  destruct (_ =? MCSOS_BLK_OK); cbn; unfold bad_rw; [by destruct (bad lba)|done].
Qed.

Lemma bad_lookup p d :
  (with_bad bad <$> devs) !! p = Some d ->
  exists d0, devs !! p = Some d0 /\ d = with_bad bad d0 /\ d_ops d0 = Some g_ramblk_ops.
Proof.
  intros (d0 & <- & Hp)%lookup_fmap_Some. exists d0. split_all; try done.
  by destruct (proj1 Hdevs p d0 Hp).
Qed.

#[program] Definition bad_view : BlkView (with_bad bad <$> devs) :=
  {| disk_ok := ram_ok devs; disk_block := ram_block devs |}.
Next Obligation.
  intros p d (d0 & Hp & -> & _)%bad_lookup. destruct (proj1 Hdevs p d0 Hp) as (_ & ? & ?). cbn. lia.
Qed.
Next Obligation.
  intros r p d lba Hr (d0 & Hp & -> & _)%bad_lookup Hl.
  exact (@disk_block_length devs (ram_view devs Hdevs) r p d0 lba Hr Hp Hl).
Qed.

Lemma bad_flaky : @FlakyDisk (with_bad bad <$> devs) bad_view.
Proof.
  pose (view := ram_view devs Hdevs). pose proof (ramblk_disk devs Hdevs : BlkDisk devs) as disk.
  pose proof (reliable_flaky devs disk) as flaky. split.
  - intros r p d lba buf Hr (d0 & Hp & -> & Ho)%bad_lookup Hl Hb.
    rewrite (proj1 (bad_requests d0 lba buf r Ho)). case_if.
    + do 3 eexists. split; [reflexivity|]. by split_all.
    + destruct (@flaky_read devs view flaky r p d0 lba buf Hr Hp Hl Hb) as (st & b & r' & E & [Hok Hsame] & Hlen & Hst).
      exists st, b, r'. split; [exact E|]. split; [|by split].
      split; [exact Hok|]. intros p' d' lba' (d1 & Hp' & -> & _)%bad_lookup Hl'. exact (Hsame p' d1 lba' Hp' Hl').
  - intros r p d lba buf Hr (d0 & Hp & -> & Ho)%bad_lookup Hl Hb.
    rewrite (proj2 (bad_requests d0 lba buf r Ho)). case_if.
    + do 3 eexists. split; [reflexivity|]. split; [done|]. intros. by rewrite decide_False by (intros [? _]; done).
    + destruct (@flaky_write devs view flaky r p d0 lba buf Hr Hp Hl Hb) as (st & b & r' & E & Hok & Hw).
      exists st, b, r'. split; [exact E|]. split; [exact Hok|].
      intros p' d' lba' (d1 & Hp' & -> & _)%bad_lookup Hl'. exact (Hw p' d1 lba' Hp' Hl').
Qed.
End bad_blocks.

(** Block 1 of the disk is bad: it cannot be flushed, but what was written to
    it is still read. *)
Definition bad_devs : gmap Z mcsos_blk_device := with_bad Z.odd <$> devs0.
Definition bad_calls : list bc_op :=
  [BWrite 1 1 (replicate 512 7); BFlushAll; BRead 1 1 (replicate 512 3); BWrite 1 0 (replicate 512 8)].

Lemma bcache_no_data_loss_witness :
  exists c rs s, mcsos_bcache_init (Some [blank_entry; blank_entry]) 2
      (Some (replicate 1024 0)) 512 = Some (inr c) /\
    run_ops bad_devs bad_calls (mk_bc c r0) = Some (rs, s) /\
    reads_ok bad_devs bad_calls rs (ram_block devs0 r0).
Proof.
  pose (view := bad_view Z.odd devs0 ram_devices0).
  pose proof (bad_flaky Z.odd devs0 ram_devices0 : FlakyDisk bad_devs) as flaky.
  destruct (@bcache_no_data_loss bad_devs view flaky r0 [blank_entry; blank_entry] 2 (replicate 1024 0) 512 bad_calls)
    as (c & rs & s & x & s' & E1 & E2 & E3 & _).
  - exact ram_ok0.
  - lia.
  - lia.
  - reflexivity.
  - vm_compute. discriminate.
  - repeat constructor; exists (with_bad Z.odd ram0); split_all; try done; vm_compute; (reflexivity || discriminate).
  - exists c, rs, s. split; [exact E1|]. split; [exact E2|exact E3].
Defined.

Example bad_block_run :
  (let* c := mcsos_bcache_init (Some [blank_entry; blank_entry]) 2 (Some (replicate 1024 0)) 512 in
   match c with
   | inl _ => None
   | inr c => fst <$> run_ops bad_devs bad_calls (mk_bc c r0)
   end) = Some [inr []; inl MCSOS_BLK_EIO; inr (replicate 512 7); inr []].
Proof. vm_compute. reflexivity. Qed.
