(* ===== verification/Vfs.v ===== *)
(** * RAM file system and file descriptors ([kernel/vfs/ramfs.c], [fd.c],
      [include/mcs_vfs.h])

    One RAM file system object, one descriptor table.  A node pointer is the
    index of the node in the array of the file system; a C string is the list
    of its bytes, whose terminator is the 0 read after the last one, and a
    pointer into it is the rest of the list.  [None] is undefined behaviour: a
    node, a descriptor slot or a byte of the data pool outside its array, read
    or written, or signed overflow in [mcs_vfs_lseek]. *)
From S2P Require Import Prelude.

Definition MCS_MAX_NAME : Z := 32.
Definition MCS_MAX_PATH : Z := 128.
Definition MCS_MAX_NODES : Z := 64.
Definition MCS_MAX_OPEN_FILES : Z := 16.
Definition MCS_RAMFS_DATA_BYTES : Z := 8192.

Definition MCS_O_RDONLY : Z := 1.
Definition MCS_O_WRONLY : Z := 2.
Definition MCS_O_RDWR : Z := 4.
Definition MCS_O_CREAT : Z := 256.
Definition MCS_O_TRUNC : Z := 512.
Definition MCS_O_APPEND : Z := 1024.

Definition MCS_SEEK_SET : Z := 0.
Definition MCS_SEEK_CUR : Z := 1.
Definition MCS_SEEK_END : Z := 2.

Definition MCS_OK : Z := 0.
Definition MCS_ENOENT : Z := -2.
Definition MCS_EBADF : Z := -9.
Definition MCS_EACCES : Z := -13.
Definition MCS_ENOTDIR : Z := -20.
Definition MCS_EISDIR : Z := -21.
Definition MCS_EINVAL : Z := -22.
Definition MCS_ENFILE : Z := -23.
Definition MCS_ENOSPC : Z := -28.
Definition MCS_ENAMETOOLONG : Z := -36.

Inductive mcs_vnode_type := MCS_VNODE_DIR | MCS_VNODE_FILE.

#[export] Instance mcs_vnode_type_eq_dec : EqDecision mcs_vnode_type.
Proof. solve_decision. Defined.

Record mcs_vnode := mk_vnode {
  v_used : bool;
  v_id : Z;
  v_parent : Z;
  v_type : mcs_vnode_type;
  v_name : list Z;
  v_size : Z;
  v_data_offset : Z;
  v_data_capacity : Z
}.

Record mcs_ramfs := mk_ramfs {
  nodes : list mcs_vnode;
  node_count : Z;
  data : list Z;
  data_used : Z
}.

Record mcs_file := mk_file {
  f_used : bool;
  f_flags : Z;
  f_offset : Z;
  f_node : option Z;
  f_fs : bool
}.

Abbreviation mcs_fd_table := (list mcs_file).

(** ** ramfs.c *)

Fixpoint mcs_strlen (s : list Z) : Z :=
  match s with
  | [] => 0
  | c :: s => if c =? 0 then 0 else 1 + mcs_strlen s
  end.

Fixpoint mcs_streq_n (a b : list Z) (n : nat) : bool :=
  match n with
  | O => hd 0 b =? 0
  | S n => if hd 0 a =? hd 0 b then mcs_streq_n (tl a) (tl b) n else false
  end.

(** [dst] is the 32-byte field: cleared, then filled from [src]. *)
Definition mcs_copy_name (src : list Z) (n : nat) : list Z :=
  let m := Nat.min n (Z.to_nat MCS_MAX_NAME - 1) in
  take m src ++ replicate (Z.to_nat MCS_MAX_NAME - m) 0.

(** [fs->nodes[i]], read and written. *)
Definition node_at (fs : mcs_ramfs) (i : Z) : option mcs_vnode := arr_get (nodes fs) i.

Definition set_node (fs : mcs_ramfs) (i : Z) (nd : mcs_vnode) : option mcs_ramfs :=
  let* ns := arr_set (nodes fs) i nd in
  Some (mk_ramfs ns (node_count fs) (data fs) (data_used fs)).
Definition set_size (nd : mcs_vnode) (n : Z) : mcs_vnode :=
  mk_vnode (v_used nd) (v_id nd) (v_parent nd) (v_type nd) (v_name nd) n
    (v_data_offset nd) (v_data_capacity nd).
Definition set_data (fs : mcs_ramfs) (d : list Z) : mcs_ramfs :=
  mk_ramfs (nodes fs) (node_count fs) d (data_used fs).

Definition mcs_find_child (fs : mcs_ramfs) (parent : Z) (name : list Z) (name_len : nat)
    : option (Z + Z) :=
  if (name_len =? 0)%nat || (MCS_MAX_NAME <=? Z.of_nat name_len) then Some (inl MCS_EINVAL) else
  let* found := first_where (Z.to_nat (node_count fs)) 0 (fun i =>
          let* nd := node_at fs i in
          Some (v_used nd && (v_parent nd =? parent) && mcs_streq_n name (v_name nd) name_len)) in
  match found with
  | Some i => Some (inr i)
  | None => Some (inl MCS_ENOENT)
  end.

(** The loop that advances [next] to the next slash or the end: the length of the segment
    and the string from [next] on. *)
Fixpoint next_sep (seg : list Z) : nat * list Z :=
  match seg with
  | [] => (0%nat, [])
  | c :: rest =>
      if (c =? 47) || (c =? 0) then (0%nat, seg)
      else let '(n, next) := next_sep rest in (S n, next)
  end.

(** [fuel] bounds the number of segments by the length of the path. *)
Fixpoint split_walk (fuel : nat) (fs : mcs_ramfs) (cur : Z) (seg : list Z)
    : option (Z + (Z * list Z * nat)) :=
  match fuel with
  | O => None
  | S fuel =>
      let '(seg_len, next) := next_sep seg in
      if (seg_len =? 0)%nat || (MCS_MAX_NAME <=? Z.of_nat seg_len)
      then Some (inl MCS_EINVAL) else
      if hd 0 next =? 0 then Some (inr (cur, seg, seg_len)) else
      let* dir := node_at fs cur in
      let* r := mcs_find_child fs (v_id dir) seg seg_len in
      match r with
      | inl rc => Some (inl rc)
      | inr cur =>
          let* nd := node_at fs cur in
          if bool_decide (v_type nd <> MCS_VNODE_DIR)
          then Some (inl MCS_ENOTDIR)
          else split_walk fuel fs cur (tl next)
      end
  end.

Definition mcs_split_parent_leaf (fs : mcs_ramfs) (path : list Z)
    : option (Z + (Z * list Z * nat)) :=
  if negb (nthZ path 0 =? 47) then Some (inl MCS_EINVAL) else
  if nthZ path 1 =? 0 then Some (inl MCS_EINVAL) else
  if MCS_MAX_PATH <=? mcs_strlen path then Some (inl MCS_ENAMETOOLONG) else
  split_walk (S (length path)) fs 0 (tl path).

(** The new node's index, or the error, and the file system. *)
Definition mcs_alloc_node (fs : mcs_ramfs) (parent : Z) (type : mcs_vnode_type)
    (name : list Z) (name_len : nat) (capacity : Z) : option ((Z + Z) * mcs_ramfs) :=
  if (name_len =? 0)%nat || (MCS_MAX_NAME <=? Z.of_nat name_len) then Some (inl MCS_EINVAL, fs) else
  if MCS_MAX_NODES <=? node_count fs then Some (inl MCS_ENOSPC, fs) else
  let file := bool_decide (type = MCS_VNODE_FILE) in
  if file && (MCS_RAMFS_DATA_BYTES <? u64 (data_used fs + capacity))
  then Some (inl MCS_ENOSPC, fs) else
  let i := node_count fs in
  let nd := mk_vnode true (u32 i) parent type (mcs_copy_name name name_len) 0
              (if file then data_used fs else 0) (if file then capacity else 0) in
  let* fs := set_node fs i nd in
  Some (inr i, mk_ramfs (nodes fs) (u64 (i + 1)) (data fs)
                 (if file then u64 (data_used fs + capacity) else data_used fs)).

Definition init_node (nd : mcs_vnode) : mcs_vnode :=
  mk_vnode false 0 0 MCS_VNODE_FILE (<[0%nat := 0]> (v_name nd)) 0 0 0.

Definition root_node (nd : mcs_vnode) : mcs_vnode :=
  mk_vnode true 0 0 MCS_VNODE_DIR (<[1%nat := 0]> (<[0%nat := 47]> (v_name nd)))
    (v_size nd) (v_data_offset nd) (v_data_capacity nd).

(** [old] is the object as found, with the 64 nodes of its type: the names keep
    their other bytes. *)
Definition mcs_ramfs_init (old : mcs_ramfs) : mcs_ramfs :=
  mk_ramfs (alter root_node 0%nat (init_node <$> nodes old))
    1 (replicate (Z.to_nat MCS_RAMFS_DATA_BYTES) 0) 0.

Fixpoint lookup_walk (fuel : nat) (fs : mcs_ramfs) (cur : Z) (seg : list Z)
    : option (Z + Z) :=
  match fuel with
  | O => None
  | S fuel =>
      if hd 0 seg =? 0 then Some (inl MCS_EINVAL) else
      let '(seg_len, next) := next_sep seg in
      if (seg_len =? 0)%nat || (MCS_MAX_NAME <=? Z.of_nat seg_len)
      then Some (inl MCS_EINVAL) else
      let* dir := node_at fs cur in
      let* r := mcs_find_child fs (v_id dir) seg seg_len in
      match r with
      | inl rc => Some (inl rc)
      | inr cur =>
          if hd 0 next =? 0 then Some (inr cur) else
          let* nd := node_at fs cur in
          if bool_decide (v_type nd <> MCS_VNODE_DIR)
          then Some (inl MCS_ENOTDIR)
          else lookup_walk fuel fs cur (tl next)
      end
  end.

Definition mcs_ramfs_lookup (fs : mcs_ramfs) (path : list Z) : option (Z + Z) :=
  if negb (nthZ path 0 =? 47) then Some (inl MCS_EINVAL) else
  if MCS_MAX_PATH <=? mcs_strlen path then Some (inl MCS_ENAMETOOLONG) else
  if nthZ path 1 =? 0 then Some (inr 0) else
  lookup_walk (S (length path)) fs 0 (tl path).

Definition mcs_ramfs_create_file (fs : mcs_ramfs) (path : list Z)
    : option ((Z + Z) * mcs_ramfs) :=
  let* found := mcs_ramfs_lookup fs path in
  match found with
  | inr existing =>
      let* nd := node_at fs existing in
      if bool_decide (v_type nd <> MCS_VNODE_FILE)
      then Some (inl MCS_EISDIR, fs) else Some (inr existing, fs)
  | inl _ =>
      let* split := mcs_split_parent_leaf fs path in
      match split with
      | inl rc => Some (inl rc, fs)
      | inr (parent, leaf, leaf_len) =>
          let* dir := node_at fs parent in
          if bool_decide (v_type dir <> MCS_VNODE_DIR)
          then Some (inl MCS_ENOTDIR, fs)
          else mcs_alloc_node fs (v_id dir) MCS_VNODE_FILE leaf leaf_len 256
      end
  end.

(** [memcpy(&data[off], src, n)] and [memcpy(dst, &data[off], n)]. *)
Definition data_in (d : list Z) (off n : Z) (src : list Z) : option (list Z) :=
  let* t := copy_loop (Z.to_nat n) (drop (Z.to_nat off) d) src in
  Some (take (Z.to_nat off) d ++ t).
Definition data_out (d : list Z) (off n : Z) (dst : list Z) : option (list Z) :=
  copy_loop (Z.to_nat n) dst (drop (Z.to_nat off) d).

(** A null path or data pointer is [None]. *)
Definition mcs_ramfs_seed_file (fs : mcs_ramfs) (path : option (list Z))
    (src : option (list Z)) (len : Z) : option (Z * mcs_ramfs) :=
  match path with
  | None => Some (MCS_EINVAL, fs)
  | Some path =>
      if match src with None => negb (len =? 0) | Some _ => false end
      then Some (MCS_EINVAL, fs) else
      let* r := mcs_ramfs_create_file fs path in
      match r with
      | (inl rc, fs) => Some (rc, fs)
      | (inr i, fs) =>
          let* nd := node_at fs i in
          if v_data_capacity nd <? len then Some (MCS_ENOSPC, fs) else
          let* d := data_in (data fs) (v_data_offset nd) len (default [] src) in
          let* fs := set_node (set_data fs d) i (set_size nd len) in
          Some (MCS_OK, fs)
      end
  end.

(** ** fd.c *)

Record vfs_state := mk_vfs { table : mcs_fd_table; ramfs : mcs_ramfs }.
Definition vfs (A : Type) : Type := em vfs_state A.

Definition mcs_can_read (flags : Z) : bool :=
  negb (flags .& MCS_O_RDONLY =? 0) || negb (flags .& MCS_O_RDWR =? 0).
Definition mcs_can_write (flags : Z) : bool :=
  negb (flags .& MCS_O_WRONLY =? 0) || negb (flags .& MCS_O_RDWR =? 0).

Definition closed_file : mcs_file := mk_file false 0 0 None false.

Definition mcs_fd_table_init : mcs_fd_table :=
  replicate (Z.to_nat MCS_MAX_OPEN_FILES) closed_file.

(** [table->files[i]], read and written. *)
Definition file_at (t : mcs_fd_table) (i : Z) : option mcs_file := arr_get t i.

Definition set_file (fd : Z) (f : mcs_file) (s : vfs_state) : option vfs_state :=
  let* t := arr_set (table s) fd f in Some (mk_vfs t (ramfs s)).
Definition set_fs (fs : mcs_ramfs) (s : vfs_state) : vfs_state := mk_vfs (table s) fs.

(** The open file of a descriptor; [Some None] is the null pointer. *)
Definition mcs_fd_get (t : mcs_fd_table) (fd : Z) : option (option mcs_file) :=
  if (fd <? 0) || (MCS_MAX_OPEN_FILES <=? fd) then Some None else
  let* f := file_at t fd in
  if negb (f_used f) then Some None else Some (Some f).

Definition mcs_fd_alloc : vfs Z := fun s =>
  let* found := first_where (Z.to_nat MCS_MAX_OPEN_FILES) 0
          (fun i => let* f := file_at (table s) i in Some (negb (f_used f))) in
  match found with
  | Some i =>
      let* f := file_at (table s) i in
      let* s := set_file i (mk_file true (f_flags f) (f_offset f) (f_node f) (f_fs f)) s in
      eret i s
  | None => efail MCS_ENFILE s
  end.

Definition resolve_or_create (path : list Z) (flags : Z) : vfs Z := fun s =>
  let* r := mcs_ramfs_lookup (ramfs s) path in
  match r with
  | inr i => eret i s
  | inl rc =>
      if flags .& MCS_O_CREAT =? 0 then efail rc s else
      let* r := mcs_ramfs_create_file (ramfs s) path in
      match r with
      | (inl rc, fs) => efail rc (set_fs fs s)
      | (inr i, fs) => eret i (set_fs fs s)
      end
  end.

Definition vfs_node (i : Z) : vfs mcs_vnode := fun s =>
  let* nd := node_at (ramfs s) i in eret nd s.

(** [fs] tells whether the file system pointer is not null. *)
Definition mcs_vfs_open (fs : bool) (path : option (list Z)) (flags : Z) : vfs Z :=
  match path with
  | Some path =>
      if negb fs then efail MCS_EINVAL else
      let flags := if flags .& (MCS_O_RDONLY .| MCS_O_WRONLY .| MCS_O_RDWR) =? 0
                   then flags .| MCS_O_RDONLY else flags in
      let? i := resolve_or_create path flags in
      let? nd := vfs_node i in
      if bool_decide (v_type nd = MCS_VNODE_DIR) && mcs_can_write flags
      then efail MCS_EISDIR else
      let? fd := mcs_fd_alloc in
      (fun s =>
         let* nd := node_at (ramfs s) i in
         let offset := if negb (flags .& MCS_O_APPEND =? 0) then v_size nd else 0 in
         if negb (flags .& MCS_O_TRUNC =? 0) then
           if negb (mcs_can_write flags) then
             let* s := set_file fd (mk_file false flags offset None false) s in
             efail MCS_EACCES s
           else
             let* s := set_file fd (mk_file true flags 0 (Some i) true) s in
             let* fs := set_node (ramfs s) i (set_size nd 0) in
             eret fd (set_fs fs s)
         else
           let* s := set_file fd (mk_file true flags offset (Some i) true) s in
           eret fd s)
  | None => efail MCS_EINVAL
  end.

(** The checks [mcs_vfs_read] and [mcs_vfs_write] share, with the right to
    test: the open file and its node. *)
Definition fd_node (can : Z -> bool) (fd : Z) : vfs (mcs_file * Z) := fun s =>
  let* file := mcs_fd_get (table s) fd in
  match file with
  | None => efail MCS_EBADF s
  | Some f =>
      if negb (can (f_flags f)) then efail MCS_EACCES s else
      match f_node f, f_fs f with
      | Some i, true =>
          let* nd := node_at (ramfs s) i in
          if bool_decide (v_type nd = MCS_VNODE_DIR)
          then efail MCS_EISDIR s else eret (f, i) s
      | _, _ => efail MCS_EINVAL s
      end
  end.

Definition set_offset (f : mcs_file) (off : Z) : mcs_file :=
  mk_file (f_used f) (f_flags f) off (f_node f) (f_fs f).

Definition buf_bad (buf : option (list Z)) (len : Z) : bool :=
  match buf with None => negb (len =? 0) | Some _ => false end.

(** The number of bytes, and the caller's buffer. *)
Definition mcs_vfs_read (fd : Z) (buf : option (list Z)) (len : Z) : vfs (Z * list Z) :=
  if buf_bad buf len then efail MCS_EINVAL else
  let? r := fd_node mcs_can_read fd in
  (fun s =>
     let '(f, i) := r in
     let* nd := node_at (ramfs s) i in
     if v_size nd <=? f_offset f then eret (0, default [] buf) s else
     let remain := v_size nd - f_offset f in
     let n := Z.min len remain in
     let* b := data_out (data (ramfs s)) (u64 (v_data_offset nd + f_offset f)) n (default [] buf) in
     let* s := set_file fd (set_offset f (u64 (f_offset f + n))) s in
     eret (n, b) s).

Definition mcs_vfs_write (fd : Z) (buf : option (list Z)) (len : Z) : vfs Z :=
  if buf_bad buf len then efail MCS_EINVAL else
  let? r := fd_node mcs_can_write fd in
  (fun s =>
     let '(f, i) := r in
     let* nd := node_at (ramfs s) i in
     let f := if negb (f_flags f .& MCS_O_APPEND =? 0) then set_offset f (v_size nd) else f in
     let* s := set_file fd f s in
     if v_data_capacity nd <? f_offset f then efail MCS_EINVAL s else
     let n := Z.min len (v_data_capacity nd - f_offset f) in
     if n <? len then efail MCS_ENOSPC s else
     let* d := data_in (data (ramfs s)) (u64 (v_data_offset nd + f_offset f)) n (default [] buf) in
     let offset := u64 (f_offset f + n) in
     let nd := if v_size nd <? offset then set_size nd offset else nd in
     let* s := set_file fd (set_offset f offset) s in
     let* fs := set_node (set_data (ramfs s) d) i nd in
     eret n (set_fs fs s)).

(** [long] arithmetic: overflow is undefined. *)
Definition long_add (x y : Z) : option Z :=
  if (- 2 ^ 63 <=? x + y) && (x + y <? 2 ^ 63) then Some (x + y) else None.

(** The end of [mcs_vfs_lseek], from the base on. *)
Definition lseek_to (fd offset : Z) (f : mcs_file) (base : Z) : vfs Z := fun s =>
  let* next := long_add base offset in
  if next <? 0 then efail MCS_EINVAL s else
  let* s := set_file fd (set_offset f next) s in
  eret (s32 next) s.

Definition mcs_vfs_lseek (fd offset whence : Z) : vfs Z := fun s =>
  let* file := mcs_fd_get (table s) fd in
  match file with
  | None => efail MCS_EBADF s
  | Some f =>
      match f_node f with
      | None => efail MCS_EISDIR s
      | Some i =>
          let* nd := node_at (ramfs s) i in
          if bool_decide (v_type nd = MCS_VNODE_DIR) then efail MCS_EISDIR s else
          if whence =? MCS_SEEK_SET then lseek_to fd offset f 0 s else
          if whence =? MCS_SEEK_CUR then lseek_to fd offset f (s64 (f_offset f)) s else
          if whence =? MCS_SEEK_END then lseek_to fd offset f (s64 (v_size nd)) s else
          efail MCS_EINVAL s
      end
  end.

Definition mcs_vfs_close (fd : Z) : vfs unit := fun s =>
  let* file := mcs_fd_get (table s) fd in
  match file with
  | None => efail MCS_EBADF s
  | Some _ => let* s := set_file fd closed_file s in eret tt s
  end.

Definition mcs_vfs_dup (fd : Z) : vfs Z := fun s =>
  let* file := mcs_fd_get (table s) fd in
  match file with
  | None => efail MCS_EBADF s
  | Some f =>
      (let? newfd := mcs_fd_alloc in
       (fun s =>
          let* s := set_file newfd
            (mk_file true (f_flags f) (f_offset f) (f_node f) (f_fs f)) s in
          eret newfd s)) s
  end.

(** ** The system-call wrappers of fd.c *)

Record mcs_process := mk_process { pid : Z; fd_table : mcs_fd_table }.

(** A null process is [None]. *)
Record proc_state := mk_sys { proc : option mcs_process; sys_fs : mcs_ramfs }.

Definition on_proc {A} (m : vfs A) : em proc_state A := fun s =>
  match proc s with
  | None => efail MCS_EINVAL s
  | Some p =>
      let* r := m (mk_vfs (fd_table p) (sys_fs s)) in
      Some (r.1, mk_sys (Some (mk_process (pid p) (table r.2))) (ramfs r.2))
  end.

Definition mcs_sys_open (fs : bool) (user_path : option (list Z)) (flags : Z) : em proc_state Z :=
  match user_path with
  | Some _ => if negb fs then efail MCS_EINVAL else on_proc (mcs_vfs_open fs user_path flags)
  | None => efail MCS_EINVAL
  end.
Definition mcs_sys_read (fd : Z) (user_buf : option (list Z)) (len : Z)
    : em proc_state (Z * list Z) :=
  if buf_bad user_buf len then efail MCS_EINVAL else on_proc (mcs_vfs_read fd user_buf len).
Definition mcs_sys_write (fd : Z) (user_buf : option (list Z)) (len : Z) : em proc_state Z :=
  if buf_bad user_buf len then efail MCS_EINVAL else on_proc (mcs_vfs_write fd user_buf len).
Definition mcs_sys_close (fd : Z) : em proc_state unit := on_proc (mcs_vfs_close fd).
Definition mcs_sys_lseek (fd offset whence : Z) : em proc_state Z :=
  on_proc (mcs_vfs_lseek fd offset whence).
