(* ===== verification/VfsSpec.v ===== *)
(** * Virtual file system: what it promises

    An abstract file system is a list of independent files, a name with 256
    bytes and a size each, and a table of open files; no nodes, no shared data
    pool.  One function per call, on every branch. *)
From S2P Require Import Prelude Vfs.

Record afile := mk_afile { af_name : list Z; af_bytes : list Z; af_size : Z }.

(** [ao_target = None]: the root directory. *)
Record aopen := mk_aopen { ao_flags : Z; ao_offset : Z; ao_target : option nat }.

Record avfs := mk_avfs { a_files : list afile; a_open : list (option aopen) }.

Definition file_capacity : nat := 256.
Definition max_files : nat := 32.

Definition avfs_init : avfs := mk_avfs [] (replicate 16 None).

(** ** Names *)

Inductive path_class :=
  | PathBad (rc : Z)
  | PathRoot
  | PathFile (name : list Z)
  | PathBelow (name : list Z).

Definition parse_path (path : list Z) : path_class :=
  if negb (nthZ path 0 =? 47) then PathBad MCS_EINVAL else
  if MCS_MAX_PATH <=? mcs_strlen path then PathBad MCS_ENAMETOOLONG else
  if nthZ path 1 =? 0 then PathRoot else
  let '(n, next) := next_sep (tl path) in
  if (n =? 0)%nat || (MCS_MAX_NAME <=? Z.of_nat n) then PathBad MCS_EINVAL else
  if hd 0 next =? 0 then PathFile (take n (tl path)) else PathBelow (take n (tl path)).

Definition find_name (F : list afile) (name : list Z) : option nat :=
  fst <$> list_find (fun f => af_name f = name) F.

Definition spec_lookup (F : list afile) (path : list Z) : Z + option nat :=
  match parse_path path with
  | PathBad rc => inl rc
  | PathRoot => inr None
  | PathFile name => match find_name F name with Some k => inr (Some k) | None => inl MCS_ENOENT end
  | PathBelow name => inl (match find_name F name with Some _ => MCS_ENOTDIR | None => MCS_ENOENT end)
  end.

(** A new file is empty; its bytes are those the pool still holds, zero after
    initialisation. *)
Definition new_file (name : list Z) : afile :=
  mk_afile name (replicate file_capacity 0) 0.

Definition spec_create (F : list afile) (path : list Z) : (Z + nat) * list afile :=
  match parse_path path with
  | PathBad rc => (inl rc, F)
  | PathRoot => (inl MCS_EISDIR, F)
  | PathFile name =>
      match find_name F name with
      | Some k => (inr k, F)
      | None =>
          if (length F <? max_files)%nat then (inr (length F), F ++ [new_file name])
          else (inl MCS_ENOSPC, F)
      end
  | PathBelow name =>
      (inl (match find_name F name with Some _ => MCS_ENOTDIR | None => MCS_ENOENT end), F)
  end.

(** ** Calls *)

Definition with_open (fd : nat) (o : option aopen) (a : avfs) : avfs :=
  mk_avfs (a_files a) (<[fd := o]> (a_open a)).
Definition with_file (k : nat) (f : afile) (a : avfs) : avfs :=
  mk_avfs (<[k := f]> (a_files a)) (a_open a).

Definition free_fd (a : avfs) : option nat := fst <$> list_find (fun o => o = None) (a_open a).

Definition open_file (a : avfs) (fd : Z) : option aopen :=
  if (fd <? 0) || (MCS_MAX_OPEN_FILES <=? fd) then None else default None (a_open a !! Z.to_nat fd).

Definition size_of (a : avfs) (t : option nat) : Z :=
  match t with
  | None => 0
  | Some k => match a_files a !! k with Some f => af_size f | None => 0 end
  end.

Definition spec_resolve (path : list Z) (flags : Z) (F : list afile) : (Z + option nat) * list afile :=
  match spec_lookup F path with
  | inr t => (inr t, F)
  | inl rc =>
      if flags .& MCS_O_CREAT =? 0 then (inl rc, F) else
      match spec_create F path with
      | (inl rc, F) => (inl rc, F)
      | (inr k, F) => (inr (Some k), F)
      end
  end.

Definition truncate (t : option nat) (a : avfs) : avfs :=
  match t with
  | None => a
  | Some k =>
      match a_files a !! k with
      | Some f => with_file k (mk_afile (af_name f) (af_bytes f) 0) a
      | None => a
      end
  end.

Definition effective_flags (flags : Z) : Z :=
  if flags .& (MCS_O_RDONLY .| MCS_O_WRONLY .| MCS_O_RDWR) =? 0
  then flags .| MCS_O_RDONLY else flags.

Definition spec_open (path : list Z) (flags : Z) (a : avfs) : (Z + Z) * avfs :=
  let flags := effective_flags flags in
  match spec_resolve path flags (a_files a) with
  | (inl rc, F) => (inl rc, mk_avfs F (a_open a))
  | (inr t, F) =>
      let a := mk_avfs F (a_open a) in
      if match t with None => mcs_can_write flags | Some _ => false end then (inl MCS_EISDIR, a) else
      match free_fd a with
      | None => (inl MCS_ENFILE, a)
      | Some fd =>
          if flags .& MCS_O_TRUNC =? 0 then
            let offset := if flags .& MCS_O_APPEND =? 0 then 0 else size_of a t in
            (inr (Z.of_nat fd), with_open fd (Some (mk_aopen flags offset t)) a)
          else if mcs_can_write flags
          then (inr (Z.of_nat fd), with_open fd (Some (mk_aopen flags 0 t)) (truncate t a))
          else (inl MCS_EACCES, a)
      end
  end.

(** The file behind a descriptor, for a transfer that needs the right [can]. *)
Definition target_file (can : Z -> bool) (fd : Z) (a : avfs) : Z + (aopen * nat * afile) :=
  match open_file a fd with
  | None => inl MCS_EBADF
  | Some o =>
      if negb (can (ao_flags o)) then inl MCS_EACCES else
      match ao_target o with
      | None => inl MCS_EISDIR
      | Some k =>
          match a_files a !! k with Some f => inr (o, k, f) | None => inl MCS_EINVAL end
      end
  end.

Definition move_to (o : aopen) (offset : Z) : aopen := mk_aopen (ao_flags o) offset (ao_target o).

Definition spec_read (fd : Z) (buf : list Z) (len : Z) (a : avfs) : (Z + (Z * list Z)) * avfs :=
  match target_file mcs_can_read fd a with
  | inl rc => (inl rc, a)
  | inr (o, k, f) =>
      if af_size f <=? ao_offset o then (inr (0, buf), a) else
      let n := Z.min len (af_size f - ao_offset o) in
      (inr (n, sub (Z.to_nat (ao_offset o)) (Z.to_nat n) (af_bytes f) ++ drop (Z.to_nat n) buf),
       with_open (Z.to_nat fd) (Some (move_to o (ao_offset o + n))) a)
  end.

Definition spec_write (fd : Z) (buf : list Z) (len : Z) (a : avfs) : (Z + Z) * avfs :=
  match target_file mcs_can_write fd a with
  | inl rc => (inl rc, a)
  | inr (o, k, f) =>
      let o := if ao_flags o .& MCS_O_APPEND =? 0 then o else move_to o (af_size f) in
      let a := with_open (Z.to_nat fd) (Some o) a in
      if Z.of_nat file_capacity <? ao_offset o then (inl MCS_EINVAL, a) else
      if Z.of_nat file_capacity - ao_offset o <? len then (inl MCS_ENOSPC, a) else
      (inr len,
       with_file k (mk_afile (af_name f)
                      (splice (Z.to_nat (ao_offset o)) (take (Z.to_nat len) buf) (af_bytes f))
                      (Z.max (af_size f) (ao_offset o + len)))
         (with_open (Z.to_nat fd) (Some (move_to o (ao_offset o + len))) a))
  end.

(** [None]: the sum leaves the range of [long]. *)
Definition spec_lseek (fd offset whence : Z) (a : avfs) : option ((Z + Z) * avfs) :=
  match open_file a fd with
  | None => Some (inl MCS_EBADF, a)
  | Some o =>
      match ao_target o with
      | None => Some (inl MCS_EISDIR, a)
      | Some k =>
          let base := if whence =? MCS_SEEK_SET then Some 0
                      else if whence =? MCS_SEEK_CUR then Some (ao_offset o)
                      else if whence =? MCS_SEEK_END then Some (size_of a (Some k)) else None in
          match base with
          | None => Some (inl MCS_EINVAL, a)
          | Some b =>
              if 2 ^ 63 <=? b + offset then None else
              if b + offset <? 0 then Some (inl MCS_EINVAL, a) else
              Some (inr (s32 (b + offset)),
                    with_open (Z.to_nat fd) (Some (move_to o (b + offset))) a)
          end
      end
  end.

Definition spec_close (fd : Z) (a : avfs) : (Z + Z) * avfs :=
  match open_file a fd with
  | None => (inl MCS_EBADF, a)
  | Some _ => (inr MCS_OK, with_open (Z.to_nat fd) None a)
  end.

Definition spec_dup (fd : Z) (a : avfs) : (Z + Z) * avfs :=
  match open_file a fd with
  | None => (inl MCS_EBADF, a)
  | Some o =>
      match free_fd a with
      | None => (inl MCS_ENFILE, a)
      | Some newfd => (inr (Z.of_nat newfd), with_open newfd (Some o) a)
      end
  end.

(** The file is created when it does not exist, also when its contents then do
    not fit; otherwise its first [len] bytes and its size are replaced. *)
Definition spec_seed (path src : list Z) (len : Z) (a : avfs) : Z * avfs :=
  match spec_create (a_files a) path with
  | (inl rc, F) => (rc, mk_avfs F (a_open a))
  | (inr k, F) =>
      match F !! k with
      | None => (MCS_EINVAL, a)
      | Some f =>
          if Z.of_nat file_capacity <? len then (MCS_ENOSPC, mk_avfs F (a_open a)) else
          (MCS_OK,
           with_file k (mk_afile (af_name f) (splice 0 (take (Z.to_nat len) src) (af_bytes f)) len)
             (mk_avfs F (a_open a)))
      end
  end.
