(* ===== verification/VfsFacts.v ===== *)
(** * Virtual file system: representation and simulation lemmas

    [ramfs_ok F fs]: the node array and the data pool represent the files [F];
    [vfs_ok a s] adds the descriptor table.  One simulation lemma per call. *)
From S2P Require Import Prelude Vfs VfsSpec.

(** ** Strings *)

Definition name_char (c : Z) : Prop := c <> 0 /\ c <> 47.
Definition name_ok (name : list Z) : Prop :=
  (0 < length name < 32)%nat /\ Forall name_char name.

Definition pad_name (name : list Z) : list Z := name ++ replicate (32 - length name) 0.

Lemma streq_pad nm rest name k :
  Forall name_char nm -> Forall name_char name ->
  mcs_streq_n (nm ++ rest) (name ++ replicate k 0) (length nm) = bool_decide (nm = name).
Proof.
  intros Hnm. revert name. induction Hnm as [|c nm [Hc _] _ IH]; intros [|d name] Hname;
    cbn [app length mcs_streq_n hd tl].
  - rewrite bool_decide_eq_true_2 by done. by destruct k.
  - apply Forall_cons in Hname as ((Hd & _) & _).
    rewrite (proj2 (Z.eqb_neq _ _)) by done. by rewrite bool_decide_eq_false_2.
  - rewrite bool_decide_eq_false_2 by done.
    destruct k; cbn [replicate hd tl]; rewrite (proj2 (Z.eqb_neq _ _)); done.
  - apply Forall_cons in Hname as (_ & Hname). destruct (Z.eqb_spec c d) as [->|Hne].
    + rewrite IH by done. apply bool_decide_ext. naive_solver.
    + rewrite bool_decide_eq_false_2; naive_solver.
Qed.

(** A segment is the longest prefix of name characters. *)
Lemma next_sep_spec seg n next :
  next_sep seg = (n, next) ->
  seg = take n seg ++ next /\ length (take n seg) = n /\ Forall name_char (take n seg) /\
  (hd 0 next = 0 \/ hd 0 next = 47).
Proof.
  revert n next. induction seg as [|c seg IH]; intros n next; simpl.
  { intros [= <- <-]. simpl. auto. }
  destruct ((c =? 47) || (c =? 0)) eqn:E.
  - intros [= <- <-]. simpl. split_all; try done.
    apply orb_true_iff in E as [E|E]; zbool; auto.
  - destruct (next_sep seg) as [m nx] eqn:Es. intros [= <- <-]. zbool.
    destruct (IH m nx eq_refl) as (H1 & H2 & H3 & H4). simpl. split_all; try done.
    + by rewrite <- H1.
    + by rewrite H2.
    + by constructor.
Qed.

(** ** Files in the node array *)

Definition node_of (k : nat) (f : afile) : mcs_vnode :=
  mk_vnode true (Z.of_nat k + 1) 0 MCS_VNODE_FILE (pad_name (af_name f)) (af_size f)
    (256 * Z.of_nat k) 256.

Record afile_ok (f : afile) : Prop := {
  afo_name : name_ok (af_name f);
  afo_size : 0 <= af_size f <= 256;
  afo_bytes : length (af_bytes f) = file_capacity
}.

Record ramfs_ok (F : list afile) (fs : mcs_ramfs) : Prop := {
  ro_nodes : length (nodes fs) = 64%nat;
  ro_data : Z.of_nat (length (data fs)) = 8192;
  ro_max : (length F <= max_files)%nat;
  ro_count : node_count fs = Z.of_nat (length F) + 1;
  ro_used : data_used fs = 256 * Z.of_nat (length F);
  ro_root : exists nd, nodes fs !! 0%nat = Some nd /\ v_used nd = true /\ v_id nd = 0 /\
    v_type nd = MCS_VNODE_DIR /\ hd 0 (v_name nd) = 47 /\ v_size nd = 0;
  ro_file k f : F !! k = Some f -> nodes fs !! S k = Some (node_of k f) /\ afile_ok f /\
    sub (256 * k) 256 (data fs) = af_bytes f;
  ro_fresh k : (length F <= k < max_files)%nat ->
    sub (256 * k) 256 (data fs) = replicate file_capacity 0;
  ro_names : NoDup (af_name <$> F)
}.

(** The index of a target's node. *)
Definition target_idx (t : option nat) : Z :=
  match t with None => 0 | Some k => Z.of_nat k + 1 end.

(** Storing a node of the array, and a slot of the table. *)
Definition put_node (fs : mcs_ramfs) (i : Z) (nd : mcs_vnode) : mcs_ramfs :=
  mk_ramfs (<[Z.to_nat i := nd]> (nodes fs)) (node_count fs) (data fs) (data_used fs).
Definition put_file (fd : Z) (f : mcs_file) (s : vfs_state) : vfs_state :=
  mk_vfs (<[Z.to_nat fd := f]> (table s)) (ramfs s).

Lemma set_node_in fs i nd :
  length (nodes fs) = 64%nat -> 0 <= i < 64 -> set_node fs i nd = Some (put_node fs i nd).
Proof. intros Hl Hi. unfold set_node. by rewrite arr_set_in by (rewrite Hl; lia). Qed.

Lemma set_file_in fd f s :
  length (table s) = 16%nat -> 0 <= fd < 16 -> set_file fd f s = Some (put_file fd f s).
Proof. intros Hl Hi. unfold set_file. by rewrite arr_set_in by (rewrite Hl; lia). Qed.

Section ramfs.
Context (F : list afile) (fs : mcs_ramfs) (Hfs : ramfs_ok F fs).

Lemma node_at_file k f : F !! k = Some f -> node_at fs (Z.of_nat k + 1) = Some (node_of k f).
Proof.
  intros Hk. unfold node_at. rewrite arr_get_pos by lia.
  replace (Z.to_nat (Z.of_nat k + 1)) with (S k) by lia.
  by destruct (ro_file _ _ Hfs k f Hk) as (-> & _).
Qed.

Lemma file_index k f : F !! k = Some f -> 0 <= Z.of_nat k + 1 < 64.
Proof.
  intros Hk%lookup_lt_Some. pose proof (ro_max _ _ Hfs). unfold max_files in *. lia.
Qed.

Lemma node_at_root :
  exists nd, node_at fs 0 = Some nd /\ v_used nd = true /\ v_id nd = 0 /\
    v_type nd = MCS_VNODE_DIR /\ hd 0 (v_name nd) = 47 /\ v_size nd = 0.
Proof. exact (ro_root _ _ Hfs). Qed.

Lemma find_name_Some name k :
  find_name F name = Some k <-> exists f, F !! k = Some f /\ af_name f = name.
Proof.
  unfold find_name. rewrite fmap_Some. split.
  - intros ([j f] & (Hj & Hn & _)%list_find_Some & ->). by exists f.
  - intros (f & Hk & Hn). exists (k, f). split; [|done]. apply list_find_Some.
    split_all; [done..|]. intros j g Hj Hlt Hg.
    assert (j = k); [|lia]. eapply (NoDup_lookup _ _ _ name (ro_names _ _ Hfs));
      rewrite list_lookup_fmap; [rewrite Hj|rewrite Hk]; simpl; congruence.
Qed.

Lemma find_name_None name :
  find_name F name = None <-> forall k f, F !! k = Some f -> af_name f <> name.
Proof.
  split.
  - intros H k f Hk Hn. assert (find_name F name = Some k); [|congruence].
    apply find_name_Some. by exists f.
  - intros H. destruct (find_name F name) as [k|] eqn:E; [|done].
    apply find_name_Some in E as (f & Hk & Hn). by destruct (H k f).
Qed.

(** The root directory is searched by name. *)
Lemma find_child_spec name rest :
  name_ok name ->
  mcs_find_child fs 0 (name ++ rest) (length name) =
    Some (match find_name F name with
          | Some k => inr (Z.of_nat k + 1)
          | None => inl MCS_ENOENT
          end).
Proof.
  intros (Hlen & Hchars). unfold mcs_find_child.
  rewrite (proj2 (Nat.eqb_neq _ _)), (proj2 (Z.leb_gt _ _)) by (unfold MCS_MAX_NAME; lia).
  cbn [orb].
  set (p := fun i : Z => match node_at fs i with
    | Some nd => v_used nd && (v_parent nd =? 0) && mcs_streq_n (name ++ rest) (v_name nd) (length name)
    | None => false end).
  rewrite (first_where_total _ _ _ p); last first.
  { intros j Hj. subst p; cbv beta. rewrite (ro_count _ _ Hfs) in Hj.
    destruct (node_at fs j) as [nd|] eqn:E; [done|]. exfalso. unfold node_at in E.
    rewrite arr_get_pos in E by lia. apply lookup_ge_None in E.
    rewrite (ro_nodes _ _ Hfs) in E. pose proof (ro_max _ _ Hfs). unfold max_files in *. lia. }
  assert (p 0 = false) as H0.
  { subst p; cbv beta zeta. destruct node_at_root as (nd & -> & _ & _ & _ & Hroot & _).
    destruct name as [|c name]; [simpl in Hlen; lia|]. cbn [app length mcs_streq_n hd].
    rewrite Hroot. apply Forall_cons in Hchars as ((_ & Hc) & _).
    rewrite (proj2 (Z.eqb_neq c 47)) by done. by rewrite andb_false_r. }
  assert (forall k f, F !! k = Some f ->
            p (Z.of_nat k + 1) = bool_decide (name = af_name f)) as Hk.
  { intros k f Hk. subst p; cbv beta zeta. rewrite (node_at_file k f Hk). cbn [v_used v_parent v_name node_of andb Z.eqb].
    destruct (ro_file _ _ Hfs k f Hk) as (_ & [(_ & Hn) _ _] & _). by apply streq_pad. }
  rewrite (ro_count _ _ Hfs). destruct (find_name F name) as [k|] eqn:E.
  - apply find_name_Some in E as (f & Hf & Hn). apply lookup_lt_Some in Hf as Hlt.
    rewrite (first_from_unique _ _ _ (Z.of_nat k + 1)); [done|lia| |].
    + rewrite (Hk k f Hf). by apply bool_decide_eq_true_2.
    + intros j Hj Hne. destruct (decide (j = 0)) as [->|Hj0]; [done|].
      destruct (lookup_lt_is_Some_2 F (Z.to_nat (j - 1))) as [g Hg]; [lia|].
      replace j with (Z.of_nat (Z.to_nat (j - 1)) + 1) by lia. rewrite (Hk _ g Hg).
      apply bool_decide_eq_false_2. intros Hng.
      assert (find_name F name = Some (Z.to_nat (j - 1))) as H1
        by (apply find_name_Some; by exists g).
      assert (find_name F name = Some k) as H2 by (apply find_name_Some; by exists f).
      rewrite H1 in H2. simplify_eq. lia.
  - rewrite (proj2 (first_from_None _ _ _)); [done|]. intros j Hj.
    destruct (decide (j = 0)) as [->|Hj0]; [done|].
    destruct (lookup_lt_is_Some_2 F (Z.to_nat (j - 1))) as [g Hg]; [lia|].
    replace j with (Z.of_nat (Z.to_nat (j - 1)) + 1) by lia. rewrite (Hk _ g Hg).
    apply bool_decide_eq_false_2. intros Hng.
    by apply (proj1 (find_name_None name) E (Z.to_nat (j - 1)) g).
Qed.

Lemma nthZ_1 path : nthZ path 1 = hd 0 (tl path).
Proof. by destruct path as [|? [|? ?]]. Qed.

Lemma strlen_short path : nthZ path 1 = 0 -> mcs_strlen path <= 1.
Proof.
  rewrite nthZ_1. destruct path as [|c [|d path]]; cbn [hd tl mcs_strlen]; intros H.
  - lia.
  - destruct (c =? 0); lia.
  - subst d. rewrite Z.eqb_refl. destruct (c =? 0); lia.
Qed.

(** What the first segment of a path says. *)
Lemma parse_path_seg path nm :
  parse_path path = PathFile nm \/ parse_path path = PathBelow nm ->
  exists next, next_sep (tl path) = (length nm, next) /\ tl path = nm ++ next /\ name_ok nm /\
    nthZ path 0 = 47 /\ mcs_strlen path < MCS_MAX_PATH /\ nthZ path 1 <> 0 /\
    (hd 0 next = 0 <-> parse_path path = PathFile nm).
Proof.
  unfold parse_path. case_if; [intros [|]; done|]. case_if; [intros [|]; done|].
  case_if; [intros [|]; done|]. destruct (next_sep (tl path)) as [n next] eqn:E.
  apply next_sep_spec in E as (H1 & H2 & H3 & H4).
  case_if; [intros [|]; done|]. unfold MCS_MAX_NAME in *. zbool.
  apply Nat.eqb_neq in H. intros H5.
  assert (nm = take n (tl path)) as -> by (destruct (hd 0 next =? 0); naive_solver).
  exists next. rewrite H2. split_all; try done.
  { split; [rewrite H2; lia|done]. }
  destruct (Z.eqb_spec (hd 0 next) 0); naive_solver.
Qed.

Definition idx_result (r : Z + option nat) : Z + Z :=
  match r with inl rc => inl rc | inr t => inr (target_idx t) end.

Lemma lookup_spec path :
  mcs_ramfs_lookup fs path = Some (idx_result (spec_lookup F path)).
Proof.
  unfold mcs_ramfs_lookup, spec_lookup.
  destruct (parse_path path) as [rc| |nm|nm] eqn:E.
  1,2: revert E; unfold parse_path; case_if; [intros; by simplify_eq|]; case_if;
    [intros; by simplify_eq|]; case_if; [intros; by simplify_eq|].
  1,2: cbn [lookup_walk]; zbool; rewrite <- nthZ_1, (proj2 (Z.eqb_neq _ _)) by done;
    destruct (next_sep (tl path)) as [n next]; case_if; [intros; by simplify_eq|];
    case_if; done.
  all: destruct (parse_path_seg path nm) as (next & Hn & Ht & Hok & H0 & Hl & H1 & Hend);
    [by auto|].
  all: rewrite H0, (proj2 (Z.leb_gt _ _)), (proj2 (Z.eqb_neq (nthZ path 1) 0)) by done; cbn [negb Z.eqb Pos.eqb].
  all: cbn [lookup_walk]; rewrite <- nthZ_1, (proj2 (Z.eqb_neq (nthZ path 1) 0)) by done.
  all: rewrite Hn, (proj2 (Nat.eqb_neq _ _)), (proj2 (Z.leb_gt _ _))
    by (destruct Hok; unfold MCS_MAX_NAME; lia); cbn [orb].
  all: destruct node_at_root as (root & -> & _ & -> & _); rewrite Ht, find_child_spec by done.
  all: destruct (find_name F nm) as [k|] eqn:Ek; [|done].
  - by rewrite (proj2 Hend), Z.eqb_refl.
  - rewrite (proj2 (Z.eqb_neq (hd 0 next) 0)) by (rewrite Hend, E; done).
    apply find_name_Some in Ek as (f & Hk & _).
    by rewrite (node_at_file k f Hk).
Qed.

Definition split_result (path : list Z) : Z + (Z * list Z * nat) :=
  match parse_path path with
  | PathBad rc => inl rc
  | PathRoot => inl MCS_EINVAL
  | PathFile nm => inr (0, tl path, length nm)
  | PathBelow nm =>
      inl (match find_name F nm with Some _ => MCS_ENOTDIR | None => MCS_ENOENT end)
  end.

Lemma split_spec path : mcs_split_parent_leaf fs path = Some (split_result path).
Proof.
  unfold mcs_split_parent_leaf, split_result.
  destruct (parse_path path) as [rc| |nm|nm] eqn:E.
  1,2: revert E; unfold parse_path; case_if; [intros; by simplify_eq|].
  - destruct (Z.eqb_spec (nthZ path 1) 0) as [H1|H1].
    + rewrite (proj2 (Z.leb_gt _ _)); [done|]. apply strlen_short in H1.
      unfold MCS_MAX_PATH. lia.
    + case_if; [intros; by simplify_eq|]. cbn [split_walk].
      destruct (next_sep (tl path)) as [n next]. case_if; [intros; by simplify_eq|].
      case_if; done.
  - case_if; [done|]. case_if; [done|]. destruct (next_sep (tl path)) as [n next].
    case_if; [done|]. case_if; done.
  - destruct (parse_path_seg path nm) as (next & Hn & Ht & Hok & H0 & Hl & H1 & Hend);
      [by auto|].
    rewrite H0, (proj2 (Z.eqb_neq (nthZ path 1) 0)), (proj2 (Z.leb_gt _ _)) by done.
    cbn [negb Z.eqb Pos.eqb split_walk]. rewrite Hn, (proj2 (Nat.eqb_neq _ _)), (proj2 (Z.leb_gt _ _))
      by (destruct Hok; unfold MCS_MAX_NAME; lia). cbn [orb].
    by rewrite (proj2 Hend), Z.eqb_refl.
  - destruct (parse_path_seg path nm) as (next & Hn & Ht & Hok & H0 & Hl & H1 & Hend);
      [by auto|].
    rewrite H0, (proj2 (Z.eqb_neq (nthZ path 1) 0)), (proj2 (Z.leb_gt _ _)) by done.
    cbn [negb Z.eqb Pos.eqb split_walk]. rewrite Hn, (proj2 (Nat.eqb_neq _ _)), (proj2 (Z.leb_gt _ _))
      by (destruct Hok; unfold MCS_MAX_NAME; lia). cbn [orb].
    rewrite (proj2 (Z.eqb_neq (hd 0 next) 0)) by (rewrite Hend, E; done).
    destruct node_at_root as (root & -> & _ & -> & _). rewrite Ht, find_child_spec by done.
    destruct (find_name F nm) as [k|] eqn:Ek; [|done].
    apply find_name_Some in Ek as (f & Hk & _). by rewrite (node_at_file k f Hk).
Qed.

Lemma copy_name_pad nm rest : name_ok nm -> mcs_copy_name (nm ++ rest) (length nm) = pad_name nm.
Proof.
  intros (Hlen & _). unfold mcs_copy_name, pad_name.
  change (Z.to_nat MCS_MAX_NAME) with 32%nat. rewrite Nat.min_l by lia.
  by rewrite take_app_length.
Qed.

(** The state after a file is added. *)
Definition add_file (nm : list Z) : mcs_ramfs :=
  mk_ramfs (<[S (length F) := node_of (length F) (new_file nm)]> (nodes fs))
    (Z.of_nat (length F) + 2) (data fs) (256 * (Z.of_nat (length F) + 1)).

Lemma alloc_spec nm rest :
  name_ok nm ->
  mcs_alloc_node fs 0 MCS_VNODE_FILE (nm ++ rest) (length nm) 256 =
    Some (if (length F <? max_files)%nat then (inr (Z.of_nat (length F) + 1), add_file nm)
          else (inl MCS_ENOSPC, fs)).
Proof.
  intros Hok. pose proof (ro_max _ _ Hfs) as Hmax. unfold max_files in *.
  pose proof (ro_count _ _ Hfs) as Hc. pose proof (ro_used _ _ Hfs) as Hu.
  unfold mcs_alloc_node. rewrite (proj2 (Nat.eqb_neq _ _)), (proj2 (Z.leb_gt _ _))
    by (destruct Hok; unfold MCS_MAX_NAME; lia). cbn [orb].
  rewrite (proj2 (Z.leb_gt _ _)) by (unfold MCS_MAX_NODES; lia).
  rewrite bool_decide_eq_true_2, Hu by done. cbn [andb]. rewrite !u64_id by lia.
  unfold MCS_RAMFS_DATA_BYTES.
  destruct (Nat.ltb_spec (length F) 32).
  - rewrite (proj2 (Z.ltb_ge _ _)) by lia. rewrite Hc, u32_id by lia.
    unfold add_file, node_of. cbn [af_name af_size new_file].
    rewrite copy_name_pad, set_node_in by (done || apply Hfs || lia). unfold put_node.
    cbn [nodes data data_used].
    replace (Z.to_nat (Z.of_nat (length F) + 1)) with (S (length F)) by lia.
    replace (Z.of_nat (length F) + 1 + 1) with (Z.of_nat (length F) + 2) by lia.
    rewrite Hu, u64_id by lia.
    by replace (256 * Z.of_nat (length F) + 256) with (256 * (Z.of_nat (length F) + 1)) by lia.
  - by rewrite (proj2 (Z.ltb_lt _ _)) by lia.
Qed.

Lemma add_file_ok nm :
  name_ok nm -> find_name F nm = None -> (length F < max_files)%nat ->
  ramfs_ok (F ++ [new_file nm]) (add_file nm).
Proof.
  intros Hok Hnm Hlt. destruct Hfs as [H1 H2 H3 H4 H5 H6 H7 H8 H9]. unfold max_files in *.
  unfold add_file. split; cbn [nodes data node_count data_used]; rewrite ?length_app;
    cbn [length]; unfold max_files; try done; try lia.
  - by rewrite length_insert.
  - destruct H6 as (nd & Hn & H). exists nd. by rewrite list_lookup_insert_ne.
  - intros k f Hk. apply lookup_app_Some in Hk as [Hk|(Hge & Hk)].
    + destruct (H7 k f Hk) as (Hn & Hf & Hd). apply lookup_lt_Some in Hk.
      rewrite list_lookup_insert_ne by lia. done.
    + destruct (k - length F)%nat eqn:Ek; [|done]. cbn in Hk. simplify_eq.
      assert (k = length F) as -> by lia. rewrite list_lookup_insert_eq by lia.
      split_all; [done| |]. { split; [done|cbn; lia|apply length_replicate]. }
      apply H8. lia.
  - intros k Hk. apply H8. lia.
  - rewrite fmap_app. apply NoDup_app. split_all; [done| |apply NoDup_singleton].
    intros x (f & -> & Hf)%list_elem_of_fmap Hx. apply list_elem_of_singleton in Hx.
    apply list_elem_of_lookup in Hf as (k & Hk).
    by apply (proj1 (find_name_None nm) Hnm k f).
Qed.

Lemma create_spec path :
  exists fs', mcs_ramfs_create_file fs path =
      Some (match (spec_create F path).1 with inl rc => inl rc | inr k => inr (Z.of_nat k + 1) end,
            fs') /\ ramfs_ok (spec_create F path).2 fs'.
Proof.
  unfold mcs_ramfs_create_file. rewrite lookup_spec. cbn [idx_result].
  unfold spec_lookup, spec_create. pose proof (split_spec path) as Hsplit.
  unfold split_result in Hsplit. destruct node_at_root as (root & Hroot & _ & Hid & Hdir & _).
  destruct (parse_path path) as [rc| |nm|nm] eqn:E; cbn [idx_result target_idx].
  - rewrite Hsplit. by exists fs.
  - exists fs. by rewrite Hroot, Hdir.
  - destruct (parse_path_seg path nm) as (next & _ & Ht & Hok & _); [by auto|].
    destruct (find_name F nm) as [k|] eqn:Ek; cbn [idx_result target_idx].
    + exists fs. apply find_name_Some in Ek as (f & Hk & _). by rewrite (node_at_file k f Hk).
    + rewrite Hsplit, Hroot, Hdir, Hid, Ht, alloc_spec by done. cbn [bool_decide].
      destruct (Nat.ltb_spec (length F) max_files); cbn [fst snd]; [|by exists fs].
      exists (add_file nm). split; [done|]. by apply add_file_ok.
  - rewrite Hsplit. by exists fs.
Qed.

(** ** Changing one file *)

Lemma set_file_ok k f f' d' :
  F !! k = Some f -> af_name f' = af_name f -> afile_ok f' ->
  length d' = length (data fs) -> sub (256 * k) 256 d' = af_bytes f' ->
  (forall j, j <> k -> sub (256 * j) 256 d' = sub (256 * j) 256 (data fs)) ->
  ramfs_ok (<[k := f']> F) (put_node (set_data fs d') (Z.of_nat k + 1) (node_of k f')).
Proof.
  intros Hk Hname Hok Hlen Hsub Hoth. apply lookup_lt_Some in Hk as Hlt.
  destruct Hfs as [H1 H2 H3 H4 H5 H6 H7 H8 H9]. unfold max_files in *.
  unfold put_node, set_data; split; cbn [nodes data node_count data_used];
    rewrite ?length_insert, ?Hlen; try done.
  - replace (Z.to_nat (Z.of_nat k + 1)) with (S k) by lia.
    destruct H6 as (nd & Hn & H). exists nd. by rewrite list_lookup_insert_ne.
  - replace (Z.to_nat (Z.of_nat k + 1)) with (S k) by lia. intros j g Hj.
    apply list_lookup_insert_Some in Hj as [(<- & <- & _)|(Hne & Hj)].
    + rewrite list_lookup_insert_eq by lia. done.
    + destruct (H7 j g Hj) as (Hn & Hg & Hd). rewrite list_lookup_insert_ne by lia.
      split_all; try done. rewrite Hoth; done.
  - intros j Hj. rewrite Hoth by lia. by apply H8.
  - rewrite list_fmap_insert, Hname, list_insert_id; [done|]. by rewrite list_lookup_fmap, Hk.
Qed.

End ramfs.

(** ** The descriptor table *)

Definition concrete_open (o : aopen) : mcs_file :=
  mk_file true (ao_flags o) (ao_offset o) (Some (target_idx (ao_target o))) true.

Definition aopen_ok (n : nat) (o : aopen) : Prop :=
  0 <= ao_offset o < 2 ^ 63 /\ match ao_target o with Some k => (k < n)%nat | None => True end.

Definition file_rep (n : nat) (o : option aopen) (f : mcs_file) : Prop :=
  match o with
  | None => f_used f = false
  | Some o => f = concrete_open o /\ aopen_ok n o
  end.

Record vfs_ok (a : avfs) (s : vfs_state) : Prop := {
  vo_fs : ramfs_ok (a_files a) (ramfs s);
  vo_open : length (a_open a) = 16%nat;
  vo_table : length (table s) = 16%nat;
  vo_files fd o f : a_open a !! fd = Some o -> table s !! fd = Some f ->
    file_rep (length (a_files a)) o f
}.

Section calls.
Context (a : avfs) (s : vfs_state) (Hs : vfs_ok a s).

Lemma slots_total fd : (fd < 16)%nat ->
  exists o f, a_open a !! fd = Some o /\ table s !! fd = Some f /\
    file_rep (length (a_files a)) o f.
Proof.
  intros Hlt. destruct (lookup_lt_is_Some_2 (a_open a) fd) as [o Ho]; [by rewrite (vo_open _ _ Hs)|].
  destruct (lookup_lt_is_Some_2 (table s) fd) as [f Hf]; [by rewrite (vo_table _ _ Hs)|].
  exists o, f. split_all; [done..|]. by apply (vo_files _ _ Hs fd).
Qed.

Lemma fd_get_spec fd : mcs_fd_get (table s) fd = Some (concrete_open <$> open_file a fd).
Proof.
  unfold mcs_fd_get, open_file, MCS_MAX_OPEN_FILES. case_if; [done|]. zbool.
  unfold file_at. rewrite arr_get_pos by lia.
  destruct (slots_total (Z.to_nat fd)) as (o & f & -> & -> & Hr); [lia|].
  destruct o as [o|]; cbn in *; [by destruct Hr as (-> & _)|by rewrite Hr].
Qed.

Lemma open_file_Some fd o :
  open_file a fd = Some o -> 0 <= fd < 16 /\ a_open a !! Z.to_nat fd = Some (Some o) /\
    aopen_ok (length (a_files a)) o.
Proof.
  unfold open_file, MCS_MAX_OPEN_FILES. case_if; [done|]. zbool.
  destruct (slots_total (Z.to_nat fd)) as (o' & f & -> & _ & Hr); [lia|]. cbn. intros ->.
  split_all; [lia..|done|apply Hr].
Qed.

Lemma free_fd_Some fd : free_fd a = Some fd -> (fd < 16)%nat /\ a_open a !! fd = Some None /\
  forall j, (j < fd)%nat -> exists o, a_open a !! j = Some (Some o).
Proof.
  unfold free_fd. rewrite fmap_Some. intros ([j o] & (Hj & -> & Hmin)%list_find_Some & ->). cbn.
  apply lookup_lt_Some in Hj as Hlt. rewrite (vo_open _ _ Hs) in Hlt. split_all; [lia|done|].
  intros i Hi. destruct (slots_total i) as ([o|] & _ & Ho & _); [lia|by exists o|].
  by destruct (Hmin i None Ho).
Qed.

Lemma fd_alloc_spec :
  match free_fd a with
  | Some fd => exists f, mcs_fd_alloc s = Some (inr (Z.of_nat fd), put_file (Z.of_nat fd) f s)
  | None => mcs_fd_alloc s = Some (inl MCS_ENFILE, s)
  end.
Proof.
  set (p := fun i : Z => match a_open a !! Z.to_nat i with Some None => true | _ => false end).
  assert (mcs_fd_alloc s = match first_from 16 0 p with
    | Some i => let* f := file_at (table s) i in
        let* s := set_file i (mk_file true (f_flags f) (f_offset f) (f_node f) (f_fs f)) s in
        eret i s
    | None => efail MCS_ENFILE s end) as ->.
  { unfold mcs_fd_alloc. change (Z.to_nat MCS_MAX_OPEN_FILES) with 16%nat.
    rewrite (first_where_total _ _ _ p); [done|]. intros j Hj.
    destruct (slots_total (Z.to_nat j)) as (o & f & Ho & Hf & Hr); [lia|].
    unfold file_at, p. rewrite arr_get_pos, Hf, Ho by lia.
    destruct o as [o|]; [by destruct Hr as (-> & _)|by rewrite Hr]. }
  destruct (free_fd a) as [fd|] eqn:E.
  - apply free_fd_Some in E as (Hlt & Ho & Hmin).
    assert (first_from 16 0 p = Some (Z.of_nat fd)) as ->.
    { destruct (first_from 16 0 p) as [i|] eqn:Ep.
      - apply first_from_Some in Ep as (Hi & Hp & Hmin'). subst p; cbv beta in *. f_equal.
        destruct (Z.lt_trichotomy i (Z.of_nat fd)) as [H|[H|H]]; [|done|].
        + destruct (Hmin (Z.to_nat i)) as (o & Ho'); [lia|]. by rewrite Ho' in Hp.
        + specialize (Hmin' (Z.of_nat fd)). rewrite Nat2Z.id, Ho in Hmin'.
          discriminate Hmin'. lia.
      - pose proof (proj1 (first_from_None _ _ _) Ep (Z.of_nat fd)) as Hn.
        subst p; cbv beta in Hn. rewrite Nat2Z.id, Ho in Hn. discriminate Hn. lia. }
    destruct (slots_total fd Hlt) as (o & f & _ & Hf & _).
    unfold file_at. rewrite arr_get_nat, Hf.
    rewrite set_file_in by (apply Hs || lia). by eexists.
  - rewrite (proj2 (first_from_None _ _ _)); [done|]. intros j Hj. subst p; cbv beta.
    destruct (slots_total (Z.to_nat j)) as ([o|] & f & Ho & _); [lia| |].
    + by rewrite Ho.
    + exfalso. unfold free_fd in E. apply fmap_None in E.
      destruct (list_find (fun o => o = None) (a_open a)) as [x|] eqn:El; [done|].
      apply list_find_None in El. rewrite Forall_lookup in El. by apply (El _ _ Ho).
Qed.

Lemma put_file_put_file fd f g : put_file fd f (put_file fd g s) = put_file fd f s.
Proof. unfold put_file; cbn. by rewrite list_insert_insert_eq. Qed.

Lemma vfs_ok_set_file fd o f :
  (fd < 16)%nat -> file_rep (length (a_files a)) o f ->
  vfs_ok (with_open fd o a) (put_file (Z.of_nat fd) f s).
Proof.
  intros Hlt Hr. destruct Hs as [H1 H2 H3 H4]. unfold with_open, put_file.
  split; cbn; rewrite ?length_insert; try done. rewrite Nat2Z.id. intros j oj fj Hj Hfj.
  apply list_lookup_insert_Some in Hj as [(<- & <- & _)|(Hne & Hj)];
    apply list_lookup_insert_Some in Hfj as [(? & <- & _)|(Hne' & Hfj)]; try done.
  by apply (H4 j).
Qed.

Lemma set_open_ok fd o :
  0 <= fd < 16 -> aopen_ok (length (a_files a)) o ->
  vfs_ok (with_open (Z.to_nat fd) (Some o) a) (put_file fd (concrete_open o) s).
Proof.
  intros Hfd Ho. rewrite <- (Z2Nat.id fd) at 2 by lia. apply vfs_ok_set_file; [lia|done].
Qed.

(** Changing the files below, without losing one. *)
Lemma vfs_ok_set_fs F' fs' :
  ramfs_ok F' fs' -> (length (a_files a) <= length F')%nat ->
  vfs_ok (mk_avfs F' (a_open a)) (set_fs fs' s).
Proof.
  intros HF Hle. destruct Hs as [H1 H2 H3 H4]. split; cbn; try done.
  intros fd o f Ho Hf. specialize (H4 fd o f Ho Hf). destruct o as [o|]; [|done].
  destruct H4 as (-> & Hr & Ht). split; [done|]. split; [done|].
  destruct (ao_target o); [lia|done].
Qed.

(** The node of a target. *)
Definition target_in (n : nat) (t : option nat) : Prop :=
  match t with Some k => (k < n)%nat | None => True end.

Lemma target_node t :
  target_in (length (a_files a)) t ->
  exists nd, node_at (ramfs s) (target_idx t) = Some nd /\ v_size nd = size_of a t /\
    v_type nd = match t with Some _ => MCS_VNODE_FILE | None => MCS_VNODE_DIR end.
Proof.
  intros Ht. destruct t as [k|]; cbn in *.
  - destruct (lookup_lt_is_Some_2 (a_files a) k Ht) as [f Hf]. exists (node_of k f).
    by rewrite (node_at_file _ _ (vo_fs _ _ Hs) k f Hf), Hf.
  - destruct (node_at_root _ _ (vo_fs _ _ Hs)) as (nd & H & _ & _ & Hd & _ & Hz). by exists nd.
Qed.

Lemma set_fs_id : set_fs (ramfs s) s = s.
Proof. by destruct s. Qed.

End calls.

(** ** Simulation, one lemma per call *)

Lemma spec_lookup_in F fs path t :
  ramfs_ok F fs -> spec_lookup F path = inr t -> target_in (length F) t.
Proof.
  intros HF. unfold spec_lookup. destruct (parse_path path) as [| |nm|nm]; try done.
  - by intros [= <-].
  - destruct (find_name F nm) as [k|] eqn:E; [|done]. intros [= <-].
    apply (find_name_Some F fs HF) in E as (f & Hk & _). by apply lookup_lt_Some in Hk.
Qed.

Lemma spec_create_in F fs path k :
  ramfs_ok F fs -> (spec_create F path).1 = inr k ->
  (k < length (spec_create F path).2)%nat.
Proof.
  intros HF. unfold spec_create. destruct (parse_path path) as [| |nm|nm]; try done.
  destruct (find_name F nm) as [j|] eqn:E.
  - intros [= <-]. apply (find_name_Some F fs HF) in E as (f & Hk & _).
    by apply lookup_lt_Some in Hk.
  - case_if; [|done]. intros [= <-]. cbn. rewrite length_app. cbn. lia.
Qed.

Lemma spec_create_grows F path : (length F <= length (spec_create F path).2)%nat.
Proof.
  unfold spec_create. destruct (parse_path path) as [| |nm|nm]; try done.
  destruct (find_name F nm); [done|]. case_if; [|done]. cbn. rewrite length_app. lia.
Qed.

Section simulation.
Context (a : avfs) (s : vfs_state) (Hs : vfs_ok a s).

Lemma resolve_sim path flags :
  exists s', resolve_or_create path flags s =
      Some (idx_result (spec_resolve path flags (a_files a)).1, s') /\
    vfs_ok (mk_avfs (spec_resolve path flags (a_files a)).2 (a_open a)) s' /\
    forall t, (spec_resolve path flags (a_files a)).1 = inr t ->
      target_in (length (spec_resolve path flags (a_files a)).2) t.
Proof.
  pose proof (vo_fs _ _ Hs) as HF. assert (mk_avfs (a_files a) (a_open a) = a) as Ha
    by (by destruct a).
  unfold resolve_or_create, spec_resolve. rewrite (lookup_spec _ _ HF).
  destruct (spec_lookup (a_files a) path) as [rc|t] eqn:El; cbn [idx_result].
  - case_if; [exists s; cbn [fst snd]; by rewrite Ha|].
    destruct (create_spec _ _ HF path) as (fs' & -> & HF').
    pose proof (spec_create_grows (a_files a) path) as Hg.
    pose proof (fun k => spec_create_in (a_files a) (ramfs s) path k HF) as Hin.
    destruct (spec_create (a_files a) path) as [[rc'|k] F']; cbn in *;
      (eexists; split; [reflexivity|]; split; [by apply vfs_ok_set_fs|]).
    + done.
    + intros t [= <-]. by apply Hin.
  - exists s. cbn [fst snd]. rewrite Ha. split_all; try done. intros t' [= <-].
    by apply (spec_lookup_in _ _ path t HF).
Qed.

Lemma set_data_id fs : set_data fs (data fs) = fs.
Proof. by destruct fs. Qed.

Lemma truncate_sim k nd :
  (k < length (a_files a))%nat -> node_at (ramfs s) (Z.of_nat k + 1) = Some nd ->
  vfs_ok (truncate (Some k) a)
    (set_fs (put_node (ramfs s) (Z.of_nat k + 1) (set_size nd 0)) s).
Proof.
  intros Hk Hnd. pose proof (vo_fs _ _ Hs) as HF.
  destruct (lookup_lt_is_Some_2 (a_files a) k Hk) as [f Hf]. unfold truncate. rewrite Hf.
  destruct (ro_file _ _ HF k f Hf) as (_ & [Hn Hsz Hb] & Hd).
  rewrite (node_at_file _ _ HF k f Hf) in Hnd. injection Hnd as <-.
  apply (vfs_ok_set_fs a s Hs); [|by rewrite length_insert].
  rewrite <- (set_data_id (ramfs s)).
  apply (set_file_ok _ _ HF k f (mk_afile (af_name f) (af_bytes f) 0)); try done.
Qed.

Lemma size_of_range t : target_in (length (a_files a)) t -> 0 <= size_of a t <= 256.
Proof.
  destruct t as [k|]; cbn; intros Hk; [|lia].
  destruct (lookup_lt_is_Some_2 (a_files a) k Hk) as [f Hf]. rewrite Hf.
  by destruct (ro_file _ _ (vo_fs _ _ Hs) k f Hf) as (_ & [_ ? _] & _).
Qed.

(** The part of [mcs_vfs_open] after the node is known. *)
Definition open_tail (flags : Z) (i : Z) : vfs Z :=
  let? nd := vfs_node i in
  if bool_decide (v_type nd = MCS_VNODE_DIR) && mcs_can_write flags
  then efail MCS_EISDIR else
  let? fd := mcs_fd_alloc in
  (fun s =>
     let* nd := node_at (ramfs s) i in
     let offset := if negb (flags .& MCS_O_APPEND =? 0) then v_size nd else 0 in
     if negb (flags .& MCS_O_TRUNC =? 0) then
       if negb (mcs_can_write flags) then
         let* s := set_file fd (mk_file false flags offset None false) s in
         efail MCS_EACCES s
       else
         let* s := set_file fd (mk_file true flags 0 (Some i) true) s in
         let* fs := set_node (ramfs s) i (set_size nd 0) in
         eret fd (set_fs fs s)
     else
       let* s := set_file fd (mk_file true flags offset (Some i) true) s in
       eret fd s).

Definition spec_open_tail (flags : Z) (t : option nat) (a : avfs) : (Z + Z) * avfs :=
  if match t with None => mcs_can_write flags | Some _ => false end then (inl MCS_EISDIR, a) else
  match free_fd a with
  | None => (inl MCS_ENFILE, a)
  | Some fd =>
      if flags .& MCS_O_TRUNC =? 0 then
        let offset := if flags .& MCS_O_APPEND =? 0 then 0 else size_of a t in
        (inr (Z.of_nat fd), with_open fd (Some (mk_aopen flags offset t)) a)
      else if mcs_can_write flags
      then (inr (Z.of_nat fd), with_open fd (Some (mk_aopen flags 0 t)) (truncate t a))
      else (inl MCS_EACCES, a)
  end.

Lemma open_tail_sim flags t :
  target_in (length (a_files a)) t ->
  exists s', open_tail flags (target_idx t) s = Some ((spec_open_tail flags t a).1, s') /\
    vfs_ok (spec_open_tail flags t a).2 s'.
Proof.
  intros Ht. unfold open_tail, spec_open_tail, vfs_node, ebind.
  destruct (target_node a s Hs t Ht) as (nd & Hnd & Hsz & Hty). rewrite Hnd.
  unfold eret at 1. rewrite Hty.
  destruct (match t with Some _ => _ | None => mcs_can_write flags end) eqn:Edir.
  { destruct t; [done|]. cbn. rewrite Edir. by exists s. }
  replace (bool_decide _ && mcs_can_write flags) with false
    by (destruct t; cbn; [done|by rewrite Edir]).
  pose proof (fd_alloc_spec a s Hs) as Halloc. destruct (free_fd a) as [fd|] eqn:Efd.
  2: { rewrite Halloc. by exists s. }
  destruct Halloc as (g & ->). apply (free_fd_Some a s Hs) in Efd as (Hlt & Hfree & _).
  cbn [put_file ramfs]. rewrite Hnd, Hsz. pose proof (size_of_range t Ht) as Hrange.
  rewrite !set_file_in by (cbn; rewrite ?length_insert; (apply Hs || lia)).
  rewrite !put_file_put_file. destruct (flags .& MCS_O_TRUNC =? 0); cbn [negb fst snd].
  - eexists. split; [reflexivity|]. apply vfs_ok_set_file; [done..|].
    destruct (flags .& MCS_O_APPEND =? 0); (split; [done|split; cbn; [lia|done]]).
  - destruct (mcs_can_write flags) eqn:Ew; cbn [negb].
    + destruct t as [k|]; [|done]. cbn [put_file ramfs target_idx] in *.
      assert (0 <= Z.of_nat k + 1 < 64) as Hk64.
      { destruct (lookup_lt_is_Some_2 (a_files a) k Ht) as [f Hf].
        by apply (file_index _ _ (vo_fs _ _ Hs) k f). }
      rewrite set_node_in by (apply (vo_fs _ _ Hs) || done).
      eexists. split; [reflexivity|].
      pose proof (truncate_sim k nd Ht Hnd) as Htr.
      change (set_fs ?x (put_file ?fd ?f s)) with (put_file fd f (set_fs x s)).
      apply vfs_ok_set_file; [exact Htr|done|].
      split; [done|]. split; cbn [ao_offset ao_target]; [lia|].
      destruct (lookup_lt_is_Some_2 (a_files a) k Ht) as [f Hf]. cbn. rewrite Hf. cbn.
      by rewrite length_insert.
    + eexists. split; [reflexivity|]. replace a with (with_open fd None a) at 1.
      * by apply vfs_ok_set_file.
      * unfold with_open. rewrite list_insert_id by done. by destruct a.
Qed.

End simulation.

Lemma open_sim a s path flags :
  vfs_ok a s ->
  exists s', mcs_vfs_open true (Some path) flags s = Some ((spec_open path flags a).1, s') /\
    vfs_ok (spec_open path flags a).2 s'.
Proof.
  intros Hs. unfold mcs_vfs_open, spec_open. cbn [negb].
  fold (effective_flags flags). set (fl := effective_flags flags).
  destruct (resolve_sim a s Hs path fl) as (s1 & Hr & Hs1 & Hin). unfold ebind at 1. rewrite Hr.
  destruct (spec_resolve path fl (a_files a)) as [[rc|t] F']; cbn [idx_result fst snd] in *.
  - by exists s1.
  - apply (open_tail_sim (mk_avfs F' (a_open a)) s1 Hs1 fl t). by apply Hin.
Qed.

(** ** Transfers *)

Section transfers.
Context (a : avfs) (s : vfs_state) (Hs : vfs_ok a s).

Lemma target_file_inr can fd o k f :
  target_file can fd a = inr (o, k, f) ->
  open_file a fd = Some o /\ ao_target o = Some k /\ a_files a !! k = Some f.
Proof.
  unfold target_file. destruct (open_file a fd) as [o'|]; [|done]. case_if; [done|].
  destruct (ao_target o') as [k'|] eqn:Et; [|done].
  destruct (a_files a !! k') as [f'|] eqn:Ef; [|done]. intros [= <- <- <-]. done.
Qed.

Lemma fd_node_spec can fd :
  fd_node can fd s =
    Some (match target_file can fd a with
          | inl rc => inl rc
          | inr (o, k, f) => inr (concrete_open o, Z.of_nat k + 1)
          end, s).
Proof.
  unfold fd_node, target_file. rewrite (fd_get_spec a s Hs).
  destruct (open_file a fd) as [o|] eqn:E; cbn [fmap option_fmap option_map]; [|done].
  destruct (open_file_Some a s Hs fd o E) as (_ & _ & Ho).
  cbn [concrete_open f_flags f_node f_fs]. case_if; [done|].
  destruct Ho as (_ & Ho). destruct (target_node a s Hs _ Ho) as (nd & -> & _ & ->).
  destruct (ao_target o) as [k|]; [|done]. cbn [bool_decide target_idx].
  destruct (lookup_lt_is_Some_2 (a_files a) k Ho) as [f Hf]. by rewrite Hf.
Qed.

(** The bytes of file [k] lie in its own part of the pool. *)
Lemma file_in_pool k f : a_files a !! k = Some f -> (256 * k + 256 <= length (data (ramfs s)))%nat.
Proof.
  intros Hk. apply lookup_lt_Some in Hk. pose proof (ro_max _ _ (vo_fs _ _ Hs)).
  pose proof (ro_data _ _ (vo_fs _ _ Hs)). unfold max_files in *. lia.
Qed.

Lemma data_out_spec k f off n buf :
  a_files a !! k = Some f -> 0 <= off -> 0 <= n -> off + n <= 256 -> n <= Z.of_nat (length buf) ->
  data_out (data (ramfs s)) (u64 (256 * Z.of_nat k + off)) n buf =
    Some (sub (Z.to_nat off) (Z.to_nat n) (af_bytes f) ++ drop (Z.to_nat n) buf).
Proof.
  intros Hk Ho Hn Hsum Hbuf. pose proof (file_in_pool k f Hk).
  pose proof (ro_data _ _ (vo_fs _ _ Hs)).
  destruct (ro_file _ _ (vo_fs _ _ Hs) k f Hk) as (_ & _ & <-). unfold data_out.
  rewrite u64_id by lia. rewrite copy_loop_spec by (rewrite ?length_drop; lia).
  rewrite sub_sub by lia. unfold sub. do 3 f_equal. f_equal. lia.
Qed.

Lemma data_in_spec k f off n buf :
  a_files a !! k = Some f -> 0 <= off -> 0 <= n -> off + n <= 256 -> n <= Z.of_nat (length buf) ->
  data_in (data (ramfs s)) (u64 (256 * Z.of_nat k + off)) n buf =
    Some (splice (256 * k + Z.to_nat off) (take (Z.to_nat n) buf) (data (ramfs s))).
Proof.
  intros Hk Ho Hn Hsum Hbuf. pose proof (file_in_pool k f Hk).
  pose proof (ro_data _ _ (vo_fs _ _ Hs)). unfold data_in.
  rewrite u64_id by lia. rewrite copy_loop_spec by (rewrite ?length_drop; lia).
  replace (Z.to_nat (256 * Z.of_nat k + off)) with (256 * k + Z.to_nat off)%nat by lia.
  unfold splice. rewrite drop_drop, length_take, Nat.min_l by lia. done.
Qed.

Lemma read_sim fd buf len :
  0 <= len <= Z.of_nat (length buf) ->
  exists s', mcs_vfs_read fd (Some buf) len s = Some ((spec_read fd buf len a).1, s') /\
    vfs_ok (spec_read fd buf len a).2 s'.
Proof.
  intros Hlen. unfold mcs_vfs_read, spec_read, ebind. cbn [buf_bad default from_option].
  rewrite fd_node_spec.
  destruct (target_file mcs_can_read fd a) as [rc|[[o k] f]] eqn:E; [by exists s|].
  apply target_file_inr in E as (Ho & Ht & Hf).
  destruct (open_file_Some a s Hs fd o Ho) as (Hfd & _ & Hr & _).
  rewrite (node_at_file _ _ (vo_fs _ _ Hs) k f Hf).
  cbn [node_of v_size v_data_offset concrete_open f_offset].
  destruct (ro_file _ _ (vo_fs _ _ Hs) k f Hf) as (_ & [_ Hsz _] & _).
  destruct (Z.leb_spec (af_size f) (ao_offset o)); [by exists s|].
  set (n := Z.min len (af_size f - ao_offset o)). unfold id.
  rewrite (data_out_spec k f), set_file_in by (done || apply Hs || lia).
  eexists. split; [reflexivity|]. cbn [snd].
  rewrite (u64_id (ao_offset o + n)) by lia.
  apply (set_open_ok a s Hs fd (move_to o (ao_offset o + n))); [done|].
  split; cbn; [lia|]. rewrite Ht. by apply lookup_lt_Some in Hf.
Qed.

Lemma file_store_ok k f off data' n :
  a_files a !! k = Some f -> 0 <= off -> 0 <= n -> off + n <= 256 ->
  length data' = Z.to_nat n ->
  ramfs_ok (<[k := mk_afile (af_name f) (splice (Z.to_nat off) data' (af_bytes f))
                     (Z.max (af_size f) (off + n))]> (a_files a))
    (put_node (set_data (ramfs s) (splice (256 * k + Z.to_nat off) data' (data (ramfs s))))
       (Z.of_nat k + 1)
       (if af_size f <? off + n then set_size (node_of k f) (off + n) else node_of k f)).
Proof.
  intros Hk Ho Hn Hsum Hl. pose proof (file_in_pool k f Hk) as Hpool.
  destruct (ro_file _ _ (vo_fs _ _ Hs) k f Hk) as (_ & [Hname Hsz Hb] & Hd).
  unfold file_capacity in Hb.
  replace (if af_size f <? off + n then _ else _)
    with (node_of k (mk_afile (af_name f) (splice (Z.to_nat off) data' (af_bytes f))
                       (Z.max (af_size f) (off + n)))); last first.
  { destruct (Z.ltb_spec (af_size f) (off + n)); unfold node_of, set_size;
      cbn [af_name af_size v_used v_id v_parent v_type v_name v_data_offset v_data_capacity];
      f_equal; lia. }
  apply (set_file_ok _ _ (vo_fs _ _ Hs) k f); try done.
  - split; cbn; [done|lia|]. rewrite length_splice by lia. done.
  - rewrite length_splice by lia. done.
  - cbn [af_bytes]. rewrite sub_splice_inside, Hd by lia. done.
  - intros j Hj. apply sub_splice_other; lia.
Qed.

Lemma write_sim fd buf len :
  0 <= len <= Z.of_nat (length buf) ->
  exists s', mcs_vfs_write fd (Some buf) len s = Some ((spec_write fd buf len a).1, s') /\
    vfs_ok (spec_write fd buf len a).2 s'.
Proof.
  intros Hlen. unfold mcs_vfs_write, spec_write, ebind. cbn [buf_bad default from_option].
  rewrite fd_node_spec.
  destruct (target_file mcs_can_write fd a) as [rc|[[o k] f]] eqn:E; [by exists s|].
  apply target_file_inr in E as (Ho & Ht & Hf). apply lookup_lt_Some in Hf as Hlt.
  destruct (open_file_Some a s Hs fd o Ho) as (Hfd & _ & Hr & _).
  rewrite (node_at_file _ _ (vo_fs _ _ Hs) k f Hf).
  cbn [node_of v_size v_data_offset v_data_capacity concrete_open f_flags].
  destruct (ro_file _ _ (vo_fs _ _ Hs) k f Hf) as (_ & [_ Hsz _] & _).
  set (o' := if ao_flags o .& MCS_O_APPEND =? 0 then o else move_to o (af_size f)).
  replace (if negb _ then _ else _) with (concrete_open o')
    by (subst o'; destruct (ao_flags o .& MCS_O_APPEND =? 0); done).
  assert (ao_target o' = Some k /\ 0 <= ao_offset o' < 2 ^ 63) as (Ht' & Ho')
    by (subst o'; destruct (ao_flags o .& MCS_O_APPEND =? 0); cbn; split; (done || lia)).
  rewrite set_file_in by (apply Hs || lia).
  assert (vfs_ok (with_open (Z.to_nat fd) (Some o') a) (put_file fd (concrete_open o') s)) as Hs1.
  { apply (set_open_ok a s Hs); [done|]. split; [lia|by rewrite Ht']. }
  clearbody o'. cbn [concrete_open f_offset ramfs put_file]. unfold file_capacity.
  change (Z.of_nat 256) with 256.
  destruct (Z.ltb_spec 256 (ao_offset o')); [by eexists|].
  replace (Z.min len (256 - ao_offset o') <? len) with (256 - ao_offset o' <? len)
    by (destruct (Z.ltb_spec (256 - ao_offset o') len), (Z.ltb_spec (Z.min len (256 - ao_offset o')) len); lia).
  destruct (Z.ltb_spec (256 - ao_offset o') len); [by eexists|].
  rewrite Z.min_l by lia. unfold id. rewrite (data_in_spec k f) by (done || lia).
  rewrite (u64_id (ao_offset o' + len)) by lia.
  rewrite set_file_in by (apply Hs1 || lia). cbn [put_file ramfs].
  rewrite set_node_in by (apply (vo_fs _ _ Hs) || apply (file_index _ _ (vo_fs _ _ Hs) k f Hf)).
  eexists. split; [reflexivity|]. cbn [snd].
  pose proof (file_store_ok k f (ao_offset o') (take (Z.to_nat len) buf) len Hf) as Hst.
  rewrite length_take in Hst. specialize (Hst ltac:(lia) ltac:(lia) ltac:(lia) ltac:(lia)).
  assert (vfs_ok (with_open (Z.to_nat fd) (Some (move_to o' (ao_offset o' + len))) a)
            (put_file fd (concrete_open (move_to o' (ao_offset o' + len))) s)) as Hs2.
  { apply (set_open_ok a s Hs); [done|]. split; cbn; [lia|by rewrite Ht']. }
  apply (vfs_ok_set_fs _ _ Hs2) in Hst; [|cbn; by rewrite length_insert].
  unfold with_open, with_file, set_fs, put_file in *. cbn [a_files a_open table ramfs] in *.
  rewrite !list_insert_insert_eq. exact Hst.
Qed.

End transfers.

(** Replacing the start of a file and its size. *)
Lemma file_seed_ok a s k f src len :
  vfs_ok a s -> a_files a !! k = Some f -> 0 <= len <= 256 -> length src = Z.to_nat len ->
  ramfs_ok (<[k := mk_afile (af_name f) (splice 0 src (af_bytes f)) len]> (a_files a))
    (put_node (set_data (ramfs s) (splice (256 * k) src (data (ramfs s))))
       (Z.of_nat k + 1) (set_size (node_of k f) len)).
Proof.
  intros Hs Hk Hlen Hl. pose proof (file_in_pool a s Hs k f Hk) as Hpool.
  destruct (ro_file _ _ (vo_fs _ _ Hs) k f Hk) as (_ & [Hname Hsz Hb] & Hd).
  unfold file_capacity in Hb.
  change (set_size (node_of k f) len)
    with (node_of k (mk_afile (af_name f) (splice 0 src (af_bytes f)) len)).
  apply (set_file_ok _ _ (vo_fs _ _ Hs) k f); try done.
  - split; cbn; [done|lia|]. rewrite length_splice by lia. done.
  - by rewrite length_splice by lia.
  - cbn [af_bytes]. rewrite <- Hd, <- sub_splice_inside by lia. f_equal. f_equal. lia.
  - intros j Hj. apply sub_splice_other; lia.
Qed.

Lemma seed_sim a s path src len :
  vfs_ok a s -> 0 <= len <= Z.of_nat (length src) ->
  exists fs', mcs_ramfs_seed_file (ramfs s) (Some path) (Some src) len
      = Some ((spec_seed path src len a).1, fs') /\
    vfs_ok (spec_seed path src len a).2 (set_fs fs' s).
Proof.
  intros Hs Hlen. pose proof (vo_fs _ _ Hs) as HF. unfold mcs_ramfs_seed_file, spec_seed.
  destruct (create_spec _ _ HF path) as (fs1 & -> & HF1).
  pose proof (spec_create_grows (a_files a) path) as Hg.
  pose proof (fun k => spec_create_in (a_files a) (ramfs s) path k HF) as Hin.
  destruct (spec_create (a_files a) path) as [[rc|k] F1]; cbn [fst snd] in *.
  { exists fs1. split; [done|]. by apply vfs_ok_set_fs. }
  destruct (lookup_lt_is_Some_2 F1 k (Hin k eq_refl)) as [f Hf]. rewrite Hf.
  pose proof (vfs_ok_set_fs a s Hs F1 fs1 HF1 Hg) as Hs1.
  rewrite (node_at_file _ _ HF1 k f Hf). cbn [node_of v_data_capacity v_data_offset].
  change (Z.of_nat file_capacity) with 256.
  destruct (Z.ltb_spec 256 len) as [|Hle]; [by exists fs1|]. cbn [default from_option]. unfold id.
  pose proof (data_in_spec _ _ Hs1 k f 0 len src Hf) as Hd. cbn [ramfs set_fs] in Hd.
  assert (k < 32)%nat by (pose proof (ro_max _ _ HF1); apply lookup_lt_Some in Hf; unfold max_files in *; lia).
  rewrite Z.add_0_r, u64_id in Hd by lia. rewrite Hd by lia.
  rewrite set_node_in by (apply HF1 || apply (file_index _ _ HF1 k f Hf)).
  eexists. split; [reflexivity|].
  pose proof (file_seed_ok _ _ k f (take (Z.to_nat len) src) len Hs1 Hf) as Hok.
  rewrite length_take in Hok. specialize (Hok ltac:(lia) ltac:(lia)).
  apply (vfs_ok_set_fs _ _ Hs1) in Hok; [|cbn; by rewrite length_insert].
  rewrite Nat.add_0_r. exact Hok.
Qed.

Section others.
Context (a : avfs) (s : vfs_state) (Hs : vfs_ok a s).

Definition sim_opt {A} (c : option ((Z + A) * vfs_state)) (r : option ((Z + A) * avfs)) : Prop :=
  match r with
  | Some (x, a') => exists s', c = Some (x, s') /\ vfs_ok a' s'
  | None => c = None
  end.

Lemma lseek_sim fd offset whence :
  - 2 ^ 63 <= offset < 2 ^ 63 ->
  sim_opt (mcs_vfs_lseek fd offset whence s) (spec_lseek fd offset whence a).
Proof.
  intros Hoff. unfold mcs_vfs_lseek, spec_lseek. rewrite (fd_get_spec a s Hs).
  destruct (open_file a fd) as [o|] eqn:E; cbn [fmap option_fmap option_map]; [|by exists s].
  destruct (open_file_Some a s Hs fd o E) as (Hfd & _ & Ho). pose proof Ho as (Hr & Hk).
  cbn [concrete_open f_node f_offset]. fold (concrete_open o).
  destruct (target_node a s Hs _ Hk) as (nd & -> & Hnd & ->).
  destruct (ao_target o) as [k|] eqn:Et; [|by exists s].
  rewrite bool_decide_eq_false_2 by done. rewrite Hnd. pose proof (size_of_range a s Hs (Some k) Hk) as Hsz.
  assert (forall b, 0 <= b < 2 ^ 63 ->
    sim_opt (lseek_to fd offset (concrete_open o) b s)
      (if 2 ^ 63 <=? b + offset then None
       else if b + offset <? 0 then Some (inl MCS_EINVAL, a)
       else Some (inr (s32 (b + offset)),
                  with_open (Z.to_nat fd) (Some (move_to o (b + offset))) a))) as Hseek.
  { intros b Hb. unfold lseek_to, long_add. rewrite (proj2 (Z.leb_le (- 2 ^ 63) _)) by lia.
    cbn [andb]. destruct (Z.leb_spec (2 ^ 63) (b + offset)).
    { rewrite (proj2 (Z.ltb_ge _ _)) by lia. done. }
    rewrite (proj2 (Z.ltb_lt _ _)) by lia.
    destruct (Z.ltb_spec (b + offset) 0); [by exists s|].
    rewrite set_file_in by (apply Hs || lia). eexists. split; [reflexivity|].
    apply (set_open_ok a s Hs fd (move_to o (b + offset))); [done|].
    split; cbn; [lia|by rewrite Et]. }
  unfold s64. case_if; [apply Hseek; lia|].
  case_if; [rewrite swrap_id by (cbn; lia); by apply Hseek|].
  case_if; [rewrite swrap_id by lia; apply Hseek; lia|]. by exists s.
Qed.

Lemma close_sim fd :
  exists s', (mcs_vfs_close fd ;? eret MCS_OK) s = Some ((spec_close fd a).1, s') /\
    vfs_ok (spec_close fd a).2 s'.
Proof.
  unfold mcs_vfs_close, spec_close, ebind. rewrite (fd_get_spec a s Hs).
  destruct (open_file a fd) as [o|] eqn:E; cbn [fmap option_fmap option_map]; [|by exists s].
  destruct (open_file_Some a s Hs fd o E) as (Hfd & _ & _).
  rewrite set_file_in by (apply Hs || lia).
  eexists. split; [reflexivity|]. cbn [snd]. rewrite <- (Z2Nat.id fd) at 2 by lia.
  apply (vfs_ok_set_file a s Hs); [lia|done].
Qed.

Lemma dup_sim fd :
  exists s', mcs_vfs_dup fd s = Some ((spec_dup fd a).1, s') /\ vfs_ok (spec_dup fd a).2 s'.
Proof.
  unfold mcs_vfs_dup, spec_dup, ebind. rewrite (fd_get_spec a s Hs).
  destruct (open_file a fd) as [o|] eqn:E; cbn [fmap option_fmap option_map]; [|by exists s].
  destruct (open_file_Some a s Hs fd o E) as (_ & _ & Ho).
  pose proof (fd_alloc_spec a s Hs) as Ha. destruct (free_fd a) as [newfd|] eqn:Ef.
  - destruct Ha as (g & ->). apply (free_fd_Some a s Hs) in Ef as (Hlt & _).
    rewrite set_file_in by (cbn; rewrite ?length_insert; (apply Hs || lia)).
    rewrite put_file_put_file. eexists. split; [reflexivity|].
    apply (vfs_ok_set_file a s Hs newfd (Some o)); [done|]. done.
  - rewrite Ha. by exists s.
Qed.

End others.

(** ** Initialisation *)

(** The object has the arrays of its C type. *)
Definition ramfs_object (fs : mcs_ramfs) : Prop :=
  length (nodes fs) = 64%nat /\ Forall (fun nd => length (v_name nd) = 32%nat) (nodes fs).

Lemma vfs_init_ok old :
  ramfs_object old -> vfs_ok avfs_init (mk_vfs mcs_fd_table_init (mcs_ramfs_init old)).
Proof.
  intros (Hl & Hn). split; cbn [a_files a_open avfs_init table ramfs].
  - unfold mcs_ramfs_init. split; cbn [nodes data node_count data_used]; try done.
    + by rewrite length_alter, length_fmap.
    + unfold max_files. cbn. lia.
    + destruct (nodes old) as [|nd ns]; [done|]. apply Forall_cons in Hn as (Hnd & _).
      cbn [fmap list_fmap lookup list_lookup alter list_alter].
      eexists. split; [reflexivity|]. cbn. destruct (v_name nd) as [|c [|d r]]; done.
    + intros k Hk. unfold max_files in Hk. cbn [length] in Hk. apply sub_replicate.
      change (Z.to_nat MCS_RAMFS_DATA_BYTES) with (Z.to_nat 8192).
      unfold file_capacity. lia.
    + constructor.
  - done.
  - done.
  - intros fd o f Ho Hf. apply lookup_replicate in Ho as (-> & _).
    apply lookup_replicate in Hf as (-> & _). done.
Qed.
