(* ===== verification/VfsTheorems.v ===== *)
(** * Virtual file system: theorems

    Every sequence of calls behaves as on the abstract file system of VfsSpec;
    what is written is read back and no other file changes; [mcs_vfs_lseek]
    and its undefined sums. *)
From S2P Require Import Prelude Vfs VfsSpec VfsFacts.

(** ** Sequences of calls *)

Inductive vfs_op :=
  | VOpen (path : list Z) (flags : Z)
  | VRead (fd : Z) (buf : list Z) (len : Z)
  | VWrite (fd : Z) (buf : list Z) (len : Z)
  | VSeek (fd offset whence : Z)
  | VClose (fd : Z)
  | VDup (fd : Z)
  | VSeed (path src : list Z) (len : Z).

(** The arguments are values of their C types, and buffers hold [len] bytes. *)
Definition vfs_op_ok (op : vfs_op) : Prop :=
  match op with
  | VRead _ buf len | VWrite _ buf len | VSeed _ buf len => 0 <= len <= Z.of_nat (length buf)
  | VSeek _ offset _ => - 2 ^ 63 <= offset < 2 ^ 63
  | _ => True
  end.

(** A call's result: an error code, or the returned number and the buffer. *)
Definition num {A} (r : (Z + Z) * A) : (Z + (Z * list Z)) * A :=
  (match r.1 with inl rc => inl rc | inr n => inr (n, []) end, r.2).

Definition vfs_step (op : vfs_op) (s : vfs_state) : option ((Z + (Z * list Z)) * vfs_state) :=
  match op with
  | VOpen path flags => num <$> mcs_vfs_open true (Some path) flags s
  | VRead fd buf len => mcs_vfs_read fd (Some buf) len s
  | VWrite fd buf len => num <$> mcs_vfs_write fd (Some buf) len s
  | VSeek fd offset whence => num <$> mcs_vfs_lseek fd offset whence s
  | VClose fd => num <$> (mcs_vfs_close fd ;? eret MCS_OK) s
  | VDup fd => num <$> mcs_vfs_dup fd s
  | VSeed path src len =>
      (fun r => (inr (r.1, []), set_fs r.2 s)) <$>
        mcs_ramfs_seed_file (ramfs s) (Some path) (Some src) len
  end.

Definition spec_step (op : vfs_op) (a : avfs) : option ((Z + (Z * list Z)) * avfs) :=
  match op with
  | VOpen path flags => Some (num (spec_open path flags a))
  | VRead fd buf len => Some (spec_read fd buf len a)
  | VWrite fd buf len => Some (num (spec_write fd buf len a))
  | VSeek fd offset whence => num <$> spec_lseek fd offset whence a
  | VClose fd => Some (num (spec_close fd a))
  | VDup fd => Some (num (spec_dup fd a))
  | VSeed path src len => let r := spec_seed path src len a in Some (inr (r.1, []), r.2)
  end.

(** The results of a sequence, in order; [None] once a call is undefined. *)
Fixpoint run_calls {S R Op : Type} (step : Op -> S -> option (R * S)) (ops : list Op) (s : S)
    : option (list R * S) :=
  match ops with
  | [] => Some ([], s)
  | op :: ops =>
      let* x := step op s in
      let* y := run_calls step ops x.2 in
      Some (x.1 :: y.1, y.2)
  end.

Lemma sim_num c (r : (Z + Z) * avfs) :
  (exists s' : vfs_state, c = Some (r.1, s') /\ vfs_ok r.2 s') ->
  sim_opt (num <$> c) (Some (num r)).
Proof. intros (s' & -> & Hs). exists s'. by destruct r as [[] ?]. Qed.

Lemma step_sim op a s :
  vfs_ok a s -> vfs_op_ok op -> sim_opt (vfs_step op s) (spec_step op a).
Proof.
  intros Hs Hop. destruct op as [path flags|fd buf len|fd buf len|fd off wh|fd|fd|path src len];
    cbn [vfs_step spec_step vfs_op_ok] in *.
  - apply sim_num, open_sim, Hs.
  - destruct (read_sim a s Hs fd buf len Hop) as (s' & Hr & Hs').
    destruct (spec_read fd buf len a). by exists s'.
  - by apply sim_num, write_sim.
  - pose proof (lseek_sim a s Hs fd off wh Hop) as Hl.
    destruct (spec_lseek fd off wh a) as [r|]; cbn [fmap option_fmap option_map].
    + destruct r as [x a']. destruct Hl as (s' & -> & Hs'). exists s'. by destruct x.
    + cbn in Hl. by rewrite Hl.
  - by apply sim_num, close_sim.
  - by apply sim_num, dup_sim.
  - destruct (seed_sim a s path src len Hs Hop) as (fs' & -> & Hs'). by exists (set_fs fs' s).
Qed.

Lemma run_sim ops : forall a s,
  vfs_ok a s -> Forall vfs_op_ok ops ->
  match run_calls spec_step ops a with
  | Some (res, a') => exists s', run_calls vfs_step ops s = Some (res, s') /\ vfs_ok a' s'
  | None => run_calls vfs_step ops s = None
  end.
Proof.
  induction ops as [|op ops IH]; intros a s Hs Hops; [by exists s|].
  apply Forall_cons in Hops as (Hop & Hops). cbn [run_calls].
  pose proof (step_sim op a s Hs Hop) as Hstep. unfold sim_opt in Hstep.
  destruct (spec_step op a) as [[x a1]|]; [|by rewrite Hstep].
  destruct Hstep as (s1 & -> & Hs1). cbn [fst snd]. specialize (IH a1 s1 Hs1 Hops).
  destruct (run_calls spec_step ops a1) as [[res a2]|]; [|by rewrite IH].
  destruct IH as (s2 & -> & Hs2). by exists s2.
Qed.

(** The state of the kernel's VFS after initialisation. *)
Definition vfs_boot (old : mcs_ramfs) : vfs_state :=
  mk_vfs mcs_fd_table_init (mcs_ramfs_init old).

(** A state some sequence of calls reaches. *)
Definition vfs_reachable (s : vfs_state) : Prop :=
  exists old ops res, ramfs_object old /\ Forall vfs_op_ok ops /\
    run_calls vfs_step ops (vfs_boot old) = Some (res, s).

Lemma reachable_ok s : vfs_reachable s -> exists a, vfs_ok a s.
Proof.
  intros (old & ops & res & Hold & Hops & Hrun).
  pose proof (run_sim ops _ _ (vfs_init_ok old Hold) Hops) as H. unfold vfs_boot in Hrun.
  destruct (run_calls spec_step ops avfs_init) as [[res' a]|]; [|congruence].
  destruct H as (s' & Hr & Hs'). rewrite Hr in Hrun. simplify_eq. by exists a.
Qed.

Definition is_seek (op : vfs_op) : bool := match op with VSeek _ _ _ => true | _ => false end.

(** Only a seek is ever undefined on the abstract file system. *)
Lemma spec_run_total ops : forall a,
  Forall (fun op => is_seek op = false) ops -> is_Some (run_calls spec_step ops a).
Proof.
  induction ops as [|op ops IH]; intros a Hops; [by eexists|].
  apply Forall_cons in Hops as (Hop & Hops). cbn [run_calls].
  assert (is_Some (spec_step op a)) as [[r a'] ->] by (destruct op; (done || by eexists)).
  cbn [fst snd]. destruct (IH a' Hops) as [[] ->]. by eexists.
Qed.

(** C8: the RAM file system behind the descriptors is a set of independent
    files.  From initialisation, every sequence of open, read, write, lseek,
    close, dup and [mcs_ramfs_seed_file] calls, with non-null pointers, buffers
    of at least [len] bytes and offsets in the range of [long], returns, call
    by call, what the abstract file system returns (names, sizes, bytes,
    rights, offsets, and every error code), and is undefined exactly where that
    one is, in a seek whose sum overflows [long].  A sequence without a seek is
    always defined: no access leaves the node array, the data pool or the
    descriptor table, whatever the descriptor numbers. *)
Theorem vfs_refines_files old ops :
  ramfs_object old -> Forall vfs_op_ok ops ->
  fst <$> run_calls vfs_step ops (vfs_boot old) = fst <$> run_calls spec_step ops avfs_init /\
  (Forall (fun op => is_seek op = false) ops -> is_Some (run_calls vfs_step ops (vfs_boot old))).
Proof.
  intros Hold Hops. pose proof (run_sim ops _ _ (vfs_init_ok old Hold) Hops) as H.
  pose proof (spec_run_total ops avfs_init) as Ht. unfold vfs_boot.
  destruct (run_calls spec_step ops avfs_init) as [[res a]|].
  - destruct H as (s' & -> & _). split; [done|]. by eexists.
  - rewrite H. split; [done|]. intros Hns. by destruct (Ht Hns).
Qed.

(** ** Written bytes *)

(** The bytes of a node. *)
Definition node_bytes (fs : mcs_ramfs) (j : Z) : option (list Z) :=
  let* nd := node_at fs j in
  Some (sub (Z.to_nat (v_data_offset nd)) (Z.to_nat (v_size nd)) (data fs)).

Lemma node_bytes_file F fs k f :
  ramfs_ok F fs -> F !! k = Some f ->
  node_bytes fs (Z.of_nat k + 1) = Some (take (Z.to_nat (af_size f)) (af_bytes f)).
Proof.
  intros HF Hk. unfold node_bytes. rewrite (node_at_file F fs HF k f Hk).
  cbn [node_of v_data_offset v_size].
  destruct (ro_file _ _ HF k f Hk) as (_ & [_ Hsz _] & <-).
  change (take ?n ?l) with (sub 0 n l). rewrite sub_sub by lia. do 2 f_equal. lia.
Qed.

Lemma open_file_set a s fd o :
  vfs_ok a s -> 0 <= fd < 16 -> open_file (with_open (Z.to_nat fd) (Some o) a) fd = Some o.
Proof.
  intros Hs Hfd. unfold open_file, with_open, MCS_MAX_OPEN_FILES; cbn [a_open].
  rewrite (proj2 (Z.ltb_ge _ _)), (proj2 (Z.leb_gt _ _)) by lia. cbn [orb].
  rewrite list_lookup_insert_eq by (rewrite (vo_open _ _ Hs); lia). done.
Qed.

(** The position a write starts at. *)
Definition write_pos (f : mcs_file) (s : vfs_state) : Z :=
  if f_flags f .& MCS_O_APPEND =? 0 then f_offset f
  else match node_at (ramfs s) (default 0 (f_node f)) with
       | Some nd => v_size nd
       | None => 0
       end.

(** A successful write, on the abstract file system. *)
Lemma spec_write_success a s fd buf len n a1 :
  vfs_ok a s -> 0 <= len -> spec_write fd buf len a = (inr n, a1) ->
  exists o k f pos, 0 <= fd < 16 /\ open_file a fd = Some o /\ ao_target o = Some k /\
    a_files a !! k = Some f /\ n = len /\ 0 <= pos /\ pos + len <= 256 /\
    pos = write_pos (concrete_open o) s /\
    a1 = with_file k (mk_afile (af_name f)
                        (splice (Z.to_nat pos) (take (Z.to_nat len) buf) (af_bytes f))
                        (Z.max (af_size f) (pos + len)))
           (with_open (Z.to_nat fd) (Some (move_to o (pos + len))) a).
Proof.
  intros Hs Hlen. unfold spec_write.
  destruct (target_file mcs_can_write fd a) as [rc|[[o k] f]] eqn:E; [done|].
  apply target_file_inr in E as (Ho & Ht & Hf).
  destruct (open_file_Some a s Hs fd o Ho) as (Hfd & _ & Hr & _).
  destruct (ro_file _ _ (vo_fs _ _ Hs) k f Hf) as (_ & [_ Hsz _] & _).
  unfold file_capacity. change (Z.of_nat 256) with 256.
  set (o' := if _ =? 0 then o else _). case_if; [done|]. case_if; [done|]. zbool.
  intros H. simplify_eq. exists o, k, f, (write_pos (concrete_open o) s).
  assert (write_pos (concrete_open o) s =
    ao_offset o') as ->.
  { unfold write_pos, o'. cbn [concrete_open f_flags f_offset f_node default from_option id].
    destruct (ao_flags o .& MCS_O_APPEND =? 0); [done|]. rewrite Ht.
    cbn [target_idx]. by rewrite (node_at_file _ _ (vo_fs _ _ Hs) k f Hf). }
  split_all; try done; try lia.
  - subst o'. destruct (ao_flags o .& MCS_O_APPEND =? 0); cbn; lia.
  - unfold with_file, with_open; cbn [a_files a_open]. rewrite list_insert_insert_eq.
    subst o'. by destruct (ao_flags o .& MCS_O_APPEND =? 0).
Qed.

(** Seeking back and reading returns the written bytes. *)
Lemma spec_read_back a s fd o k f pos len buf buf' :
  vfs_ok a s -> 0 <= fd < 16 -> ao_target o = Some k -> a_files a !! k = Some f ->
  mcs_can_read (ao_flags o) = true ->
  0 <= pos -> 0 <= len <= Z.of_nat (length buf) -> pos + len <= 256 ->
  Z.of_nat (length buf') = len ->
  let a1 := with_file k (mk_afile (af_name f)
                           (splice (Z.to_nat pos) (take (Z.to_nat len) buf) (af_bytes f))
                           (Z.max (af_size f) (pos + len)))
              (with_open (Z.to_nat fd) (Some (move_to o (pos + len))) a) in
  exists a2, spec_lseek fd pos MCS_SEEK_SET a1 = Some (inr pos, a2) /\
    (spec_read fd buf' len a2).1 = inr (len, take (Z.to_nat len) buf).
Proof.
  intros Hs Hfd Ht Hf Hcan Hpos Hlen Hsum Hbuf' a1. apply lookup_lt_Some in Hf as Hlt.
  assert (forall o' x, open_file (with_file k x (with_open (Z.to_nat fd) (Some o') a)) fd = Some o')
    as Hopen by (intros o' x; apply (open_file_set a s fd o' Hs Hfd)).
  exists (with_open (Z.to_nat fd) (Some (move_to o pos)) a1). split.
  - unfold spec_lseek. subst a1. rewrite Hopen. cbn [move_to ao_target]. rewrite Ht.
    change (MCS_SEEK_SET =? MCS_SEEK_SET) with true. cbv iota. rewrite Z.add_0_l.
    rewrite (proj2 (Z.leb_gt _ _)), (proj2 (Z.ltb_ge _ _)) by lia.
    unfold s32. rewrite swrap_id by lia. done.
  - unfold spec_read, target_file. subst a1.
    assert (forall o1 o2 x, with_open (Z.to_nat fd) o2 (with_file k x (with_open (Z.to_nat fd) o1 a))
              = with_file k x (with_open (Z.to_nat fd) o2 a)) as ->
      by (intros; unfold with_file, with_open; cbn; by rewrite list_insert_insert_eq).
    rewrite Hopen. cbn [move_to ao_flags ao_target ao_offset]. rewrite Hcan, Ht. cbn [negb].
    cbn [with_file with_open a_files]. rewrite list_lookup_insert_eq by done.
    cbn [af_size af_bytes move_to ao_offset]. destruct (ro_file _ _ (vo_fs _ _ Hs) k f Hf) as (_ & [_ Hsz Hb] & _).
    unfold file_capacity in Hb.
    destruct (Z.leb_spec (Z.max (af_size f) (pos + len)) pos).
    + assert (len = 0) as -> by lia. cbn [fst]. destruct buf'; [done|cbn in Hbuf'; lia].
    + cbn [fst]. replace (Z.min len _) with len by lia.
      rewrite sub_splice_same by (rewrite length_take; lia).
      rewrite (drop_ge buf'), app_nil_r by lia. done.
Qed.

(** What is written is read back, and nothing else changes.  After a
    successful [mcs_vfs_write] of [len] bytes in any reachable state, seeking
    back to where the write started and reading [len] bytes returns exactly
    those bytes, and no other file's size or contents changed. *)
Theorem vfs_write_read_back s s1 fd f buf len n buf' :
  vfs_reachable s -> mcs_fd_get (table s) fd = Some (Some f) -> mcs_can_read (f_flags f) = true ->
  0 <= len <= Z.of_nat (length buf) -> Z.of_nat (length buf') = len ->
  mcs_vfs_write fd (Some buf) len s = Some (inr n, s1) ->
  n = len /\
  (exists s2 s3, mcs_vfs_lseek fd (write_pos f s) MCS_SEEK_SET s1 = Some (inr (write_pos f s), s2) /\
     mcs_vfs_read fd (Some buf') len s2 = Some (inr (len, take (Z.to_nat len) buf), s3)) /\
  forall j, 0 < j < node_count (ramfs s) -> Some j <> f_node f ->
    node_bytes (ramfs s1) j = node_bytes (ramfs s) j.
Proof.
  intros (a & Hs)%reachable_ok Hget Hcan Hlen Hbuf' Hw.
  destruct (write_sim a s Hs fd buf len Hlen) as (s1' & Hw' & Hs1).
  rewrite Hw' in Hw. apply (inj Some) in Hw. injection Hw as Hn <-.
  destruct (spec_write fd buf len a) as [r a1] eqn:Esp; cbn [fst snd] in *. subst r.
  destruct (spec_write_success a s fd buf len n a1 Hs ltac:(lia) Esp)
    as (o & k & g & pos & Hfd & Ho & Ht & Hg & -> & Hp0 & Hp1 & Hpos & Ha1).
  rewrite (fd_get_spec a s Hs), Ho in Hget. cbn in Hget. injection Hget as <-.
  rewrite <- Hpos. split_all; [done| |].
  - destruct (spec_read_back a s fd o k g pos len buf buf') as (a2 & Hl & Hr); try done.
    rewrite <- Ha1 in Hl.
    pose proof (lseek_sim a1 s1' Hs1 fd pos MCS_SEEK_SET ltac:(lia)) as Hsim.
    rewrite Hl in Hsim. destruct Hsim as (s2 & Hl2 & Hs2).
    destruct (read_sim a2 s2 Hs2 fd buf' len ltac:(lia)) as (s3 & Hr3 & _).
    exists s2, s3. rewrite Hr in Hr3. done.
  - intros j Hj Hne. pose proof (ro_count _ _ (vo_fs _ _ Hs)) as Hc.
    destruct (lookup_lt_is_Some_2 (a_files a) (Z.to_nat (j - 1))) as [h Hh]; [lia|].
    replace j with (Z.of_nat (Z.to_nat (j - 1)) + 1) by lia.
    rewrite (node_bytes_file _ _ _ h (vo_fs _ _ Hs) Hh).
    apply (node_bytes_file (a_files a1)); [apply Hs1|]. rewrite Ha1.
    cbn [with_file with_open a_files]. rewrite list_lookup_insert_ne; [done|].
    intros ->. apply Hne. cbn [concrete_open f_node]. rewrite Ht. cbn. f_equal. lia.
Qed.

(** [mcs_vfs_lseek] is undefined exactly when the new position leaves
    the range of [long].  In any reachable state a seek on an open regular
    file adds the caller's offset to its base without a check, and signed
    overflow is the only way the call can go wrong: in every other case it
    returns a position or an error code. *)
Theorem vfs_lseek_undefined_iff s fd offset whence :
  vfs_reachable s -> - 2 ^ 63 <= offset < 2 ^ 63 ->
  mcs_vfs_lseek fd offset whence s = None <->
  exists f i nd base, mcs_fd_get (table s) fd = Some (Some f) /\ f_node f = Some i /\
    node_at (ramfs s) i = Some nd /\ v_type nd = MCS_VNODE_FILE /\
    (whence = MCS_SEEK_SET /\ base = 0 \/ whence = MCS_SEEK_CUR /\ base = f_offset f \/
     whence = MCS_SEEK_END /\ base = v_size nd) /\
    2 ^ 63 <= base + offset.
Proof.
  intros (a & Hs)%reachable_ok Hoff. pose proof (lseek_sim a s Hs fd offset whence Hoff) as Hsim.
  assert (mcs_vfs_lseek fd offset whence s = None <-> spec_lseek fd offset whence a = None) as ->.
  { destruct (spec_lseek fd offset whence a) as [[r a']|]; [|done].
    destruct Hsim as (s' & -> & _). done. }
  clear Hsim. rewrite (fd_get_spec a s Hs). unfold spec_lseek.
  destruct (open_file a fd) as [o|] eqn:Eo; cbn [fmap option_fmap option_map]; [|naive_solver].
  destruct (open_file_Some a s Hs fd o Eo) as (_ & _ & _ & Hk).
  destruct (target_node a s Hs _ Hk) as (nd & Hnd & Hsz & Hty).
  destruct (ao_target o) as [k|] eqn:Et; [|split; [done|]].
  2: { intros (f & i & nd' & base & [= <-] & [= <-] & Hn' & Hf & _). rewrite Et in Hn'.
    cbn in *. congruence. }
  unfold MCS_SEEK_SET, MCS_SEEK_CUR, MCS_SEEK_END. split.
  - intros H. exists (concrete_open o), (target_idx (Some k)), nd.
    cbn [concrete_open f_node f_offset]. rewrite Et, Hsz.
    destruct (Z.eqb_spec whence 0); [exists 0|destruct (Z.eqb_spec whence 1);
      [exists (ao_offset o)|destruct (Z.eqb_spec whence 2); [exists (size_of a (Some k))|done]]].
    all: revert H; case_if; zbool; [intros _|destruct (_ <? 0); done]; split_all; auto; tauto.
  - intros (f & i & nd' & base & [= <-] & [= <-] & Hn' & _ & Hb & Hle).
    rewrite Et, Hnd in Hn'. injection Hn' as <-. cbn [f_offset concrete_open] in Hb.
    rewrite Hsz in Hb. destruct Hb as [(-> & ->)|[(-> & ->)|(-> & ->)]];
      cbn [Z.eqb Pos.eqb]; by rewrite (proj2 (Z.leb_le _ _)) by lia.
Qed.

(** ** Concrete instances *)

Definition old0 : mcs_ramfs :=
  mk_ramfs (replicate 64 (mk_vnode false 0 0 MCS_VNODE_FILE (replicate 32 0) 0 0 0)) 0 [] 0.

Lemma old0_object : ramfs_object old0.
Proof. split; [done|]. by apply Forall_replicate. Qed.

(** ["/a"], opened for reading and writing and created. *)
Definition open_a : vfs_op := VOpen [47; 97] (MCS_O_CREAT .| MCS_O_RDWR).
Definition after (ops : list vfs_op) : vfs_state :=
  match run_calls vfs_step ops (vfs_boot old0) with Some x => x.2 | None => vfs_boot old0 end.

Lemma after_reachable ops :
  Forall vfs_op_ok ops -> is_Some (run_calls vfs_step ops (vfs_boot old0)) -> vfs_reachable (after ops).
Proof.
  intros Hops [[res s] Hrun]. exists old0, ops, res. split_all; [apply old0_object|done|].
  unfold after. by rewrite Hrun.
Qed.

Lemma vfs_refines_files_witness :
  fst <$> run_calls vfs_step [open_a; VWrite 0 [5; 6; 7] 3; VSeek 0 1 MCS_SEEK_SET;
                        VRead 0 [0; 0; 0; 0] 4; VOpen [47; 97; 47] 1; VClose 3; VSeed [47; 98] [1; 2] 2] (vfs_boot old0) =
    Some [inr (0, []); inr (3, []); inr (1, []); inr (2, [6; 7; 0; 0]); inl MCS_ENOTDIR;
          inl MCS_EBADF; inr (0, [])].
Proof.
  etransitivity; [apply (fun H1 H2 => proj1 (vfs_refines_files old0 _ H1 H2)); [apply old0_object|]|vm_compute; reflexivity].
  repeat constructor; cbn; lia.
Defined.

Lemma vfs_write_read_back_witness :
  exists s1 s2 s3, mcs_vfs_write 0 (Some [5; 6]) 2 (after [open_a]) = Some (inr 2, s1) /\
    mcs_vfs_lseek 0 0 MCS_SEEK_SET s1 = Some (inr 0, s2) /\
    mcs_vfs_read 0 (Some [9; 9]) 2 s2 = Some (inr (2, [5; 6]), s3).
Proof.
  destruct (vfs_write_read_back (after [open_a]) (after [open_a; VWrite 0 [5; 6] 2]) 0
    (mk_file true 260 0 (Some 1) true) [5; 6] 2 2 [9; 9]) as (_ & (s2 & s3 & H1 & H2) & _).
  - apply after_reachable; [by repeat constructor|]. vm_compute. by eexists.
  - vm_compute. reflexivity.
  - vm_compute. reflexivity.
  - cbn. lia.
  - cbn. lia.
  - vm_compute. reflexivity.
  - exists (after [open_a; VWrite 0 [5; 6] 2]), s2, s3. split; [vm_compute; reflexivity|].
    split; [exact H1|exact H2].
Defined.

(** Seek to the largest position, then one further. *)
Lemma vfs_lseek_undefined_iff_witness :
  mcs_vfs_lseek 0 1 MCS_SEEK_CUR (after [open_a; VSeek 0 (2 ^ 63 - 1) MCS_SEEK_SET]) = None.
Proof.
  apply vfs_lseek_undefined_iff; [|lia|].
  - apply after_reachable; [|vm_compute; by eexists]. repeat constructor; cbn; lia.
  - exists (mk_file true 260 (2 ^ 63 - 1) (Some 1) true), 1,
      (mk_vnode true 1 0 MCS_VNODE_FILE (97 :: replicate 31 0) 0 0 256), (2 ^ 63 - 1).
    split; [vm_compute; reflexivity|]. split; [reflexivity|]. split; [vm_compute; reflexivity|].
    split; [reflexivity|].
    split; [right; left; split; reflexivity|lia].
Defined.
