(* ===== verification/VfsSys.v ===== *)
(** * The system-call wrappers of [fd.c] on the abstract file system

    [sys_sim c a r a']: in every state of a process that represents [a], the
    call [c] returns [r] and the process then represents [a']. *)
From S2P Require Import Prelude Vfs VfsSpec VfsFacts.

Definition proc_ok (p : Z) (a : avfs) (s : proc_state) : Prop :=
  exists t, proc s = Some (mk_process p t) /\ vfs_ok a (mk_vfs t (sys_fs s)).

Definition sys_sim {A} (c : em proc_state A) (a : avfs) (r : Z + A) (a' : avfs) : Prop :=
  forall p s, proc_ok p a s -> exists s', c s = Some (r, s') /\ proc_ok p a' s'.

Lemma on_proc_sim {A} (m : vfs A) a r a' :
  (forall s, vfs_ok a s -> exists s', m s = Some (r, s') /\ vfs_ok a' s') ->
  sys_sim (on_proc m) a r a'.
Proof.
  intros Hm p s (t & Hp & Hs). unfold on_proc. rewrite Hp. cbn [fd_table].
  destruct (Hm _ Hs) as (s' & -> & Hs'). eexists. split; [reflexivity|].
  exists (table s'). split; [done|]. by destruct s'.
Qed.

Lemma sys_open_sim path flags a r a' :
  spec_open path flags a = (r, a') -> sys_sim (mcs_sys_open true (Some path) flags) a r a'.
Proof.
  intros E. apply on_proc_sim. intros s Hs. pose proof (open_sim a s path flags Hs) as Hsim.
  by rewrite E in Hsim.
Qed.

Lemma sys_read_sim fd buf len a r a' :
  0 <= len <= Z.of_nat (length buf) -> spec_read fd buf len a = (r, a') ->
  sys_sim (mcs_sys_read fd (Some buf) len) a r a'.
Proof.
  intros Hlen E. apply on_proc_sim. intros s Hs.
  pose proof (read_sim a s Hs fd buf len Hlen) as Hsim. by rewrite E in Hsim.
Qed.

Lemma sys_write_sim fd buf len a r a' :
  0 <= len <= Z.of_nat (length buf) -> spec_write fd buf len a = (r, a') ->
  sys_sim (mcs_sys_write fd (Some buf) len) a r a'.
Proof.
  intros Hlen E. apply on_proc_sim. intros s Hs.
  pose proof (write_sim a s Hs fd buf len Hlen) as Hsim. by rewrite E in Hsim.
Qed.

Lemma sys_lseek_sim fd offset whence a r a' :
  - 2 ^ 63 <= offset < 2 ^ 63 -> spec_lseek fd offset whence a = Some (r, a') ->
  sys_sim (mcs_sys_lseek fd offset whence) a r a'.
Proof.
  intros Hoff E. apply on_proc_sim. intros s Hs.
  pose proof (lseek_sim a s Hs fd offset whence Hoff) as Hsim. by rewrite E in Hsim.
Qed.

Lemma sys_close_sim fd a r a' :
  spec_close fd a = (inr r, a') -> sys_sim (mcs_sys_close fd) a (inr tt) a'.
Proof.
  intros E. apply on_proc_sim. intros s Hs. pose proof (close_sim a s Hs fd) as (s' & Hc & Hs').
  rewrite E in Hc, Hs'. exists s'. split; [|done]. unfold ebind in Hc.
  destruct (mcs_vfs_close fd s) as [[[rc|[]] s1]|]; [done| |done]. unfold eret in Hc. congruence.
Qed.
