(* ===== verification/Kmem.v ===== *)
(** * Kernel heap ([kernel/mm/kmem.c], [include/mcsos/kmem.h])

    The memory handed to [kmem_init] is a byte array at an address; the block
    headers live in it, so a client's store or a stale header is visible to
    every later access.  A pointer is an address, 0 the null pointer; an
    access outside the region is undefined ([None]).  The loops over the block
    list take the length of the region as fuel: every block has a header of
    48 bytes in it, so a list without a cycle is never cut short. *)
From S2P Require Import Prelude.

Definition KMEM_ALIGN : Z := 16.
Definition KMEM_MAGIC : Z := 0x4d43534f53484541.
Definition KMEM_MIN_SPLIT : Z := 32.

Record kmem_block := mk_block {
  magic : Z;
  size : Z;
  free : Z;
  reserved : Z;
  reserved2 : Z;
  prev : Z;
  next : Z
}.

(** [sizeof(kmem_block_t)]. *)
Definition HEADER : Z := 48.

(** ** Memory *)

Record region := mk_region { r_base : Z; r_bytes : list Z }.

(** The [n] bytes at [a] lie in the region. *)
Definition region_has (m : region) (a n : Z) : bool :=
  (r_base m <=? a) && (a + n <=? r_base m + Z.of_nat (length (r_bytes m))).

Definition offset_of (m : region) (a : Z) : nat := Z.to_nat (a - r_base m).

Definition store_bytes (m : region) (a : Z) (bs : list Z) : option region :=
  if region_has m a (Z.of_nat (length bs))
  then Some (mk_region (r_base m) (splice (offset_of m a) bs (r_bytes m))) else None.

(** The layout of a header: each field at its offset. *)
Definition decode_hdr (bs : list Z) : kmem_block :=
  mk_block (le_get 0 8 bs) (le_get 8 8 bs) (le_get 16 4 bs) (le_get 20 4 bs)
    (le_get 24 8 bs) (le_get 32 8 bs) (le_get 40 8 bs).
Definition encode_hdr (h : kmem_block) : list Z :=
  le_bytes 8 (magic h) ++ le_bytes 8 (size h) ++ le_bytes 4 (free h) ++
  le_bytes 4 (reserved h) ++ le_bytes 8 (reserved2 h) ++ le_bytes 8 (prev h) ++
  le_bytes 8 (next h).

Definition load_hdr (m : region) (a : Z) : option kmem_block :=
  if region_has m a HEADER then Some (decode_hdr (sub (offset_of m a) 48 (r_bytes m))) else None.
Definition store_hdr (m : region) (a : Z) (h : kmem_block) : option region :=
  store_bytes m a (encode_hdr h).

(** Assignments to fields of the header at [a]. *)
Definition update_hdr (m : region) (a : Z) (f : kmem_block -> kmem_block) : option region :=
  let* h := load_hdr m a in store_hdr m a (f h).

Definition set_free (v : Z) (h : kmem_block) : kmem_block :=
  mk_block (magic h) (size h) v (reserved h) (reserved2 h) (prev h) (next h).
Definition set_prev (v : Z) (h : kmem_block) : kmem_block :=
  mk_block (magic h) (size h) (free h) (reserved h) (reserved2 h) v (next h).
Definition set_size_next (sz nx : Z) (h : kmem_block) : kmem_block :=
  mk_block (magic h) sz (free h) (reserved h) (reserved2 h) (prev h) nx.
Definition fresh_hdr (sz pv nx : Z) (h : kmem_block) : kmem_block :=
  mk_block KMEM_MAGIC sz 1 (reserved h) (reserved2 h) pv nx.
Definition clear_hdr (h : kmem_block) : kmem_block :=
  mk_block 0 0 (free h) (reserved h) (reserved2 h) 0 0.

(** ** State and arithmetic *)

Record kmem_state := mk_kmem {
  g_heap_base : Z;
  g_heap_end : Z;
  g_head : Z;
  g_initialized : bool;
  kmem : region
}.

Definition with_mem (s : kmem_state) (m : region) : kmem_state :=
  mk_kmem (g_heap_base s) (g_heap_end s) (g_head s) (g_initialized s) m.

Definition kmem_align_up_size (value align : Z) : Z :=
  if align =? 0 then value else
  let mask := align - 1 in
  if negb (align .& mask =? 0) then 0 else
  if UINT64_MAX - mask <? value then 0 else
  u64 (value + mask) .& u64 (Z.lnot mask).

Definition kmem_align_up_ptr (value align : Z) : Z :=
  let mask := u64 (align - 1) in
  if negb (align .& mask =? 0) then 0 else
  if UINT64_MAX - mask <? value then 0 else
  u64 (value + mask) .& u64 (Z.lnot mask).

Definition kmem_payload (block : Z) : Z := block + HEADER.
Definition kmem_header_from_payload (ptr : Z) : Z := ptr - HEADER.

Definition kmem_ptr_in_heap (s : kmem_state) (p : Z) : bool :=
  g_initialized s && (g_heap_base s <=? p) && (p <? g_heap_end s).

(** The loop of [kmem_memset]. *)
Definition kmem_memset (m : region) (dst value bytes : Z) : option region :=
  store_bytes m dst (replicate (Z.to_nat bytes) (u8 value)).

(** ** Operations *)

Definition kmem_split_if_useful (s : kmem_state) (m : region) (block wanted : Z)
    : option region :=
  let header := kmem_align_up_size HEADER KMEM_ALIGN in
  if header =? 0 then Some m else
  let* b := load_hdr m block in
  if size b <? u64 (wanted + header + KMEM_MIN_SPLIT) then Some m else
  let new_addr := kmem_align_up_ptr (u64 (kmem_payload block + wanted)) KMEM_ALIGN in
  if new_addr =? 0 then Some m else
  if g_heap_end s <=? new_addr + HEADER then Some m else
  let consumed := u64 (new_addr - kmem_payload block) in
  if size b <=? u64 (consumed + HEADER + KMEM_MIN_SPLIT) then Some m else
  let* m := update_hdr m new_addr
              (fresh_hdr (u64 (size b - consumed - HEADER)) block (next b)) in
  let* m := if next b =? 0 then Some m else update_hdr m (next b) (set_prev new_addr) in
  update_hdr m block (set_size_next wanted new_addr).

Fixpoint coalesce_loop (fuel : nat) (m : region) (block : Z) : option region :=
  match fuel with
  | O => None
  | S fuel =>
      let* b := load_hdr m block in
      if next b =? 0 then Some m else
      let* n := load_hdr m (next b) in
      if free n =? 0 then Some m else
      let expected := kmem_align_up_ptr (u64 (kmem_payload block + size b)) KMEM_ALIGN in
      if negb (expected =? next b) then Some m else
      let* m := update_hdr m block (set_size_next (u64 (size b + (HEADER + size n))) (next n)) in
      let* m := if next n =? 0 then Some m else update_hdr m (next n) (set_prev block) in
      let* m := update_hdr m (next b) clear_hdr in
      coalesce_loop fuel m block
  end.

Definition fuel_of (m : region) : nat := S (length (r_bytes m)).

Definition kmem_coalesce_forward (m : region) (block : Z) : option region :=
  if block =? 0 then Some m else coalesce_loop (fuel_of m) m block.

Fixpoint kmem_validate_loop (fuel : nat) (s : kmem_state) (guard prv cursor cur : Z) : option Z :=
  match fuel with
  | O => None
  | S fuel =>
      if cur =? 0 then Some 0 else
      let guard := guard + 1 in
      if 1048576 <? guard then Some (-3) else
      if negb (cur =? cursor) then Some (-4) else
      if (cur <? g_heap_base s) || (g_heap_end s <? cur + HEADER) then Some (-5) else
      let* b := load_hdr (kmem s) cur in
      if negb (magic b =? KMEM_MAGIC) then Some (-6) else
      if negb (prev b =? prv) then Some (-7) else
      if u64 (g_heap_end s - kmem_payload cur) <? size b then Some (-8) else
      let cursor := kmem_align_up_ptr (u64 (kmem_payload cur + size b)) KMEM_ALIGN in
      if (cursor =? 0) || (g_heap_end s <? cursor) then Some (-9) else
      kmem_validate_loop fuel s guard cur cursor (next b)
  end.

Definition kmem_validate (s : kmem_state) : option Z :=
  if negb (g_initialized s) || (g_heap_base s =? 0) || (g_heap_end s <=? g_heap_base s)
     || (g_head s =? 0) then Some (-1) else
  if negb (g_head s =? g_heap_base s) then Some (-2) else
  kmem_validate_loop (fuel_of (kmem s)) s 0 0 (g_heap_base s) (g_head s).

(** [base] is the address of the memory given to the allocator, which is the
    region of the state. *)
Definition kmem_init (s : kmem_state) (base bytes : Z) : option (Z * kmem_state) :=
  if (base =? 0) || (bytes <? HEADER + KMEM_MIN_SPLIT) then Some (-1, s) else
  let start := kmem_align_up_ptr base KMEM_ALIGN in
  if (start =? 0) || (start <? base) then Some (-2, s) else
  let lost := start - base in
  if bytes <=? u64 (lost + HEADER + KMEM_MIN_SPLIT) then Some (-3, s) else
  let usable := (bytes - lost) .& u64 (Z.lnot (KMEM_ALIGN - 1)) in
  if usable <=? HEADER + KMEM_MIN_SPLIT then Some (-4, s) else
  let* m := update_hdr (kmem s) start (fresh_hdr (usable - HEADER) 0 0) in
  let s := mk_kmem start (start + usable) start true m in
  let* rc := kmem_validate s in
  Some (rc, s).

Fixpoint alloc_loop (fuel : nat) (s : kmem_state) (wanted cur : Z) : option (Z * kmem_state) :=
  match fuel with
  | O => None
  | S fuel =>
      if cur =? 0 then Some (0, s) else
      let* b := load_hdr (kmem s) cur in
      if negb (magic b =? KMEM_MAGIC) then Some (0, s) else
      if negb (free b =? 0) && (wanted <=? size b) then
        let* m := kmem_split_if_useful s (kmem s) cur wanted in
        let* m := update_hdr m cur (set_free 0) in
        Some (kmem_payload cur, with_mem s m)
      else alloc_loop fuel s wanted (next b)
  end.

Definition kmem_alloc (s : kmem_state) (bytes : Z) : option (Z * kmem_state) :=
  if negb (g_initialized s) || (bytes =? 0) then Some (0, s) else
  let wanted := kmem_align_up_size bytes KMEM_ALIGN in
  if wanted =? 0 then Some (0, s) else
  alloc_loop (fuel_of (kmem s)) s wanted (g_head s).

Definition kmem_calloc (s : kmem_state) (count bytes : Z) : option (Z * kmem_state) :=
  if negb (count =? 0) && (UINT64_MAX / count <? bytes) then Some (0, s) else
  let total := u64 (count * bytes) in
  let* r := kmem_alloc s total in
  if r.1 =? 0 then Some r else
  let* m := kmem_memset (kmem r.2) r.1 0 total in
  Some (r.1, with_mem r.2 m).

Definition kmem_free_checked (s : kmem_state) (ptr : Z) : option (Z * kmem_state) :=
  if ptr =? 0 then Some (0, s) else
  if negb (kmem_ptr_in_heap s ptr) then Some (-1, s) else
  if negb (ptr .& (KMEM_ALIGN - 1) =? 0) then Some (-2, s) else
  let block := kmem_header_from_payload ptr in
  if negb (kmem_ptr_in_heap s block) then Some (-3, s) else
  let* b := load_hdr (kmem s) block in
  if negb (magic b =? KMEM_MAGIC) then Some (-3, s) else
  if negb (free b =? 0) then Some (-4, s) else
  let* m := update_hdr (kmem s) block (set_free 1) in
  let* m := kmem_coalesce_forward m block in
  let* b := load_hdr m block in
  let* m :=
    if prev b =? 0 then Some m else
    let* p := load_hdr m (prev b) in
    if free p =? 0 then Some m else kmem_coalesce_forward m (prev b) in
  let s := with_mem s m in
  let* rc := kmem_validate s in
  Some (rc, s).

Record kmem_stats := mk_stats {
  total_bytes : Z;
  used_bytes : Z;
  free_bytes : Z;
  block_count : Z;
  free_count : Z;
  largest_free : Z
}.

Fixpoint stats_loop (fuel : nat) (m : region) (out : kmem_stats) (cur : Z) : option kmem_stats :=
  match fuel with
  | O => None
  | S fuel =>
      if cur =? 0 then Some out else
      let* b := load_hdr m cur in
      let blocks := u64 (block_count out + 1) in
      let out :=
        if negb (free b =? 0) then
          mk_stats (total_bytes out) (used_bytes out) (u64 (free_bytes out + size b)) blocks
            (u64 (free_count out + 1)) (if largest_free out <? size b then size b else largest_free out)
        else
          mk_stats (total_bytes out) (u64 (used_bytes out + size b)) (free_bytes out) blocks
            (free_count out) (largest_free out) in
      stats_loop fuel m out (next b)
  end.

Definition kmem_get_stats (s : kmem_state) : option kmem_stats :=
  if negb (g_initialized s) then Some (mk_stats 0 0 0 0 0 0) else
  stats_loop (fuel_of (kmem s)) (kmem s)
    (mk_stats (g_heap_end s - g_heap_base s) 0 0 0 0 0) (g_head s).
