(* ===== verification/KmemFacts.v ===== *)
(** * Kernel heap: blocks in memory

    [seg m p a bs nx]: in the memory [m] the headers of the blocks [bs] lie one
    behind the other from address [a] on, linked both ways, the first one's
    [prev] being [p] and the last one's [next] being [nx].  Lemmas for the
    changes the allocator makes: a header rewritten, a block split, two
    blocks merged. *)
From S2P Require Import Prelude Kmem.

(** ** Headers *)

Definition in_u64 (x : Z) : Prop := 0 <= x < 2 ^ 64.

Record hdr_ok (h : kmem_block) : Prop := {
  ho_magic : in_u64 (magic h);
  ho_size : in_u64 (size h);
  ho_free : 0 <= free h < 2 ^ 32;
  ho_reserved : 0 <= reserved h < 2 ^ 32;
  ho_reserved2 : in_u64 (reserved2 h);
  ho_prev : in_u64 (prev h);
  ho_next : in_u64 (next h)
}.

Lemma decode_encode h : hdr_ok h -> decode_hdr (encode_hdr h) = h.
Proof.
  intros [H1 H2 H3 H4 H5 H6 H7]. unfold in_u64 in *. destruct h as [mg sz fr rs rs2 pv nx].
  unfold decode_hdr. cbn [magic size free reserved reserved2 prev next] in *.
  f_equal.
  - change (le_val (le_bytes 8 mg) = mg). apply le_val_bytes. done.
  - change (le_val (le_bytes 8 sz) = sz). apply le_val_bytes. done.
  - change (le_val (le_bytes 4 fr) = fr). apply le_val_bytes. done.
  - change (le_val (le_bytes 4 rs) = rs). apply le_val_bytes. done.
  - change (le_val (le_bytes 8 rs2) = rs2). apply le_val_bytes. done.
  - change (le_val (le_bytes 8 pv) = pv). apply le_val_bytes. done.
  - change (le_val (le_bytes 8 nx) = nx). apply le_val_bytes. done.
Qed.

Lemma length_encode h : length (encode_hdr h) = 48%nat.
Proof. done. Qed.

Lemma encode_bytes h : Forall is_byte (encode_hdr h).
Proof. unfold encode_hdr. rewrite !Forall_app. auto 10 using le_bytes_is_byte. Qed.

Lemma decode_ok bs : Forall is_byte bs -> length bs = 48%nat -> hdr_ok (decode_hdr bs).
Proof.
  intros Hb Hl. unfold decode_hdr, in_u64.
  split; cbn [magic size free reserved reserved2 prev next];
    (apply (le_get_bound _ 8); (done || lia)) || (apply (le_get_bound _ 4); (done || lia)).
Qed.

(** ** Memory *)

(** The region is an object of the target: it does not wrap around and its
    size is below [PTRDIFF_MAX]. *)
Record mem_ok (m : region) : Prop := {
  mo_bytes : Forall is_byte (r_bytes m);
  mo_base : 0 <= r_base m;
  mo_end : r_base m + Z.of_nat (length (r_bytes m)) < 2 ^ 64;
  mo_len : Z.of_nat (length (r_bytes m)) < 2 ^ 63
}.

Definition same_shape (m m' : region) : Prop :=
  r_base m' = r_base m /\ length (r_bytes m') = length (r_bytes m).

(** The headers outside [lo, hi) are unchanged. *)
Definition same_outside (m m' : region) (lo hi : Z) : Prop :=
  forall x, x + 48 <= lo \/ hi <= x -> load_hdr m' x = load_hdr m x.

#[export] Instance same_shape_trans : Transitive same_shape.
Proof. intros m1 m2 m3 [] []. split; congruence. Qed.
#[export] Instance same_shape_refl : Reflexive same_shape.
Proof. by split. Qed.

Lemma region_has_shape m m' a n : same_shape m m' -> region_has m' a n = region_has m a n.
Proof. intros [Hb Hl]. unfold region_has. by rewrite Hb, Hl. Qed.

Lemma region_has_true m a n :
  region_has m a n = true <->
  r_base m <= a /\ a + n <= r_base m + Z.of_nat (length (r_bytes m)).
Proof. unfold region_has. rewrite andb_true_iff, !Z.leb_le. done. Qed.

Lemma store_bytes_ok m a bs :
  mem_ok m -> Forall is_byte bs -> region_has m a (Z.of_nat (length bs)) = true ->
  exists m', store_bytes m a bs = Some m' /\ mem_ok m' /\ same_shape m m' /\
    same_outside m m' a (a + Z.of_nat (length bs)) /\
    sub (offset_of m a) (length bs) (r_bytes m') = bs.
Proof.
  intros [Hby Hb He Hsz] Hbs Hin. unfold store_bytes. rewrite Hin.
  apply region_has_true in Hin as (Hlo & Hhi).
  set (off := offset_of m a). assert (off + length bs <= length (r_bytes m))%nat as Hoff
    by (unfold off, offset_of; lia).
  assert (length (splice off bs (r_bytes m)) = length (r_bytes m)) as Hlen
    by (by apply length_splice).
  eexists. split; [reflexivity|]. split_all.
  - split; cbn; [|done|by rewrite Hlen|by rewrite Hlen]. by apply Forall_splice.
  - by split.
  - intros x Hx. unfold load_hdr. rewrite (region_has_shape m); [|by split].
    destruct (region_has m x HEADER) eqn:Ex; [|done].
    apply region_has_true in Ex as (Hx1 & Hx2). unfold HEADER in *.
    do 2 f_equal. unfold offset_of; cbn. apply sub_splice_other; [done|].
    unfold off, offset_of. lia.
  - cbn. by apply sub_splice_same.
Qed.

Lemma load_ok m a h : mem_ok m -> load_hdr m a = Some h -> hdr_ok h.
Proof.
  intros [Hby Hb He _]. unfold load_hdr. destruct (region_has m a HEADER) eqn:E; [|done].
  apply region_has_true in E as (E1 & E2). unfold HEADER in *. intros [= <-].
  apply decode_ok; [by apply Forall_sub|]. apply length_sub. unfold offset_of. lia.
Qed.

(** Assigning fields of one header. *)
Lemma update_ok m a f h :
  mem_ok m -> load_hdr m a = Some h -> hdr_ok (f h) ->
  exists m', update_hdr m a f = Some m' /\ mem_ok m' /\ same_shape m m' /\
    same_outside m m' a (a + 48) /\ load_hdr m' a = Some (f h).
Proof.
  intros Hm Hl Hf. unfold update_hdr. rewrite Hl. unfold store_hdr.
  assert (region_has m a 48 = true) as Hin.
  { unfold load_hdr, HEADER in Hl. by destruct (region_has m a 48). }
  destruct (store_bytes_ok m a (encode_hdr (f h)) Hm (encode_bytes _) Hin)
    as (m' & -> & Hm' & Hsh & Hout & Hsub).
  exists m'. split_all; try done. unfold load_hdr, HEADER.
  rewrite (region_has_shape m), Hin by done.
  unfold offset_of in *. rewrite (proj1 Hsh). rewrite length_encode in Hsub.
  rewrite Hsub, decode_encode by done. done.
Qed.

(** ** Blocks *)

Record ablk := mk_ablk { ab_size : Z; ab_free : bool }.

Definition ablk_ok (b : ablk) : Prop := 0 < ab_size b /\ ab_size b mod 16 = 0.

(** The bytes a block takes, header included. *)
Definition bsz (b : ablk) : Z := 48 + ab_size b.

Definition total (bs : list ablk) : Z := foldr (fun b t => bsz b + t) 0 bs.

Definition hdr_is (m : region) (a : Z) (b : ablk) (p n : Z) : Prop :=
  exists h, load_hdr m a = Some h /\ magic h = KMEM_MAGIC /\ size h = ab_size b /\
    free h = (if ab_free b then 1 else 0) /\ prev h = p /\ next h = n.

Definition head_or (a : Z) (bs : list ablk) (nx : Z) : Z :=
  match bs with [] => nx | _ => a end.

Fixpoint last_addr (p a : Z) (bs : list ablk) : Z :=
  match bs with [] => p | b :: bs => last_addr a (a + bsz b) bs end.

Fixpoint seg (m : region) (p a : Z) (bs : list ablk) (nx : Z) : Prop :=
  match bs with
  | [] => True
  | b :: bs => hdr_is m a b p (head_or (a + bsz b) bs nx) /\ seg m a (a + bsz b) bs nx
  end.

Lemma total_cons b l : total (b :: l) = bsz b + total l.
Proof. done. Qed.

Lemma total_app l1 l2 : total (l1 ++ l2) = total l1 + total l2.
Proof.
  induction l1 as [|b l1 IH]; [done|]. rewrite <- app_comm_cons, !total_cons, IH. lia.
Qed.

Lemma total_ge bs : Forall ablk_ok bs -> 48 * Z.of_nat (length bs) <= total bs.
Proof.
  induction 1 as [|b bs [Hb _] _ IH]; [done|]. rewrite total_cons. unfold bsz. cbn [length]. lia.
Qed.

Lemma total_mod bs : Forall ablk_ok bs -> total bs mod 16 = 0.
Proof.
  induction 1 as [|b bs [_ Hb] _ IH]; [done|]. rewrite total_cons. unfold bsz.
  Z.div_mod_to_equations. lia.
Qed.

Lemma seg_app m p a l1 l2 nx :
  seg m p a (l1 ++ l2) nx <->
  seg m p a l1 (head_or (a + total l1) l2 nx) /\
  seg m (last_addr p a l1) (a + total l1) l2 nx.
Proof.
  revert p a. induction l1 as [|b l1 IH]; intros p a; cbn [app seg last_addr].
  - cbn. rewrite Z.add_0_r. tauto.
  - rewrite IH, total_cons.
    replace (a + bsz b + total l1) with (a + (bsz b + total l1)) by lia.
    assert (head_or (a + bsz b) (l1 ++ l2) nx =
            head_or (a + bsz b) l1 (head_or (a + (bsz b + total l1)) l2 nx)) as ->.
    { destruct l1; [|done]. cbn. destruct l2; [done|]. cbn. lia. }
    tauto.
Qed.

Lemma seg_frame m m' lo hi p a bs nx :
  same_outside m m' lo hi -> Forall ablk_ok bs ->
  a + total bs <= lo \/ hi <= a -> seg m p a bs nx -> seg m' p a bs nx.
Proof.
  intros Hout Hbs. revert p a. induction Hbs as [|b bs [Hb _] Hbs IH]; intros p a Ha; [done|].
  rewrite total_cons in Ha. unfold bsz in Ha. pose proof (total_ge bs Hbs).
  intros ((h & Hl & Hh) & Hs). split.
  - exists h. split; [|done]. rewrite Hout; [done|]. lia.
  - apply IH; [|done]. unfold bsz. lia.
Qed.

(** Addresses of well-formed blocks stay aligned. *)
Lemma aligned_after a bs : a mod 16 = 0 -> Forall ablk_ok bs -> (a + total bs) mod 16 = 0.
Proof.
  intros Ha Hbs. pose proof (total_mod bs Hbs). Z.div_mod_to_equations. lia.
Qed.

(** ** Rounding to the alignment *)

Lemma round_up_16 x : 0 <= x -> x + 15 < 2 ^ 64 ->
  u64 (x + 15) .& u64 (Z.lnot 15) = (x + 15) / 16 * 16.
Proof.
  intros Hx Hb. rewrite (u64_id (x + 15)) by lia. unfold u64.
  rewrite land_lnot_wrap by (unfold in_u; lia). apply (ldiff_ones _ 4). lia.
Qed.

Lemma align_up_ptr_id x : 0 <= x < 2 ^ 64 -> x mod 16 = 0 -> kmem_align_up_ptr x KMEM_ALIGN = x.
Proof.
  intros Hx Ha. unfold kmem_align_up_ptr, KMEM_ALIGN, UINT64_MAX. cbv zeta.
  change (u64 (16 - 1)) with 15. change (negb (16 .& 15 =? 0)) with false.
  assert (x <= 2 ^ 64 - 16) by (Z.div_mod_to_equations; lia).
  rewrite (proj2 (Z.ltb_ge _ _)) by lia. rewrite round_up_16 by lia.
  Z.div_mod_to_equations. lia.
Qed.

(** A request rounded up to the alignment, 0 when that overflows. *)
Definition round_size (v : Z) : Z := if 2 ^ 64 - 16 <? v then 0 else (v + 15) / 16 * 16.

Lemma align_up_size_eq v : 0 <= v < 2 ^ 64 -> kmem_align_up_size v KMEM_ALIGN = round_size v.
Proof.
  intros Hv. unfold kmem_align_up_size, KMEM_ALIGN, UINT64_MAX, round_size. cbv zeta.
  change (16 =? 0) with false. change (negb (16 .& (16 - 1) =? 0)) with false.
  change (16 - 1) with 15. replace (2 ^ 64 - 1 - 15) with (2 ^ 64 - 16) by lia.
  case_if; [done|]. zbool. apply round_up_16; lia.
Qed.

Lemma round_size_spec v : 0 < v < 2 ^ 64 -> round_size v <> 0 ->
  round_size v mod 16 = 0 /\ v <= round_size v < v + 16 /\ 0 < round_size v < 2 ^ 64.
Proof.
  intros Hv. unfold round_size. case_if; [done|]. zbool. intros _.
  Z.div_mod_to_equations. lia.
Qed.

(** ** The heap *)

(** No two free blocks are neighbours. *)
Fixpoint merged (bs : list ablk) : Prop :=
  match bs with
  | b :: ((c :: _) as rest) => ~ (ab_free b = true /\ ab_free c = true) /\ merged rest
  | _ => True
  end.

Record heap_ok (bs : list ablk) (s : kmem_state) : Prop := {
  hk_init : g_initialized s = true;
  hk_head : g_head s = g_heap_base s;
  hk_pos : 0 < g_heap_base s;
  hk_align : g_heap_base s mod 16 = 0;
  hk_end : g_heap_end s = g_heap_base s + total bs;
  hk_nonempty : bs <> [];
  hk_blocks : Forall ablk_ok bs;
  hk_mem : mem_ok (kmem s);
  hk_low : r_base (kmem s) <= g_heap_base s;
  hk_high : g_heap_end s <= r_base (kmem s) + Z.of_nat (length (r_bytes (kmem s)));
  hk_seg : seg (kmem s) 0 (g_heap_base s) bs 0
}.

Lemma heap_ok_blocks bs bs' s m :
  heap_ok bs s -> mem_ok m -> same_shape (kmem s) m -> total bs' = total bs -> bs' <> [] ->
  Forall ablk_ok bs' -> seg m 0 (g_heap_base s) bs' 0 -> heap_ok bs' (with_mem s m).
Proof.
  intros [] Hm [Hb Hl] Ht Hne Hbs Hseg. split; cbn; try done; try congruence.
Qed.

(** The address of the block behind [l1]. *)
Section middle.
Context (l1 l2 : list ablk) (b : ablk) (s : kmem_state).
Context (Hs : heap_ok (l1 ++ b :: l2) s).
Let a := g_heap_base s + total l1.

Lemma middle_facts :
  Forall ablk_ok l1 /\ ablk_ok b /\ Forall ablk_ok l2 /\ 0 < a /\ a mod 16 = 0 /\
  a + bsz b + total l2 = g_heap_end s /\ g_heap_end s < 2 ^ 64 /\ 0 <= total l1 /\ 0 <= total l2 /\
  0 <= ab_size b < 2 ^ 63.
Proof.
  destruct Hs as [_ _ Hpos Hal Hend _ Hbs [_ _ He Hsz] Hlo Hhi _].
  apply Forall_app in Hbs as (H1 & H2). apply Forall_cons in H2 as (Hb & H2).
  pose proof (total_ge _ H1). pose proof (total_ge _ H2). pose proof (aligned_after _ l1 Hal H1).
  rewrite total_app, total_cons in Hend. unfold bsz in *. destruct Hb as [Hb0 Hb1].
  split_all; try done; subst a; unfold bsz; lia.
Qed.

Lemma middle_seg m :
  seg m 0 (g_heap_base s) (l1 ++ b :: l2) 0 <->
  seg m 0 (g_heap_base s) l1 a /\
  hdr_is m a b (last_addr 0 (g_heap_base s) l1) (head_or (a + bsz b) l2 0) /\
  seg m a (a + bsz b) l2 0.
Proof. rewrite seg_app. cbn [head_or seg]. done. Qed.

End middle.

Definition split_blk (w : Z) (b : ablk) : list ablk :=
  if w + 80 <? ab_size b
  then [mk_ablk w (ab_free b); mk_ablk (ab_size b - w - 48) true] else [b].

(** The back link of the block behind a rewritten one. *)
Lemma relink m p p' a bs :
  mem_ok m -> Forall ablk_ok bs -> 0 < a -> in_u64 p' -> seg m p a bs 0 ->
  exists m', (if head_or a bs 0 =? 0 then Some m
              else update_hdr m (head_or a bs 0) (set_prev p')) = Some m' /\
    mem_ok m' /\ same_shape m m' /\ same_outside m m' a (a + 48) /\ seg m' p' a bs 0.
Proof.
  intros Hm Hbs Ha Hp Hseg. destruct bs as [|c bs]; cbn [head_or].
  { exists m. split_all; try done. }
  rewrite (proj2 (Z.eqb_neq _ _)) by lia. destruct Hseg as ((h & Hl & H1 & H2 & H3 & H4 & H5) & Hseg).
  pose proof (load_ok m a h Hm Hl) as Hh.
  destruct (update_ok m a (set_prev p') h Hm Hl) as (m' & Hu & Hm' & Hsh & Hout & Hl').
  { destruct Hh. by split. }
  exists m'. split_all; try done. split.
  - exists (set_prev p' h). done.
  - apply Forall_cons in Hbs as ([Hc _] & Hbs). eapply seg_frame; [done..| |done].
    right. unfold bsz. lia.
Qed.

Lemma load_in_heap bs s a :
  heap_ok bs s -> g_heap_base s <= a -> a + 48 <= g_heap_end s ->
  exists h, load_hdr (kmem s) a = Some h.
Proof.
  intros [_ _ _ _ _ _ _ _ Hlo Hhi _] H1 H2. unfold load_hdr, HEADER.
  rewrite (proj2 (region_has_true _ _ _)) by lia. by eexists.
Qed.

(** [same_outside] of successive changes inside one range. *)
Lemma same_outside_trans m1 m2 m3 lo hi lo' hi' :
  same_outside m1 m2 lo hi -> same_outside m2 m3 lo' hi' ->
  same_outside m1 m3 (Z.min lo lo') (Z.max hi hi').
Proof. intros H1 H2 x Hx. rewrite H2, H1 by lia. done. Qed.

(** The three stores of a split: the new header, the back link of the
    following block, and the header of the split block. *)
Lemma split_stores l1 b l2 s w :
  heap_ok (l1 ++ b :: l2) s -> 0 < w -> w mod 16 = 0 -> w + 48 + 32 < ab_size b ->
  let a := g_heap_base s + total l1 in
  let na := a + 48 + w in
  let nx := head_or (a + bsz b) l2 0 in
  exists m1 m2 m3,
    update_hdr (kmem s) na (fresh_hdr (ab_size b - w - 48) a nx) = Some m1 /\
    (if nx =? 0 then Some m1 else update_hdr m1 nx (set_prev na)) = Some m2 /\
    update_hdr m2 a (set_size_next w na) = Some m3 /\
    heap_ok (l1 ++ [mk_ablk w (ab_free b); mk_ablk (ab_size b - w - 48) true] ++ l2) (with_mem s m3) /\
    same_shape (kmem s) m3.
Proof.
  intros Hs Hw Hwm Hsz a na nx.
  destruct (middle_facts l1 l2 b s Hs) as (Hl1 & (Hb0 & Hbm) & Hl2 & Ha & Ham & Hend & Hlt & Ht1 & Ht2 & Hbsz).
  fold a in Ha, Ham, Hend.
  pose proof (proj1 (middle_seg l1 l2 b s (kmem s)) (hk_seg _ _ Hs)) as (Hs1 & (h & Hl & Hhdr) & Hs2).
  fold a in Hs1, Hl, Hhdr, Hs2. destruct Hhdr as (Hmag & Hhsz & Hfr & Hpv & Hnx).
  set (nb := mk_ablk (ab_size b - w - 48) true). set (a2 := a + bsz b) in *.
  assert (a2 = a + 48 + ab_size b) as Ha2 by (unfold a2, bsz; lia).
  assert (na + bsz nb = a2) as Hna2 by (unfold nb, bsz; cbn; lia).
  destruct (load_in_heap _ _ na Hs) as [g Hg]; [lia|lia|].
  destruct (update_ok (kmem s) na (fresh_hdr (ab_size b - w - 48) a nx) g)
    as (m1 & Hu1 & Hm1 & Hsh1 & Hout1 & Hld1); [apply Hs|done| |].
  { destruct (load_ok _ _ _ (hk_mem _ _ Hs) Hg). split; try done; cbn; unfold in_u64; try lia.
    unfold nx. destruct l2; cbn; lia. }
  assert (seg m1 a a2 l2 0) as Hs2' by (eapply seg_frame; [exact Hout1|done|lia|exact Hs2]).
  destruct (relink m1 a na a2 l2) as (m2 & Hu2 & Hm2 & Hsh2 & Hout2 & Hseg2); try done;
    [lia|unfold in_u64; lia|].
  assert (load_hdr m2 a = Some h) as Hl2' by (rewrite Hout2, Hout1 by lia; done).
  destruct (update_ok m2 a (set_size_next w na) h Hm2 Hl2') as (m3 & Hu3 & Hm3 & Hsh3 & Hout3 & Hld3).
  { destruct (load_ok _ _ _ Hm2 Hl2'). split; try done; cbn; unfold in_u64; lia. }
  assert (same_shape (kmem s) m3) as Hsh by (by etransitivity; [exact Hsh1|etransitivity]).
  exists m1, m2, m3. split_all; try done. apply (heap_ok_blocks _ _ _ _ Hs); try done.
  - rewrite !total_app, !total_cons. unfold bsz in *. cbn in *. lia.
  - by destruct l1.
  - rewrite !Forall_app. split_all; try done. repeat constructor; cbn; try lia;
      Z.div_mod_to_equations; lia.
  - cbn [app]. rewrite seg_app. fold a. cbn [head_or seg].
    replace (a + bsz (mk_ablk w (ab_free b))) with na by (unfold bsz; cbn; lia). fold nb. rewrite Hna2.
    split_all.
    + do 2 (eapply seg_frame; [eassumption|done|lia|]). eapply seg_frame; [exact Hout1|done|lia|done].
    + exists (set_size_next w na h). by split_all.
    + exists (fresh_hdr (ab_size b - w - 48) a nx g). split_all; try done.
      by rewrite Hout3, Hout2, Hld1 by lia.
    + by eapply seg_frame; [exact Hout3|done|lia|].
Qed.

Lemma split_ok l1 b l2 s w :
  heap_ok (l1 ++ b :: l2) s -> 0 < w <= ab_size b -> w mod 16 = 0 ->
  exists m, kmem_split_if_useful s (kmem s) (g_heap_base s + total l1) w = Some m /\
    heap_ok (l1 ++ split_blk w b ++ l2) (with_mem s m) /\ same_shape (kmem s) m.
Proof.
  intros Hs Hw Hwm. set (a := g_heap_base s + total l1).
  destruct (middle_facts l1 l2 b s Hs) as (Hl1 & (Hb0 & Hbm) & Hl2 & Ha & Ham & Hend & Hlt & Ht1 & Ht2 & Hbsz).
  fold a in Ha, Ham, Hend. unfold bsz in Hend.
  pose proof (proj1 (middle_seg l1 l2 b s (kmem s)) (hk_seg _ _ Hs)) as (Hs1 & (h & Hl & Hhdr) & Hs2).
  fold a in Hl, Hhdr. destruct Hhdr as (Hmag & Hsz & Hfr & Hpv & Hnx).
  unfold kmem_split_if_useful. change (kmem_align_up_size HEADER KMEM_ALIGN) with 48.
  change (48 =? 0) with false. cbv iota. rewrite Hl, Hsz. unfold KMEM_MIN_SPLIT, HEADER, kmem_payload.
  rewrite (u64_id (w + 48 + 32)) by lia. unfold split_blk.
  assert (same_shape (kmem s) (kmem s) /\ heap_ok (l1 ++ [b] ++ l2) (with_mem s (kmem s))) as (Hrefl & Hsame).
  { split; [done|]. replace (with_mem s (kmem s)) with s by (by destruct s). done. }
  destruct (Z.ltb_spec (ab_size b) (w + 48 + 32)).
  { rewrite (proj2 (Z.ltb_ge _ _)) by lia. by exists (kmem s). }
  unfold HEADER. set (na := a + 48 + w). rewrite (u64_id na), align_up_ptr_id; try lia;
    try (subst na; Z.div_mod_to_equations; lia).
  rewrite (proj2 (Z.eqb_neq na 0)), (proj2 (Z.leb_gt _ _)) by lia.
  replace (na - (a + 48)) with w by lia. rewrite (u64_id w), (u64_id (w + 48 + 32)) by lia.
  destruct (Z.leb_spec (ab_size b) (w + 48 + 32)).
  { rewrite (proj2 (Z.ltb_ge _ _)) by lia. by exists (kmem s). }
  rewrite (proj2 (Z.ltb_lt _ _)), (u64_id (ab_size b - w - 48)), Hnx by lia.
  destruct (split_stores l1 b l2 s w Hs) as (m1 & m2 & m3 & E1 & E2 & E3 & Hok & Hsh); try lia.
  fold a in E1, E2, E3. fold na in E1, E2, E3. exists m3. by rewrite E1, E2, E3.
Qed.

(** ** Merging *)

Definition join (b c : ablk) : ablk := mk_ablk (ab_size b + bsz c) (ab_free b).

Fixpoint merge_fwd (b : ablk) (l : list ablk) : list ablk :=
  match l with
  | c :: l' => if ab_free c then merge_fwd (join b c) l' else b :: l
  | [] => [b]
  end.

(** One round of the loop: the next block, free, is absorbed. *)
Lemma absorb_ok l1 b c l2 s :
  heap_ok (l1 ++ b :: c :: l2) s ->
  let a := g_heap_base s + total l1 in
  let ac := a + bsz b in
  let nx := head_or (ac + bsz c) l2 0 in
  exists m1 m2 m3,
    update_hdr (kmem s) a (set_size_next (ab_size b + (48 + ab_size c)) nx) = Some m1 /\
    (if nx =? 0 then Some m1 else update_hdr m1 nx (set_prev a)) = Some m2 /\
    update_hdr m2 ac clear_hdr = Some m3 /\
    heap_ok (l1 ++ join b c :: l2) (with_mem s m3) /\ same_shape (kmem s) m3.
Proof.
  intros Hs a ac nx.
  destruct (middle_facts l1 (c :: l2) b s Hs)
    as (Hl1 & (Hb0 & Hbm) & Hcl2 & Ha & Ham & Hend & Hlt & Ht1 & _ & Hbsz).
  apply Forall_cons in Hcl2 as ((Hc0 & Hcm) & Hl2). fold a in Ha, Ham, Hend.
  rewrite total_cons in Hend. unfold bsz in Hend. pose proof (total_ge _ Hl2) as Ht2.
  pose proof (proj1 (middle_seg l1 (c :: l2) b s (kmem s)) (hk_seg _ _ Hs))
    as (Hs1 & (h & Hl & Hhdr) & (hc & Hlc & Hhc) & Hs2).
  fold a in Hs1, Hl, Hhdr, Hlc, Hhc, Hs2. fold ac in Hlc, Hhc, Hs2.
  assert (ac = a + 48 + ab_size b) as Hac by (unfold ac, bsz; lia).
  set (a2 := ac + bsz c) in *. assert (a2 = ac + 48 + ab_size c) as Ha2 by (unfold a2, bsz; lia).
  assert (hdr_ok h) as Hhok by (by apply (load_ok (kmem s) a h (hk_mem _ _ Hs))).
  destruct (update_ok (kmem s) a (set_size_next (ab_size b + (48 + ab_size c)) nx) h)
    as (m1 & Hu1 & Hm1 & Hsh1 & Hout1 & Hld1); [apply Hs|done| |].
  { destruct Hhok. split; try done; cbn; unfold in_u64; [lia|].
    unfold nx. destruct l2; cbn; lia. }
  destruct (relink m1 ac a a2 l2) as (m2 & Hu2 & Hm2 & Hsh2 & Hout2 & Hseg2);
    [done|done|lia|unfold in_u64; lia| |].
  { eapply seg_frame; [exact Hout1|done|right; lia|done]. }
  assert (load_hdr m2 ac = Some hc) as Hlc2 by (rewrite Hout2, Hout1 by lia; done).
  assert (hdr_ok hc) as Hcok by (by apply (load_ok m2 ac hc)).
  destruct (update_ok m2 ac clear_hdr hc Hm2 Hlc2) as (m3 & Hu3 & Hm3 & Hsh3 & Hout3 & _).
  { destruct Hcok. split; try done; cbn; unfold in_u64; lia. }
  assert (same_shape (kmem s) m3) as Hsh by (etransitivity; [exact Hsh1|by etransitivity]).
  exists m1, m2, m3. split_all; try done.
  apply (heap_ok_blocks _ _ _ _ Hs); try done.
  - rewrite !total_app, !total_cons. unfold join, bsz. cbn. lia.
  - by destruct l1.
  - rewrite !Forall_app, !Forall_cons. split_all; try done.
    unfold join, bsz, ablk_ok; cbn. split; [lia|]. Z.div_mod_to_equations. lia.
  - assert (a + bsz (join b c) = a2) as Hj by (unfold join, bsz; cbn; unfold bsz; lia).
    rewrite seg_app. fold a. cbn [head_or seg]. rewrite Hj. split_all.
    + do 3 (eapply seg_frame; [eassumption|done|left; lia|]). done.
    + exists (set_size_next (ab_size b + (48 + ab_size c)) nx h).
      destruct Hhdr as (H1 & _ & H3 & H4 & _). split_all; try done.
      rewrite Hout3, Hout2, Hld1 by lia. done.
    + eapply seg_frame; [exact Hout3|done|right; lia|done].
Qed.

Lemma coalesce_loop_ok l2 : forall l1 b s fuel,
  heap_ok (l1 ++ b :: l2) s -> (length l2 < fuel)%nat ->
  exists m, coalesce_loop fuel (kmem s) (g_heap_base s + total l1) = Some m /\
    heap_ok (l1 ++ merge_fwd b l2) (with_mem s m) /\ same_shape (kmem s) m.
Proof.
  induction l2 as [|c l2 IH]; intros l1 b s fuel Hs Hfuel;
    (destruct fuel as [|fuel]; [lia|]); cbn [coalesce_loop merge_fwd].
  - pose proof (proj1 (middle_seg l1 [] b s (kmem s)) (hk_seg _ _ Hs)) as (_ & (h & -> & Hh) & _).
    destruct Hh as (_ & _ & _ & _ & ->). cbn [head_or]. exists (kmem s).
    replace (with_mem s (kmem s)) with s by (by destruct s). split_all; done.
  - destruct (middle_facts l1 (c :: l2) b s Hs)
      as (_ & (Hb0 & Hbm) & Hcl2 & Ha & Ham & Hend & Hlt & _ & _ & Hbsz).
    apply Forall_cons in Hcl2 as ((Hc0 & _) & Hl2). pose proof (total_ge _ Hl2).
    rewrite total_cons in Hend. unfold bsz in Hend.
    set (a := g_heap_base s + total l1) in *.
    pose proof (proj1 (middle_seg l1 (c :: l2) b s (kmem s)) (hk_seg _ _ Hs))
      as (_ & (h & Hl & Hh) & (hc & Hlc & Hhc) & _). fold a in Hl, Hh, Hlc, Hhc.
    destruct Hh as (_ & Hsz & _ & _ & Hnx), Hhc as (_ & Hcsz & Hcfr & _ & Hcnx).
    cbn [head_or] in Hnx. rewrite Hl, Hnx, Hlc.
    rewrite (proj2 (Z.eqb_neq _ _)) by (unfold bsz; lia). rewrite Hcfr.
    destruct (ab_free c) eqn:Ec; cbn [Z.eqb].
    2: { exists (kmem s). replace (with_mem s (kmem s)) with s by (by destruct s). done. }
    unfold kmem_payload, HEADER. rewrite Hsz, (u64_id (a + 48 + ab_size b)), align_up_ptr_id by
      (lia || (Z.div_mod_to_equations; lia)).
    replace (a + 48 + ab_size b) with (a + bsz b) by (unfold bsz; lia).
    rewrite Z.eqb_refl, Hcsz, Hcnx. cbn [negb].
    rewrite (u64_id (ab_size b + (48 + ab_size c))) by lia.
    destruct (absorb_ok l1 b c l2 s Hs) as (m1 & m2 & m3 & Hu1 & Hu2 & Hu3 & Hs' & Hsh).
    cbv zeta in Hu1, Hu2, Hu3. fold a in Hu1, Hu2, Hu3.
    rewrite Hu1, Hu2, Hu3. destruct (IH l1 (join b c) (with_mem s m3) fuel Hs') as (m & Hm & Hs2 & Hsh2);
      [cbn in Hfuel; lia|].
    exists m. split_all; [exact Hm|exact Hs2|]. etransitivity; [exact Hsh|exact Hsh2].
Qed.

(** Enough fuel for every list of blocks in the region. *)
Lemma fuel_enough bs s : heap_ok bs s -> (length bs < fuel_of (kmem s))%nat.
Proof.
  intros [_ _ _ _ Hend _ Hbs _ Hlo Hhi _]. pose proof (total_ge _ Hbs). unfold fuel_of. lia.
Qed.

Lemma coalesce_ok l1 b l2 s :
  heap_ok (l1 ++ b :: l2) s ->
  exists m, kmem_coalesce_forward (kmem s) (g_heap_base s + total l1) = Some m /\
    heap_ok (l1 ++ merge_fwd b l2) (with_mem s m) /\ same_shape (kmem s) m.
Proof.
  intros Hs. unfold kmem_coalesce_forward.
  destruct (middle_facts l1 l2 b s Hs) as (_ & _ & _ & Ha & _).
  rewrite (proj2 (Z.eqb_neq _ _)) by lia. apply coalesce_loop_ok; [done|].
  pose proof (fuel_enough _ _ Hs) as Hf. rewrite length_app in Hf. cbn in Hf. lia.
Qed.

(** ** The operations on the list of blocks *)

Lemma set_free_ok l1 b l2 s (f : bool) :
  heap_ok (l1 ++ b :: l2) s ->
  exists m, update_hdr (kmem s) (g_heap_base s + total l1) (set_free (if f then 1 else 0)) = Some m /\
    heap_ok (l1 ++ mk_ablk (ab_size b) f :: l2) (with_mem s m) /\ same_shape (kmem s) m.
Proof.
  intros Hs. set (a := g_heap_base s + total l1).
  destruct (middle_facts l1 l2 b s Hs) as (Hl1 & Hb & Hl2 & _ & _ & _ & _ & _ & Ht2 & Hbsz).
  pose proof (proj1 (middle_seg l1 l2 b s (kmem s)) (hk_seg _ _ Hs)) as (Hs1 & (h & Hl & Hh) & Hs2).
  fold a in Hs1, Hl, Hh, Hs2. pose proof (load_ok _ _ _ (hk_mem _ _ Hs) Hl) as Hhok.
  destruct (update_ok (kmem s) a (set_free (if f then 1 else 0)) h (hk_mem _ _ Hs) Hl)
    as (m & Hu & Hm & Hsh & Hout & Hld).
  { destruct Hhok. split; try done. by destruct f. }
  exists m. split_all; try done. apply (heap_ok_blocks _ _ _ _ Hs); try done.
  - rewrite !total_app, !total_cons. done.
  - by destruct l1.
  - rewrite Forall_app, Forall_cons. done.
  - rewrite seg_app. cbn [head_or seg]. fold a. change (bsz (mk_ablk (ab_size b) f)) with (bsz b).
    split_all.
    + eapply seg_frame; [exact Hout|done|left; lia|done].
    + exists (set_free (if f then 1 else 0) h). destruct Hh as (H1 & H2 & _ & H4 & H5). done.
    + eapply seg_frame; [exact Hout|done|right; unfold bsz; lia|done].
Qed.

Definition fits (w : Z) (b : ablk) : bool := ab_free b && (w <=? ab_size b).

(** What an allocation makes of the block it takes. *)
Definition carve (w : Z) (b : ablk) : list ablk :=
  if w + 80 <? ab_size b then [mk_ablk w false; mk_ablk (ab_size b - w - 48) true]
  else [mk_ablk (ab_size b) false].

(** First fit: the offset of the block's header and the blocks afterwards. *)
Fixpoint alloc_blocks (w : Z) (bs : list ablk) : option (Z * list ablk) :=
  match bs with
  | [] => None
  | b :: bs =>
      if fits w b then Some (0, carve w b ++ bs) else
      let* r := alloc_blocks w bs in Some (bsz b + r.1, b :: r.2)
  end.

Lemma take_block_ok l1 b l2 s w :
  heap_ok (l1 ++ b :: l2) s -> fits w b = true -> 0 < w -> w mod 16 = 0 ->
  exists m1 m2, kmem_split_if_useful s (kmem s) (g_heap_base s + total l1) w = Some m1 /\
    update_hdr m1 (g_heap_base s + total l1) (set_free 0) = Some m2 /\
    heap_ok (l1 ++ carve w b ++ l2) (with_mem s m2) /\ same_shape (kmem s) m2.
Proof.
  intros Hs Hfit Hw Hwm. unfold fits in Hfit. zbool.
  destruct (split_ok l1 b l2 s w Hs) as (m1 & Hm1 & Hs1 & Hsh1); [lia|done|].
  exists m1. unfold split_blk in Hs1. unfold carve.
  destruct (w + 80 <? ab_size b); cbn [app] in *;
    destruct (set_free_ok _ _ _ _ false Hs1) as (m2 & Hm2 & Hs2 & Hsh2);
    (exists m2; split_all; [exact Hm1|exact Hm2|exact Hs2|etransitivity; [exact Hsh1|exact Hsh2]]).
Qed.

Lemma alloc_loop_ok w l2 : forall l1 s fuel,
  heap_ok (l1 ++ l2) s -> (length l2 < fuel)%nat -> 0 < w -> w mod 16 = 0 ->
  let a := g_heap_base s + total l1 in
  match alloc_blocks w l2 with
  | Some (o, l2') => exists m, alloc_loop fuel s w (head_or a l2 0) = Some (a + o + 48, with_mem s m) /\
      heap_ok (l1 ++ l2') (with_mem s m) /\ same_shape (kmem s) m
  | None => alloc_loop fuel s w (head_or a l2 0) = Some (0, s)
  end.
Proof.
  induction l2 as [|b l2 IH]; intros l1 s fuel Hs Hfuel Hw Hwm a;
    (destruct fuel as [|fuel]; [lia|]); cbn [alloc_loop alloc_blocks head_or]; [done|].
  destruct (middle_facts l1 l2 b s Hs) as (_ & _ & _ & Ha & _). fold a in Ha.
  rewrite (proj2 (Z.eqb_neq a 0)) by lia.
  pose proof (proj1 (middle_seg l1 l2 b s (kmem s)) (hk_seg _ _ Hs)) as (_ & (h & Hl & Hh) & _).
  fold a in Hl, Hh. destruct Hh as (Hmg & Hsz & Hfr & _ & Hnx).
  rewrite Hl, Hmg, Z.eqb_refl, Hsz, Hfr. cbn [negb].
  replace (negb ((if ab_free b then 1 else 0) =? 0) && (w <=? ab_size b)) with (fits w b)
    by (unfold fits; by destruct (ab_free b)).
  destruct (fits w b) eqn:Ef.
  - destruct (take_block_ok l1 b l2 s w) as (m1 & m2 & Hm1 & Hm2 & Hs2 & Hsh2); try done.
    fold a in Hm1, Hm2. rewrite Hm1, Hm2. exists m2. rewrite Z.add_0_r. done.
  - rewrite Hnx. specialize (IH (l1 ++ [b]) s fuel). rewrite <- app_assoc in IH. cbn [app] in IH.
    rewrite total_app in IH. cbn in Hfuel. specialize (IH Hs ltac:(lia) Hw Hwm). cbv zeta in IH.
    change (total [b]) with (bsz b + 0) in IH.
    replace (g_heap_base s + (total l1 + (bsz b + 0))) with (a + bsz b) in IH by (unfold a; lia).
    destruct (alloc_blocks w l2) as [[o l2']|]; cbn [fst snd]; [|done].
    destruct IH as (m & Hm & Hs' & Hsh). exists m. rewrite <- app_assoc in Hs'.
    split_all; [|done|done]. rewrite Hm. do 2 f_equal. lia.
Qed.

(** The blocks after a request of [bytes] bytes. *)
Definition spec_alloc (bytes : Z) (bs : list ablk) : option (Z * list ablk) :=
  if (bytes =? 0) || (round_size bytes =? 0) then None else alloc_blocks (round_size bytes) bs.

Lemma kmem_alloc_ok bs s bytes :
  heap_ok bs s -> 0 <= bytes < 2 ^ 64 ->
  match spec_alloc bytes bs with
  | Some (o, bs') => exists m, kmem_alloc s bytes = Some (g_heap_base s + o + 48, with_mem s m) /\
      heap_ok bs' (with_mem s m) /\ same_shape (kmem s) m
  | None => kmem_alloc s bytes = Some (0, s)
  end.
Proof.
  intros Hs Hb. unfold spec_alloc, kmem_alloc. rewrite (hk_init _ _ Hs). cbn [negb orb].
  destruct (Z.eqb_spec bytes 0) as [|H0]; cbn [orb]; [done|]. rewrite align_up_size_eq by done.
  destruct (Z.eqb_spec (round_size bytes) 0) as [|H1]; [done|].
  destruct (round_size_spec bytes) as (Hm & _ & Hpos); [lia|done|].
  pose proof (alloc_loop_ok (round_size bytes) bs [] s (fuel_of (kmem s)) Hs
    (fuel_enough _ _ Hs) ltac:(lia) Hm) as H. cbv zeta in H. cbn [total foldr app] in H.
  rewrite Z.add_0_r in H. rewrite (hk_head _ _ Hs).
  replace (head_or (g_heap_base s) bs 0) with (g_heap_base s) in H; [done|].
  pose proof (hk_nonempty _ _ Hs). by destruct bs.
Qed.

(** ** Validation *)

Definition validate_result (n : Z) : Z := if n <=? 1048576 then 0 else -3.

Lemma kmem_validate_loop_ok s bs : forall p a guard fuel,
  Forall ablk_ok bs -> g_heap_base s <= a -> 0 < a -> a mod 16 = 0 ->
  a + total bs = g_heap_end s -> g_heap_end s < 2 ^ 64 ->
  seg (kmem s) p a bs 0 -> (length bs < fuel)%nat -> guard <= 1048576 ->
  kmem_validate_loop fuel s guard p a (head_or a bs 0) =
    Some (validate_result (guard + Z.of_nat (length bs))).
Proof.
  induction bs as [|b bs IH]; intros p a guard fuel Hbs Hbase Ha Ham Hend Hlt Hseg Hfuel Hg;
    (destruct fuel as [|fuel]; [cbn in Hfuel; lia|]); cbn [kmem_validate_loop head_or].
  { unfold validate_result. cbn [length]. rewrite (proj2 (Z.leb_le _ _)) by lia. done. }
  apply Forall_cons in Hbs as ((Hb0 & Hbm) & Hbs). pose proof (total_ge _ Hbs) as Ht.
  rewrite total_cons in Hend. unfold bsz in Hend. cbn [length].
  rewrite (proj2 (Z.eqb_neq a 0)) by lia.
  destruct Hseg as ((h & Hl & Hmg & Hsz & _ & Hpv & Hnx) & Hseg).
  destruct (Z.ltb_spec 1048576 (guard + 1)).
  { unfold validate_result. rewrite (proj2 (Z.leb_gt _ _)) by lia. done. }
  rewrite Z.eqb_refl. cbn [negb]. unfold HEADER, kmem_payload.
  rewrite !(proj2 (Z.ltb_ge _ _)) by lia. cbn [orb].
  rewrite Hl, Hmg, Hpv, !Z.eqb_refl, Hsz, Hnx. cbn [negb]. unfold HEADER.
  rewrite (u64_id (g_heap_end s - (a + 48))), (proj2 (Z.ltb_ge _ _)) by lia.
  rewrite (u64_id (a + 48 + ab_size b)), align_up_ptr_id by (lia || (Z.div_mod_to_equations; lia)).
  rewrite (proj2 (Z.eqb_neq _ 0)), (proj2 (Z.ltb_ge _ _)) by lia. cbn [orb].
  replace (a + 48 + ab_size b) with (a + bsz b) by (unfold bsz; lia).
  rewrite IH; try done; unfold bsz; try lia; [do 2 f_equal; lia|Z.div_mod_to_equations; lia|].
  cbn in Hfuel. lia.
Qed.

Lemma kmem_validate_ok bs s :
  heap_ok bs s -> kmem_validate s = Some (validate_result (Z.of_nat (length bs))).
Proof.
  intros Hs. pose proof (fuel_enough _ _ Hs) as Hf. pose proof (hk_nonempty _ _ Hs) as Hne.
  destruct Hs as [Hi Hh Hpos Hal Hend _ Hbs [_ _ He _] Hlo Hhi Hseg].
  pose proof (total_ge _ Hbs) as Ht. unfold kmem_validate. rewrite Hi, Hh.
  assert (0 < total bs). { destruct bs; [done|]. cbn [length] in Ht. lia. }
  rewrite !(proj2 (Z.eqb_neq _ 0)), (proj2 (Z.leb_gt _ _)), Z.eqb_refl by lia. cbn [negb orb].
  pose proof (kmem_validate_loop_ok s bs 0 (g_heap_base s) 0 (fuel_of (kmem s))) as Hv.
  replace (head_or (g_heap_base s) bs 0) with (g_heap_base s) in Hv by (by destruct bs).
  rewrite Hv; try done; lia.
Qed.

(** ** Freeing *)

(** The blocks after the used block [b] between [l1] and [l2] is freed. *)
Definition free_blocks (l1 : list ablk) (b : ablk) (l2 : list ablk) : list ablk :=
  let merged_b := merge_fwd (mk_ablk (ab_size b) true) l2 in
  match last l1 with
  | Some p => if ab_free p then removelast l1 ++ merge_fwd p merged_b else l1 ++ merged_b
  | None => merged_b
  end.

Lemma merge_fwd_cons b l : exists b' l', merge_fwd b l = b' :: l'.
Proof.
  revert b. induction l as [|c l IH]; intros b; cbn; [by eexists _, _|].
  destruct (ab_free c); [apply IH|by eexists _, _].
Qed.

Lemma last_addr_snoc p a l b : last_addr p a (l ++ [b]) = a + total l.
Proof.
  revert p a. induction l as [|c l IH]; intros p a; cbn [app last_addr].
  - cbn. lia.
  - rewrite IH, total_cons. lia.
Qed.

Lemma free_ok l1 b l2 s :
  heap_ok (l1 ++ b :: l2) s -> ab_free b = false ->
  exists m, kmem_free_checked s (g_heap_base s + total l1 + 48) =
      Some (validate_result (Z.of_nat (length (free_blocks l1 b l2))), with_mem s m) /\
    heap_ok (free_blocks l1 b l2) (with_mem s m) /\ same_shape (kmem s) m.
Proof.
  intros Hs Hused. set (a := g_heap_base s + total l1).
  destruct (middle_facts l1 l2 b s Hs) as (Hl1 & Hb & Hl2 & Ha & Ham & Hend & Hlt & Ht1 & Ht2 & Hbsz).
  fold a in Ha, Ham, Hend. unfold bsz in Hend.
  pose proof (proj1 (middle_seg l1 l2 b s (kmem s)) (hk_seg _ _ Hs)) as (_ & (h & Hl & Hh) & _).
  fold a in Hl, Hh. destruct Hh as (Hmg & Hsz & Hfr & Hpv & Hnx). rewrite Hused in Hfr.
  unfold kmem_free_checked, kmem_ptr_in_heap, kmem_header_from_payload, HEADER.
  rewrite (hk_init _ _ Hs), (proj2 (Z.eqb_neq _ 0)) by lia. cbn [andb].
  replace (a + 48 - 48) with a by lia. destruct Hb as (Hb0 & _).
  rewrite !(proj2 (Z.leb_le _ _)), !(proj2 (Z.ltb_lt _ _)) by lia. cbn [andb negb].
  replace ((a + 48) .& (KMEM_ALIGN - 1)) with 0; last first.
  { symmetry. etransitivity; [apply (land_ones (a + 48) 4); lia|]. Z.div_mod_to_equations. lia. }
  cbn [Z.eqb negb]. rewrite Hl, Hmg, Z.eqb_refl, Hfr. cbn [negb Z.eqb].
  destruct (set_free_ok l1 b l2 s true Hs) as (m1 & Hm1 & Hs1 & Hsh1). fold a in Hm1.
  cbv iota in Hm1. rewrite Hm1.
  destruct (coalesce_ok l1 _ l2 (with_mem s m1) Hs1) as (m2 & Hm2 & Hs2 & Hsh2).
  cbn [kmem with_mem g_heap_base] in Hm2. fold a in Hm2. rewrite Hm2.
  change (with_mem (with_mem s m1) m2) with (with_mem s m2) in Hs2.
  cbn [kmem with_mem] in Hsh2. unfold free_blocks.
  set (mb := mk_ablk (ab_size b) true) in *.
  destruct (merge_fwd_cons mb l2) as (b' & l' & Eb). rewrite Eb in Hs2 |- *.
  pose proof (proj1 (middle_seg l1 l' b' _ _) (hk_seg _ _ Hs2)) as (_ & (h2 & Hl2' & Hh2) & _).
  cbn [kmem with_mem g_heap_base] in Hl2', Hh2. fold a in Hl2', Hh2.
  destruct Hh2 as (_ & _ & _ & Hpv2 & _). rewrite Hl2', Hpv2.
  assert (same_shape (kmem s) m2) as Hsh by (etransitivity; [exact Hsh1|exact Hsh2]).
  pose proof (kmem_validate_ok _ _ Hs2) as Hv2.
  destruct l1 as [|p l1 _] using rev_ind; cbn [last_addr last].
  { cbn [Z.eqb]. rewrite Hv2. by exists m2. }
  rewrite last_addr_snoc, last_snoc.
  rewrite <- app_assoc in Hs2. cbn [app] in Hs2.
  destruct (middle_facts l1 (b' :: l') p _ Hs2) as (_ & _ & _ & Hp & _). cbn in Hp.
  rewrite (proj2 (Z.eqb_neq _ 0)) by lia.
  pose proof (proj1 (middle_seg l1 (b' :: l') p _ _) (hk_seg _ _ Hs2)) as (_ & (hp & Hlp & Hhp) & _).
  cbn [kmem with_mem g_heap_base] in Hlp. rewrite Hlp. destruct Hhp as (_ & _ & Hpf & _). rewrite Hpf.
  destruct (ab_free p); cbn [Z.eqb].
  - destruct (coalesce_ok l1 p (b' :: l') (with_mem s m2) Hs2) as (m3 & Hm3 & Hs3 & Hsh3).
    cbn [kmem with_mem g_heap_base] in Hm3, Hsh3. rewrite Hm3.
    change (with_mem (with_mem s m2) m3) with (with_mem s m3) in Hs3.
    rewrite (kmem_validate_ok _ _ Hs3). exists m3. rewrite removelast_last. split_all; try done.
    etransitivity; [exact Hsh|exact Hsh3].
  - rewrite Hv2. exists m2. split_all; try done. rewrite <- app_assoc. exact Hs2.
Qed.

(** ** Initialisation *)

Lemma align_up_ptr_16 x : 0 <= x < 2 ^ 64 -> kmem_align_up_ptr x KMEM_ALIGN = round_size x.
Proof.
  intros Hx. unfold kmem_align_up_ptr, KMEM_ALIGN, UINT64_MAX, round_size. cbv zeta.
  change (u64 (16 - 1)) with 15. change (negb (16 .& 15 =? 0)) with false.
  replace (2 ^ 64 - 1 - 15) with (2 ^ 64 - 16) by lia.
  case_if; [done|]. zbool. apply round_up_16; lia.
Qed.

(** The first aligned address of the region and the bytes used from there. *)
Definition heap_start (base : Z) : Z := round_size base.
Definition heap_usable (base bytes : Z) : Z := (bytes - (heap_start base - base)) / 16 * 16.

Lemma kmem_init_ok s bytes :
  mem_ok (kmem s) -> 0 < r_base (kmem s) -> Z.of_nat (length (r_bytes (kmem s))) = bytes ->
  let base := r_base (kmem s) in
  if (bytes <? 80) || (bytes <=? heap_start base - base + 80) || (heap_usable base bytes <=? 80)
  then exists rc, rc < 0 /\ kmem_init s base bytes = Some (rc, s)
  else exists s', kmem_init s base bytes = Some (0, s') /\
    heap_ok [mk_ablk (heap_usable base bytes - 48) true] s' /\
    g_heap_base s' = heap_start base /\ length (r_bytes (kmem s')) = length (r_bytes (kmem s)).
Proof.
  intros Hm Hpos Hlen base. pose proof (mo_end _ Hm) as He. pose proof (mo_len _ Hm) as Hl63.
  fold base in Hpos, He. unfold kmem_init. rewrite (proj2 (Z.eqb_neq base 0)) by lia. cbn [orb].
  unfold HEADER, KMEM_MIN_SPLIT. change (48 + 32) with 80. rewrite align_up_ptr_16 by lia. fold (heap_start base).
  assert (2 ^ 64 - 16 < base /\ heap_start base = 0 \/
          base <= heap_start base < base + 16 /\ heap_start base mod 16 = 0 /\ heap_start base <> 0) as Hst.
  { unfold heap_start, round_size. case_if; zbool; [by left|right]. Z.div_mod_to_equations. lia. }
  destruct Hst as [(Hbig & Hz)|(Hst & Hal & Hnz)].
  { rewrite (proj2 (Z.ltb_lt bytes 80)) by lia. exists (-1). done. }
  set (start := heap_start base) in *. rewrite (proj2 (Z.eqb_neq start 0)), (proj2 (Z.ltb_ge start base)) by lia.
  cbn [orb]. rewrite (u64_id (start - base + 48 + 32)) by lia.
  destruct (Z.ltb_spec bytes 80); [exists (-1); done|]. cbn [orb].
  replace (start - base + 48 + 32) with (start - base + 80) by lia.
  destruct (Z.leb_spec bytes (start - base + 80)); [exists (-3); done|].
  change (u64 (Z.lnot (KMEM_ALIGN - 1))) with (wrap 64 (Z.lnot (2 ^ 4 - 1))).
  rewrite land_lnot_wrap by (unfold in_u; lia). rewrite (ldiff_ones _ 4) by lia. change (2 ^ 4) with 16.
  fold start in |- *. set (us := heap_usable base bytes).
  assert ((bytes - (start - base)) / 16 * 16 = us) as -> by done.
  assert (us mod 16 = 0 /\ us <= bytes - (start - base)) as (Hum & Hule).
  { unfold us, heap_usable. fold start. Z.div_mod_to_equations. lia. }
  cbn [orb]. destruct (Z.leb_spec us 80); [exists (-4); done|].
  assert (exists h, load_hdr (kmem s) start = Some h) as (h & Hh).
  { unfold load_hdr, HEADER. rewrite (proj2 (region_has_true _ _ _)) by (fold base; lia). by eexists. }
  pose proof (load_ok _ _ _ Hm Hh) as Hok.
  destruct (update_ok (kmem s) start (fresh_hdr (us - 48) 0 0) h Hm Hh)
    as (m' & -> & Hm' & (Hb' & Hl') & _ & Hld).
  { destruct Hok. split; try done; cbn; unfold in_u64; lia. }
  assert (heap_ok [mk_ablk (us - 48) true] (mk_kmem start (start + us) start true m')) as Hheap.
  { split; cbn [g_initialized g_head g_heap_base g_heap_end kmem]; try done; try lia.
    - cbn. unfold bsz. cbn. lia.
    - constructor; [|done]. split; cbn; [lia|]. Z.div_mod_to_equations. lia.
    - cbn. split; [|done]. exists (fresh_hdr (us - 48) 0 0 h). done. }
  rewrite (kmem_validate_ok _ _ Hheap). eexists. split; [reflexivity|]. done.
Qed.
