(* ===== verification/KmemBlocks.v ===== *)
(** * Kernel heap: the list of blocks

    Facts on the abstract block list alone: which addresses are in use after
    an allocation or a release, that allocations never overlap, and that no
    two free blocks are ever neighbours. *)
From S2P Require Import Prelude Kmem KmemFacts.

(** Payload address and size of the used blocks, in order. *)
Fixpoint used (a : Z) (bs : list ablk) : list (Z * Z) :=
  match bs with
  | [] => []
  | b :: bs =>
      if ab_free b then used (a + bsz b) bs
      else (a + 48, ab_size b) :: used (a + bsz b) bs
  end.

Lemma used_app a l1 l2 : used a (l1 ++ l2) = used a l1 ++ used (a + total l1) l2.
Proof.
  revert a. induction l1 as [|b l1 IH]; intros a; [cbn; by rewrite Z.add_0_r|].
  cbn [app used]. rewrite IH, total_cons.
  replace (a + bsz b + total l1) with (a + (bsz b + total l1)) by lia. by destruct (ab_free b).
Qed.

Lemma used_bounds a bs p n :
  Forall ablk_ok bs -> (p, n) ∈ used a bs -> a + 48 <= p /\ 0 < n /\ p + n <= a + total bs.
Proof.
  intros Hbs. revert a. induction Hbs as [|b bs [Hb _] Hbs IH]; intros a; cbn [used].
  { by intros ?%elem_of_nil. }
  pose proof (total_ge _ Hbs). rewrite total_cons. unfold bsz.
  destruct (ab_free b); [|rewrite elem_of_cons; intros [[= -> ->]|H1]; [lia|]].
  - intros H1. apply IH in H1. unfold bsz in *. lia.
  - apply IH in H1. unfold bsz in *. lia.
Qed.

(** Two used blocks are the same or have a header between them. *)
Lemma used_disjoint a bs p n q k :
  Forall ablk_ok bs -> (p, n) ∈ used a bs -> (q, k) ∈ used a bs ->
  (p = q /\ n = k) \/ p + n + 48 <= q \/ q + k + 48 <= p.
Proof.
  intros Hbs. revert a. induction Hbs as [|b bs [Hb _] Hbs IH]; intros a; cbn [used].
  { by intros ?%elem_of_nil. }
  destruct (ab_free b); [apply IH|]. rewrite !elem_of_cons.
  intros [[= -> ->]|H1] [[= -> ->]|H2].
  - by left.
  - apply used_bounds in H2; [|done]. unfold bsz in H2. lia.
  - apply used_bounds in H1; [|done]. unfold bsz in H1. lia.
  - by apply (IH (a + bsz b)).
Qed.

Lemma used_split a bs p n :
  (p, n) ∈ used a bs ->
  exists l1 b l2, bs = l1 ++ b :: l2 /\ ab_free b = false /\ p = a + total l1 + 48 /\ n = ab_size b.
Proof.
  revert a. induction bs as [|b bs IH]; intros a; cbn [used]; [by intros ?%elem_of_nil|].
  destruct (ab_free b) eqn:E; [|rewrite elem_of_cons; intros [[= -> ->]|H]].
  - intros (l1 & c & l2 & -> & Hc & -> & ->)%IH. exists (b :: l1), c, l2.
    rewrite total_cons. split_all; try done. lia.
  - exists [], b, bs. cbn. split_all; try done. lia.
  - destruct (IH _ H) as (l1 & c & l2 & -> & Hc & -> & ->). exists (b :: l1), c, l2.
    rewrite total_cons. split_all; try done. lia.
Qed.

Lemma used_mid a l1 b l2 :
  used a (l1 ++ b :: l2) =
    used a l1 ++ (if ab_free b then [] else [(a + total l1 + 48, ab_size b)]) ++
    used (a + total l1 + bsz b) l2.
Proof. rewrite used_app. cbn [used]. by destruct (ab_free b). Qed.

(** ** Allocation *)

Lemma alloc_blocks_Some w bs o bs' :
  alloc_blocks w bs = Some (o, bs') ->
  exists l1 b l2, bs = l1 ++ b :: l2 /\ o = total l1 /\ bs' = l1 ++ carve w b ++ l2 /\
    fits w b = true /\ Forall (fun c => fits w c = false) l1.
Proof.
  revert o bs'. induction bs as [|b bs IH]; intros o bs'; cbn [alloc_blocks]; [done|].
  destruct (fits w b) eqn:E.
  - intros [= <- <-]. exists [], b, bs. split_all; try done.
  - destruct (alloc_blocks w bs) as [[o' l']|]; [|done]. intros [= <- <-].
    destruct (IH o' l' eq_refl) as (l1 & c & l2 & -> & -> & -> & Hc & Hl1).
    exists (b :: l1), c, l2. split_all; try done. by constructor.
Qed.

Lemma alloc_blocks_None w bs :
  alloc_blocks w bs = None <-> Forall (fun b => fits w b = false) bs.
Proof.
  induction bs as [|b bs IH]; cbn [alloc_blocks]; [done|].
  rewrite Forall_cons. destruct (fits w b); [naive_solver|].
  destruct (alloc_blocks w bs); naive_solver.
Qed.

(** The size an allocated block gets. *)
Definition granted (w : Z) (b : ablk) : Z := if w + 80 <? ab_size b then w else ab_size b.

Lemma used_carve a w b : used a (carve w b) = [(a + 48, granted w b)].
Proof. unfold carve, granted. by destruct (w + 80 <? ab_size b). Qed.

Lemma total_carve w b : total (carve w b) = bsz b.
Proof. unfold carve, bsz. case_if; cbn; unfold bsz; cbn; lia. Qed.

Lemma used_alloc a w l1 b l2 :
  ab_free b = true ->
  used a (l1 ++ carve w b ++ l2) =
    used a l1 ++ (a + total l1 + 48, granted w b) :: used (a + total l1 + bsz b) l2.
Proof. intros Hb. rewrite !used_app, used_carve, total_carve. done. Qed.

(** ** Release *)

Lemma used_merge a b l :
  ab_free b = true -> used a (merge_fwd b l) = used (a + bsz b) l.
Proof.
  revert a b. induction l as [|c l IH]; intros a b Hb; cbn [merge_fwd used]; [by rewrite Hb|].
  destruct (ab_free c) eqn:Ec; cbn [used].
  - rewrite IH by done. unfold join, bsz; cbn. unfold bsz. f_equal. lia.
  - by rewrite Hb, Ec.
Qed.

Lemma used_free a l1 b l2 :
  used a (free_blocks l1 b l2) = used a l1 ++ used (a + total l1 + bsz b) l2.
Proof.
  unfold free_blocks. destruct l1 as [|p l1 _] using rev_ind; cbn [last].
  { rewrite used_merge by done. cbn. rewrite Z.add_0_r. done. }
  rewrite last_snoc, removelast_last. destruct (ab_free p) eqn:Ep.
  - rewrite !used_app, !used_merge by done. cbn [used]. rewrite Ep, app_nil_r, total_app.
    f_equal. cbn. unfold bsz. cbn. f_equal. lia.
  - rewrite used_app, used_merge by done. done.
Qed.

(** ** Neighbours *)

Definition head_used (bs : list ablk) : Prop :=
  match bs with c :: _ => ab_free c = false | [] => True end.

Lemma merged_app l1 b l2 :
  merged (l1 ++ b :: l2) <->
  merged l1 /\ merged (b :: l2) /\
  match last l1 with Some p => ~ (ab_free p = true /\ ab_free b = true) | None => True end.
Proof.
  induction l1 as [|c [|d l1] IH]; [cbn; tauto| |].
  - cbn [app last]. cbn [merged]. tauto.
  - change ((c :: d :: l1) ++ b :: l2) with (c :: (d :: l1) ++ b :: l2).
    change (merged (c :: (d :: l1) ++ b :: l2))
      with (~ (ab_free c = true /\ ab_free d = true) /\ merged ((d :: l1) ++ b :: l2)).
    rewrite IH. change (last (c :: d :: l1)) with (last (d :: l1)).
    change (merged (c :: d :: l1)) with (~ (ab_free c = true /\ ab_free d = true) /\ merged (d :: l1)).
    tauto.
Qed.

Lemma merged_cons_used b l : ab_free b = false -> merged l -> merged (b :: l).
Proof. intros Hb Hl. destruct l; [done|]. split; [|done]. intros [? _]. congruence. Qed.

Lemma merged_tail b l : merged (b :: l) -> merged l.
Proof. destruct l; [done|]. by intros [_ ?]. Qed.

Lemma merged_alloc w l1 b l2 :
  ab_free b = true -> merged (l1 ++ b :: l2) -> merged (l1 ++ carve w b ++ l2).
Proof.
  intros Hb (H1 & H2 & H3)%merged_app. unfold carve.
  assert (match last l1 with Some p => ~ (ab_free p = true /\ false = true) | None => True end) as H4
    by (destruct (last l1); [|done]; intros [_ ?]; done).
  destruct (w + 80 <? ab_size b); cbn [app]; apply merged_app; split_all; try done.
  - apply merged_cons_used; [done|]. destruct l2 as [|c l2]; [done|].
    destruct H2 as [Hn H2]. split; [|done]. cbn. rewrite Hb in Hn. tauto.
  - apply merged_cons_used; [done|]. by apply (merged_tail b).
Qed.

Lemma merged_merge b l :
  ab_free b = true -> merged l -> merged (merge_fwd b l) /\
    exists b' l', merge_fwd b l = b' :: l' /\ ab_free b' = true.
Proof.
  revert b. induction l as [|c l IH]; intros b Hb Hl; cbn [merge_fwd]; [eauto|].
  destruct (ab_free c) eqn:Ec.
  - apply IH; [done|]. by apply (merged_tail c).
  - split; [|eauto]. split; [|done]. intros [_ ?]. congruence.
Qed.

Lemma merged_free l1 b l2 :
  ab_free b = false -> merged (l1 ++ b :: l2) -> merged (free_blocks l1 b l2).
Proof.
  intros Hb (H1 & H2 & _)%merged_app. apply merged_tail in H2. unfold free_blocks.
  destruct (merged_merge (mk_ablk (ab_size b) true) l2 eq_refl H2) as (Hm & b' & l' & Eb & Hb').
  destruct l1 as [|p l1 _] using rev_ind; cbn [last]; [done|].
  rewrite last_snoc, removelast_last. apply merged_app in H1 as (Hl1 & _ & Hlast).
  destruct (ab_free p) eqn:Ep.
  - destruct (merged_merge p _ Ep Hm) as (Hm2 & p' & l'' & Ep' & Hp'). rewrite Ep' in Hm2 |- *.
    apply merged_app. split_all; try done. destruct (last l1) as [x|]; [|done].
    intros [Hx _]. by apply Hlast.
  - rewrite Eb in Hm |- *. apply merged_app. split_all; [|done|].
    + apply merged_app. split_all; try done. destruct (last l1); [|done]. intros [_ ?]. congruence.
    + rewrite last_snoc. intros [? _]. congruence.
Qed.

(** When nothing is in use, one free block is left. *)
Lemma merged_no_used a bs :
  merged bs -> used a bs = [] -> bs <> [] -> bs = [mk_ablk (total bs - 48) true].
Proof.
  destruct bs as [|b [|c bs]]; [done| |]; cbn [used].
  - destruct (ab_free b) eqn:E; [|done]. intros _ _ _. destruct b as [sz fr]. cbn in *.
    unfold bsz; cbn. f_equal. f_equal; [lia|done].
  - intros [Hn _]. destruct (ab_free b); [|done]. destruct (ab_free c); [|done]. tauto.
Qed.
