(* ===== verification/KmemTheorems.v ===== *)
(** * Kernel heap: theorems

    Clients call the allocator and store into what they were given; in every
    state they can reach the block list is intact, allocations never overlap,
    every call is defined, and nothing is lost once everything is freed. *)
From S2P Require Import Prelude Kmem KmemFacts KmemBlocks.

(** ** Views of the heap *)

(** The blocks as a walk over the headers sees them. *)
Fixpoint blocks_loop (fuel : nat) (m : region) (cur : Z) : option (list ablk) :=
  match fuel with
  | O => None
  | S fuel =>
      if cur =? 0 then Some [] else
      let* b := load_hdr m cur in
      let* r := blocks_loop fuel m (next b) in
      Some (mk_ablk (size b) (negb (free b =? 0)) :: r)
  end.

Definition heap_blocks (s : kmem_state) : option (list ablk) :=
  blocks_loop (fuel_of (kmem s)) (kmem s) (g_head s).

Lemma blocks_loop_ok m bs : forall p a fuel,
  Forall ablk_ok bs -> 0 < a -> seg m p a bs 0 -> (length bs < fuel)%nat ->
  blocks_loop fuel m (head_or a bs 0) = Some bs.
Proof.
  induction bs as [|b bs IH]; intros p a fuel Hbs Ha Hseg Hf;
    (destruct fuel as [|fuel]; [cbn in Hf; lia|]); cbn [blocks_loop head_or]; [done|].
  apply Forall_cons in Hbs as ((Hb & _) & Hbs). rewrite (proj2 (Z.eqb_neq a 0)) by lia.
  destruct Hseg as ((h & Hl & _ & Hsz & Hfr & _ & Hnx) & Hseg). rewrite Hl, Hnx.
  rewrite (IH a); [|done|unfold bsz; lia|done|cbn in Hf; lia].
  rewrite Hsz, Hfr. destruct b as [sz [|]]; done.
Qed.

Lemma heap_blocks_ok bs s : heap_ok bs s -> heap_blocks s = Some bs.
Proof.
  intros Hs. unfold heap_blocks. rewrite (hk_head _ _ Hs).
  replace (g_heap_base s) with (head_or (g_heap_base s) bs 0)
    by (pose proof (hk_nonempty _ _ Hs); by destruct bs).
  apply (blocks_loop_ok _ _ 0); [apply Hs|apply Hs|apply Hs|by apply fuel_enough].
Qed.

(** ** Statistics *)

Definition add_stats (out : kmem_stats) (b : ablk) : kmem_stats :=
  if ab_free b then
    mk_stats (total_bytes out) (used_bytes out) (free_bytes out + ab_size b) (block_count out + 1)
      (free_count out + 1) (Z.max (largest_free out) (ab_size b))
  else
    mk_stats (total_bytes out) (used_bytes out + ab_size b) (free_bytes out) (block_count out + 1)
      (free_count out) (largest_free out).

Definition block_stats (t : Z) (bs : list ablk) : kmem_stats :=
  foldl add_stats (mk_stats t 0 0 0 0 0) bs.

Lemma stats_loop_ok m bs : forall p a fuel out,
  Forall ablk_ok bs -> 0 < a -> seg m p a bs 0 -> (length bs < fuel)%nat ->
  0 <= used_bytes out -> 0 <= free_bytes out -> 0 <= free_count out <= block_count out ->
  used_bytes out + free_bytes out + block_count out + total bs < 2 ^ 64 ->
  stats_loop fuel m out (head_or a bs 0) = Some (foldl add_stats out bs).
Proof.
  induction bs as [|b bs IH]; intros p a fuel out Hbs Ha Hseg Hf H1 H2 H3 H4;
    (destruct fuel as [|fuel]; [cbn in Hf; lia|]); cbn [stats_loop head_or foldl]; [done|].
  apply Forall_cons in Hbs as ((Hb & _) & Hbs). rewrite (proj2 (Z.eqb_neq a 0)) by lia.
  rewrite total_cons in H4. unfold bsz in H4. pose proof (total_ge _ Hbs).
  destruct Hseg as ((h & Hl & _ & Hsz & Hfr & _ & Hnx) & Hseg). rewrite Hl, Hnx, Hsz, Hfr.
  replace (if negb ((if ab_free b then 1 else 0) =? 0) then _ else _) with (add_stats out b).
  - apply (IH a); try done; unfold add_stats; destruct (ab_free b); cbn;
      try (unfold bsz; lia); cbn in Hf; lia.
  - unfold add_stats. destruct (ab_free b); cbn [negb Z.eqb]; rewrite !u64_id by lia; [|done].
    f_equal. destruct (Z.ltb_spec (largest_free out) (ab_size b)); lia.
Qed.

Lemma stats_ok bs s :
  heap_ok bs s -> kmem_get_stats s = Some (block_stats (g_heap_end s - g_heap_base s) bs).
Proof.
  intros Hs. unfold kmem_get_stats. rewrite (hk_init _ _ Hs), (hk_head _ _ Hs). cbn [negb].
  replace (stats_loop _ _ _ (g_heap_base s)) with
    (stats_loop (fuel_of (kmem s)) (kmem s)
       (mk_stats (g_heap_end s - g_heap_base s) 0 0 0 0 0) (head_or (g_heap_base s) bs 0))
    by (pose proof (hk_nonempty _ _ Hs); by destruct bs).
  pose proof (hk_end _ _ Hs). pose proof (hk_high _ _ Hs). pose proof (mo_end _ (hk_mem _ _ Hs)).
  pose proof (hk_pos _ _ Hs).
  apply (stats_loop_ok _ _ 0); cbn; try lia; try apply Hs; try (by apply fuel_enough).
Qed.

(** ** Clients *)

(** The heap and the allocations its clients hold: address and size asked
    for. *)
Definition client : Type := kmem_state * gmap Z Z.

Inductive kstep : client -> client -> Prop :=
  | k_alloc s L n p s' :
      0 <= n < 2 ^ 64 -> kmem_alloc s n = Some (p, s') ->
      kstep (s, L) (s', if p =? 0 then L else <[p := n]> L)
  | k_calloc s L c n p s' :
      0 <= c < 2 ^ 64 -> 0 <= n < 2 ^ 64 -> kmem_calloc s c n = Some (p, s') ->
      kstep (s, L) (s', if p =? 0 then L else <[p := c * n]> L)
  | k_free s L p n rc s' :
      L !! p = Some n -> kmem_free_checked s p = Some (rc, s') -> kstep (s, L) (s', delete p L)
  | k_store s L p n x bytes m :
      L !! p = Some n -> p <= x -> x + Z.of_nat (length bytes) <= p + n ->
      Forall is_byte bytes -> store_bytes (kmem s) x bytes = Some m ->
      kstep (s, L) (with_mem s m, L).

(** The heap over memory of at most 48 MiB: [kmem_validate] gives up beyond
    2^20 blocks. *)
Definition heap_memory (m : region) : Prop :=
  mem_ok m /\ 0 < r_base m /\ Z.of_nat (length (r_bytes m)) <= 48 * 1048576.

Definition kreach (s : kmem_state) (L : gmap Z Z) : Prop :=
  exists s0 s1, heap_memory (kmem s0) /\
    kmem_init s0 (r_base (kmem s0)) (Z.of_nat (length (r_bytes (kmem s0)))) = Some (0, s1) /\
    rtc kstep (s1, ∅) (s, L).

Record kinv (bs : list ablk) (s : kmem_state) (L : gmap Z Z) : Prop := {
  ki_heap : heap_ok bs s;
  ki_merged : merged bs;
  ki_size : Z.of_nat (length (r_bytes (kmem s))) <= 48 * 1048576;
  ki_live p n : L !! p = Some n -> exists sz, (p, sz) ∈ used (g_heap_base s) bs /\ 0 < n <= sz;
  ki_used p sz : (p, sz) ∈ used (g_heap_base s) bs -> is_Some (L !! p)
}.

Lemma validate_0 bs s L : kinv bs s L -> validate_result (Z.of_nat (length bs)) = 0.
Proof.
  intros [Hs _ Hsz _ _]. pose proof (total_ge _ (hk_blocks _ _ Hs)).
  pose proof (hk_end _ _ Hs). pose proof (hk_high _ _ Hs). pose proof (hk_low _ _ Hs).
  unfold validate_result. rewrite (proj2 (Z.leb_le _ _)) by lia. done.
Qed.

Lemma total_carved l1 w b l2 : total (l1 ++ carve w b ++ l2) = total (l1 ++ b :: l2).
Proof. rewrite !total_app, total_carve, total_cons. done. Qed.

Section steps.
Context (bs : list ablk) (s : kmem_state) (L : gmap Z Z) (Hinv : kinv bs s L).

Lemma spec_alloc_Some n o bs' :
  0 <= n < 2 ^ 64 -> spec_alloc n bs = Some (o, bs') ->
  0 < n <= round_size n /\
  exists l1 b l2, bs = l1 ++ b :: l2 /\ o = total l1 /\ bs' = l1 ++ carve (round_size n) b ++ l2 /\
    ab_free b = true /\ round_size n <= ab_size b /\
    Forall (fun c => fits (round_size n) c = false) l1.
Proof.
  intros Hn. unfold spec_alloc. case_if; [done|]. zbool. intros H1.
  destruct (round_size_spec n) as (_ & Hr & _); [lia|done|].
  apply alloc_blocks_Some in H1 as (l1 & b & l2 & E1 & E2 & E3 & Hf & Hl1).
  unfold fits in Hf. zbool. split; [lia|]. exists l1, b, l2. done.
Qed.

Lemma alloc_inv n :
  0 <= n < 2 ^ 64 ->
  match spec_alloc n bs with
  | None => kmem_alloc s n = Some (0, s)
  | Some (o, bs') =>
      let p := g_heap_base s + o + 48 in
      exists s', kmem_alloc s n = Some (p, s') /\ p <> 0 /\ L !! p = None /\
        kinv bs' s' (<[p := n]> L) /\ g_heap_base s' = g_heap_base s
  end.
Proof.
  intros Hn. destruct Hinv as [Hs Hm Hsz Hlive Hused]. pose proof (kmem_alloc_ok bs s n Hs Hn) as Ha.
  destruct (spec_alloc n bs) as [[o bs']|] eqn:E; [|done].
  destruct Ha as (m & Ha & Hs' & (Hb & Hlen)). intros p.
  destruct (spec_alloc_Some n o bs' Hn E) as (Hr & l1 & b & l2 & -> & -> & -> & Hfree & Hfit & _).
  destruct (middle_facts _ _ _ _ Hs) as (Hl1 & Hbok & Hl2 & _ & _ & _ & _ & Ht1 & _).
  pose proof (hk_pos _ _ Hs) as Hpos.
  rewrite used_mid, Hfree in Hused, Hlive. cbn [app] in Hused, Hlive.
  assert (L !! p = None) as Hnone.
  { destruct (L !! p) as [k|] eqn:El; [|done]. destruct (Hlive p k El) as (sz & Hin & Hk).
    destruct Hbok as (Hb0 & _). apply elem_of_app in Hin as [Hin|Hin]; apply used_bounds in Hin; try done;
      unfold p, bsz in *; lia. }
  exists (with_mem s m). split_all; try done; [unfold p; lia|].
  split; cbn [g_heap_base with_mem kmem]; [done|by apply merged_alloc|by rewrite Hlen| |];
    rewrite used_alloc by done; fold p.
  - intros q k Hq. destruct (decide (q = p)) as [->|Hne].
    + rewrite lookup_insert_eq in Hq. simplify_eq. exists (granted (round_size k) b).
      split; [rewrite elem_of_app, elem_of_cons; auto|]. unfold granted. case_if; lia.
    + rewrite lookup_insert_ne in Hq by done. destruct (Hlive q k Hq) as (sz & Hin & Hk).
      exists sz. split; [|done]. apply elem_of_app in Hin. rewrite elem_of_app, elem_of_cons. tauto.
  - intros q sz. rewrite elem_of_app, elem_of_cons. intros Hin.
    destruct (decide (q = p)) as [->|Hne]; [rewrite lookup_insert_eq; by eexists|].
    rewrite lookup_insert_ne by done. apply (Hused q sz). apply elem_of_app.
    destruct Hin as [Hin|[[= Hq _]|Hin]]; [by left|congruence|by right].
Qed.

(** A client's store inside an allocation does not touch a header. *)
Lemma client_store_ok p sz x bytes :
  (p, sz) ∈ used (g_heap_base s) bs -> p <= x -> x + Z.of_nat (length bytes) <= p + sz ->
  Forall is_byte bytes ->
  exists m, store_bytes (kmem s) x bytes = Some m /\ heap_ok bs (with_mem s m) /\
    same_shape (kmem s) m /\ sub (offset_of (kmem s) x) (length bytes) (r_bytes m) = bytes.
Proof.
  intros Hin Hx Hend Hby. pose proof (ki_heap _ _ _ Hinv) as Hs.
  apply used_split in Hin as (l1 & b & l2 & Ebs & _ & Hp & Hb). rewrite Ebs in Hs |- *.
  destruct (middle_facts _ _ _ _ Hs) as (Hl1 & Hbok & Hl2 & Ha & Ham & He & Hlt & Ht1 & Ht2 & Hbsz).
  pose proof (hk_low _ _ Hs). pose proof (hk_high _ _ Hs). unfold bsz in He.
  destruct (store_bytes_ok (kmem s) x bytes (hk_mem _ _ Hs) Hby) as (m & Hm & Hmok & Hsh & Hout & Hsub).
  { apply region_has_true. lia. }
  exists m. split_all; try done.
  apply (heap_ok_blocks _ _ _ _ Hs Hmok Hsh); [done|by destruct l1|apply Hs|].
  pose proof (hk_seg _ _ Hs) as Hseg. apply middle_seg in Hseg as (H1 & (h & Hl & Hh) & H2).
  apply middle_seg. split_all.
  - eapply seg_frame; [exact Hout|done|left; lia|done].
  - exists h. split; [|done]. rewrite Hout; [done|]. left. lia.
  - eapply seg_frame; [exact Hout|done|right; unfold bsz; lia|done].
Qed.

Lemma store_inv p n x bytes :
  L !! p = Some n -> p <= x -> x + Z.of_nat (length bytes) <= p + n -> Forall is_byte bytes ->
  exists m, store_bytes (kmem s) x bytes = Some m /\ kinv bs (with_mem s m) L /\
    same_shape (kmem s) m /\ sub (offset_of (kmem s) x) (length bytes) (r_bytes m) = bytes.
Proof.
  intros Hp Hx Hend Hby. destruct (ki_live _ _ _ Hinv p n Hp) as (sz & Hin & Hn).
  destruct (client_store_ok p sz x bytes Hin Hx) as (m & Hm & Hs & Hsh & Hsub); [lia|done|].
  exists m. split_all; try done. destruct Hsh as (_ & Hlen). destruct Hinv as [_ Hmg Hsz Hlive Hused].
  split; cbn; try done. by rewrite Hlen.
Qed.

Lemma free_inv p n :
  L !! p = Some n ->
  exists l1 b l2 s', bs = l1 ++ b :: l2 /\ ab_free b = false /\ p = g_heap_base s + total l1 + 48 /\
    kmem_free_checked s p = Some (0, s') /\ kinv (free_blocks l1 b l2) s' (delete p L) /\
    g_heap_base s' = g_heap_base s.
Proof.
  intros Hp. destruct Hinv as [Hs Hm Hsz Hlive Hused].
  destruct (Hlive p n Hp) as (sz & Hin & Hn). clear Hn n Hp.
  apply used_split in Hin as (l1 & b & l2 & Ebs & Hb & Ep & Esz). subst bs.
  destruct (middle_facts _ _ _ _ Hs) as (Hl1 & (Hb0 & _) & Hl2 & _ & _ & _ & _ & Ht1 & _).
  destruct (free_ok l1 b l2 s Hs Hb) as (m & Hf & Hs' & (_ & Hlen)). rewrite <- Ep in Hf.
  assert (kinv (free_blocks l1 b l2) (with_mem s m) (delete p L)) as Hinv'.
  { rewrite used_mid, Hb in Hused, Hlive.
    split; cbn [g_heap_base with_mem kmem]; [done|by apply merged_free|by rewrite Hlen| |];
      rewrite used_free.
    - intros q k Hq. rewrite lookup_delete_Some in Hq. destruct Hq as (Hne & Hq).
      destruct (Hlive q k Hq) as (sz' & Hin & Hk). exists sz'. split; [|done].
      rewrite !elem_of_app, list_elem_of_singleton in Hin. rewrite elem_of_app.
      destruct Hin as [Hin|[[= Hq' _]|Hin]]; [by left|congruence|by right].
    - intros q sz' Hin.
      assert (p <> q) as Hne.
      { intros <-. apply elem_of_app in Hin as [Hin|Hin]; apply used_bounds in Hin; try done;
          unfold bsz in *; lia. }
      rewrite lookup_delete_ne by done. apply (Hused q sz'). apply elem_of_app in Hin.
      rewrite !elem_of_app. tauto. }
  exists l1, b, l2, (with_mem s m). split_all; try done. rewrite Hf.
  by rewrite (validate_0 _ _ _ Hinv').
Qed.


End steps.

Lemma calloc_overflow c n :
  0 <= c < 2 ^ 64 -> 0 <= n < 2 ^ 64 ->
  negb (c =? 0) && (UINT64_MAX / c <? n) = negb (c * n <? 2 ^ 64).
Proof.
  intros Hc Hn. unfold UINT64_MAX. destruct (Z.eqb_spec c 0) as [->|H0]; [done|]. cbn [negb andb].
  destruct (Z.ltb_spec ((2 ^ 64 - 1) / c) n) as [H|H], (Z.ltb_spec (c * n) (2 ^ 64)) as [H'|H']; try done.
  - assert (n <= (2 ^ 64 - 1) / c); [apply Z.div_le_lower_bound|]; lia.
  - pose proof (Z.mul_div_le (2 ^ 64 - 1) c). nia.
Qed.

(** What [kmem_calloc] does: an allocation of the product, zeroed. *)
Lemma calloc_inv bs s L c n :
  kinv bs s L -> 0 <= c < 2 ^ 64 -> 0 <= n < 2 ^ 64 ->
  match (if c * n <? 2 ^ 64 then spec_alloc (c * n) bs else None) with
  | None => kmem_calloc s c n = Some (0, s)
  | Some (o, bs') =>
      let p := g_heap_base s + o + 48 in
      exists s', kmem_calloc s c n = Some (p, s') /\ p <> 0 /\ kinv bs' s' (<[p := c * n]> L) /\
        g_heap_base s' = g_heap_base s /\
        sub (offset_of (kmem s') p) (Z.to_nat (c * n)) (r_bytes (kmem s')) =
          replicate (Z.to_nat (c * n)) 0
  end.
Proof.
  intros Hinv Hc Hn. unfold kmem_calloc. rewrite calloc_overflow by done.
  destruct (Z.ltb_spec (c * n) (2 ^ 64)) as [Hlt|]; cbn [negb]; [|done].
  rewrite u64_id by nia. pose proof (alloc_inv bs s L Hinv (c * n) ltac:(nia)) as Ha.
  destruct (spec_alloc (c * n) bs) as [[o bs']|] eqn:E; [|by rewrite Ha].
  cbv zeta in *. set (p := g_heap_base s + o + 48) in *.
  destruct Ha as (s1 & -> & Hp0 & _ & Hinv1 & Hb1). cbn [fst snd].
  rewrite (proj2 (Z.eqb_neq p 0)) by done. unfold kmem_memset. change (u8 0) with 0.
  pose proof (spec_alloc_Some bs (c * n) o bs' ltac:(nia) E) as (Hpos & _).
  destruct (store_inv bs' s1 _ Hinv1 p (c * n) p (replicate (Z.to_nat (c * n)) 0))
    as (m & -> & Hinv2 & (Hb & _) & Hsub).
  { apply lookup_insert_eq. }
  { lia. }
  { rewrite length_replicate. lia. }
  { apply zero_is_byte. }
  exists (with_mem s1 m). split_all; try done. cbn [kmem with_mem].
  rewrite length_replicate in Hsub. unfold offset_of in *. rewrite Hb. exact Hsub.
Qed.

Lemma init_inv s0 s1 :
  heap_memory (kmem s0) ->
  kmem_init s0 (r_base (kmem s0)) (Z.of_nat (length (r_bytes (kmem s0)))) = Some (0, s1) ->
  exists bs, kinv bs s1 ∅.
Proof.
  intros (Hm & Hpos & Hsz) Hi. pose proof (kmem_init_ok s0 _ Hm Hpos eq_refl) as H. cbv zeta in H.
  destruct (_ || _).
  - destruct H as (rc & Hrc & H). rewrite H in Hi. simplify_eq. lia.
  - destruct H as (s' & H & Hheap & _ & Hlen). rewrite H in Hi. simplify_eq.
    eexists. split; [exact Hheap|done|by rewrite Hlen| |].
    + intros p n Hp. by rewrite lookup_empty in Hp.
    + intros p sz Hin. cbn in Hin. by apply elem_of_nil in Hin.
Qed.

Lemma step_inv c c' :
  kstep c c' -> forall bs, kinv bs c.1 c.2 -> exists bs', kinv bs' c'.1 c'.2.
Proof.
  destruct 1 as [s L n p s' Hn Ha|s L c n p s' Hc Hn Ha|s L p n rc s' Hp Hf|s L p n x bytes m Hp Hx He Hb Hm];
    intros bs Hinv; cbn [fst snd] in *.
  - pose proof (alloc_inv bs s L Hinv n Hn) as H.
    destruct (spec_alloc n bs) as [[o bs']|]; cbv zeta in H.
    + destruct H as (s1 & H & Hp0 & _ & Hinv' & _). rewrite H in Ha. simplify_eq.
      rewrite (proj2 (Z.eqb_neq _ 0)) by done. by exists bs'.
    + rewrite H in Ha. simplify_eq. by exists bs.
  - pose proof (calloc_inv bs s L c n Hinv Hc Hn) as H.
    destruct (if c * n <? 2 ^ 64 then _ else _) as [[o bs']|]; cbv zeta in H.
    + destruct H as (s1 & H & Hp0 & Hinv' & _). rewrite H in Ha. simplify_eq.
      rewrite (proj2 (Z.eqb_neq _ 0)) by done. by exists bs'.
    + rewrite H in Ha. simplify_eq. by exists bs.
  - destruct (free_inv bs s L Hinv p n Hp) as (l1 & b & l2 & s1 & _ & _ & _ & H & Hinv' & _).
    rewrite H in Hf. simplify_eq. by eexists.
  - destruct (store_inv bs s L Hinv p n x bytes Hp Hx He Hb) as (m' & H & Hinv' & _).
    rewrite H in Hm. simplify_eq. by exists bs.
Qed.

Lemma steps_inv c c' :
  rtc kstep c c' -> forall bs, kinv bs c.1 c.2 -> exists bs', kinv bs' c'.1 c'.2.
Proof.
  induction 1 as [c|c1 c2 c3 Hstep _ IH]; intros bs Hbs; [by exists bs|].
  destruct (step_inv _ _ Hstep bs Hbs) as (bs' & Hbs'). by apply (IH bs').
Qed.

Lemma kreach_inv s L : kreach s L -> exists bs, kinv bs s L.
Proof.
  intros (s0 & s1 & Hm & Hi & Hsteps). destruct (init_inv s0 s1 Hm Hi) as (bs & Hbs).
  exact (steps_inv _ _ Hsteps bs Hbs).
Qed.

(** ** Theorems *)

(** C5: the heap is safe for every client, for a heap of at most 48 MiB.  In
    every state reached from [kmem_init] over at most 48 MiB of memory at a
    non-zero address by allocations, zeroed allocations, releases of live
    pointers and stores inside live allocations, whatever their order (beyond
    2^20 blocks, which need more memory, [kmem_validate] gives up with -3, which
    [kmem_free_checked] then returns too, see [validate_result]): the allocator's
    own check accepts the block list, live allocations are aligned, lie inside
    the heap, and never overlap, every allocation call returns, and releasing
    any live pointer succeeds. *)
Theorem kmem_reachable_safe s L :
  kreach s L ->
  kmem_validate s = Some 0 /\
  (forall p n, L !! p = Some n ->
     p mod 16 = 0 /\ g_heap_base s < p /\ p + n <= g_heap_end s) /\
  (forall p n q k, L !! p = Some n -> L !! q = Some k -> p <> q -> p + n <= q \/ q + k <= p) /\
  (forall n, 0 <= n < 2 ^ 64 -> is_Some (kmem_alloc s n)) /\
  (forall c n, 0 <= c < 2 ^ 64 -> 0 <= n < 2 ^ 64 -> is_Some (kmem_calloc s c n)) /\
  (forall p n, L !! p = Some n -> exists s', kmem_free_checked s p = Some (0, s')).
Proof.
  intros (bs & Hinv)%kreach_inv. pose proof (ki_heap _ _ _ Hinv) as Hs.
  pose proof (hk_blocks _ _ Hs) as Hbs. split_all.
  - by rewrite (kmem_validate_ok _ _ Hs), (validate_0 _ _ _ Hinv).
  - intros p n Hp. destruct (ki_live _ _ _ Hinv p n Hp) as (sz & Hin & Hn).
    pose proof (used_bounds _ _ _ _ Hbs Hin). rewrite (hk_end _ _ Hs).
    apply used_split in Hin as (l1 & b & l2 & Ebs & _ & -> & _). split_all; [|lia..].
    rewrite Ebs in Hbs. apply Forall_app in Hbs as (Hl1 & _).
    pose proof (aligned_after _ l1 (hk_align _ _ Hs) Hl1). Z.div_mod_to_equations. lia.
  - intros p n q k Hp Hq Hne. destruct (ki_live _ _ _ Hinv p n Hp) as (sz & Hin & Hn).
    destruct (ki_live _ _ _ Hinv q k Hq) as (sz' & Hin' & Hk).
    destruct (used_disjoint _ _ _ _ _ _ Hbs Hin Hin') as [(? & _)|]; [done|lia].
  - intros n Hn. pose proof (alloc_inv bs s L Hinv n Hn) as H.
    destruct (spec_alloc n bs) as [[o bs']|]; [destruct H as (s' & H & _)|]; rewrite H; by eexists.
  - intros c n Hc Hn. pose proof (calloc_inv bs s L c n Hinv Hc Hn) as H.
    destruct (if _ <? _ then _ else _) as [[o bs']|]; [destruct H as (s' & H & _)|];
      rewrite H; by eexists.
  - intros p n Hp. destruct (free_inv bs s L Hinv p n Hp) as (l1 & b & l2 & s' & _ & _ & _ & H & _).
    by exists s'.
Qed.

(** C20: allocation is first fit, and fails only when it must.  In every
    reachable state (a heap of at most 48 MiB, as in [kreach]) [kmem_alloc] takes the first free block that holds the
    size rounded up to 16, splits off what remains when a header and more
    than 32 bytes fit, and changes no other block; it returns null exactly for
    size 0, for a size whose rounding overflows, and when every free block is
    too small. *)
Theorem kmem_alloc_first_fit s L n :
  kreach s L -> 0 <= n < 2 ^ 64 ->
  exists bs, heap_blocks s = Some bs /\
    ((n = 0 \/ 2 ^ 64 - 16 < n \/
        Forall (fun b => ab_free b = true -> ab_size b < (n + 15) / 16 * 16) bs) /\
       kmem_alloc s n = Some (0, s) \/
     exists l1 b l2 s', bs = l1 ++ b :: l2 /\
       Forall (fun c => ab_free c = true -> ab_size c < (n + 15) / 16 * 16) l1 /\
       ab_free b = true /\ 0 < n /\ n <= (n + 15) / 16 * 16 <= ab_size b /\
       kmem_alloc s n = Some (g_heap_base s + total l1 + 48, s') /\
       L !! (g_heap_base s + total l1 + 48) = None /\
       heap_blocks s' = Some (l1 ++ carve ((n + 15) / 16 * 16) b ++ l2)).
Proof.
  intros (bs & Hinv)%kreach_inv Hn. exists bs. pose proof (ki_heap _ _ _ Hinv) as Hs.
  split; [by apply heap_blocks_ok|]. pose proof (alloc_inv bs s L Hinv n Hn) as Ha.
  assert (forall w c, fits w c = false <-> (ab_free c = true -> ab_size c < w)) as Hfits.
  { intros w c. unfold fits. destruct (ab_free c); cbn [andb]; [|naive_solver].
    rewrite Z.leb_gt. naive_solver. }
  destruct (spec_alloc n bs) as [[o bs']|] eqn:E; cbv zeta in Ha.
  - right. destruct (spec_alloc_Some bs n o bs' Hn E) as (Hr & l1 & b & l2 & -> & -> & -> & Hb & Hfit & Hl1).
    destruct Ha as (s' & Ha & _ & Hnone & Hinv' & _).
    assert (round_size n = (n + 15) / 16 * 16) as Hrs.
    { unfold round_size in *. case_if; [lia|done]. }
    rewrite Hrs in *. exists l1, b, l2, s'. split_all; try done; try lia.
    + eapply Forall_impl; [exact Hl1|]. intros c. apply Hfits.
    + apply heap_blocks_ok, Hinv'.
  - left. split; [|done]. unfold spec_alloc in E. case_if_in E.
    + apply orb_true_iff in Hif as [Hif|Hif]; zbool; [by left|].
      destruct (decide (n = 0)); [by left|]. right; left.
      unfold round_size in Hif. case_if_in Hif; zbool; [lia|]. Z.div_mod_to_equations. lia.
    + right; right. unfold round_size in *. case_if_in E; zbool; [done|].
      apply alloc_blocks_None in E. eapply Forall_impl; [exact E|]. intros c. apply Hfits.
Qed.

(** C21: in every reachable state ([kreach]), releasing a live pointer frees exactly its block and merges it with
    its free neighbours, so that no two free blocks ever touch; a null pointer
    is accepted, and a pointer outside the heap or off the alignment is
    refused, without any change. *)
Theorem kmem_free_exact s L p :
  kreach s L ->
  exists bs, heap_blocks s = Some bs /\ merged bs /\
    (forall n, L !! p = Some n ->
       exists l1 b l2 s', bs = l1 ++ b :: l2 /\ ab_free b = false /\
         p = g_heap_base s + total l1 + 48 /\
         kmem_free_checked s p = Some (0, s') /\
         heap_blocks s' = Some (free_blocks l1 b l2)) /\
    (p = 0 -> kmem_free_checked s p = Some (0, s)) /\
    (p <> 0 -> p < g_heap_base s \/ g_heap_end s <= p -> kmem_free_checked s p = Some (-1, s)) /\
    (g_heap_base s <= p < g_heap_end s -> p mod 16 <> 0 ->
       kmem_free_checked s p = Some (-2, s)).
Proof.
  intros (bs & Hinv)%kreach_inv. exists bs. pose proof (ki_heap _ _ _ Hinv) as Hs.
  split; [by apply heap_blocks_ok|]. split; [apply Hinv|]. split_all.
  - intros n Hp.
    destruct (free_inv bs s L Hinv p n Hp) as (l1 & b & l2 & s' & H1 & H2 & H3 & H4 & H5 & _).
    exists l1, b, l2, s'. split_all; try done. apply heap_blocks_ok, H5.
  - intros ->. done.
  - intros Hp Hout. unfold kmem_free_checked, kmem_ptr_in_heap.
    rewrite (proj2 (Z.eqb_neq p 0)), (hk_init _ _ Hs) by done. cbn [andb].
    destruct (Z.leb_spec (g_heap_base s) p), (Z.ltb_spec p (g_heap_end s)); (done || lia).
  - intros Hin Hal. pose proof (hk_pos _ _ Hs). unfold kmem_free_checked, kmem_ptr_in_heap.
    rewrite (proj2 (Z.eqb_neq p 0)), (hk_init _ _ Hs) by lia. cbn [andb].
    rewrite (proj2 (Z.leb_le _ _)), (proj2 (Z.ltb_lt _ _)) by lia. cbn [andb negb].
    change (KMEM_ALIGN - 1) with (2 ^ 4 - 1). rewrite land_ones by lia. change (2 ^ 4) with 16.
    by rewrite (proj2 (Z.eqb_neq _ 0)).
Qed.

(** Nothing is lost.  Whenever every allocation has been released, in
    whatever order, the heap is one free block again, and the statistics
    report all of it but one header as free; they always account for every
    byte of the heap. *)
Theorem kmem_all_freed s L :
  kreach s L ->
  exists st, kmem_get_stats s = Some st /\
    total_bytes st = g_heap_end s - g_heap_base s /\
    used_bytes st + free_bytes st + 48 * block_count st = total_bytes st /\
    (L = ∅ -> heap_blocks s = Some [mk_ablk (total_bytes st - 48) true] /\
       used_bytes st = 0 /\ block_count st = 1 /\ largest_free st = total_bytes st - 48).
Proof.
  intros (bs & Hinv)%kreach_inv. pose proof (ki_heap _ _ _ Hinv) as Hs.
  eexists. split; [by apply stats_ok|]. unfold block_stats. set (t := g_heap_end s - g_heap_base s).
  assert (forall l out,
    total_bytes (foldl add_stats out l) = total_bytes out /\
    used_bytes (foldl add_stats out l) + free_bytes (foldl add_stats out l) +
      48 * block_count (foldl add_stats out l) =
    used_bytes out + free_bytes out + 48 * block_count out + total l) as Hsum.
  { induction l as [|b l IH]; intros out; [cbn; lia|]. rewrite total_cons. cbn [foldl].
    destruct (IH (add_stats out b)) as (-> & ->). unfold add_stats, bsz.
    destruct (ab_free b); cbn; lia. }
  destruct (Hsum bs (mk_stats t 0 0 0 0 0)) as (H1 & H2). cbn in H1, H2.
  pose proof (hk_end _ _ Hs) as He. split_all; [done|lia|]. intros ->. rewrite H1.
  assert (used (g_heap_base s) bs = []) as Hnone.
  { destruct (used (g_heap_base s) bs) as [|[p sz] l] eqn:E; [done|].
    destruct (ki_used _ _ _ Hinv p sz) as [x Hx]; [rewrite E; left|]. by rewrite lookup_empty in Hx. }
  pose proof (merged_no_used _ _ (ki_merged _ _ _ Hinv) Hnone (hk_nonempty _ _ Hs)) as Hb.
  replace (total bs) with t in Hb by (unfold t; lia). rewrite (heap_blocks_ok _ _ Hs), Hb.
  pose proof (hk_blocks _ _ Hs) as Hok. rewrite Hb in Hok. apply Forall_cons in Hok as ((Hpos & _) & _).
  cbn in *. split_all; try done. lia.
Qed.

(** ** Concrete instances *)

Definition state_of (r : option (Z * kmem_state)) (s : kmem_state) : kmem_state :=
  match r with Some x => x.2 | None => s end.

(** 512 bytes at address 4096; then one allocation of 100 bytes. *)
Definition boot0 : kmem_state := mk_kmem 0 0 0 false (mk_region 4096 (replicate 512 0)).
Definition heap0 : kmem_state := state_of (kmem_init boot0 4096 512) boot0.
Definition heap1 : kmem_state := state_of (kmem_alloc heap0 100) heap0.

Lemma heap0_reach : kreach heap0 ∅.
Proof.
  exists boot0, heap0. split_all.
  - unfold heap_memory. split_all; [|done|vm_compute; discriminate].
    split; [apply zero_is_byte|done|vm_compute; reflexivity|vm_compute; reflexivity].
  - vm_compute. reflexivity.
  - apply rtc_refl.
Qed.

Lemma heap1_reach : kreach heap1 {[ 4144 := 100 ]}.
Proof.
  destruct heap0_reach as (s0 & s1 & Hm & Hi & Hr). exists s0, s1. split_all; [done..|].
  eapply rtc_r; [exact Hr|].
  apply (k_alloc heap0 ∅ 100 4144 heap1); [lia|vm_compute; reflexivity].
Qed.

Lemma kmem_reachable_safe_witness :
  kmem_validate heap1 = Some 0 /\ exists s', kmem_free_checked heap1 4144 = Some (0, s').
Proof.
  destruct (kmem_reachable_safe heap1 {[ 4144 := 100 ]} heap1_reach) as (Hv & _ & _ & _ & _ & Hf).
  split; [exact Hv|]. apply (Hf 4144 100). apply lookup_singleton_eq.
Defined.

Lemma kmem_alloc_first_fit_witness :
  exists bs, heap_blocks heap1 = Some bs /\ kmem_alloc heap1 0 = Some (0, heap1).
Proof.
  destruct (kmem_alloc_first_fit heap1 {[ 4144 := 100 ]} 0 heap1_reach ltac:(lia))
    as (bs & Hb & [(_ & Ha)|(l1 & b & l2 & s' & _ & _ & _ & H & _)]); [|lia].
  exists bs. split; [exact Hb|exact Ha].
Defined.

Lemma kmem_free_exact_witness :
  exists bs, heap_blocks heap1 = Some bs /\ merged bs /\
    kmem_free_checked heap1 4145 = Some (-2, heap1).
Proof.
  destruct (kmem_free_exact heap1 {[ 4144 := 100 ]} 4145 heap1_reach)
    as (bs & Hb & Hm & _ & _ & _ & H2).
  exists bs. split; [exact Hb|]. split; [exact Hm|].
  apply H2; [vm_compute; split; [discriminate|reflexivity]|vm_compute; discriminate].
Defined.

Lemma kmem_all_freed_witness :
  exists st, kmem_get_stats heap0 = Some st /\ block_count st = 1 /\ used_bytes st = 0.
Proof.
  destruct (kmem_all_freed heap0 ∅ heap0_reach) as (st & Hst & _ & _ & H).
  destruct (H eq_refl) as (_ & Hu & Hc & _). exists st. split; [exact Hst|].
  split; [exact Hc|exact Hu].
Defined.
