(* ===== verification/Mcsfs1.v ===== *)
(** * MCSFS1 ([fs/mcsfs1/mcsfs1.c], [mcsfs1.h])

    The file system on a block device given by three callbacks, which are
    parameters here: a device state [D], and functions on it that may fail.
    On-disk structures are read and written at their offsets in 512-byte
    blocks.  A C string of the caller is the list of its bytes, followed in
    memory by its terminator; a null pointer is [None].  An access outside an
    array is undefined ([None] of the monad). *)
From S2P Require Import Prelude.

Definition MCSFS1_BLOCK_SIZE : Z := 512.
Definition MCSFS1_MAGIC : Z := 0x31465343.
Definition MCSFS1_VERSION : Z := 1.
Definition MCSFS1_MAX_INODES : Z := 32.
Definition MCSFS1_DIRECT_BLOCKS : Z := 8.
Definition MCSFS1_MAX_NAME : Z := 27.
Definition MCSFS1_ROOT_INO : Z := 1.
Definition MCSFS1_MODE_FILE : Z := 1.
Definition MCSFS1_MODE_DIR : Z := 2.

Definition MCSFS1_ERR_OK : Z := 0.
Definition MCSFS1_ERR_INVAL : Z := -1.
Definition MCSFS1_ERR_IO : Z := -2.
Definition MCSFS1_ERR_NOSPC : Z := -3.
Definition MCSFS1_ERR_EXIST : Z := -4.
Definition MCSFS1_ERR_NOENT : Z := -5.
Definition MCSFS1_ERR_NAMETOOLONG : Z := -6.
Definition MCSFS1_ERR_CORRUPT : Z := -7.
Definition MCSFS1_ERR_ISDIR : Z := -8.
Definition MCSFS1_ERR_RANGE : Z := -9.

Definition MCSFS1_SB_LBA : Z := 0.
Definition MCSFS1_INODE_BMAP_LBA : Z := 1.
Definition MCSFS1_BLOCK_BMAP_LBA : Z := 2.
Definition MCSFS1_INODE_TABLE_LBA : Z := 3.
Definition MCSFS1_INODE_TABLE_BLOCKS : Z := 4.
Definition MCSFS1_ROOT_DIR_LBA : Z := 7.
Definition MCSFS1_DATA_START_LBA : Z := 8.
Definition MCSFS1_MIN_BLOCKS : Z := 16.
Definition MCSFS1_DIRENT_COUNT : Z := 16.

(** ** On-disk structures *)

(** [struct mcsfs1_super_disk], 512 bytes: the 32-bit fields in order. *)
Definition s_magic (b : list Z) : Z := le_get 0 4 b.
Definition s_version (b : list Z) : Z := le_get 4 4 b.
Definition s_block_size (b : list Z) : Z := le_get 8 4 b.
Definition s_block_count (b : list Z) : Z := le_get 12 4 b.
Definition s_inode_count (b : list Z) : Z := le_get 16 4 b.
Definition s_inode_bmap_lba (b : list Z) : Z := le_get 20 4 b.
Definition s_block_bmap_lba (b : list Z) : Z := le_get 24 4 b.
Definition s_inode_table_lba (b : list Z) : Z := le_get 28 4 b.
Definition s_root_ino (b : list Z) : Z := le_get 36 4 b.
Definition s_root_dir_lba (b : list Z) : Z := le_get 40 4 b.
Definition s_data_start_lba (b : list Z) : Z := le_get 44 4 b.
Definition s_clean (b : list Z) : Z := le_get 48 4 b.

(** [struct mcsfs1_inode_disk], 60 bytes, 8 to a block. *)
Definition INODE_SIZE : Z := 60.
Definition i_mode (ino : list Z) : Z := le_get 0 2 ino.
Definition i_links (ino : list Z) : Z := le_get 2 2 ino.
Definition i_size (ino : list Z) : Z := le_get 4 4 ino.
(** [direct[k]], an element of an array of 8. *)
Definition i_direct (ino : list Z) (k : nat) : option Z :=
  if Z.of_nat k <? MCSFS1_DIRECT_BLOCKS then le_read (8 + 4 * k) 4 ino else None.
Definition set_i_size (n : Z) (ino : list Z) : list Z := le_put 4 4 n ino.
Definition set_i_direct (k : nat) (lba : Z) (ino : list Z) : option (list Z) :=
  if Z.of_nat k <? MCSFS1_DIRECT_BLOCKS then put_at (8 + 4 * k) (le_bytes 4 lba) ino else None.

(** A zeroed inode with mode, one link, size and [direct[0]] set. *)
Definition make_inode (mode size direct0 : Z) : list Z :=
  le_put 8 4 direct0 (set_i_size size (le_put 2 2 1 (le_put 0 2 mode
    (replicate (Z.to_nat INODE_SIZE) 0)))).

(** [struct mcsfs1_dirent_disk], 32 bytes: [de[i].ino], with the directory block
    as the array [de]. *)
Definition d_ino (dir : list Z) (i : nat) : option Z := le_read (32 * i) 4 dir.
(** The bytes from the name field on: reading past the field reaches the
    next entry, and past the last entry leaves the block. *)
Definition d_name_mem (dir : list Z) (i : nat) : list Z := drop (32 * i + 5) dir.

(** ** Bytes and strings *)

Definition mcsfs_memset (n c : Z) : list Z := replicate (Z.to_nat n) (u8 c).

(** [mem] is the memory from [s] on. *)
Fixpoint strlen_bound (mem : list Z) (max_plus_one : nat) {struct max_plus_one} : option Z :=
  match max_plus_one with
  | O => Some 0
  | S k =>
      match mem with
      | [] => None
      | c :: mem => if c =? 0 then Some 0 else let* n := strlen_bound mem k in Some (1 + n)
      end
  end.

Definition mcsfs_strlen_bound (s : option (list Z)) (max_plus_one : Z) : option Z :=
  match s with
  | None => Some max_plus_one
  | Some mem => strlen_bound mem (Z.to_nat max_plus_one)
  end.

(** Whether the first [n] bytes agree ([mcsfs_memcmp] returns 0). *)
Fixpoint mcsfs_memcmp (a b : list Z) (n : nat) {struct n} : option bool :=
  match n with
  | O => Some true
  | S n =>
      match a, b with
      | x :: a, y :: b => if x =? y then mcsfs_memcmp a b n else Some false
      | _, _ => None
      end
  end.

(** The memory of a caller's string. *)
Definition cmem (name : list Z) : list Z := name ++ [0].

Definition valid_name (name : option (list Z)) : option (Z + Z) :=
  let* len := mcsfs_strlen_bound (cmem <$> name) (MCSFS1_MAX_NAME + 1) in
  if (len =? 0) || (MCSFS1_MAX_NAME <? len) then Some (inl MCSFS1_ERR_NAMETOOLONG)
  else Some (inr len).

(** ** Bitmaps *)

Definition bit_test (bm : list Z) (idx : Z) : option bool :=
  let* b := bm !! Z.to_nat (idx / 8) in
  Some (negb (b .& u8 (1 .<< (idx mod 8)) =? 0)).
Definition bit_set (bm : list Z) (idx : Z) : option (list Z) :=
  let* b := bm !! Z.to_nat (idx / 8) in
  Some (<[Z.to_nat (idx / 8) := u8 (b .| u8 (1 .<< (idx mod 8)))]> bm).
Definition bit_clear (bm : list Z) (idx : Z) : option (list Z) :=
  let* b := bm !! Z.to_nat (idx / 8) in
  Some (<[Z.to_nat (idx / 8) := b .& u8 (Z.lnot (1 .<< (idx mod 8)))]> bm).

(** The first of the [n] indices from [lo] on whose bit is clear. *)
Fixpoint find_clear (n : nat) (lo : Z) (bm : list Z) : option (option Z) :=
  match n with
  | O => Some None
  | S n =>
      let* b := bit_test bm lo in
      if b then find_clear n (lo + 1) bm else Some (Some lo)
  end.

(** All of the [n] bits from [lo] on. *)
Fixpoint all_set (n : nat) (lo : Z) (bm : list Z) : option bool :=
  match n with
  | O => Some true
  | S n =>
      let* b := bit_test bm lo in
      if b then all_set n (lo + 1) bm else Some false
  end.

Fixpoint set_bits (n : nat) (lo : Z) (bm : list Z) : option (list Z) :=
  match n with
  | O => Some bm
  | S n => let* bm := bit_set bm lo in set_bits n (lo + 1) bm
  end.

(** ** The device *)

Record mcsfs1_blkdev (D : Type) := mk_blkdev {
  block_count : Z;
  cb_read : option (Z -> D -> (Z + list Z) * D);
  cb_write : option (Z -> list Z -> D -> Z * D);
  cb_flush : option (D -> Z * D)
}.
Arguments block_count {D}.
Arguments cb_read {D}.
Arguments cb_write {D}.
Arguments cb_flush {D}.

Record mcsfs1_mount_t (D : Type) := mk_mount {
  mnt_dev : option (mcsfs1_blkdev D);
  mnt_block_count : Z;
  mnt_data_start : Z
}.
Arguments mk_mount {D}.
Arguments mnt_dev {D}.

(** Lifts a pure computation that may be undefined. *)
Definition lift {D A} (m : option A) : em D A := fun d => let* x := m in Some (inr x, d).
(** Lifts a result that may be an error code. *)
Definition check {D A} (m : option (Z + A)) : em D A := fun d =>
  let* r := m in Some (r, d).

Section mcsfs1.
Context {D : Type} (dev : mcsfs1_blkdev D).

(** A read callback that returns a non-zero code returns no block. *)
Definition dev_read (lba : Z) : em D (list Z) := fun d =>
  match cb_read dev with
  | None => efail MCSFS1_ERR_INVAL d
  | Some read =>
      if block_count dev <=? lba then efail MCSFS1_ERR_RANGE d else Some (read lba d)
  end.

Definition dev_write (lba : Z) (buf : list Z) : em D unit := fun d =>
  match cb_write dev with
  | None => efail MCSFS1_ERR_INVAL d
  | Some write =>
      if block_count dev <=? lba then efail MCSFS1_ERR_RANGE d else
      let r := write lba buf d in
      if r.1 =? 0 then eret tt r.2 else efail r.1 r.2
  end.

Definition dev_flush : em D unit := fun d =>
  match cb_flush dev with
  | None => efail MCSFS1_ERR_INVAL d
  | Some flush => let r := flush d in if r.1 =? 0 then eret tt r.2 else efail r.1 r.2
  end.

Definition mcsfs1_super_ok (sb : list Z) : bool :=
  negb (negb (s_magic sb =? MCSFS1_MAGIC) || negb (s_version sb =? MCSFS1_VERSION)
        || negb (s_block_size sb =? MCSFS1_BLOCK_SIZE))
  && negb (negb (s_block_count sb =? block_count dev)
           || negb (s_inode_count sb =? MCSFS1_MAX_INODES))
  && negb (negb (s_inode_bmap_lba sb =? MCSFS1_INODE_BMAP_LBA)
           || negb (s_block_bmap_lba sb =? MCSFS1_BLOCK_BMAP_LBA)
           || negb (s_inode_table_lba sb =? MCSFS1_INODE_TABLE_LBA))
  && negb (negb (s_root_ino sb =? MCSFS1_ROOT_INO)
           || negb (s_root_dir_lba sb =? MCSFS1_ROOT_DIR_LBA)
           || negb (s_data_start_lba sb =? MCSFS1_DATA_START_LBA))
  && negb (s_block_count sb <=? s_data_start_lba sb).

Definition load_super : em D (list Z) :=
  let? sb := dev_read MCSFS1_SB_LBA in
  if mcsfs1_super_ok sb then eret sb else efail MCSFS1_ERR_CORRUPT.

(** Block and offset of an inode in the table. *)
Definition per_block : Z := MCSFS1_BLOCK_SIZE / INODE_SIZE.
Definition inode_lba (ino : Z) : Z := MCSFS1_INODE_TABLE_LBA + (ino - 1) / per_block.
Definition itable_off (ino : Z) : Z := (ino - 1) mod per_block * INODE_SIZE.

Definition read_inode (ino : Z) : em D (list Z) :=
  if (ino =? 0) || (MCSFS1_MAX_INODES <? ino) then efail MCSFS1_ERR_INVAL else
  if MCSFS1_DATA_START_LBA <=? inode_lba ino then efail MCSFS1_ERR_CORRUPT else
  let? block := dev_read (inode_lba ino) in
  lift (copy_loop (Z.to_nat INODE_SIZE) (replicate (Z.to_nat INODE_SIZE) 0)
          (drop (Z.to_nat (itable_off ino)) block)).

Definition write_inode (ino : Z) (inode : list Z) : em D unit :=
  if (ino =? 0) || (MCSFS1_MAX_INODES <? ino) then efail MCSFS1_ERR_INVAL else
  if MCSFS1_DATA_START_LBA <=? inode_lba ino then efail MCSFS1_ERR_CORRUPT else
  let? block := dev_read (inode_lba ino) in
  let off := Z.to_nat (itable_off ino) in
  let? t := lift (copy_loop (Z.to_nat INODE_SIZE) (drop off block) inode) in
  dev_write (inode_lba ino) (take off block ++ t).

Definition load_bmaps : em D (list Z * list Z) :=
  let? ib := dev_read MCSFS1_INODE_BMAP_LBA in
  let? bb := dev_read MCSFS1_BLOCK_BMAP_LBA in
  eret (ib, bb).

Definition store_bmaps (ib bb : list Z) : em D unit :=
  dev_write MCSFS1_INODE_BMAP_LBA ib ;? dev_write MCSFS1_BLOCK_BMAP_LBA bb.

(** The [n] directory entries from [i] on: the slot and inode of [name]. *)
Fixpoint find_loop (n i : nat) (dir name : list Z) (name_len : Z) : option (option (nat * Z)) :=
  match n with
  | O => Some None
  | S n =>
      let* ino := d_ino dir i in
      if ino =? 0 then find_loop n (S i) dir name name_len else
      let* len := mcsfs_strlen_bound (Some (d_name_mem dir i)) (MCSFS1_MAX_NAME + 1) in
      if negb (len =? name_len) then find_loop n (S i) dir name name_len else
      let* eq := mcsfs_memcmp (d_name_mem dir i) name (Z.to_nat name_len) in
      if eq then Some (Some (i, ino)) else find_loop n (S i) dir name name_len
  end.

Definition find_dirent (name : option (list Z)) : em D (nat * Z) :=
  let? name_len := check (valid_name name) in
  let? block := dev_read MCSFS1_ROOT_DIR_LBA in
  let? r := lift (find_loop (Z.to_nat MCSFS1_DIRENT_COUNT) 0 block (cmem (default [] name)) name_len) in
  match r with
  | Some x => eret x
  | None => efail MCSFS1_ERR_NOENT
  end.

Definition find_free_block (bb : list Z) : em D (option Z) :=
  lift (find_clear (Z.to_nat (block_count dev - MCSFS1_DATA_START_LBA)) MCSFS1_DATA_START_LBA bb).

Definition alloc_inode_block : em D (Z * Z) :=
  let? bm := load_bmaps in
  let? ino := lift (find_clear (Z.to_nat (MCSFS1_MAX_INODES - 1)) 2 bm.1) in
  match ino with
  | None => efail MCSFS1_ERR_NOSPC
  | Some ino =>
      let? lba := find_free_block bm.2 in
      match lba with
      | None => efail MCSFS1_ERR_NOSPC
      | Some lba =>
          let? ib := lift (bit_set bm.1 ino) in
          let? bb := lift (bit_set bm.2 lba) in
          store_bmaps ib bb ;? eret (ino, lba)
      end
  end.

Definition alloc_data_block : em D Z :=
  let? bm := load_bmaps in
  let? b := find_free_block bm.2 in
  match b with
  | None => efail MCSFS1_ERR_NOSPC
  | Some b =>
      let? bb := lift (bit_set bm.2 b) in
      store_bmaps bm.1 bb ;? eret b
  end.

(** The [n] direct blocks from [k] on are released. *)
Fixpoint clear_direct (n k : nat) (inode bb : list Z) : option (list Z) :=
  match n with
  | O => Some bb
  | S n =>
      let* b := i_direct inode k in
      if negb (b =? 0) && (b <? block_count dev) then
        let* bb := bit_clear bb b in clear_direct n (S k) inode bb
      else clear_direct n (S k) inode bb
  end.

Definition free_inode_and_blocks (ino : Z) (inode : list Z) : em D unit :=
  let? bm := load_bmaps in
  let? ib := lift (bit_clear bm.1 ino) in
  let? bb := lift (clear_direct (Z.to_nat MCSFS1_DIRECT_BLOCKS) 0 inode bm.2) in
  store_bmaps ib bb.

(** ** Format and mount *)

(** The [n] blocks from [lba] on are zeroed. *)
Fixpoint erase_blocks (n : nat) (lba : Z) : em D unit :=
  match n with
  | O => eret tt
  | S n => dev_write lba (mcsfs_memset MCSFS1_BLOCK_SIZE 0) ;? erase_blocks n (lba + 1)
  end.

Definition super_image : list Z :=
  le_put 48 4 1 (le_put 44 4 MCSFS1_DATA_START_LBA (le_put 40 4 MCSFS1_ROOT_DIR_LBA
  (le_put 36 4 MCSFS1_ROOT_INO (le_put 32 4 MCSFS1_INODE_TABLE_BLOCKS
  (le_put 28 4 MCSFS1_INODE_TABLE_LBA (le_put 24 4 MCSFS1_BLOCK_BMAP_LBA
  (le_put 20 4 MCSFS1_INODE_BMAP_LBA (le_put 16 4 MCSFS1_MAX_INODES
  (le_put 12 4 (block_count dev) (le_put 8 4 MCSFS1_BLOCK_SIZE
  (le_put 4 4 MCSFS1_VERSION (le_put 0 4 MCSFS1_MAGIC
    (mcsfs_memset 512 0))))))))))))).

Definition mcsfs1_format : em D unit :=
  if (block_count dev <? MCSFS1_MIN_BLOCKS) || (MCSFS1_BLOCK_SIZE * 8 <? block_count dev)
  then efail MCSFS1_ERR_INVAL else
  erase_blocks (Z.to_nat (block_count dev)) 0 ;?
  dev_write MCSFS1_SB_LBA super_image ;?
  let? ib := lift (bit_set (mcsfs_memset MCSFS1_BLOCK_SIZE 0) 0) in
  let? ib := lift (bit_set ib MCSFS1_ROOT_INO) in
  let? bb := lift (set_bits (Z.to_nat MCSFS1_DATA_START_LBA) 0 (mcsfs_memset MCSFS1_BLOCK_SIZE 0)) in
  let? bb := lift (bit_set bb MCSFS1_ROOT_DIR_LBA) in
  store_bmaps ib bb ;?
  write_inode MCSFS1_ROOT_INO (make_inode MCSFS1_MODE_DIR MCSFS1_BLOCK_SIZE MCSFS1_ROOT_DIR_LBA) ;?
  dev_write MCSFS1_ROOT_DIR_LBA (mcsfs_memset MCSFS1_BLOCK_SIZE 0) ;?
  dev_flush.

Definition mcsfs1_mount : em D (mcsfs1_mount_t D) :=
  let? sb := load_super in
  let? root := read_inode MCSFS1_ROOT_INO in
  let? direct0 := lift (i_direct root 0) in
  if negb (i_mode root =? MCSFS1_MODE_DIR) || negb (direct0 =? MCSFS1_ROOT_DIR_LBA)
  then efail MCSFS1_ERR_CORRUPT
  else eret (mk_mount (Some dev) (s_block_count sb) (s_data_start_lba sb)).

(** ** Files *)

(** The directory block with entry [i] set: inode, type and name. *)
Definition fill_dirent (i : nat) (ino : Z) (name dir : list Z) : option (list Z) :=
  let* dir := put_at (32 * i) (le_bytes 4 ino) dir in
  let* dir := put_at (32 * i + 4) (le_bytes 1 MCSFS1_MODE_FILE) dir in
  let* dir := put_at (32 * i + 5) (replicate 27 0) dir in
  put_at (32 * i + 5) name dir.

Definition clear_dirent (i : nat) (dir : list Z) : option (list Z) :=
  put_at (32 * i) (replicate 32 0) dir.

(** The first free slot of the directory. *)
Definition free_slot (dir : list Z) : option (option Z) :=
  first_where (Z.to_nat MCSFS1_DIRENT_COUNT) 0
    (fun i => let* ino := d_ino dir (Z.to_nat i) in Some (ino =? 0)).

(** Whether [find_dirent] returns 0; its error code is not looked at. *)
Definition found (m : em D (nat * Z)) : em D bool := fun d =>
  match m d with
  | Some (inr _, d) => eret true d
  | Some (inl _, d) => eret false d
  | None => None
  end.

Definition mcsfs1_create (name : option (list Z)) : em D unit :=
  let? name_len := check (valid_name name) in
  let? exists_ := found (find_dirent name) in
  if exists_ : bool then efail MCSFS1_ERR_EXIST else
  let? dir := dev_read MCSFS1_ROOT_DIR_LBA in
  let? slot := lift (free_slot dir) in
  match slot with
  | None => efail MCSFS1_ERR_NOSPC
  | Some slot =>
      let? a := alloc_inode_block in
      write_inode a.1 (make_inode MCSFS1_MODE_FILE 0 a.2) ;?
      let? dir := lift (fill_dirent (Z.to_nat slot) a.1
                          (take (Z.to_nat name_len) (default [] name)) dir) in
      dev_write MCSFS1_ROOT_DIR_LBA dir ;?
      dev_flush
  end.

(** The first loop of [mcsfs1_write]: missing blocks among the [n] from [k]
    on are allocated. *)
Fixpoint alloc_missing (n k : nat) (inode : list Z) : em D (list Z) :=
  match n with
  | O => eret inode
  | S n =>
      let? lba := lift (i_direct inode k) in
      if lba =? 0 then
        let? b := alloc_data_block in
        let? inode := lift (set_i_direct k b inode) in
        alloc_missing n (S k) inode
      else alloc_missing n (S k) inode
  end.

(** The second loop: [written] bytes are done. *)
Fixpoint write_loop (n k : nat) (inode buf : list Z) (len written : Z) : em D unit :=
  match n with
  | O => eret tt
  | S n =>
      let remain := len - written in
      let chunk := if MCSFS1_BLOCK_SIZE <? remain then MCSFS1_BLOCK_SIZE else remain in
      let? block := lift (copy_loop (Z.to_nat chunk) (mcsfs_memset MCSFS1_BLOCK_SIZE 0)
                            (drop (Z.to_nat written) buf)) in
      let? lba := lift (i_direct inode k) in
      dev_write lba block ;?
      write_loop n (S k) inode buf len (written + chunk)
  end.

Definition blocks_needed (len : Z) : Z :=
  let n := u32 (len + MCSFS1_BLOCK_SIZE - 1) / MCSFS1_BLOCK_SIZE in if n =? 0 then 1 else n.

Definition mcsfs1_write (name : option (list Z)) (buf : option (list Z)) (len : Z) : em D unit :=
  if match buf with None => negb (len =? 0) | Some _ => false end
  then efail MCSFS1_ERR_INVAL else
  if MCSFS1_DIRECT_BLOCKS * MCSFS1_BLOCK_SIZE <? len then efail MCSFS1_ERR_RANGE else
  let? e := find_dirent name in
  let? inode := read_inode e.2 in
  if negb (i_mode inode =? MCSFS1_MODE_FILE) then efail MCSFS1_ERR_ISDIR else
  let n := Z.to_nat (blocks_needed len) in
  let? inode := alloc_missing n 0 inode in
  write_loop n 0 inode (default [] buf) len 0 ;?
  write_inode e.2 (set_i_size len inode) ;?
  dev_flush.

(** [memcpy(buf + copied, block, chunk)]. *)
Definition copy_at (off n : nat) (dst src : list Z) : option (list Z) :=
  let* t := copy_loop n (drop off dst) src in Some (take off dst ++ t).

Fixpoint read_loop (n k : nat) (inode buf : list Z) (copied remain : Z) : em D (list Z) :=
  match n with
  | O => eret buf
  | S n =>
      if remain =? 0 then eret buf else
      let? lba := lift (i_direct inode k) in
      if lba =? 0 then efail MCSFS1_ERR_CORRUPT else
      let? block := dev_read lba in
      let chunk := if MCSFS1_BLOCK_SIZE <? remain then MCSFS1_BLOCK_SIZE else remain in
      let? buf := lift (copy_at (Z.to_nat copied) (Z.to_nat chunk) buf block) in
      read_loop n (S k) inode buf (copied + chunk) (remain - chunk)
  end.

(** The caller's buffer, of capacity [cap], and whether [out_len] is non-null;
    returns the buffer and [*out_len]. *)
Definition mcsfs1_read (name : option (list Z)) (buf : option (list Z)) (cap : Z)
    (out_len : bool) : em D (list Z * Z) :=
  match buf with
  | None => efail MCSFS1_ERR_INVAL
  | Some buf =>
      if negb out_len then efail MCSFS1_ERR_INVAL else
      let? e := find_dirent name in
      let? inode := read_inode e.2 in
      if negb (i_mode inode =? MCSFS1_MODE_FILE) then efail MCSFS1_ERR_ISDIR else
      if cap <? i_size inode then efail MCSFS1_ERR_RANGE else
      let? buf := read_loop (Z.to_nat MCSFS1_DIRECT_BLOCKS) 0 inode buf 0 (i_size inode) in
      eret (buf, i_size inode)
  end.

Definition mcsfs1_unlink (name : option (list Z)) : em D unit :=
  let? e := find_dirent name in
  let? inode := read_inode e.2 in
  let? dir := dev_read MCSFS1_ROOT_DIR_LBA in
  let? dir := lift (clear_dirent e.1 dir) in
  dev_write MCSFS1_ROOT_DIR_LBA dir ;?
  free_inode_and_blocks e.2 inode ;?
  dev_flush.

(** ** Checking *)

(** The [n] directory entries from [i] on. *)
Fixpoint fsck_loop (n i : nat) (dir ib : list Z) : option bool :=
  match n with
  | O => Some true
  | S n =>
      let* ino := d_ino dir i in
      if ino =? 0 then fsck_loop n (S i) dir ib else
      if MCSFS1_MAX_INODES <? ino then Some false else
      let* b := bit_test ib ino in
      if b then fsck_loop n (S i) dir ib else Some false
  end.

Definition corrupt_unless (b : bool) : em D unit :=
  if b then eret tt else efail MCSFS1_ERR_CORRUPT.

Definition mcsfs1_fsck : em D unit :=
  let? sb := load_super in
  let? root := read_inode MCSFS1_ROOT_INO in
  corrupt_unless (i_mode root =? MCSFS1_MODE_DIR) ;?
  let? direct0 := lift (i_direct root 0) in
  corrupt_unless (direct0 =? MCSFS1_ROOT_DIR_LBA) ;?
  corrupt_unless (i_size root <=? MCSFS1_DIRECT_BLOCKS * MCSFS1_BLOCK_SIZE) ;?
  corrupt_unless (direct0 <? block_count dev) ;?
  corrupt_unless (s_clean sb =? 1) ;?
  let? ib := dev_read MCSFS1_INODE_BMAP_LBA in
  let? bb := dev_read MCSFS1_BLOCK_BMAP_LBA in
  let? meta := lift (all_set (Z.to_nat MCSFS1_DATA_START_LBA) 0 bb) in
  corrupt_unless meta ;?
  let? dir := dev_read MCSFS1_ROOT_DIR_LBA in
  let? ok := lift (fsck_loop (Z.to_nat MCSFS1_DIRENT_COUNT) 0 dir ib) in
  corrupt_unless ok.

End mcsfs1.

(** ** Null pointers *)

(** [mcsfs1_format], [mcsfs1_mount] and [mcsfs1_fsck] on a possibly null
    device (the last through the test of [dev_read]), the others on a possibly
    null mount. *)
Definition with_dev {D A} (dev : option (mcsfs1_blkdev D)) (op : mcsfs1_blkdev D -> em D A)
    : em D A :=
  match dev with None => efail MCSFS1_ERR_INVAL | Some dev => op dev end.
Definition with_mount {D A} (mnt : option (mcsfs1_mount_t D)) (op : mcsfs1_blkdev D -> em D A)
    : em D A :=
  match mnt with
  | None => efail MCSFS1_ERR_INVAL
  | Some mnt => with_dev (mnt_dev mnt) op
  end.
