(* ===== verification/Mcsfs1Dev.v ===== *)
(** * MCSFS1: devices

    What the file system relies on from the three callbacks: reads that return
    what was last written ([ReadDev]), and on a reliable device ([ReliableDev])
    writes and flushes that report no error.  [sim]
    relates a computation on such a device to its effect on the image; the
    rules below compute it, one per construct of the monad. *)
From S2P Require Import Prelude Bitmap Mcsfs1.

Abbreviation image := (gmap Z (list Z)).

(** Reads return what the image holds. *)
Class ReadDev {D : Type} (dev : mcsfs1_blkdev D) := {
  dev_img : D -> image;
  rd_read : exists read, cb_read dev = Some read /\
    forall lba d b, 0 <= lba < block_count dev -> dev_img d !! lba = Some b ->
      exists d', read lba d = (inr b, d') /\ dev_img d' = dev_img d
}.

(** Writes and flushes never fail. *)
Class ReliableDev {D : Type} (dev : mcsfs1_blkdev D) `{!ReadDev dev} : Prop := {
  rd_write : exists write, cb_write dev = Some write /\
    forall lba b d, 0 <= lba < block_count dev -> length b = 512%nat ->
      exists d', write lba b d = (0, d') /\ dev_img d' = <[lba := b]> (dev_img d);
  rd_flush : exists flush, cb_flush dev = Some flush /\
    forall d, exists d', flush d = (0, d') /\ dev_img d' = dev_img d
}.

(** ** A disk in memory is one *)

Definition ram_dev (n : Z) : mcsfs1_blkdev image :=
  mk_blkdev image n
    (Some (fun lba d => (match d !! lba with Some b => inr b | None => inl MCSFS1_ERR_IO end, d)))
    (Some (fun lba b d => (0, <[lba := b]> d)))
    (Some (fun d => (0, d))).

#[export, program] Instance ram_dev_reads n : ReadDev (ram_dev n) := {| dev_img := fun d => d |}.
Next Obligation.
  intros n. eexists. split; [reflexivity|]. intros lba d b _ Hb. exists d. cbn. by rewrite Hb.
Qed.

#[export] Instance ram_dev_reliable n : ReliableDev (ram_dev n).
Proof.
  split.
  - eexists. split; [reflexivity|]. intros lba b d _ _. by eexists.
  - eexists. split; [reflexivity|]. intros d. by eexists.
Qed.

(** ** Simulation on images *)

Section sim.
Context {D : Type} (dev : mcsfs1_blkdev D) `{!ReadDev dev, !ReliableDev dev}.

Definition sim {A} (m : em D A) (M : image) (r : Z + A) (M' : image) : Prop :=
  forall d, dev_img d = M -> exists d', m d = Some (r, d') /\ dev_img d' = M'.

Lemma sim_ret {A} (x : A) M : sim (eret x) M (inr x) M.
Proof. intros d Hd. by exists d. Qed.

Lemma sim_fail {A} rc M : sim (A := A) (efail rc) M (inl rc) M.
Proof. intros d Hd. by exists d. Qed.

Lemma sim_bind {A B} (m : em D A) (k : A -> em D B) M x M1 r M2 :
  sim m M (inr x) M1 -> sim (k x) M1 r M2 -> sim (ebind m k) M r M2.
Proof.
  intros Hm Hk d Hd. destruct (Hm d Hd) as (d1 & E1 & Hd1).
  destruct (Hk d1 Hd1) as (d2 & E2 & Hd2). exists d2. unfold ebind. by rewrite E1.
Qed.

Lemma sim_bind_err {A B} (m : em D A) (k : A -> em D B) M rc M1 :
  sim m M (inl rc) M1 -> sim (ebind m k) M (inl rc) M1.
Proof.
  intros Hm d Hd. destruct (Hm d Hd) as (d1 & E1 & Hd1). exists d1. unfold ebind. by rewrite E1.
Qed.

Lemma sim_lift {A} (m : option A) x M : m = Some x -> sim (lift m) M (inr x) M.
Proof. intros -> d Hd. by exists d. Qed.

Lemma sim_check {A} (m : option (Z + A)) r M : m = Some r -> sim (check m) M r M.
Proof. intros -> d Hd. by exists d. Qed.

Lemma sim_read lba M b :
  0 <= lba < block_count dev -> M !! lba = Some b -> sim (dev_read dev lba) M (inr b) M.
Proof.
  intros Hlba Hb d Hd. unfold dev_read. destruct rd_read as (read & -> & Hread).
  rewrite (proj2 (Z.leb_gt _ _)) by lia. rewrite <- Hd in Hb.
  destruct (Hread lba d b Hlba Hb) as (d' & -> & Hd'). exists d'. split; [done|congruence].
Qed.

Lemma sim_write lba M b :
  0 <= lba < block_count dev -> length b = 512%nat ->
  sim (dev_write dev lba b) M (inr tt) (<[lba := b]> M).
Proof.
  intros Hlba Hb d Hd. unfold dev_write. destruct rd_write as (write & -> & Hwrite).
  rewrite (proj2 (Z.leb_gt _ _)) by lia.
  destruct (Hwrite lba b d Hlba Hb) as (d' & -> & Hd'). exists d'. split; [done|congruence].
Qed.

Lemma sim_flush M : sim (dev_flush dev) M (inr tt) M.
Proof.
  intros d Hd. unfold dev_flush. destruct rd_flush as (flush & -> & Hflush).
  destruct (Hflush d) as (d' & -> & Hd'). exists d'. split; [done|congruence].
Qed.

Lemma sim_found (m : em D (nat * Z)) M r M' :
  sim m M r M' -> sim (found m) M (inr (match r with inr _ => true | inl _ => false end)) M'.
Proof.
  intros Hm d Hd. destruct (Hm d Hd) as (d' & E & Hd'). exists d'. unfold found. rewrite E.
  by destruct r.
Qed.

End sim.

(** ** Bitmaps *)

Definition block_ok (b : list Z) : Prop := length b = 512%nat /\ Forall is_byte b.

Section bits.
Context (bm : list Z) (Hbm : block_ok bm).

Lemma bit_test_eq i : 0 <= i < 4096 -> bit_test bm i = Some (bm_get bm i).
Proof.
  intros Hi. destruct Hbm as [Hl _]. unfold bit_test, bm_get, nthZ.
  assert (i / 8 < 512) by (apply Z.div_lt_upper_bound; lia).
  assert (0 <= i / 8) by (apply Z.div_pos; lia).
  destruct (lookup_lt_is_Some_2 bm (Z.to_nat (i / 8))) as [x Hx]; [lia|].
  rewrite Hx. cbn. f_equal. unfold u8. rewrite wrap_id by apply shl1_byte, mod8_bounds.
  apply land_shl1_nonzero, mod8_bounds.
Qed.

Lemma bit_set_eq i : 0 <= i < 4096 -> bit_set bm i = Some (bm_set bm i).
Proof.
  intros Hi. destruct Hbm as [Hl Hb]. unfold bit_set, bm_set, bm_upd, nthZ.
  assert (i / 8 < 512) by (apply Z.div_lt_upper_bound; lia).
  assert (0 <= i / 8) by (apply Z.div_pos; lia).
  destruct (lookup_lt_is_Some_2 bm (Z.to_nat (i / 8))) as [x Hx]; [lia|].
  rewrite Hx. cbn. do 2 f_equal. unfold u8.
  rewrite (wrap_id 8 (1 .<< _)) by apply shl1_byte, mod8_bounds.
  apply wrap_id, lor_in_u; [lia| |apply shl1_byte, mod8_bounds].
  rewrite Forall_lookup in Hb. apply (Hb _ _ Hx).
Qed.

Lemma bit_clear_eq i : 0 <= i < 4096 -> bit_clear bm i = Some (bm_clear bm i).
Proof.
  intros Hi. destruct Hbm as [Hl Hb]. unfold bit_clear, bm_clear, bm_upd, nthZ.
  assert (i / 8 < 512) by (apply Z.div_lt_upper_bound; lia).
  assert (0 <= i / 8) by (apply Z.div_pos; lia).
  destruct (lookup_lt_is_Some_2 bm (Z.to_nat (i / 8))) as [x Hx]; [lia|].
  rewrite Hx. cbn. do 2 f_equal. unfold u8. apply land_lnot_wrap; [lia|].
  rewrite Forall_lookup in Hb. apply (Hb _ _ Hx).
Qed.

Lemma bm_set_ok i : block_ok (bm_set bm i).
Proof. destruct Hbm. split; [unfold bm_set; by rewrite length_bm_upd|by apply bm_set_bytes]. Qed.

Lemma bm_clear_ok i : block_ok (bm_clear bm i).
Proof. destruct Hbm. split; [unfold bm_clear; by rewrite length_bm_upd|by apply bm_clear_bytes]. Qed.

Lemma bm_fits_4096 n : n <= 4096 -> bm_fits bm n.
Proof. intros. destruct Hbm as [Hl _]. unfold bm_fits. rewrite Hl. lia. Qed.

Lemma find_clear_spec n lo :
  0 <= lo -> lo + Z.of_nat n <= 4096 ->
  find_clear n lo bm = Some (first_from n lo (fun i => negb (bm_get bm i))).
Proof.
  revert lo. induction n as [|n IH]; intros lo Hlo Hn; cbn [find_clear first_from]; [done|].
  rewrite bit_test_eq by lia. destruct (bm_get bm lo); cbn [negb]; [|done]. apply IH; lia.
Qed.

Lemma all_set_spec n lo :
  0 <= lo -> lo + Z.of_nat n <= 4096 ->
  (forall i, lo <= i < lo + Z.of_nat n -> bm_get bm i = true) -> all_set n lo bm = Some true.
Proof.
  revert lo. induction n as [|n IH]; intros lo Hlo Hn Hall; cbn [all_set]; [done|].
  rewrite bit_test_eq, Hall by lia. apply IH; [lia|lia|]. intros. apply Hall. lia.
Qed.

End bits.

Lemma set_bits_spec n : forall lo bm,
  block_ok bm -> 0 <= lo -> lo + Z.of_nat n <= 4096 ->
  exists bm', set_bits n lo bm = Some bm' /\ block_ok bm' /\
    forall i, 0 <= i < 4096 ->
      bm_get bm' i = (bm_get bm i || ((lo <=? i) && (i <? lo + Z.of_nat n))).
Proof.
  induction n as [|n IH]; intros lo bm Hbm Hlo Hn; cbn [set_bits].
  { exists bm. split_all; try done. intros i Hi.
    rewrite (proj2 (andb_false_iff _ _)), orb_false_r; [done|].
    destruct (Z.leb_spec lo i), (Z.ltb_spec i (lo + Z.of_nat 0)); auto; lia. }
  rewrite bit_set_eq by (done || lia).
  destruct (IH (lo + 1) (bm_set bm lo)) as (bm' & -> & Hok & Hget); [by apply bm_set_ok|lia|lia|].
  exists bm'. split_all; try done. intros i Hi. rewrite Hget by done.
  rewrite (bm_get_set bm 4096) by (done || lia || by apply bm_fits_4096).
  destruct (Z.eqb_spec lo i) as [->|Hne].
  - rewrite (proj2 (Z.leb_le i i)), (proj2 (Z.ltb_lt i (i + Z.of_nat (S n)))) by lia.
    by rewrite orb_true_r.
  - f_equal. destruct (Z.leb_spec (lo + 1) i), (Z.leb_spec lo i),
      (Z.ltb_spec i (lo + 1 + Z.of_nat n)), (Z.ltb_spec i (lo + Z.of_nat (S n))); (done || lia).
Qed.
