(* ===== verification/Mcsfs1Spec.v ===== *)
(** * MCSFS1: the abstract file system

    What the file system promises to its clients: a finite map from names to
    file contents and a pool of free blocks.  A file owns the blocks it was
    ever grown to; writing allocates the missing ones, removing a file returns
    them.  The operations here are those of [fs/mcsfs1/mcsfs1.c] without the
    disk. *)
From S2P Require Import Prelude Mcsfs1.

Record fs_file := mk_fs_file { af_data : list Z; af_blocks : nat }.
Record afs := mk_afs { a_files : gmap (list Z) fs_file; a_free : nat }.

#[export] Instance fs_file_eq_dec : EqDecision fs_file.
Proof. solve_decision. Defined.

(** A name: 1 to 27 bytes, none of them zero. *)
Definition aname (name : option (list Z)) : option (list Z) :=
  match name with
  | Some n => if (0 <? Z.of_nat (length n)) && (Z.of_nat (length n) <=? MCSFS1_MAX_NAME)
              then Some n else None
  | None => None
  end.

(** The blocks a file of [len] bytes needs; an empty file needs one. *)
Definition a_need (len : nat) : nat := Nat.max 1 ((len + 511) / 512).

(** Results: an error code, or the buffer and length of a read. *)
Definition ares : Type := Z + option (list Z * Z).

Definition a_create (name : option (list Z)) (s : afs) : ares * afs :=
  match aname name with
  | None => (inl MCSFS1_ERR_NAMETOOLONG, s)
  | Some n =>
      match a_files s !! n with
      | Some _ => (inl MCSFS1_ERR_EXIST, s)
      | None =>
          if (16 <=? Z.of_nat (size (a_files s))) || (Z.of_nat (a_free s) =? 0)
          then (inl MCSFS1_ERR_NOSPC, s)
          else (inr None, mk_afs (<[n := mk_fs_file [] 1]> (a_files s)) (a_free s - 1))
      end
  end.

(** Growing a file beyond the pool fails and leaves the pool empty. *)
Definition a_write (name : option (list Z)) (data : list Z) (s : afs) : ares * afs :=
  if 4096 <? Z.of_nat (length data) then (inl MCSFS1_ERR_RANGE, s) else
  match aname name with
  | None => (inl MCSFS1_ERR_NAMETOOLONG, s)
  | Some n =>
      match a_files s !! n with
      | None => (inl MCSFS1_ERR_NOENT, s)
      | Some f =>
          let extra := (a_need (length data) - af_blocks f)%nat in
          if Z.of_nat (a_free s) <? Z.of_nat extra
          then (inl MCSFS1_ERR_NOSPC, mk_afs (a_files s) 0)
          else (inr None, mk_afs (<[n := mk_fs_file data (af_blocks f + extra)]> (a_files s))
                                 (a_free s - extra))
      end
  end.

(** A read fills the front of the caller's buffer. *)
Definition a_read (name : option (list Z)) (buf : list Z) (s : afs) : ares * afs :=
  match aname name with
  | None => (inl MCSFS1_ERR_NAMETOOLONG, s)
  | Some n =>
      match a_files s !! n with
      | None => (inl MCSFS1_ERR_NOENT, s)
      | Some f =>
          if Z.of_nat (length buf) <? Z.of_nat (length (af_data f))
          then (inl MCSFS1_ERR_RANGE, s)
          else (inr (Some (af_data f ++ drop (length (af_data f)) buf,
                           Z.of_nat (length (af_data f)))), s)
      end
  end.

Definition a_unlink (name : option (list Z)) (s : afs) : ares * afs :=
  match aname name with
  | None => (inl MCSFS1_ERR_NAMETOOLONG, s)
  | Some n =>
      match a_files s !! n with
      | None => (inl MCSFS1_ERR_NOENT, s)
      | Some f => (inr None, mk_afs (delete n (a_files s)) (a_free s + af_blocks f))
      end
  end.

(** ** Sequences of operations *)

Inductive fop :=
  | OpCreate (name : option (list Z))
  | OpWrite (name : option (list Z)) (data : list Z)
  | OpRead (name : option (list Z)) (buf : list Z)
  | OpUnlink (name : option (list Z))
  | OpMount
  | OpFsck.

Definition a_op (op : fop) (s : afs) : ares * afs :=
  match op with
  | OpCreate n => a_create n s
  | OpWrite n data => a_write n data s
  | OpRead n buf => a_read n buf s
  | OpUnlink n => a_unlink n s
  | OpMount | OpFsck => (inr None, s)
  end.

(** A freshly formatted device of [n] blocks. *)
Definition a_empty (n : Z) : afs := mk_afs ∅ (Z.to_nat (n - MCSFS1_DATA_START_LBA)).

Fixpoint a_run (ops : list fop) (s : afs) : list ares * afs :=
  match ops with
  | [] => ([], s)
  | op :: ops => let r := a_op op s in let t := a_run ops r.2 in (r.1 :: t.1, t.2)
  end.

(** The same operations on a device. *)
Definition c_op {D} (dev : mcsfs1_blkdev D) (op : fop) : em D (option (list Z * Z)) :=
  match op with
  | OpCreate n => mcsfs1_create dev n ;? eret None
  | OpWrite n data => mcsfs1_write dev n (Some data) (Z.of_nat (length data)) ;? eret None
  | OpRead n buf =>
      let? r := mcsfs1_read dev n (Some buf) (Z.of_nat (length buf)) true in eret (Some r)
  | OpUnlink n => mcsfs1_unlink dev n ;? eret None
  | OpMount => mcsfs1_mount dev ;? eret None
  | OpFsck => mcsfs1_fsck dev ;? eret None
  end.

Fixpoint c_run {D} (dev : mcsfs1_blkdev D) (ops : list fop) (d : D) : option (list ares * D) :=
  match ops with
  | [] => Some ([], d)
  | op :: ops =>
      let* r := c_op dev op d in
      let* t := c_run dev ops r.2 in
      Some (r.1 :: t.1, t.2)
  end.

(** The client's strings and buffers hold bytes, strings no zero, and the
    names of created files are at most 26 bytes long: a 27-byte name fills
    its field and leaves it without a terminator. *)
Definition name_bytes (name : option (list Z)) : Prop :=
  match name with Some n => Forall (fun c => 0 < c < 256) n | None => True end.
Definition fop_ok (op : fop) : Prop :=
  match op with
  | OpCreate n => name_bytes n /\ match n with Some n => length n <> 27%nat | None => True end
  | OpWrite n data => name_bytes n /\ Forall is_byte data
  | OpRead n buf => name_bytes n /\ Z.of_nat (length buf) < 2 ^ 32
  | OpUnlink n => name_bytes n
  | OpMount | OpFsck => True
  end.

(** ** Facts *)

Lemma a_run_app ops1 ops2 s :
  (a_run (ops1 ++ ops2) s).1 = (a_run ops1 s).1 ++ (a_run ops2 (a_run ops1 s).2).1.
Proof. revert s. induction ops1 as [|op ops1 IH]; intros s; cbn; [done|]. by rewrite IH. Qed.

Lemma a_write_nospc name data s :
  (a_write name data s).1 = inl MCSFS1_ERR_NOSPC ->
  a_write name data s = (inl MCSFS1_ERR_NOSPC, mk_afs (a_files s) 0).
Proof.
  unfold a_write. case_if; [done|]. destruct (aname name) as [n|]; [|done].
  destruct (a_files s !! n) as [f|]; [|done]. by case_if.
Qed.

(** With an empty pool no file can be created. *)
Lemma a_create_nospc n m :
  (1 <= length n <= 27)%nat -> m !! n = None ->
  a_create (Some n) (mk_afs m 0) = (inl MCSFS1_ERR_NOSPC, mk_afs m 0).
Proof.
  intros Hn Hm. unfold a_create, aname, MCSFS1_MAX_NAME.
  rewrite (proj2 (Z.ltb_lt _ _)), (proj2 (Z.leb_le _ _)) by lia. cbn [andb].
  cbn [a_files a_free]. rewrite Hm. by rewrite orb_true_r.
Qed.
