(* ===== verification/Mcsfs1Dir.v ===== *)
(** * MCSFS1: names and the root directory

    What a directory block stores, slot by slot, and what the searches and
    updates of [fs/mcsfs1/mcsfs1.c] do to it. *)
From S2P Require Import Prelude Mcsfs1.

(** ** Strings *)

Definition fname_ok (n : list Z) : Prop :=
  (1 <= length n <= 26)%nat /\ Forall (fun c => 0 < c < 256) n.

Lemma strlen_bound_app n t k :
  Forall (fun c => 0 < c < 256) n -> (length n < k)%nat ->
  strlen_bound (n ++ 0 :: t) k = Some (Z.of_nat (length n)).
Proof.
  revert k. induction n as [|c n IH]; intros [|k] Hn Hk; cbn [length app strlen_bound] in *;
    try lia; [done|].
  apply Forall_cons in Hn as [Hc Hn]. rewrite (proj2 (Z.eqb_neq c 0)) by lia.
  rewrite IH by (done || lia). f_equal. lia.
Qed.

Lemma strlen_bound_long n t k :
  Forall (fun c => 0 < c < 256) n -> (k <= length n)%nat ->
  strlen_bound (n ++ t) k = Some (Z.of_nat k).
Proof.
  revert k. induction n as [|c n IH]; intros k Hn Hk; cbn [length] in Hk.
  { by replace k with 0%nat by lia. }
  destruct k as [|k]; cbn [app strlen_bound]; [done|].
  apply Forall_cons in Hn as [Hc Hn]. rewrite (proj2 (Z.eqb_neq c 0)) by lia.
  rewrite IH by (done || lia). f_equal. lia.
Qed.

Lemma mcsfs_memcmp_app n n' t t' :
  length n = length n' ->
  mcsfs_memcmp (n ++ t) (n' ++ t') (length n') = Some (bool_decide (n = n')).
Proof.
  revert n'. induction n as [|x n IH]; intros [|y n'] Hl; try done. cbn in *.
  destruct (Z.eqb_spec x y) as [->|Hne].
  - rewrite IH by lia. f_equal. apply bool_decide_ext. split; [by intros ->|by intros [=]].
  - f_equal. symmetry. apply bool_decide_eq_false. congruence.
Qed.

(** [valid_name] on a string of non-zero bytes. *)
Lemma valid_name_spec n :
  Forall (fun c => 0 < c < 256) n ->
  valid_name (Some n) =
    Some (if (0 <? Z.of_nat (length n)) && (Z.of_nat (length n) <=? MCSFS1_MAX_NAME)
          then inr (Z.of_nat (length n)) else inl MCSFS1_ERR_NAMETOOLONG).
Proof.
  intros Hn. unfold valid_name, mcsfs_strlen_bound, cmem, MCSFS1_MAX_NAME. cbn [fmap option_fmap option_map].
  change (Z.to_nat (27 + 1)) with 28%nat.
  destruct (decide (length n < 28)%nat).
  - rewrite strlen_bound_app by done. repeat case_if; zbool; (done || lia).
  - rewrite strlen_bound_long by (done || lia). repeat case_if; zbool; (done || lia).
Qed.

(** ** Fields and entries inside their block *)

Definition direct_lba (ino : list Z) (k : nat) : Z := le_get (8 + 4 * k) 4 ino.
Definition with_direct (k : nat) (lba : Z) (ino : list Z) : list Z := le_put (8 + 4 * k) 4 lba ino.
Definition dirent_ino (dir : list Z) (i : nat) : Z := le_get (32 * i) 4 dir.
Definition filled_dir (i : nat) (ino : Z) (name dir : list Z) : list Z :=
  splice (32 * i + 5) name
    (splice (32 * i + 5) (replicate 27 0)
       (le_put (32 * i + 4) 1 MCSFS1_MODE_FILE (le_put (32 * i) 4 ino dir))).
Definition cleared_dir (i : nat) (dir : list Z) : list Z :=
  splice (32 * i) (replicate 32 0) dir.

Lemma i_direct_in ino k :
  length ino = 60%nat -> (k < 8)%nat -> i_direct ino k = Some (direct_lba ino k).
Proof.
  intros Hl Hk. unfold i_direct, MCSFS1_DIRECT_BLOCKS.
  rewrite (proj2 (Z.ltb_lt _ _)) by lia. apply le_read_in. lia.
Qed.

Lemma set_i_direct_in k lba ino :
  length ino = 60%nat -> (k < 8)%nat -> set_i_direct k lba ino = Some (with_direct k lba ino).
Proof.
  intros Hl Hk. unfold set_i_direct, MCSFS1_DIRECT_BLOCKS.
  rewrite (proj2 (Z.ltb_lt _ _)) by lia. apply put_at_in. rewrite length_le_bytes. lia.
Qed.

Lemma d_ino_in dir i :
  length dir = 512%nat -> (i < 16)%nat -> d_ino dir i = Some (dirent_ino dir i).
Proof. intros Hl Hi. apply le_read_in. lia. Qed.

Lemma fill_dirent_in i ino n dir :
  length dir = 512%nat -> (i < 16)%nat -> (length n <= 27)%nat ->
  fill_dirent i ino n dir = Some (filled_dir i ino n dir).
Proof.
  intros Hl Hi Hn. unfold fill_dirent, filled_dir, le_put.
  rewrite put_at_in by len_solve. rewrite put_at_in by len_solve.
  rewrite put_at_in by len_solve. by rewrite put_at_in by len_solve.
Qed.

Lemma clear_dirent_in i dir :
  length dir = 512%nat -> (i < 16)%nat -> clear_dirent i dir = Some (cleared_dir i dir).
Proof. intros Hl Hi. apply put_at_in. rewrite length_replicate. lia. Qed.

(** ** Directory entries *)

Record slot := mk_slot { sl_name : list Z; sl_ino : Z; sl_blocks : list Z; sl_size : nat }.

Definition entry_is (dir : list Z) (i : nat) (o : option slot) : Prop :=
  match o with
  | None => dirent_ino dir i = 0
  | Some s =>
      dirent_ino dir i = sl_ino s /\ 2 <= sl_ino s <= 32 /\ fname_ok (sl_name s) /\
      sub (32 * i + 5) 27 dir = sl_name s ++ replicate (27 - length (sl_name s)) 0
  end.

Definition dir_is (dir : list Z) (slots : list (option slot)) : Prop :=
  length dir = 512%nat /\ length slots = 16%nat /\
  forall i o, slots !! i = Some o -> entry_is dir i o.

Lemma d_name_mem_entry dir i s :
  length dir = 512%nat -> (i < 16)%nat -> entry_is dir i (Some s) ->
  exists t, d_name_mem dir i = sl_name s ++ 0 :: t.
Proof.
  intros Hl Hi (_ & _ & [Hn _] & Hs). unfold d_name_mem.
  rewrite <- (take_drop 27 (drop (32 * i + 5) dir)).
  change (take 27 (drop (32 * i + 5) dir)) with (sub (32 * i + 5) 27 dir). rewrite Hs.
  replace (27 - length (sl_name s))%nat with (S (26 - length (sl_name s))) by lia.
  cbn [replicate]. rewrite <- app_assoc. eexists. reflexivity.
Qed.

(** The index of the slot with a name. *)
Definition has_name (n : list Z) (o : option slot) : Prop :=
  exists s, o = Some s /\ sl_name s = n.

Lemma find_loop_spec dir slots n k :
  dir_is dir slots -> Forall (fun c => 0 < c < 256) n ->
  forall i, (i + k = 16)%nat ->
  (exists j s, find_loop k i dir (cmem n) (Z.of_nat (length n)) = Some (Some (j, sl_ino s)) /\
     slots !! j = Some (Some s) /\ sl_name s = n) \/
  (find_loop k i dir (cmem n) (Z.of_nat (length n)) = Some None /\
     forall j s, (i <= j)%nat -> slots !! j = Some (Some s) -> sl_name s <> n).
Proof.
  intros (Hl & Hls & Hd) Hn. induction k as [|k IH]; intros i Hi; cbn [find_loop].
  { right. split; [done|]. intros j s Hj Hs%lookup_lt_Some. lia. }
  destruct (lookup_lt_is_Some_2 slots i) as [o Ho]; [lia|].
  pose proof (Hd i o Ho) as He. rewrite (d_ino_in dir i Hl ltac:(lia)). specialize (IH (S i) ltac:(lia)).
  assert (Hstep : (forall s, o = Some s -> sl_name s <> n) ->
    (exists j s, find_loop k (S i) dir (cmem n) (Z.of_nat (length n)) = Some (Some (j, sl_ino s)) /\
       slots !! j = Some (Some s) /\ sl_name s = n) \/
    (find_loop k (S i) dir (cmem n) (Z.of_nat (length n)) = Some None /\
       forall j s, (i <= j)%nat -> slots !! j = Some (Some s) -> sl_name s <> n)).
  { intros Hne. destruct IH as [?|[E IH]]; [by left|right]. split; [done|].
    intros j s Hj Hs. destruct (decide (j = i)) as [->|].
    - apply Hne. congruence.
    - apply (IH j); [lia|done]. }
  destruct o as [s|]; [|unfold entry_is in He; rewrite He; by apply Hstep].
  destruct (d_name_mem_entry dir i s Hl ltac:(lia) He) as [t Ht].
  destruct He as (-> & Hino & [Hlen Hs0] & _).
  rewrite (proj2 (Z.eqb_neq _ 0)) by lia. unfold mcsfs_strlen_bound, MCSFS1_MAX_NAME.
  rewrite Ht, strlen_bound_app by (done || lia).
  destruct (Z.eqb_spec (Z.of_nat (length (sl_name s))) (Z.of_nat (length n))) as [Heq|Hne];
    cbn [negb]; [|apply Hstep; intros ? [= <-] ?; congruence].
  rewrite Nat2Z.id. unfold cmem.
  rewrite mcsfs_memcmp_app by lia. case_bool_decide as Hnm.
  - left. exists i, s. done.
  - apply Hstep. by intros ? [= <-].
Qed.

(** ** Updates *)

Lemma entry_is_ext dir dir' i o :
  sub (32 * i) 32 dir' = sub (32 * i) 32 dir -> entry_is dir i o -> entry_is dir' i o.
Proof.
  intros E. assert (Hino : dirent_ino dir' i = dirent_ino dir i).
  { unfold dirent_ino, le_get. rewrite <- (Nat.add_0_r (32 * i)).
    rewrite <- !(sub_sub (32 * i) 32 0 4) by lia. by rewrite E. }
  assert (Hnm : sub (32 * i + 5) 27 dir' = sub (32 * i + 5) 27 dir).
  { rewrite <- !(sub_sub (32 * i) 32 5 27) by lia. by rewrite E. }
  unfold entry_is. rewrite Hino, Hnm. done.
Qed.

Lemma dir_is_update dir dir' slots i o :
  dir_is dir slots -> (i < 16)%nat -> length dir' = 512%nat ->
  (forall j, (j < 16)%nat -> j <> i -> sub (32 * j) 32 dir' = sub (32 * j) 32 dir) ->
  entry_is dir' i o -> dir_is dir' (<[i := o]> slots).
Proof.
  intros (Hl & Hls & Hd) Hi Hl' Hother He. unfold dir_is. split_all; [done|by rewrite length_insert|].
  intros j o' Hj. destruct (decide (j = i)) as [->|Hne].
  - rewrite list_lookup_insert_eq in Hj by lia. by simplify_eq.
  - rewrite list_lookup_insert_ne in Hj by done.
    assert (j < 16)%nat by (apply lookup_lt_Some in Hj; lia).
    apply (entry_is_ext dir); auto.
Qed.

Lemma length_fill_dirent i ino n dir :
  (i < 16)%nat -> (length n <= 27)%nat -> length dir = 512%nat ->
  length (filled_dir i ino n dir) = 512%nat.
Proof. intros. unfold filled_dir. len_solve. Qed.

Lemma sub_fill_dirent_other i ino n dir j :
  (i < 16)%nat -> (j < 16)%nat -> j <> i -> (length n <= 27)%nat -> length dir = 512%nat ->
  sub (32 * j) 32 (filled_dir i ino n dir) = sub (32 * j) 32 dir.
Proof.
  intros. unfold filled_dir, le_put.
  rewrite !sub_splice_other by (rewrite ?length_replicate, ?length_le_bytes; first [lia | len_solve]).
  done.
Qed.

Lemma d_ino_fill_dirent i ino n dir :
  (i < 16)%nat -> (length n <= 27)%nat -> length dir = 512%nat -> 0 <= ino < 2 ^ 32 ->
  dirent_ino (filled_dir i ino n dir) i = ino.
Proof.
  intros. unfold dirent_ino, filled_dir, le_get, le_put.
  rewrite !sub_splice_other by (rewrite ?length_replicate, ?length_le_bytes; first [lia | len_solve]).
  rewrite sub_splice_same by (rewrite ?length_le_bytes; lia). by apply le_val_bytes.
Qed.

Lemma name_fill_dirent i ino n dir :
  (i < 16)%nat -> (length n <= 27)%nat -> length dir = 512%nat ->
  sub (32 * i + 5) 27 (filled_dir i ino n dir) = n ++ replicate (27 - length n) 0.
Proof.
  intros. unfold filled_dir.
  set (dir1 := splice _ (replicate 27 0) _).
  pose proof (sub_splice_inside (32 * i + 5) 27 0 n dir1) as E.
  rewrite Nat.add_0_r in E. rewrite E by (unfold dir1; len_solve). unfold dir1.
  rewrite sub_splice_same by (rewrite ?length_replicate; len_solve).
  unfold splice. by rewrite drop_replicate.
Qed.

Lemma dir_is_set dir slots i s :
  dir_is dir slots -> (i < 16)%nat -> 2 <= sl_ino s <= 32 -> fname_ok (sl_name s) ->
  dir_is (filled_dir i (sl_ino s) (sl_name s) dir) (<[i := Some s]> slots).
Proof.
  intros Hd Hi Hino [Hn1 Hn2]. pose proof (proj1 Hd) as Hl.
  apply (dir_is_update dir); [done|done|apply length_fill_dirent; lia| |].
  - intros. apply sub_fill_dirent_other; lia.
  - unfold entry_is, fname_ok. split_all; try done; try lia;
      [apply d_ino_fill_dirent; lia|apply name_fill_dirent; lia].
Qed.

Lemma dir_is_clear dir slots i :
  dir_is dir slots -> (i < 16)%nat -> dir_is (cleared_dir i dir) (<[i := None]> slots).
Proof.
  intros Hd Hi. pose proof (proj1 Hd) as Hl. unfold cleared_dir.
  apply (dir_is_update dir); [done|done|len_solve| |].
  - intros. apply sub_splice_other; rewrite length_replicate; lia.
  - unfold entry_is, dirent_ino, le_get.
    pose proof (sub_sub (32 * i) 32 0 4 (splice (32 * i) (replicate 32 0) dir)) as E.
    rewrite Nat.add_0_r in E. rewrite <- E by lia.
    rewrite sub_splice_same by (rewrite ?length_replicate; lia). reflexivity.
Qed.

(** The first free slot. *)
Definition free_idx (dir : list Z) : option Z :=
  first_from 16 0 (fun i => dirent_ino dir (Z.to_nat i) =? 0).

Lemma free_slot_in dir : length dir = 512%nat -> free_slot dir = Some (free_idx dir).
Proof.
  intros Hl. apply first_where_total. intros j Hj.
  change (Z.of_nat (Z.to_nat MCSFS1_DIRENT_COUNT)) with 16 in Hj. by rewrite d_ino_in by lia.
Qed.

Lemma free_idx_spec dir slots :
  dir_is dir slots ->
  match free_idx dir with
  | Some i => 0 <= i < 16 /\ slots !! Z.to_nat i = Some None
  | None => forall i, slots !! i <> Some None
  end.
Proof.
  intros (Hl & Hls & Hd). unfold free_idx. destruct (first_from _ _ _) as [i|] eqn:E.
  - apply first_from_Some in E as (Hi & Hz & _). split; [lia|].
    destruct (lookup_lt_is_Some_2 slots (Z.to_nat i)) as [o Ho]; [lia|].
    apply Z.eqb_eq in Hz. destruct o as [s|]; [|done].
    destruct (Hd _ _ Ho) as (E & ? & _). lia.
  - rewrite first_from_None in E. intros i Hi. pose proof (lookup_lt_Some _ _ _ Hi).
    specialize (E (Z.of_nat i)). rewrite Nat2Z.id in E.
    pose proof (Hd _ _ Hi) as H0. unfold entry_is in H0. rewrite H0 in E. discriminate E; lia.
Qed.
