(* ===== verification/Mcsfs1Disk.v ===== *)
(** * MCSFS1: inodes, bitmaps and data blocks on a reliable device

    Each routine of [fs/mcsfs1/mcsfs1.c] below the file operations as a
    function of the disk image. *)
From S2P Require Import Prelude Bitmap Mcsfs1 Mcsfs1Dev Mcsfs1Dir.

(** ** Images *)

Definition blk (M : image) (lba : Z) : list Z := default [] (M !! lba).

Definition img_full (N : Z) (M : image) : Prop :=
  forall lba, 0 <= lba < N -> exists b, M !! lba = Some b /\ block_ok b.

Lemma blk_insert M lba b : blk (<[lba := b]> M) lba = b.
Proof. unfold blk. by rewrite lookup_insert_eq. Qed.

Lemma blk_insert_ne M lba lba' b : lba <> lba' -> blk (<[lba := b]> M) lba' = blk M lba'.
Proof. intros. unfold blk. by rewrite lookup_insert_ne. Qed.

Lemma img_full_lookup N M lba : img_full N M -> 0 <= lba < N -> M !! lba = Some (blk M lba).
Proof. intros HM Hl. unfold blk. by destruct (HM lba Hl) as (b & -> & _). Qed.

Lemma img_full_blk N M lba : img_full N M -> 0 <= lba < N -> block_ok (blk M lba).
Proof. intros HM Hl. unfold blk. by destruct (HM lba Hl) as (b & -> & ?). Qed.

Lemma img_full_insert N M lba b : img_full N M -> block_ok b -> img_full N (<[lba := b]> M).
Proof.
  intros HM Hb l Hl. destruct (decide (lba = l)) as [->|].
  - exists b. by rewrite lookup_insert_eq.
  - rewrite lookup_insert_ne by done. by apply HM.
Qed.

#[export] Hint Resolve img_full_insert img_full_blk img_full_lookup : mcsos.

(** ** Inodes *)

Definition ioff (ino : Z) : nat := Z.to_nat (itable_off ino).
Definition inode_of (M : image) (ino : Z) : list Z := sub (ioff ino) 60 (blk M (inode_lba ino)).
Definition put_inode (ino : Z) (inode : list Z) (M : image) : image :=
  <[inode_lba ino := splice (ioff ino) inode (blk M (inode_lba ino))]> M.

Lemma inode_lba_bounds ino : 1 <= ino <= 32 -> 3 <= inode_lba ino <= 6.
Proof.
  intros. unfold inode_lba. change per_block with 8. unfold MCSFS1_INODE_TABLE_LBA.
  Z.div_mod_to_equations. lia.
Qed.

Lemma ioff_bounds ino : (ioff ino + 60 <= 512)%nat.
Proof.
  unfold ioff, itable_off. change per_block with 8. unfold INODE_SIZE.
  Z.div_mod_to_equations. lia.
Qed.

(** Distinct inodes do not overlap. *)
Lemma inode_disjoint i j :
  1 <= i <= 32 -> 1 <= j <= 32 -> i <> j ->
  inode_lba i <> inode_lba j \/ (ioff i + 60 <= ioff j \/ ioff j + 60 <= ioff i)%nat.
Proof.
  intros. unfold inode_lba, ioff, itable_off. change per_block with 8.
  unfold INODE_SIZE, MCSFS1_INODE_TABLE_LBA. Z.div_mod_to_equations. lia.
Qed.

Lemma inode_of_insert M lba b ino :
  1 <= ino <= 32 -> lba < 3 \/ 6 < lba -> inode_of (<[lba := b]> M) ino = inode_of M ino.
Proof.
  intros Hi Hl. unfold inode_of. rewrite blk_insert_ne; [done|].
  pose proof (inode_lba_bounds ino Hi). lia.
Qed.

Lemma blk_put_inode M ino inode lba :
  1 <= ino <= 32 -> lba < 3 \/ 6 < lba -> blk (put_inode ino inode M) lba = blk M lba.
Proof.
  intros Hi Hl. apply blk_insert_ne. pose proof (inode_lba_bounds ino Hi). lia.
Qed.

Section with_image.
Context (N : Z) (M : image) (HN : 16 <= N) (HM : img_full N M).

Lemma inode_blk_ok ino : 1 <= ino <= 32 -> block_ok (blk M (inode_lba ino)).
Proof. intros. apply (img_full_blk N); [done|]. pose proof (inode_lba_bounds ino). lia. Qed.

Lemma length_inode_of ino : 1 <= ino <= 32 -> length (inode_of M ino) = 60%nat.
Proof.
  intros Hi. apply length_sub. destruct (inode_blk_ok ino Hi) as [-> _]. apply ioff_bounds.
Qed.

Lemma inode_of_bytes ino : 1 <= ino <= 32 -> Forall is_byte (inode_of M ino).
Proof. intros Hi. apply Forall_sub, (inode_blk_ok ino Hi). Qed.

Lemma inode_of_put_same ino inode :
  1 <= ino <= 32 -> length inode = 60%nat -> inode_of (put_inode ino inode M) ino = inode.
Proof.
  intros Hi Hl. unfold inode_of, put_inode. rewrite blk_insert.
  destruct (inode_blk_ok ino Hi) as [Hb _]. pose proof (ioff_bounds ino).
  apply sub_splice_same; lia.
Qed.

Lemma inode_of_put_other ino inode j :
  1 <= ino <= 32 -> 1 <= j <= 32 -> ino <> j -> length inode = 60%nat ->
  inode_of (put_inode ino inode M) j = inode_of M j.
Proof.
  intros Hi Hj Hne Hl. unfold inode_of, put_inode.
  destruct (inode_blk_ok ino Hi) as [Hb _]. pose proof (ioff_bounds ino).
  destruct (inode_disjoint ino j Hi Hj Hne) as [Hd|Hd].
  - by rewrite blk_insert_ne by done.
  - destruct (decide (inode_lba ino = inode_lba j)) as [E|E];
      [|by rewrite blk_insert_ne by done].
    rewrite <- E, blk_insert. apply sub_splice_other; lia.
Qed.

Lemma img_full_put_inode ino inode :
  1 <= ino <= 32 -> length inode = 60%nat -> Forall is_byte inode ->
  img_full N (put_inode ino inode M).
Proof.
  intros Hi Hl Hb. destruct (inode_blk_ok ino Hi) as [Hbl Hbb]. pose proof (ioff_bounds ino).
  apply img_full_insert; [done|]. split; [rewrite length_splice; lia|by apply Forall_splice].
Qed.

End with_image.

(** What an inode stores: its blocks are the non-zero direct pointers. *)
Definition inode_is (inode : list Z) (mode : Z) (size : nat) (blocks : list Z) : Prop :=
  length inode = 60%nat /\ Forall is_byte inode /\ (length blocks <= 8)%nat /\
  i_mode inode = mode /\ i_size inode = Z.of_nat size /\
  forall k, (k < 8)%nat -> direct_lba inode k = default 0 (blocks !! k).

Lemma inode_is_direct inode mode size blocks k :
  inode_is inode mode size blocks -> (k < 8)%nat ->
  i_direct inode k = Some (default 0 (blocks !! k)).
Proof.
  intros (Hl & _ & _ & _ & _ & Hd) Hk. by rewrite i_direct_in, Hd by done.
Qed.

Lemma inode_is_block inode mode size blocks k b :
  inode_is inode mode size blocks -> blocks !! k = Some b -> i_direct inode k = Some b.
Proof.
  intros Hi Hb. apply lookup_lt_Some in Hb as Hlt. pose proof Hi as (_ & _ & ? & _).
  by rewrite (inode_is_direct _ _ _ _ _ Hi), Hb by lia.
Qed.

Lemma inode_is_make mode size b :
  0 <= mode < 2 ^ 16 -> Z.of_nat size < 2 ^ 32 -> 0 <= b < 2 ^ 32 ->
  inode_is (make_inode mode (Z.of_nat size) b) mode size [b].
Proof.
  intros. unfold make_inode, with_direct, set_i_size, INODE_SIZE. change (Z.to_nat 60) with 60%nat.
  unfold inode_is. split_all.
  - len_solve.
  - auto with mcsos.
  - cbn. lia.
  - unfold i_mode. by le_simpl.
  - unfold i_size. le_simpl. done.
  - intros k Hk. unfold direct_lba. destruct k as [|k].
    + by le_simpl.
    + change (default 0 ([b] !! S k)) with 0. le_simpl. apply le_get_zero. lia.
Qed.

Lemma inode_is_snoc inode mode size blocks b :
  inode_is inode mode size blocks -> (length blocks < 8)%nat -> 0 <= b < 2 ^ 32 ->
  inode_is (with_direct (length blocks) b inode) mode size (blocks ++ [b]).
Proof.
  intros (Hl & Hb & Hlen & Hm & Hs & Hd) Hk Hb'. unfold inode_is, with_direct. split_all.
  - len_solve.
  - auto with mcsos.
  - rewrite length_app; cbn [length]; lia.
  - rewrite <- Hm. unfold i_mode. by le_simpl.
  - rewrite <- Hs. unfold i_size. by le_simpl.
  - intros k Hk8. destruct (decide (k = length blocks)) as [->|Hne].
    + rewrite list_lookup_middle by done. unfold direct_lba. by le_simpl.
    + transitivity (direct_lba inode k); [unfold direct_lba; by le_simpl|].
      rewrite Hd by done. destruct (decide (k < length blocks)%nat).
      * by rewrite lookup_app_l by done.
      * rewrite !lookup_ge_None_2 by (rewrite ?length_app; cbn; lia). done.
Qed.

Lemma inode_is_resize inode mode size blocks size' :
  inode_is inode mode size blocks -> Z.of_nat size' < 2 ^ 32 ->
  inode_is (set_i_size (Z.of_nat size') inode) mode size' blocks.
Proof.
  intros (Hl & Hb & Hlen & Hm & Hs & Hd) Hk. unfold inode_is, set_i_size. split_all; try done.
  - len_solve.
  - auto with mcsos.
  - rewrite <- Hm. unfold i_mode. by le_simpl.
  - unfold i_size. by le_simpl.
  - intros k Hk8. rewrite <- Hd by done. unfold direct_lba. by le_simpl.
Qed.

(** ** Block allocation *)

Definition meta_set (bb : list Z) : Prop := forall i, 0 <= i < 8 -> bm_get bb i = true.

(** [grabbed N bb bb' new]: [bb'] is [bb] with the free blocks [new] taken. *)
Definition grabbed (N : Z) (bb bb' new : list Z) : Prop :=
  block_ok bb' /\ NoDup new /\
  (forall b, b ∈ new -> 8 <= b < N /\ bm_get bb b = false) /\
  (forall i, 0 <= i < 4096 -> bm_get bb' i = bm_get bb i || bool_decide (i ∈ new)) /\
  (length (bm_free_list bb' N) + length new = length (bm_free_list bb N))%nat.

Lemma grabbed_nil N bb : block_ok bb -> grabbed N bb bb [].
Proof.
  intros Hbb. split; [done|]. split; [by apply NoDup_nil|].
  split; [by intros b ?%elem_of_nil|]. split; [|cbn; lia].
  intros i _. rewrite bool_decide_eq_false_2, orb_false_r by apply not_elem_of_nil. done.
Qed.

Lemma grabbed_cons N bb b bb' new :
  N <= 4096 -> block_ok bb -> 8 <= b < N -> bm_get bb b = false ->
  grabbed N (bm_set bb b) bb' new -> grabbed N bb bb' (b :: new).
Proof.
  intros HN Hbb Hb Hfree (Hok & Hnd & Hnew & Hget & Hcnt).
  assert (Hset : forall i, 0 <= i < 4096 ->
    bm_get (bm_set bb b) i = if b =? i then true else bm_get bb i).
  { intros. apply (bm_get_set bb 4096); [by apply bm_fits_4096|lia..]. }
  assert (b ∉ new) as Hnin.
  { intros [_ Hf]%Hnew. rewrite Hset, Z.eqb_refl in Hf by lia. done. }
  unfold grabbed. split_all; [done|by constructor| | |].
  - intros x [->|Hx]%elem_of_cons; [done|]. destruct (Hnew x Hx) as [Hr Hf]. split; [done|].
    rewrite Hset in Hf by lia. by destruct (b =? x).
  - intros i Hi. rewrite Hget, Hset by done. destruct (Z.eqb_spec b i) as [->|Hne].
    + rewrite (bool_decide_eq_true_2 (i ∈ i :: new)) by left. by rewrite orb_true_r.
    + f_equal. apply bool_decide_ext. rewrite elem_of_cons. naive_solver.
  - pose proof (length_free_set bb N b) as E. cbn [length].
    rewrite <- E; [lia|by apply bm_fits_4096|lia|done].
Qed.

(** The block [write_inode] writes back. *)
Lemma write_inode_block ino inode b :
  length inode = 60%nat -> length b = 512%nat ->
  exists t, copy_loop (Z.to_nat INODE_SIZE) (drop (Z.to_nat (itable_off ino)) b) inode = Some t /\
    take (Z.to_nat (itable_off ino)) b ++ t = splice (ioff ino) inode b.
Proof.
  intros Hlen Hb. pose proof (ioff_bounds ino) as Ho. change (Z.to_nat INODE_SIZE) with 60%nat.
  fold (ioff ino). eexists. split; [apply copy_loop_spec; [rewrite length_drop|]; lia|].
  unfold splice. rewrite drop_drop, Hlen, (take_ge inode) by lia. done.
Qed.

Lemma i_direct_used hi inode mode size cur k :
  inode_is inode mode size cur -> Forall (fun b => 8 <= b < hi) cur -> (k < length cur)%nat ->
  direct_lba inode k <> 0.
Proof.
  intros (_ & _ & ? & _ & _ & Hd) Hcur Hk. destruct (lookup_lt_is_Some_2 cur k Hk) as [b Hb].
  rewrite Hd, Hb by lia. rewrite Forall_lookup in Hcur. specialize (Hcur k b Hb). cbn. lia.
Qed.

Section sims.
Context {D : Type} (dev : mcsfs1_blkdev D) `{!ReadDev dev, !ReliableDev dev}.
Context (HN : 16 <= block_count dev <= 4096).
Local Abbreviation N := (block_count dev).

Lemma sim_read_inode M ino :
  img_full N M -> 1 <= ino <= 32 -> sim dev (read_inode dev ino) M (inr (inode_of M ino)) M.
Proof.
  intros HM Hi. unfold read_inode, MCSFS1_MAX_INODES, MCSFS1_DATA_START_LBA.
  pose proof (inode_lba_bounds ino Hi) as Hl.
  rewrite (proj2 (Z.eqb_neq _ _)), (proj2 (Z.ltb_ge _ _)), (proj2 (Z.leb_gt _ _)) by lia.
  cbn [orb]. eapply sim_bind; [apply sim_read; [lia|apply (img_full_lookup N); [done|lia]]|].
  apply sim_lift. change (Z.to_nat INODE_SIZE) with 60%nat. fold (ioff ino).
  destruct (inode_blk_ok N M (proj1 HN) HM ino Hi) as [Hb _].
  pose proof (ioff_bounds ino).
  rewrite copy_loop_spec by (rewrite ?length_replicate, ?length_drop; lia).
  rewrite drop_replicate, app_nil_r. done.
Qed.

Lemma sim_write_inode M ino inode :
  img_full N M -> 1 <= ino <= 32 -> length inode = 60%nat ->
  sim dev (write_inode dev ino inode) M (inr tt) (put_inode ino inode M).
Proof.
  intros HM Hi Hlen. unfold write_inode, MCSFS1_MAX_INODES, MCSFS1_DATA_START_LBA.
  pose proof (inode_lba_bounds ino Hi) as Hl.
  rewrite (proj2 (Z.eqb_neq _ _)), (proj2 (Z.ltb_ge _ _)), (proj2 (Z.leb_gt _ _)) by lia.
  cbn [orb]. eapply sim_bind; [apply sim_read; [lia|apply (img_full_lookup N); [done|lia]]|].
  destruct (inode_blk_ok N M (proj1 HN) HM ino Hi) as [Hb _]. pose proof (ioff_bounds ino) as Ho.
  destruct (write_inode_block ino inode (blk M (inode_lba ino)) Hlen Hb) as (t & Et & E).
  eapply sim_bind; [apply sim_lift, Et|]. cbv zeta. rewrite E.
  apply (sim_write dev); [lia|]. by rewrite length_splice by lia.
Qed.

Lemma sim_load_bmaps M :
  img_full N M -> sim dev (load_bmaps dev) M (inr (blk M 1, blk M 2)) M.
Proof.
  intros HM. unfold load_bmaps.
  eapply sim_bind; [apply sim_read; [|apply (img_full_lookup N)]; unfold MCSFS1_INODE_BMAP_LBA; auto; lia|].
  eapply sim_bind; [apply sim_read; [|apply (img_full_lookup N)]; unfold MCSFS1_BLOCK_BMAP_LBA; auto; lia|].
  apply sim_ret.
Qed.

Lemma sim_store_bmaps M ib bb :
  block_ok ib -> block_ok bb ->
  sim dev (store_bmaps dev ib bb) M (inr tt) (<[2 := bb]> (<[1 := ib]> M)).
Proof.
  intros [Hi _] [Hb _]. unfold store_bmaps.
  eapply sim_bind; apply (sim_write dev); unfold MCSFS1_INODE_BMAP_LBA, MCSFS1_BLOCK_BMAP_LBA; (done || lia).
Qed.

(** The bitmap of inodes is written back unchanged by a data allocation. *)
Lemma sim_store_bb M bb :
  img_full N M -> block_ok bb ->
  sim dev (store_bmaps dev (blk M 1) bb) M (inr tt) (<[2 := bb]> M).
Proof.
  intros HM Hbb. rewrite <- (insert_id M 1 (blk M 1)) at 3; [|apply (img_full_lookup N); auto; lia].
  apply sim_store_bmaps; [|done]. apply (img_full_blk N); [done|lia].
Qed.

Lemma free_block_spec bb :
  block_ok bb -> meta_set bb ->
  exists r, (forall M, sim dev (find_free_block dev bb) M (inr r) M) /\
    match r with
    | Some b => 8 <= b < N /\ bm_get bb b = false
    | None => bm_free_list bb N = []
    end.
Proof.
  intros Hbb Hmeta. unfold find_free_block, MCSFS1_DATA_START_LBA. eexists. split.
  { intros M. apply sim_lift, find_clear_spec; [done|lia..]. }
  destruct (first_from _ _ _) as [b|] eqn:E.
  - apply first_from_Some in E as (Hb & Hc & _). split; [lia|by apply negb_true_iff].
  - rewrite first_from_None in E. apply elem_of_nil_inv. intros i [Hi Hc]%elem_of_bm_free_list.
    destruct (decide (i < 8)); [rewrite Hmeta in Hc by lia; done|].
    specialize (E i ltac:(lia)). by rewrite Hc in E.
Qed.

Lemma sim_alloc_data_block M :
  img_full N M -> meta_set (blk M 2) ->
  (exists b, sim dev (alloc_data_block dev) M (inr b) (<[2 := bm_set (blk M 2) b]> M) /\
     8 <= b < N /\ bm_get (blk M 2) b = false) \/
  (sim dev (alloc_data_block dev) M (inl MCSFS1_ERR_NOSPC) M /\ bm_free_list (blk M 2) N = []).
Proof.
  intros HM Hmeta. assert (Hbb : block_ok (blk M 2)) by (apply (img_full_blk N); [done|lia]).
  destruct (free_block_spec _ Hbb Hmeta) as ([b|] & Hfind & Hr); unfold alloc_data_block.
  - left. exists b. split; [|done]. eapply sim_bind; [by apply sim_load_bmaps|].
    eapply sim_bind; [apply Hfind|]. cbn [snd fst].
    eapply sim_bind; [apply sim_lift, bit_set_eq; [done|lia]|].
    eapply sim_bind; [apply sim_store_bb; [done|by apply bm_set_ok]|]. apply sim_ret.
  - right. split; [|done]. eapply sim_bind; [by apply sim_load_bmaps|].
    eapply sim_bind; [apply Hfind|]. apply sim_fail.
Qed.

(** The allocation loop of [mcsfs1_write]: the blocks that are missing are
    taken, or every free block is taken and the write fails. *)
Lemma sim_alloc_missing mode size n : forall k inode cur M,
  img_full N M -> meta_set (blk M 2) -> inode_is inode mode size cur ->
  Forall (fun b => 8 <= b < N) cur -> (k <= length cur)%nat -> (k + n <= 8)%nat ->
  exists new bb',
    grabbed N (blk M 2) bb' new /\
    if decide (k + n - length cur <= length (bm_free_list (blk M 2) N))%nat then
      length new = (k + n - length cur)%nat /\
      exists inode', sim dev (alloc_missing dev n k inode) M (inr inode') (<[2 := bb']> M) /\
        inode_is inode' mode size (cur ++ new)
    else
      bm_free_list bb' N = [] /\
      sim dev (alloc_missing dev n k inode) M (inl MCSFS1_ERR_NOSPC) (<[2 := bb']> M).
Proof.
  induction n as [|n IH]; intros k inode cur M HM Hmeta Hino Hcur Hk Hkn.
  all: assert (Hbb : block_ok (blk M 2)) by (apply (img_full_blk N); [done|lia]).
  all: assert (HM2 : <[2 := blk M 2]> M = M)
         by (apply insert_id, (img_full_lookup N); [done|lia]).
  { exists [], (blk M 2). split; [by apply grabbed_nil|].
    rewrite decide_True by lia. split; [cbn; lia|].
    exists inode. rewrite HM2, app_nil_r. split; [apply sim_ret|done]. }
  destruct (decide (k < length cur)%nat) as [Hlt|Hge].
  - assert (forall r M', sim dev (alloc_missing dev n (S k) inode) M r M' ->
      sim dev (alloc_missing dev (S n) k inode) M r M') as Hstep.
    { intros r M' Hsim. cbn [alloc_missing].
      eapply sim_bind; [apply sim_lift, i_direct_in; [apply Hino|lia]|].
      by rewrite (proj2 (Z.eqb_neq _ 0)) by (eapply i_direct_used; done). }
    destruct (IH (S k) inode cur M) as (new & bb' & Hgr & Hres); try (done || lia).
    exists new, bb'. split; [done|]. replace (k + S n)%nat with (S k + n)%nat by lia.
    destruct (decide (S k + n - length cur <= _)%nat).
    + destruct Hres as (Hl & inode' & Hsim & Hin). split; [done|]. exists inode'. auto.
    + destruct Hres as (Hnil & Hsim). auto.
  - assert (k = length cur) as -> by lia.
    assert (i_direct inode (length cur) = Some 0) as Hz.
    { rewrite (inode_is_direct _ _ _ _ _ Hino) by lia. by rewrite lookup_ge_None_2. }
    destruct (sim_alloc_data_block M HM Hmeta) as [(b & Halloc & Hb & Hfree)|[Halloc Hnone]].
    + set (M1 := <[2 := bm_set (blk M 2) b]> M) in *.
      assert (forall r M',
        sim dev (alloc_missing dev n (S (length cur)) (with_direct (length cur) b inode)) M1 r M' ->
        sim dev (alloc_missing dev (S n) (length cur) inode) M r M') as Hstep.
      { intros r M' Hsim. eapply sim_bind; [apply sim_lift, Hz|]. cbn [Z.eqb].
        eapply sim_bind; [exact Halloc|].
        eapply sim_bind; [apply sim_lift, set_i_direct_in; [apply Hino|lia]|]. exact Hsim. }
      assert (E2 : blk M1 2 = bm_set (blk M 2) b) by apply blk_insert.
      destruct (IH (S (length cur)) (with_direct (length cur) b inode) (cur ++ [b]) M1)
        as (new & bb' & Hgr & Hres).
      * apply img_full_insert; [done|by apply bm_set_ok].
      * intros i Hi. rewrite E2, (bm_get_set _ 4096) by (lia || by apply bm_fits_4096).
        rewrite Hmeta by done. by destruct (b =? i).
      * apply inode_is_snoc; [done|lia|lia].
      * rewrite Forall_app, Forall_singleton. done.
      * rewrite length_app. cbn. lia.
      * lia.
      * rewrite E2 in Hgr, Hres.
        pose proof (length_free_set (blk M 2) N b) as Hcnt.
        specialize (Hcnt ltac:(apply bm_fits_4096; [done|lia]) ltac:(lia) Hfree).
        exists (b :: new), bb'. split; [apply grabbed_cons; (done || lia)|].
        rewrite length_app in Hres. cbn [length] in Hres.
        rewrite <- (insert_insert_eq M 2 bb' (bm_set (blk M 2) b)). fold M1.
        destruct (decide (S (length cur) + n - (length cur + 1) <= _)%nat) as [Hle|Hle].
        -- rewrite decide_True by lia. destruct Hres as (Hnl & inode' & Hsim & Hin).
           split; [cbn [length]; lia|]. exists inode'. rewrite <- app_assoc in Hin. split; [|done].
           by apply Hstep.
        -- rewrite decide_False by lia. destruct Hres as (Hnil & Hsim). split; [done|].
           by apply Hstep.
    + exists [], (blk M 2). split; [by apply grabbed_nil|]. rewrite Hnone. cbn [length].
      rewrite decide_False by lia. split; [done|]. rewrite HM2.
      eapply sim_bind; [apply sim_lift, Hz|]. by apply sim_bind_err.
Qed.

End sims.
