(* ===== verification/Mcsfs1Data.v ===== *)
(** * MCSFS1: file contents, inode allocation and release

    The data loops of [mcsfs1_write] and [mcsfs1_read], and the routines that
    take and return an inode, as functions of the disk image. *)
From S2P Require Import Prelude Bitmap Mcsfs1 Mcsfs1Dev Mcsfs1Dir Mcsfs1Disk.

(** ** Contents *)

(** The first [size] bytes of the blocks of a file. *)
Definition content (M : image) (blocks : list Z) (size : nat) : list Z :=
  take size (concat (blk M <$> blocks)).

(** The blocks [bs] of a file hold the contents from block [k] on. *)
Fixpoint put_chunks (k : nat) (bs : list Z) (pad : list Z) (M : image) : image :=
  match bs with
  | [] => M
  | b :: bs => put_chunks (S k) bs pad (<[b := sub (512 * k) 512 pad]> M)
  end.

Lemma blk_put_chunks k bs pad M lba :
  lba ∉ bs -> blk (put_chunks k bs pad M) lba = blk M lba.
Proof.
  revert k M. induction bs as [|b bs IH]; intros k M Hn; cbn [put_chunks]; [done|].
  apply not_elem_of_cons in Hn as [Hb Hn]. by rewrite IH, blk_insert_ne by done.
Qed.

Lemma img_full_put_chunks N k bs pad M :
  img_full N M -> Forall is_byte pad -> (512 * (k + length bs) <= length pad)%nat ->
  img_full N (put_chunks k bs pad M).
Proof.
  revert k M. induction bs as [|b bs IH]; intros k M HM Hp Hl; cbn [put_chunks length] in *; [done|].
  apply IH; [|done|lia]. apply img_full_insert; [done|].
  split; [apply length_sub; lia|by apply Forall_sub].
Qed.

Lemma sub_app_sub {A} off n m (l : list A) : sub off n l ++ sub (off + n) m l = sub off (n + m) l.
Proof. unfold sub. rewrite <- drop_drop. by rewrite take_take_drop. Qed.

Lemma concat_put_chunks k bs pad M :
  NoDup bs ->
  concat (blk (put_chunks k bs pad M) <$> bs) = sub (512 * k) (512 * length bs) pad.
Proof.
  revert k M. induction bs as [|b bs IH]; intros k M Hnd; cbn [put_chunks fmap list_fmap concat length].
  { by rewrite Nat.mul_0_r. }
  apply NoDup_cons in Hnd as [Hb Hnd]. rewrite blk_put_chunks, blk_insert, IH by done.
  replace (512 * S k)%nat with (512 * k + 512)%nat by lia. rewrite sub_app_sub. f_equal. lia.
Qed.

(** The data of a write, padded to whole blocks. *)
Definition padded (n : nat) (data : list Z) : list Z :=
  data ++ replicate (512 * n - length data) 0.

Lemma length_padded n data :
  (length data <= 512 * n)%nat -> length (padded n data) = (512 * n)%nat.
Proof. intros. unfold padded. rewrite length_app, length_replicate. lia. Qed.

Lemma content_put_chunks bs rest data M :
  NoDup (bs ++ rest) -> (length data <= 512 * length bs)%nat ->
  content (put_chunks 0 bs (padded (length bs) data) M) (bs ++ rest) (length data) = data.
Proof.
  intros Hnd Hl. unfold content. rewrite fmap_app, concat_app.
  apply NoDup_app in Hnd as (Hnd & _ & _).
  rewrite concat_put_chunks by done. unfold padded, sub.
  rewrite drop_0, take_app_le by (rewrite length_take, length_app, length_replicate; lia).
  rewrite take_take, take_app_le by lia. apply take_ge. lia.
Qed.

Lemma content_ext M M' blocks size :
  (forall b, b ∈ blocks -> blk M' b = blk M b) -> content M' blocks size = content M blocks size.
Proof.
  intros H. unfold content. do 2 f_equal. apply list_fmap_ext. intros i b Hb.
  apply H. by eapply list_elem_of_lookup_2.
Qed.

Lemma length_concat_blks N M bs :
  img_full N M -> Forall (fun b => 8 <= b < N) bs ->
  length (concat (blk M <$> bs)) = (512 * length bs)%nat.
Proof.
  intros HM Hbs. induction Hbs as [|b bs Hb _ IH]; [done|].
  cbn [fmap list_fmap concat length]. rewrite length_app, IH.
  destruct (img_full_blk N M b HM) as [-> _]; lia.
Qed.

Lemma put_chunks_app a b pad k M :
  put_chunks k (a ++ b) pad M = put_chunks (k + length a) b pad (put_chunks k a pad M).
Proof.
  revert k M. induction a as [|x a IH]; intros k M; cbn [put_chunks app length].
  - by rewrite Nat.add_0_r.
  - rewrite IH. f_equal. lia.
Qed.

Lemma take_app_drop_take {A} size (a c : list A) :
  take size (a ++ drop (length a) (take size c)) = take size (a ++ drop (length a) c).
Proof.
  rewrite !take_app. f_equal. destruct (decide (length a <= size)%nat) as [Hle|Hgt].
  - rewrite !take_drop_commute. replace (length a + (size - length a))%nat with size by lia.
    by rewrite take_take, Nat.min_id.
  - by replace (size - length a)%nat with 0%nat by lia.
Qed.

(** Some leading blocks are rewritten. *)
Lemma content_put_prefix N M blocks new i pad size :
  img_full N M -> Forall (fun b => 8 <= b < N) blocks -> NoDup (blocks ++ new) ->
  (512 * i <= length pad)%nat ->
  let i' := Nat.min i (length blocks) in
  content (put_chunks 0 (take i (blocks ++ new)) pad M) blocks size =
  take size (take (512 * i') pad ++ drop (512 * i') (content M blocks size)).
Proof.
  intros HM Hbs Hnd Hi i'. apply NoDup_app in Hnd as (Hnd & Hdis & _).
  assert (Hl : length (take (512 * i') pad) = (512 * i')%nat) by (rewrite length_take; lia).
  rewrite <- Hl at 2. unfold content at 2. rewrite take_app_drop_take, Hl.
  assert (E : content (put_chunks 0 (take i (blocks ++ new)) pad M) blocks size
              = content (put_chunks 0 (take i' blocks) pad M) blocks size).
  { apply content_ext. intros b Hb. rewrite take_app, put_chunks_app, blk_put_chunks.
    - unfold i'. destruct (decide (i <= length blocks)%nat).
      + by rewrite Nat.min_l.
      + by rewrite Nat.min_r, !take_ge by lia.
    - intros Hn. apply (Hdis b Hb). rewrite <- (take_drop (i - length blocks) new), elem_of_app. by left. }
  rewrite E. unfold content. f_equal.
  rewrite <- (take_drop i' blocks) in Hnd. apply NoDup_app in Hnd as (Hnd & Hnt & _).
  rewrite <- (take_drop i' blocks) at 2 3.
  rewrite !fmap_app, !concat_app. f_equal.
  - rewrite concat_put_chunks by done. unfold sub. rewrite drop_0, length_take. f_equal. lia.
  - assert (Hlt : length (concat (blk M <$> take i' blocks)) = (512 * i')%nat).
    { rewrite (length_concat_blks N), length_take by (done || by apply Forall_take). lia. }
    rewrite drop_app_ge, Hlt, Nat.sub_diag, drop_0 by lia.
    f_equal. apply list_fmap_ext. intros k b Hb. apply blk_put_chunks.
    intros Ht. apply (Hnt b Ht). by eapply list_elem_of_lookup_2.
Qed.

(** Copies into a buffer. *)
Lemma splice_nil {A} off (l : list A) : splice off [] l = l.
Proof. unfold splice. cbn [length app]. rewrite Nat.add_0_r. apply take_drop. Qed.

Lemma splice_app {A} off (a b l : list A) :
  (off + length a + length b <= length l)%nat ->
  splice (off + length a) b (splice off a l) = splice off (a ++ b) l.
Proof.
  intros Hl. unfold splice at 2. rewrite (app_assoc (take off l) a).
  assert (Ht : length (take off l ++ a) = (off + length a)%nat)
    by (rewrite length_app, length_take; lia).
  unfold splice. rewrite take_app_length' by done. rewrite (drop_app_ge (take off l ++ a)) by lia.
  rewrite Ht, drop_drop, <- !app_assoc, length_app. do 4 f_equal. lia.
Qed.

Lemma copy_at_splice off n dst src :
  (off + n <= length dst)%nat -> (n <= length src)%nat ->
  copy_at off n dst src = Some (splice off (take n src) dst).
Proof.
  intros Hd Hs. unfold copy_at. rewrite copy_loop_spec by (rewrite ?length_drop; lia).
  unfold splice. rewrite drop_drop, length_take, Nat.min_l by lia. done.
Qed.

Section loops.
Context {D : Type} (dev : mcsfs1_blkdev D) `{!ReadDev dev, !ReliableDev dev}.
Context (HN : 16 <= block_count dev <= 4096).
Local Abbreviation N := (block_count dev).

Lemma write_chunk total data k :
  (k < total)%nat -> (512 * (total - 1) <= length data <= 512 * total)%nat ->
  let remain := Z.of_nat (length data) - 512 * Z.of_nat k in
  let chunk := if 512 <? remain then 512 else remain in
  copy_loop (Z.to_nat chunk) (replicate 512 0) (drop (512 * k) data)
    = Some (sub (512 * k) 512 (padded total data)) /\
  ((S k < total)%nat -> chunk = 512).
Proof.
  intros Hk Hl remain chunk.
  assert (Hc : 0 <= chunk <= 512 /\ chunk <= remain /\ (remain <= 512 -> chunk = remain)
    /\ (512 <= remain -> chunk = 512)) by (unfold chunk; case_if; zbool; lia).
  split; [|unfold remain in *; lia].
  rewrite copy_loop_spec by (rewrite ?length_replicate, ?length_drop; lia). f_equal.
  unfold sub, padded. rewrite drop_replicate. rewrite drop_app_le by lia.
  destruct (decide (512 <= remain)) as [Hge|Hlt].
  - replace (Z.to_nat chunk) with 512%nat by lia.
    rewrite app_nil_r, take_app_le by (rewrite length_drop; lia). done.
  - replace (Z.to_nat chunk) with (length data - 512 * k)%nat by lia.
    rewrite take_ge by (rewrite length_drop; lia).
    rewrite (take_ge (_ ++ _)) by (rewrite length_app, length_drop, length_replicate; lia).
    do 2 f_equal. lia.
Qed.

Lemma sim_write_loop mode size total inode blocks data n : forall k written M,
  inode_is inode mode size blocks -> (total <= length blocks)%nat ->
  Forall (fun b => 8 <= b < N) blocks ->
  (512 * (total - 1) <= length data <= 512 * total)%nat -> (k + n = total)%nat ->
  n = 0%nat \/ written = 512 * Z.of_nat k ->
  sim dev (write_loop dev n k inode data (Z.of_nat (length data)) written) M (inr tt)
    (put_chunks k (take n (drop k blocks)) (padded total data) M).
Proof.
  induction n as [|n IH]; intros k written M Hi Ht Hbs Hl Hkn Hw; cbn [write_loop].
  { rewrite take_0. apply sim_ret. }
  destruct Hw as [?| ->]; [done|].
  destruct (write_chunk total data k) as [Hcopy Hnext]; [lia|done|].
  unfold MCSFS1_BLOCK_SIZE. set (chunk := if 512 <? _ then _ else _) in *.
  eapply sim_bind.
  { apply sim_lift. replace (Z.to_nat (512 * Z.of_nat k)) with (512 * k)%nat by lia.
    change (mcsfs_memset 512 0) with (replicate 512 0). apply Hcopy. }
  destruct (lookup_lt_is_Some_2 blocks k) as [b Hb]; [lia|].
  eapply sim_bind; [by eapply sim_lift, inode_is_block|].
  rewrite (drop_S _ b) by done. cbn [take put_chunks].
  rewrite Forall_lookup in Hbs. pose proof (Hbs k b Hb). rewrite <- Forall_lookup in Hbs.
  eapply sim_bind; [apply (sim_write dev); [lia|]|].
  - apply length_sub. unfold padded. rewrite length_app, length_replicate. lia.
  - apply IH; (done || lia).
Qed.

Lemma sim_read_loop_0 n k inode buf copied M :
  sim dev (read_loop dev n k inode buf copied 0) M (inr buf) M.
Proof. destruct n; apply sim_ret. Qed.

Lemma sim_read_loop mode size inode blocks M n : forall k buf remain,
  img_full N M -> inode_is inode mode size blocks -> Forall (fun b => 8 <= b < N) blocks ->
  (k + n = 8)%nat -> (remain <= 512 * (length blocks - k))%nat ->
  (512 * k + remain <= length buf)%nat ->
  sim dev (read_loop dev n k inode buf (512 * Z.of_nat k) (Z.of_nat remain)) M
    (inr (splice (512 * k) (take remain (concat (blk M <$> drop k blocks))) buf)) M.
Proof.
  induction n as [|n IH]; intros k buf remain HM Hi Hbs Hk Hr Hbuf;
    (destruct (decide (remain = 0%nat)) as [->|Hnz];
      [rewrite take_0, splice_nil; apply sim_read_loop_0|]);
    [destruct Hi as (_ & _ & ? & _); lia|].
  cbn [read_loop]. rewrite (proj2 (Z.eqb_neq (Z.of_nat remain) 0)) by lia.
  destruct (lookup_lt_is_Some_2 blocks k) as [b Hb]; [lia|].
  eapply sim_bind; [by eapply sim_lift, inode_is_block|].
  rewrite Forall_lookup in Hbs. pose proof (Hbs k b Hb) as Hbr. rewrite <- Forall_lookup in Hbs.
  rewrite (proj2 (Z.eqb_neq b 0)) by lia.
  eapply sim_bind; [apply sim_read; [lia|apply (img_full_lookup N); [done|lia]]|].
  destruct (img_full_blk N M b HM) as [Hbl _]; [lia|].
  rewrite (drop_S _ b) by done. cbn [fmap list_fmap concat]. unfold MCSFS1_BLOCK_SIZE.
  case_if; zbool; (eapply sim_bind; [apply sim_lift, copy_at_splice; lia|]).
  - replace (512 * Z.of_nat k + 512) with (512 * Z.of_nat (S k)) by lia.
    replace (Z.of_nat remain - 512) with (Z.of_nat (remain - 512)) by lia.
    rewrite take_app_ge by lia. rewrite Hbl.
    rewrite <- splice_app by (rewrite Hbl, length_take; lia).
    replace (Z.to_nat (512 * Z.of_nat k)) with (512 * k)%nat by lia.
    change (Z.to_nat 512) with 512%nat. rewrite (take_ge (blk M b)), Hbl by lia.
    replace (512 * k + 512)%nat with (512 * S k)%nat by lia.
    apply IH; try done; try lia. rewrite length_splice; lia.
  - replace (Z.of_nat remain - Z.of_nat remain) with (Z.of_nat 0) by lia.
    rewrite take_app_le by lia. 
    replace (Z.to_nat (512 * Z.of_nat k)) with (512 * k)%nat by lia. rewrite Nat2Z.id.
    apply sim_read_loop_0.
Qed.

(** ** Taking and returning an inode *)

Lemma sim_alloc_inode_block M :
  img_full N M -> meta_set (blk M 2) ->
  (exists i, 2 <= i <= 32 /\ bm_get (blk M 1) i = false) ->
  (exists ino b, sim dev (alloc_inode_block dev) M (inr (ino, b))
       (<[2 := bm_set (blk M 2) b]> (<[1 := bm_set (blk M 1) ino]> M)) /\
     2 <= ino <= 32 /\ bm_get (blk M 1) ino = false /\
     8 <= b < N /\ bm_get (blk M 2) b = false) \/
  (sim dev (alloc_inode_block dev) M (inl MCSFS1_ERR_NOSPC) M /\ bm_free_list (blk M 2) N = []).
Proof.
  intros HM Hmeta (i & Hi & Hci).
  assert (Hib : block_ok (blk M 1)) by (apply (img_full_blk N); [done|lia]).
  assert (Hbb : block_ok (blk M 2)) by (apply (img_full_blk N); [done|lia]).
  assert (Hino : exists ino, find_clear (Z.to_nat (MCSFS1_MAX_INODES - 1)) 2 (blk M 1) = Some (Some ino)
    /\ 2 <= ino <= 32 /\ bm_get (blk M 1) ino = false).
  { unfold MCSFS1_MAX_INODES. rewrite find_clear_spec by (done || lia).
    destruct (first_from _ _ _) as [ino|] eqn:E.
    - apply first_from_Some in E as (Hr & Hc & _). exists ino.
      split_all; [done|lia|lia|by apply negb_true_iff].
    - rewrite first_from_None in E. specialize (E i ltac:(lia)). by rewrite Hci in E. }
  destruct Hino as (ino & Hfino & Hir & Hic).
  destruct (free_block_spec dev HN _ Hbb Hmeta) as ([b|] & Hfind & Hr); unfold alloc_inode_block.
  - left. exists ino, b. split; [|by destruct Hr].
    eapply sim_bind; [by apply sim_load_bmaps|]. cbn [fst snd].
    eapply sim_bind; [by apply sim_lift|]. cbv beta iota.
    eapply sim_bind; [apply Hfind|]. cbv beta iota.
    eapply sim_bind; [apply sim_lift, bit_set_eq; [done|lia]|].
    eapply sim_bind; [apply sim_lift, bit_set_eq; [done|lia]|].
    eapply sim_bind; [apply (sim_store_bmaps dev); [done|by apply bm_set_ok..]|]. apply sim_ret.
  - right. split; [|done]. eapply sim_bind; [by apply sim_load_bmaps|]. cbn [fst snd].
    eapply sim_bind; [by apply sim_lift|]. cbv beta iota.
    eapply sim_bind; [apply Hfind|]. apply sim_fail.
Qed.

(** Releasing the direct blocks from [k] on. *)
Lemma clear_direct_spec mode size inode blocks n : forall k bb,
  inode_is inode mode size blocks -> Forall (fun b => 8 <= b < N) blocks -> NoDup blocks ->
  block_ok bb -> (k + n = 8)%nat -> (forall b, b ∈ drop k blocks -> bm_get bb b = true) ->
  exists bb', clear_direct dev n k inode bb = Some bb' /\ block_ok bb' /\
    (forall i, 0 <= i < 4096 -> bm_get bb' i = bm_get bb i && negb (bool_decide (i ∈ drop k blocks))) /\
    (length (bm_free_list bb' N) = length (bm_free_list bb N) + length (drop k blocks))%nat.
Proof.
  induction n as [|n IH]; intros k bb Hi Hbs Hnd Hbb Hk Hset; cbn [clear_direct].
  { exists bb. assert (drop k blocks = []) as ->
      by (apply drop_ge; destruct Hi as (_ & _ & ? & _); lia).
    split_all; try done; try (cbn; lia). intros i _.
    rewrite bool_decide_eq_false_2 by apply not_elem_of_nil. by rewrite andb_true_r. }
  rewrite (inode_is_direct _ _ _ _ _ Hi) by lia. destruct (blocks !! k) as [b|] eqn:Eb; cbn [default from_option id].
  - rewrite Forall_lookup in Hbs. pose proof (Hbs k b Eb). rewrite <- Forall_lookup in Hbs.
    rewrite (proj2 (Z.eqb_neq b 0)), (proj2 (Z.ltb_lt b N)) by lia. cbn [negb andb].
    rewrite bit_clear_eq by (done || lia). rewrite (drop_S blocks b k) in Hset |- * by done.
    assert (Hb : b ∉ drop (S k) blocks).
    { rewrite <- (take_drop k blocks), (drop_S blocks b k) in Hnd by done.
      apply NoDup_app in Hnd as (_ & _ & [? _]%NoDup_cons). done. }
    assert (Hget : forall i, 0 <= i < 4096 ->
      bm_get (bm_clear bb b) i = if b =? i then false else bm_get bb i)
      by (intros; apply (bm_get_clear bb 4096); [by apply bm_fits_4096|lia..]).
    destruct (IH (S k) (bm_clear bb b)) as (bb' & E & Hok & Hg & Hcnt); try done; [by apply bm_clear_ok|lia| |].
    { intros x Hx. rewrite Forall_forall in Hbs.
      assert (8 <= x < N) by (apply Hbs; rewrite <- (take_drop (S k) blocks), elem_of_app; by right).
      rewrite Hget by lia. destruct (Z.eqb_spec b x); [congruence|]. apply Hset. by right. }
    exists bb'. split_all; [done|done| |].
    + intros i Hi'. rewrite Hg, Hget by done. destruct (Z.eqb_spec b i) as [->|Hne].
      * rewrite (bool_decide_eq_true_2 (i ∈ i :: _)) by left. by rewrite andb_false_r.
      * do 2 f_equal. apply bool_decide_ext. rewrite elem_of_cons. naive_solver.
    + rewrite Hcnt, length_free_clear; [cbn [length]; lia|apply bm_fits_4096; [done|lia]|lia|].
      apply Hset. by left.
  - apply lookup_ge_None in Eb. rewrite Z.eqb_refl. cbn [negb andb].
    rewrite !drop_ge in * by lia. rewrite <- (drop_ge blocks (S k)) in * by lia.
    apply IH; (done || lia).
Qed.

Lemma sim_free_inode mode size M ino inode blocks :
  img_full N M -> 2 <= ino <= 32 ->
  inode_is inode mode size blocks -> Forall (fun b => 8 <= b < N) blocks -> NoDup blocks ->
  (forall b, b ∈ blocks -> bm_get (blk M 2) b = true) ->
  exists bb',
    sim dev (free_inode_and_blocks dev ino inode) M (inr tt)
      (<[2 := bb']> (<[1 := bm_clear (blk M 1) ino]> M)) /\ block_ok bb' /\
    (forall i, 0 <= i < 4096 -> bm_get bb' i = bm_get (blk M 2) i && negb (bool_decide (i ∈ blocks))) /\
    (length (bm_free_list bb' N) = length (bm_free_list (blk M 2) N) + length blocks)%nat.
Proof.
  intros HM Hino Hi Hbs Hnd Hset.
  assert (Hib : block_ok (blk M 1)) by (apply (img_full_blk N); [done|lia]).
  assert (Hbb : block_ok (blk M 2)) by (apply (img_full_blk N); [done|lia]).
  destruct (clear_direct_spec mode size inode blocks 8 0 (blk M 2)) as (bb' & E & Hok & Hg & Hc); try done.
  exists bb'. split_all; try done. unfold free_inode_and_blocks.
  eapply sim_bind; [by apply sim_load_bmaps|]. cbn [fst snd].
  eapply sim_bind; [apply sim_lift, bit_clear_eq; [done|lia]|].
  eapply sim_bind; [apply sim_lift, E|].
  apply (sim_store_bmaps dev); [done|by apply bm_clear_ok|done].
Qed.

End loops.
