(* ===== verification/Mcsfs1Rep.v ===== *)
(** * MCSFS1: the representation invariant

    [rep] says what a consistent disk image holds; [absrel] which abstract
    file system it represents.  [rep_update] is the one frame lemma: an
    operation that rewrites one slot keeps everything else. *)
From S2P Require Import Prelude Bitmap Mcsfs1 Mcsfs1Dev Mcsfs1Spec Mcsfs1Dir Mcsfs1Disk Mcsfs1Data.

Definition slot_disj (s t : slot) : Prop :=
  sl_ino s <> sl_ino t /\ sl_name s <> sl_name t /\
  forall b, b ∈ sl_blocks s -> b ∉ sl_blocks t.

Lemma slot_disj_sym s t : slot_disj s t -> slot_disj t s.
Proof. intros (H1 & H2 & H3). split; [congruence|split; [congruence|]]. intros b Ht Hs. by apply (H3 b). Qed.

Definition file_of (M : image) (s : slot) : fs_file :=
  mk_fs_file (content M (sl_blocks s) (sl_size s)) (length (sl_blocks s)).

Lemma elem_of_slots_insert (slots : list (option slot)) i o t :
  (i < length slots)%nat ->
  (Some t ∈ <[i := o]> slots <->
   o = Some t \/ exists j, j <> i /\ slots !! j = Some (Some t)).
Proof.
  intros Hi. rewrite list_elem_of_lookup. split.
  - intros [j Hj]. destruct (decide (j = i)) as [->|Hne].
    + rewrite list_lookup_insert_eq in Hj by done. left. congruence.
    + rewrite list_lookup_insert_ne in Hj by done. right. by exists j.
  - intros [->|(j & Hne & Hj)].
    + exists i. by rewrite list_lookup_insert_eq.
    + exists j. by rewrite list_lookup_insert_ne.
Qed.

Section rep.
Context {D : Type} (dev : mcsfs1_blkdev D).
Local Abbreviation N := (block_count dev).

Record slot_ok (M : image) (s : slot) : Prop := {
  so_inode : inode_is (inode_of M (sl_ino s)) MCSFS1_MODE_FILE (sl_size s) (sl_blocks s);
  so_range : Forall (fun b => 8 <= b < N) (sl_blocks s);
  so_some : (1 <= length (sl_blocks s))%nat;
  so_size : (sl_size s <= 512 * length (sl_blocks s))%nat;
  so_nodup : NoDup (sl_blocks s);
  so_bits : forall b, b ∈ sl_blocks s -> bm_get (blk M 2) b = true
}.

(** Every inode number a slot uses is marked; so are the reserved ones. *)
Definition inode_used (slots : list (option slot)) (i : Z) : Prop :=
  i < 2 \/ exists s, Some s ∈ slots /\ sl_ino s = i.

(** A sound image.  Inodes and blocks may be marked without being used: they
    are lost, but nothing else is wrong. *)
Record wrep (M : image) (slots : list (option slot)) : Prop := {
  rep_full : img_full N M;
  rep_sb : blk M 0 = super_image dev;
  rep_root : inode_is (inode_of M 1) MCSFS1_MODE_DIR 512 [7];
  rep_dir : dir_is (blk M 7) slots;
  rep_meta : meta_set (blk M 2);
  rep_ib : forall i, 0 <= i <= 32 -> inode_used slots i -> bm_get (blk M 1) i = true;
  rep_slot : forall s, Some s ∈ slots -> slot_ok M s;
  rep_disj : forall j k s t, slots !! j = Some (Some s) -> slots !! k = Some (Some t) ->
    j <> k -> slot_disj s t
}.

(** No inode is lost. *)
Definition inodes_exact (M : image) (slots : list (option slot)) : Prop :=
  forall i, 0 <= i <= 32 -> bm_get (blk M 1) i = true -> inode_used slots i.

Record rep (M : image) (slots : list (option slot)) : Prop := mk_rep {
  rep_weak :> wrep M slots;
  rep_exact : inodes_exact M slots
}.

Record absrel (M : image) (slots : list (option slot)) (S : afs) : Prop := {
  ar_files : forall n f, a_files S !! n = Some f <->
    exists s, Some s ∈ slots /\ sl_name s = n /\ file_of M s = f;
  ar_free : a_free S = length (bm_free_list (blk M 2) N)
}.

(** An inode number in use is valid. *)
Lemma rep_ino M slots s : wrep M slots -> Some s ∈ slots -> 2 <= sl_ino s <= 32.
Proof.
  intros HR [j Hj]%list_elem_of_lookup. destruct (rep_dir _ _ HR) as (_ & _ & Hd).
  by destruct (Hd j _ Hj) as (_ & ? & _).
Qed.

Lemma rep_update M slots M' i o :
  wrep M slots -> (i < 16)%nat -> img_full N M' ->
  blk M' 0 = blk M 0 -> inode_of M' 1 = inode_of M 1 ->
  dir_is (blk M' 7) (<[i := o]> slots) -> meta_set (blk M' 2) ->
  (forall j t, j <> i -> slots !! j = Some (Some t) ->
     inode_of M' (sl_ino t) = inode_of M (sl_ino t) /\
     (forall b, b ∈ sl_blocks t -> blk M' b = blk M b /\ bm_get (blk M' 2) b = true) /\
     (forall s, o = Some s -> slot_disj s t)) ->
  (forall s, o = Some s -> slot_ok M' s) ->
  (forall k, 0 <= k <= 32 -> inode_used (<[i := o]> slots) k -> bm_get (blk M' 1) k = true) ->
  wrep M' (<[i := o]> slots) /\
  forall j t, j <> i -> slots !! j = Some (Some t) -> file_of M' t = file_of M t.
Proof.
  intros HR Hi Hfull Hsb Hroot Hdir Hmeta Hoth Hnew Hib.
  assert (Hlen : length slots = 16%nat) by apply (rep_dir _ _ HR).
  split.
  - split; try done.
    + by rewrite Hsb, (rep_sb _ _ HR).
    + rewrite Hroot. apply (rep_root _ _ HR).
    + intros s [->|(j & Hne & Hj)]%elem_of_slots_insert; [by apply Hnew| |lia].
      destruct (Hoth j s Hne Hj) as (Hino & Hb & _).
      destruct (rep_slot _ _ HR s) as [H1 H2 H3 H4 H5 H6]; [by eapply list_elem_of_lookup_2|].
      split; try done; [by rewrite Hino|]. intros b Hbin. by apply Hb.
    + intros j k s t Hj Hk Hne.
      destruct (decide (j = i)) as [->|Hji], (decide (k = i)) as [->|Hki]; [done|..];
        rewrite ?list_lookup_insert_eq in Hj by lia; rewrite ?list_lookup_insert_eq in Hk by lia;
        rewrite ?list_lookup_insert_ne in Hj by done; rewrite ?list_lookup_insert_ne in Hk by done;
        simplify_eq.
      * by apply (Hoth k t Hki Hk).
      * apply slot_disj_sym. by apply (Hoth j s Hji Hj).
      * by apply (rep_disj _ _ HR j k).
  - intros j t Hne Hj. destruct (Hoth j t Hne Hj) as (_ & Hb & _). unfold file_of. f_equal.
    apply content_ext. intros b Hbin. by apply Hb.
Qed.

(** The directory and the inodes stay, and nothing is unmarked. *)
Lemma wrep_frame M M' slots :
  wrep M slots -> img_full N M' -> blk M' 0 = blk M 0 -> blk M' 7 = blk M 7 ->
  inode_of M' 1 = inode_of M 1 ->
  (forall s, Some s ∈ slots -> inode_of M' (sl_ino s) = inode_of M (sl_ino s)) ->
  (forall i, 0 <= i <= 32 -> bm_get (blk M 1) i = true -> bm_get (blk M' 1) i = true) ->
  (forall i, 0 <= i < N -> bm_get (blk M 2) i = true -> bm_get (blk M' 2) i = true) ->
  16 <= N -> wrep M' slots.
Proof.
  intros HR Hfull H0 H7 Hroot Hino Hib Hbb HN. split; try done.
  - rewrite H0. apply HR.
  - rewrite Hroot. apply HR.
  - rewrite H7. apply HR.
  - intros i Hi. apply Hbb; [lia|]. by apply (rep_meta _ _ HR).
  - intros i Hi Hu. apply Hib; [done|]. by apply (rep_ib _ _ HR).
  - intros s Hs. destruct (rep_slot _ _ HR s Hs) as [H1 H2 H3 H4 H5 H6]. split; try done.
    + by rewrite Hino.
    + intros b Hb. apply Hbb; [|by apply H6]. rewrite Forall_forall in H2. specialize (H2 b Hb). lia.
  - apply HR.
Qed.

(** ** The abstract files *)

(** The relation of [absrel] on any list of slots. *)
Definition files_rel (m : gmap (list Z) fs_file) (F : slot -> fs_file) (slots : list (option slot)) : Prop :=
  forall n f, m !! n = Some f <-> exists s, Some s ∈ slots /\ sl_name s = n /\ F s = f.

Lemma files_rel_ext m F F' slots :
  files_rel m F slots -> (forall s, Some s ∈ slots -> F' s = F s) -> files_rel m F' slots.
Proof.
  intros Hm HF n f. rewrite (Hm n f). apply exist_proper. intros t.
  split; intros (Ht & Hn & <-); split_all; try done; [by apply HF|symmetry; by apply HF].
Qed.

Definition names_distinct (slots : list (option slot)) : Prop :=
  forall j k s t, slots !! j = Some (Some s) -> slots !! k = Some (Some t) -> j <> k ->
    sl_name s <> sl_name t.

Lemma files_rel_size F slots : forall m,
  names_distinct slots -> files_rel m F slots -> size m = length (omap id slots).
Proof.
  induction slots as [|o slots IH]; intros m Hnd Hm.
  { assert (m = ∅) as ->; [|by rewrite map_size_empty]. apply map_empty. intros n.
    destruct (m !! n) as [f|] eqn:E; [|done].
    by apply Hm in E as (s & ?%elem_of_nil & _). }
  assert (names_distinct slots) as Hnd'.
  { intros j k s t Hj Hk Hne. apply (Hnd (S j) (S k)); [done..|lia]. }
  destruct o as [s|]; cbn [omap list_omap id length].
  - assert (Hs : m !! sl_name s = Some (F s)) by (apply Hm; exists s; split_all; [left|done..]).
    rewrite <- (insert_delete_id m _ _ Hs), map_size_insert_None by apply lookup_delete_eq.
    f_equal. apply IH; [done|]. intros n f. rewrite lookup_delete_Some, (Hm n f).
    split.
    + intros (Hne & t & [[= ->]|Ht]%elem_of_cons & <- & Hf); [done|by exists t].
    + intros (t & Ht & <- & Hf). split; [|exists t; split_all; [by right|done..]].
      apply list_elem_of_lookup in Ht as [j Hj]. by apply (Hnd 0%nat (S j)).
  - apply IH; [done|]. intros n f. rewrite (Hm n f). apply exist_proper. intros t.
    rewrite elem_of_cons. naive_solver.
Qed.

Lemma rep_names M slots : wrep M slots -> names_distinct slots.
Proof. intros HR j k s t Hj Hk Hne. by destruct (rep_disj _ _ HR j k s t Hj Hk Hne) as (_ & ? & _). Qed.

Lemma absrel_size M slots S :
  wrep M slots -> absrel M slots S -> size (a_files S) = length (omap id slots).
Proof. intros HR HA. apply (files_rel_size (file_of M)); [by eapply rep_names|exact (ar_files _ _ _ HA)]. Qed.

Lemma length_omap_id {A} (l : list (option A)) :
  (length (omap id l) <= length l)%nat /\
  (length (omap id l) = length l <-> forall i, l !! i <> Some None).
Proof.
  induction l as [|[x|] l [IH1 IH2]].
  - split; [done|]. split; [by intros _ i|done].
  - change (omap id (Some x :: l)) with (x :: omap id l). cbn [length]. split; [lia|].
    transitivity (length (omap id l) = length l); [lia|]. rewrite IH2.
    split; intros H i; [by destruct i; [|apply H]|apply (H (S i))].
  - change (omap id (None :: l)) with (omap id l). cbn [length]. split; [lia|].
    split; [lia|]. intros H. by specialize (H 0%nat).
Qed.

Lemma absrel_full M slots S :
  wrep M slots -> absrel M slots S ->
  (16 <= size (a_files S))%nat <-> forall i, slots !! i <> Some None.
Proof.
  intros HR HA. rewrite (absrel_size M slots S HR HA).
  destruct (length_omap_id slots) as [H1 H2]. rewrite <- H2.
  assert (length slots = 16%nat) by apply (rep_dir _ _ HR). lia.
Qed.

(** Sixteen slots never use up the 31 inodes. *)
Lemma free_inode_exists M slots :
  rep M slots -> exists i, 2 <= i <= 32 /\ bm_get (blk M 1) i = false.
Proof.
  intros HR. set (inos := sl_ino <$> omap id slots).
  destruct (decide (Exists (fun i => i ∉ inos) (seqZ 2 31))) as [HE|HE].
  - apply Exists_exists in HE as (i & Hi%elem_of_seqZ & Hn). exists i. split; [lia|].
    apply not_true_is_false. intros Hb. apply (rep_exact _ _ HR i) in Hb; [|lia].
    destruct Hb as [?|(s & Hs & <-)]; [lia|]. apply Hn. unfold inos. apply list_elem_of_fmap_2.
    apply list_elem_of_omap. by exists (Some s).
  - exfalso. assert (seqZ 2 31 ⊆+ inos) as Hsub.
    { apply NoDup_submseteq; [apply NoDup_seqZ|]. intros i Hi. apply dec_stable. intros Hn.
      apply HE, Exists_exists. by exists i. }
    apply submseteq_length in Hsub. unfold inos in Hsub. rewrite length_seqZ, length_fmap in Hsub.
    destruct (length_omap_id slots) as [Hle _].
    assert (length slots = 16%nat) by apply (rep_dir _ _ HR). lia.
Qed.

(** ** One slot rewritten *)

Lemma files_rel_set m F F' slots i s :
  files_rel m F slots -> (i < length slots)%nat -> names_distinct (<[i := Some s]> slots) ->
  (forall j t, j <> i -> slots !! j = Some (Some t) -> F' t = F t) ->
  (forall s', slots !! i = Some (Some s') -> sl_name s' = sl_name s) ->
  files_rel (<[sl_name s := F' s]> m) F' (<[i := Some s]> slots).
Proof.
  intros Hm Hi Hnd HF Hsame n f. rewrite lookup_insert_Some. split.
  - intros [[<- <-]|[Hne (t & [j Hj]%list_elem_of_lookup & <- & <-)%Hm]].
    + exists s. split; [|done]. apply elem_of_slots_insert; auto.
    + assert (j <> i) by (intros ->; by rewrite (Hsame t Hj) in Hne).
      exists t. split_all; [|done|by apply (HF j)]. apply elem_of_slots_insert; eauto.
  - intros (t & [[= ->]|(j & Hne & Hj)]%elem_of_slots_insert & <- & <-); [by left| |done].
    right. split.
    + apply (Hnd i j); [by apply list_lookup_insert_eq|by rewrite list_lookup_insert_ne|done].
    + apply Hm. exists t. split_all; [by eapply list_elem_of_lookup_2|done|].
      symmetry. by apply (HF j).
Qed.

Lemma files_rel_clear m F F' slots i s :
  files_rel m F slots -> slots !! i = Some (Some s) -> names_distinct slots ->
  (forall j t, j <> i -> slots !! j = Some (Some t) -> F' t = F t) ->
  files_rel (delete (sl_name s) m) F' (<[i := None]> slots).
Proof.
  intros Hm Hi Hnd HF n f. pose proof (lookup_lt_Some _ _ _ Hi). rewrite lookup_delete_Some. split.
  - intros [Hne (t & [j Hj]%list_elem_of_lookup & <- & <-)%Hm].
    assert (j <> i) by (intros ->; congruence).
    exists t. split_all; [|done|by apply (HF j)]. apply elem_of_slots_insert; eauto.
  - intros (t & [[=]|(j & Hne & Hj)]%elem_of_slots_insert & <- & <-); [|done].
    split; [by apply (Hnd i j)|].
    apply Hm. exists t. split_all; [by eapply list_elem_of_lookup_2|done|].
    symmetry. by apply (HF j).
Qed.
End rep.
