(* ===== verification/Mcsfs1Format.v ===== *)
(** * MCSFS1: formatting

    The image [mcsfs1_format] writes represents the empty file system. *)
From S2P Require Import Prelude Bitmap Mcsfs1 Mcsfs1Dev Mcsfs1Spec Mcsfs1Dir Mcsfs1Disk Mcsfs1Data Mcsfs1Rep.

Section format.
Context {D : Type} (dev : mcsfs1_blkdev D) `{!ReadDev dev, !ReliableDev dev}.
Context (HN : 16 <= block_count dev <= 4096).
Local Abbreviation N := (block_count dev).
Local Abbreviation zeros := (replicate 512 0).

Lemma zeros_ok : block_ok zeros.
Proof. split; [done|apply zero_is_byte]. Qed.

Lemma sim_erase_blocks n : forall lba M,
  0 <= lba -> lba + Z.of_nat n <= N ->
  exists M', sim dev (erase_blocks dev n lba) M (inr tt) M' /\
    forall x, M' !! x = if decide (lba <= x < lba + Z.of_nat n) then Some zeros else M !! x.
Proof.
  induction n as [|n IH]; intros lba M Hl Hn; cbn [erase_blocks].
  { exists M. split; [apply sim_ret|]. intros x. by rewrite decide_False by lia. }
  destruct (IH (lba + 1) (<[lba := zeros]> M)) as (M' & Hs & HM'); [lia|lia|].
  exists M'. split; [eapply sim_bind; [apply (sim_write dev); [lia|done]|apply Hs]|].
  intros x. rewrite HM'. destruct (decide (x = lba)) as [->|Hne].
  - rewrite decide_False, lookup_insert_eq, decide_True by lia. done.
  - rewrite lookup_insert_ne by done. repeat case_decide; (done || lia).
Qed.

(** The image of a formatted device. *)
Definition fresh_ib : list Z := bm_set (bm_set zeros 0) 1.
Definition root_inode : list Z := make_inode MCSFS1_MODE_DIR MCSFS1_BLOCK_SIZE MCSFS1_ROOT_DIR_LBA.
Definition fresh_img (bb : list Z) (M0 : image) : image :=
  <[7 := zeros]> (put_inode 1 root_inode
    (<[2 := bb]> (<[1 := fresh_ib]> (<[0 := super_image dev]> M0)))).

Lemma bm_get_zeros i : 0 <= i < 4096 -> bm_get zeros i = false.
Proof.
  intros Hi. unfold bm_get, nthZ.
  rewrite lookup_replicate_2 by (apply Nat2Z.inj_lt; rewrite Z2Nat.id by (apply Z.div_pos; lia);
    apply Z.div_lt_upper_bound; lia).
  apply Z.testbit_0_l.
Qed.

Lemma super_image_ok : block_ok (super_image dev).
Proof.
  unfold super_image. change (mcsfs_memset 512 0) with zeros. split; [reflexivity|].
  repeat apply le_put_bytes. apply zero_is_byte.
Qed.

Lemma fresh_bits :
  exists bb, (let* bb := set_bits (Z.to_nat MCSFS1_DATA_START_LBA) 0 zeros in
              bit_set bb MCSFS1_ROOT_DIR_LBA) = Some bb /\ block_ok bb /\
    forall i, 0 <= i < 4096 -> bm_get bb i = (i <? 8).
Proof.
  destruct (set_bits_spec 8 0 zeros zeros_ok) as (bb & E & Hok & Hg); [lia|lia|].
  change (Z.to_nat MCSFS1_DATA_START_LBA) with 8%nat. rewrite E. unfold MCSFS1_ROOT_DIR_LBA.
  rewrite bit_set_eq by (done || lia). exists (bm_set bb 7). split_all; [done|by apply bm_set_ok|].
  intros i Hi. rewrite (bm_get_set _ 4096), Hg, bm_get_zeros by (lia || by apply bm_fits_4096).
  destruct (Z.eqb_spec 7 i), (Z.leb_spec 0 i), (Z.ltb_spec i (0 + Z.of_nat 8)), (Z.ltb_spec i 8); (done || lia).
Qed.

Lemma root_inode_is : inode_is root_inode MCSFS1_MODE_DIR 512 [7].
Proof. apply (inode_is_make MCSFS1_MODE_DIR 512 7); unfold MCSFS1_MODE_DIR; lia. Qed.

Section fresh_img.
Context (bb : list Z) (M0 : image) (Hbb : block_ok bb) (HM0 : img_full N M0).
Context (Hbits : forall i, 0 <= i < 4096 -> bm_get bb i = (i <? 8)).

Lemma fresh_ib_ok : block_ok fresh_ib.
Proof. do 2 apply bm_set_ok. apply zeros_ok. Qed.

Lemma fresh_meta_full : img_full N (<[2 := bb]> (<[1 := fresh_ib]> (<[0 := super_image dev]> M0))).
Proof. repeat apply img_full_insert; [done|apply super_image_ok|apply fresh_ib_ok|done]. Qed.

Lemma fresh_full : img_full N (fresh_img bb M0).
Proof.
  destruct root_inode_is as (Hl & Hb & _). apply img_full_insert; [|apply zeros_ok].
  apply (img_full_put_inode N); [lia|apply fresh_meta_full|lia|done..].
Qed.

Lemma fresh_blk2 : blk (fresh_img bb M0) 2 = bb.
Proof. unfold fresh_img. by rewrite blk_insert_ne, blk_put_inode, blk_insert by lia. Qed.

Lemma bm_get_fresh_ib i : 0 <= i < 4096 -> bm_get fresh_ib i = (i <? 2).
Proof.
  intros Hi. unfold fresh_ib.
  rewrite (bm_get_set _ 4096), (bm_get_set _ 4096), bm_get_zeros
    by (lia || (apply bm_fits_4096; [|lia]; try apply bm_set_ok; apply zeros_ok)).
  destruct (Z.eqb_spec 1 i), (Z.eqb_spec 0 i), (Z.ltb_spec i 2); (done || lia).
Qed.

Lemma no_slot s : Some s ∈ replicate 16 (None : option slot) -> False.
Proof. by intros [? _]%elem_of_replicate. Qed.

Lemma fresh_blk1 : blk (fresh_img bb M0) 1 = fresh_ib.
Proof. unfold fresh_img. by rewrite blk_insert_ne, blk_put_inode, blk_insert_ne, blk_insert by lia. Qed.

Lemma fresh_wrep : wrep dev (fresh_img bb M0) (replicate 16 None).
Proof.
  split.
  - apply fresh_full.
  - unfold fresh_img. by rewrite blk_insert_ne, blk_put_inode, !blk_insert_ne, blk_insert by lia.
  - unfold fresh_img. rewrite inode_of_insert by lia.
    rewrite (inode_of_put_same N); [apply root_inode_is|lia|apply fresh_meta_full|lia|apply root_inode_is].
  - unfold fresh_img. rewrite blk_insert. unfold dir_is. split_all; [done|done|].
    intros i o [-> Hi]%lookup_replicate. unfold entry_is, dirent_ino. apply le_get_zero. lia.
  - rewrite fresh_blk2. intros i Hi. rewrite Hbits by lia. apply Z.ltb_lt. lia.
  - intros i Hi [?|(s & []%no_slot & _)]. rewrite fresh_blk1, bm_get_fresh_ib by lia. by apply Z.ltb_lt.
  - by intros s []%no_slot.
  - by intros j k s t [? _]%lookup_replicate.
Qed.

Lemma fresh_rep : rep dev (fresh_img bb M0) (replicate 16 None).
Proof.
  split; [apply fresh_wrep|]. intros i Hi. rewrite fresh_blk1, bm_get_fresh_ib, Z.ltb_lt by lia.
  by left.
Qed.

Lemma fresh_absrel : absrel dev (fresh_img bb M0) (replicate 16 None) (a_empty N).
Proof.
  split.
  - intros n f. cbn [a_empty a_files]. rewrite lookup_empty. split; [done|].
    by intros (s & []%no_slot & _).
  - rewrite fresh_blk2. cbn [a_empty a_free]. unfold MCSFS1_DATA_START_LBA.
    assert (E : bm_free_list bb N ≡ₚ seqZ 8 (N - 8)); [|by rewrite E, length_seqZ].
    apply NoDup_Permutation; [apply NoDup_bm_free_list|apply NoDup_seqZ|]. intros i.
    rewrite elem_of_bm_free_list, elem_of_seqZ. split.
    + intros [Hi Hc]. rewrite Hbits, Z.ltb_ge in Hc by lia. lia.
    + intros Hi. split; [lia|]. rewrite Hbits, Z.ltb_ge by lia. lia.
Qed.

End fresh_img.

Lemma sim_format M :
  exists M', sim dev (mcsfs1_format dev) M (inr tt) M' /\
    rep dev M' (replicate 16 None) /\ absrel dev M' (replicate 16 None) (a_empty N).
Proof.
  destruct fresh_bits as (bb & Eb & Hbb & Hbits).
  destruct (sim_erase_blocks (Z.to_nat N) 0 M) as (M0 & Hz & HM0); [lia|lia|].
  assert (Hfull : img_full N M0).
  { intros x Hx. rewrite HM0, decide_True by lia. exists zeros. split; [done|apply zeros_ok]. }
  exists (fresh_img bb M0). split_all; [|by apply fresh_rep|by apply fresh_absrel].
  unfold mcsfs1_format, MCSFS1_MIN_BLOCKS, MCSFS1_BLOCK_SIZE.
  rewrite (proj2 (Z.ltb_ge _ _)), (proj2 (Z.ltb_ge _ _)) by lia. cbn [orb].
  eapply sim_bind; [apply Hz|].
  eapply sim_bind; [apply (sim_write dev); [unfold MCSFS1_SB_LBA; lia|apply super_image_ok]|].
  change (mcsfs_memset 512 0) with zeros.
  eapply sim_bind; [apply sim_lift, bit_set_eq; [apply zeros_ok|lia]|].
  eapply sim_bind; [apply sim_lift, bit_set_eq; [apply bm_set_ok, zeros_ok|unfold MCSFS1_ROOT_INO; lia]|].
  destruct (set_bits _ _ zeros) as [bb0|] eqn:E0; [|done].
  eapply sim_bind; [by apply sim_lift|]. eapply sim_bind; [apply sim_lift, Eb|].
  eapply sim_bind; [apply (sim_store_bmaps dev); [done|apply fresh_ib_ok|done]|].
  eapply sim_bind; [apply (sim_write_inode dev); [done|by apply fresh_meta_full|unfold MCSFS1_ROOT_INO; lia|apply root_inode_is]|].
  eapply sim_bind; [apply (sim_write dev); [unfold MCSFS1_ROOT_DIR_LBA; lia|done]|].
  apply (sim_flush dev).
Qed.

End format.
