(* ===== verification/Mcsfs1Images.v ===== *)
(** * MCSFS1: the images the operations produce

    What a sound image is read as (names, inodes, contents, superblock), and
    the images that creating, writing and removing a file lead to: each of
    them is sound again, and no other file changes. *)
From S2P Require Import Prelude Bitmap Mcsfs1 Mcsfs1Dev Mcsfs1Spec Mcsfs1Dir Mcsfs1Disk Mcsfs1Data Mcsfs1Rep.

Section images.
Context {D : Type} (dev : mcsfs1_blkdev D) `{!ReadDev dev}.
Context (HN : 16 <= block_count dev <= 4096).
Local Abbreviation N := (block_count dev).

Section state.
Context (M : image) (slots : list (option slot)) (files : gmap (list Z) fs_file).
Context (HR : wrep dev M slots) (HA : files_rel files (file_of M) slots).

Lemma sim_read_blk lba : 0 <= lba < N -> sim dev (dev_read dev lba) M (inr (blk M lba)) M.
Proof. intros. apply sim_read; [done|]. apply (img_full_lookup N); [apply HR|done]. Qed.

Lemma sim_valid_name name :
  name_bytes name ->
  sim dev (check (valid_name name)) M
    (match aname name with Some n => inr (Z.of_nat (length n)) | None => inl MCSFS1_ERR_NAMETOOLONG end) M.
Proof.
  intros Hn. apply sim_check. destruct name as [n|]; [|done].
  rewrite valid_name_spec by done. unfold aname. by case_if.
Qed.

Lemma aname_Some name n : aname name = Some n -> name = Some n /\ (1 <= length n <= 27)%nat.
Proof.
  unfold aname, MCSFS1_MAX_NAME. destruct name as [n'|]; [|done]. case_if; [|done].
  intros [= ->]. zbool. split; [done|lia].
Qed.

Lemma sim_find_dirent name :
  name_bytes name ->
  match aname name with
  | None => sim dev (find_dirent dev name) M (inl MCSFS1_ERR_NAMETOOLONG) M
  | Some n =>
      match files !! n with
      | None => sim dev (find_dirent dev name) M (inl MCSFS1_ERR_NOENT) M /\
                forall s, Some s ∈ slots -> sl_name s <> n
      | Some f => exists j s, slots !! j = Some (Some s) /\ sl_name s = n /\ file_of M s = f /\
                sim dev (find_dirent dev name) M (inr (j, sl_ino s)) M
      end
  end.
Proof.
  intros Hn. pose proof (sim_valid_name name Hn) as Hv. unfold find_dirent.
  destruct (aname name) as [n|] eqn:En; [|by apply sim_bind_err].
  apply aname_Some in En as [-> Hlen]. cbn [default from_option id].
  assert (Hdir : sim dev (dev_read dev MCSFS1_ROOT_DIR_LBA) M (inr (blk M 7)) M)
    by (apply sim_read_blk; lia).
  destruct (find_loop_spec (blk M 7) slots n 16 (rep_dir _ _ _ HR) Hn 0 eq_refl)
    as [(j & s & E & Hj & Hs)|[E Hno]].
  - assert (files !! n = Some (file_of M s)) as ->.
    { apply HA. exists s. split_all; [by eapply list_elem_of_lookup_2|done..]. }
    exists j, s. split_all; try done. eapply sim_bind; [apply Hv|]. cbv beta iota.
    eapply sim_bind; [apply Hdir|]. eapply sim_bind; [apply sim_lift, E|]. apply sim_ret.
  - assert (Hno' : forall s, Some s ∈ slots -> sl_name s <> n).
    { intros s [j Hj]%list_elem_of_lookup. by apply (Hno j); [lia|]. }
    destruct (files !! n) as [f|] eqn:Ef.
    { apply HA in Ef as (s & Hs & Hsn & _). by destruct (Hno' s Hs). }
    split; [|done]. eapply sim_bind; [apply Hv|]. cbv beta iota.
    eapply sim_bind; [apply Hdir|]. eapply sim_bind; [apply sim_lift, E|]. apply sim_fail.
Qed.

Lemma length_content s :
  Some s ∈ slots -> length (content M (sl_blocks s) (sl_size s)) = sl_size s.
Proof.
  intros Hs. destruct (rep_slot _ _ _ HR s Hs) as [_ Hr _ Hsz _ _].
  unfold content. rewrite length_take, (length_concat_blks N); [lia|apply HR|done].
Qed.

Lemma sim_read_file s :
  Some s ∈ slots ->
  sim dev (read_inode dev (sl_ino s)) M (inr (inode_of M (sl_ino s))) M.
Proof.
  intros Hs. apply sim_read_inode; [done|apply HR|]. pose proof (rep_ino _ _ _ _ HR Hs). lia.
Qed.

(** ** Reading *)

(** The result of a read on the abstract files. *)
Lemma sim_op_read name buf :
  name_bytes name -> Z.of_nat (length buf) < 2 ^ 32 ->
  sim dev (c_op dev (OpRead name buf)) M (a_read name buf (mk_afs files 0)).1 M.
Proof.
  intros Hn Hbuf. pose proof (sim_find_dirent name Hn) as Hf. cbn [c_op].
  unfold mcsfs1_read, a_read. cbn [negb a_files].
  destruct (aname name) as [n|]; [|by do 2 apply sim_bind_err].
  destruct (files !! n) as [f|]; [|by do 2 apply sim_bind_err; destruct Hf].
  destruct Hf as (j & s & Hj & _ & <- & Hf). assert (Hs : Some s ∈ slots) by (by eapply list_elem_of_lookup_2).
  destruct (rep_slot _ _ _ HR s Hs) as [Hi Hr _ Hsz _ _].
  pose proof (length_content s Hs) as Hlen. cbn [file_of af_data]. rewrite Hlen.
  destruct (Hi) as (_ & _ & _ & Hmode & Hsize & _).
  case_if; zbool.
  - apply sim_bind_err. eapply sim_bind; [apply Hf|]. cbn [snd].
    eapply sim_bind; [by apply sim_read_file|].
    rewrite Hmode, Hsize, Z.eqb_refl. cbn [negb].
    rewrite (proj2 (Z.ltb_lt _ _)) by lia. apply sim_fail.
  - eapply sim_bind; [|apply sim_ret]. eapply sim_bind; [apply Hf|]. cbn [snd].
    eapply sim_bind; [by apply sim_read_file|].
    rewrite Hmode, Hsize, Z.eqb_refl. cbn [negb].
    rewrite (proj2 (Z.ltb_ge _ _)) by lia.
    pose proof (sim_read_loop dev _ _ _ _ M 8 0 buf (sl_size s) (rep_full _ _ _ HR) Hi Hr eq_refl) as Hl.
    eapply sim_bind; [apply Hl; lia|].
    rewrite Nat.mul_0_r, drop_0. fold (content M (sl_blocks s) (sl_size s)).
    unfold splice. rewrite take_0, Nat.add_0_l, Hlen. apply sim_ret.
Qed.

(** ** Mounting and checking *)

Lemma super_fields :
  s_magic (super_image dev) = MCSFS1_MAGIC /\ s_version (super_image dev) = MCSFS1_VERSION /\
  s_block_size (super_image dev) = MCSFS1_BLOCK_SIZE /\ s_block_count (super_image dev) = N /\
  s_inode_count (super_image dev) = MCSFS1_MAX_INODES /\
  s_inode_bmap_lba (super_image dev) = MCSFS1_INODE_BMAP_LBA /\
  s_block_bmap_lba (super_image dev) = MCSFS1_BLOCK_BMAP_LBA /\
  s_inode_table_lba (super_image dev) = MCSFS1_INODE_TABLE_LBA /\
  s_root_ino (super_image dev) = MCSFS1_ROOT_INO /\
  s_root_dir_lba (super_image dev) = MCSFS1_ROOT_DIR_LBA /\
  s_data_start_lba (super_image dev) = MCSFS1_DATA_START_LBA /\
  s_clean (super_image dev) = 1.
Proof.
  assert (s_block_count (super_image dev) = N) as Hn.
  { change (s_block_count (super_image dev)) with (le_val (le_bytes 4 N)).
    apply le_val_bytes. change (2 ^ (8 * Z.of_nat 4)) with (2 ^ 32). lia. }
  split_all; [..|exact Hn| | | | | | | |]; reflexivity.
Qed.

Lemma sim_load_super : sim dev (load_super dev) M (inr (super_image dev)) M.
Proof.
  unfold load_super. eapply sim_bind; [apply sim_read_blk; unfold MCSFS1_SB_LBA; lia|].
  unfold MCSFS1_SB_LBA. rewrite (rep_sb _ _ _ HR). unfold mcsfs1_super_ok.
  destruct super_fields as (-> & -> & -> & -> & -> & -> & -> & -> & -> & -> & -> & _).
  rewrite !Z.eqb_refl, (proj2 (Z.leb_gt _ _)) by (unfold MCSFS1_DATA_START_LBA; lia).
  apply sim_ret.
Qed.

Lemma sim_root_inode : sim dev (read_inode dev MCSFS1_ROOT_INO) M (inr (inode_of M 1)) M.
Proof. apply sim_read_inode; [done|apply HR|unfold MCSFS1_ROOT_INO; lia]. Qed.

Lemma root_fields :
  i_mode (inode_of M 1) = MCSFS1_MODE_DIR /\ i_size (inode_of M 1) = 512 /\
  i_direct (inode_of M 1) 0 = Some MCSFS1_ROOT_DIR_LBA.
Proof.
  pose proof (rep_root _ _ _ HR) as Hr. split_all; [apply Hr..|].
  by rewrite (inode_is_direct _ _ _ _ _ Hr) by lia.
Qed.

Lemma sim_op_mount : sim dev (c_op dev OpMount) M (inr None) M.
Proof.
  cbn [c_op]. unfold mcsfs1_mount. destruct root_fields as (Hm & _ & Hd).
  eapply sim_bind; [|apply sim_ret]. eapply sim_bind; [apply sim_load_super|].
  eapply sim_bind; [apply sim_root_inode|]. eapply sim_bind; [apply sim_lift, Hd|].
  rewrite Hm, !Z.eqb_refl. apply sim_ret.
Qed.

Lemma fsck_loop_ok n i :
  (i + n = 16)%nat -> fsck_loop n i (blk M 7) (blk M 1) = Some true.
Proof.
  revert i. induction n as [|n IH]; intros i Hi; cbn [fsck_loop]; [done|].
  destruct (rep_dir _ _ _ HR) as (Hl7 & Hl & Hd).
  destruct (lookup_lt_is_Some_2 slots i) as [o Ho]; [lia|].
  pose proof (Hd i o Ho) as He. rewrite d_ino_in by (done || lia). rewrite IH by lia. destruct o as [s|]; unfold entry_is in He.
  - destruct He as (-> & Hr & _). unfold MCSFS1_MAX_INODES.
    rewrite (proj2 (Z.eqb_neq _ _)), (proj2 (Z.ltb_ge _ _)) by lia.
    rewrite bit_test_eq; [|apply (img_full_blk N); [apply HR|lia]|lia].
    rewrite (rep_ib _ _ _ HR (sl_ino s) ltac:(lia)); [done|].
    right. exists s. split; [by eapply list_elem_of_lookup_2|done].
  - by rewrite He.
Qed.

Lemma sim_op_fsck : sim dev (c_op dev OpFsck) M (inr None) M.
Proof.
  cbn [c_op]. unfold mcsfs1_fsck. destruct root_fields as (Hm & Hsz & Hd).
  eapply sim_bind; [|apply sim_ret]. eapply sim_bind; [apply sim_load_super|].
  eapply sim_bind; [apply sim_root_inode|]. rewrite Hm, Hsz.
  eapply sim_bind; [apply sim_ret|]. eapply sim_bind; [apply sim_lift, Hd|].
  do 2 (eapply sim_bind; [apply sim_ret|]).
  rewrite (proj2 (Z.ltb_lt _ _)) by (unfold MCSFS1_ROOT_DIR_LBA; lia).
  eapply sim_bind; [apply sim_ret|].
  destruct super_fields as (_ & _ & _ & _ & _ & _ & _ & _ & _ & _ & _ & ->).
  eapply sim_bind; [apply sim_ret|].
  do 2 (eapply sim_bind; [apply sim_read_blk; unfold MCSFS1_INODE_BMAP_LBA, MCSFS1_BLOCK_BMAP_LBA; lia|]).
  eapply sim_bind; [apply sim_lift, all_set_spec|].
  - apply (img_full_blk N); [apply HR|]. unfold MCSFS1_BLOCK_BMAP_LBA. lia.
  - lia.
  - unfold MCSFS1_DATA_START_LBA. lia.
  - intros i Hi. apply (rep_meta _ _ _ HR). unfold MCSFS1_DATA_START_LBA in Hi. lia.
  - eapply sim_bind; [apply sim_ret|].
    eapply sim_bind; [apply sim_read_blk; unfold MCSFS1_ROOT_DIR_LBA; lia|].
    eapply sim_bind; [by apply sim_lift, fsck_loop_ok|]. apply sim_ret.
Qed.

(** ** Creating *)

Lemma fill_dirent_ok i ino n dir :
  (i < 16)%nat -> (length n <= 27)%nat -> Forall (fun c => 0 < c < 256) n -> block_ok dir ->
  block_ok (filled_dir i ino n dir).
Proof.
  intros Hi Hl Hn [Hd Hb]. split; [by apply length_fill_dirent|]. unfold filled_dir.
  apply Forall_splice; [|eapply Forall_impl; [done|]; unfold is_byte; cbn; lia].
  apply Forall_splice; auto with mcsos.
Qed.

(** What the disk looks like after a file was created in slot [i]. *)
Section created.
Context (i : nat) (n : list Z) (ino b : Z).
Context (Hi : (i < 16)%nat) (Hslot : slots !! i = Some None) (Hn : fname_ok n).
Context (Hnew : forall s, Some s ∈ slots -> sl_name s <> n).
Context (Hino : 2 <= ino <= 32) (Hic : bm_get (blk M 1) ino = false).
Context (Hb : 8 <= b < N) (Hbc : bm_get (blk M 2) b = false).

Definition created_bmaps : image := <[2 := bm_set (blk M 2) b]> (<[1 := bm_set (blk M 1) ino]> M).
Definition created_inode : list Z := make_inode MCSFS1_MODE_FILE 0 b.
Definition created : image :=
  <[7 := filled_dir i ino n (blk M 7)]> (put_inode ino created_inode created_bmaps).

Lemma created_inode_is : inode_is created_inode MCSFS1_MODE_FILE 0 [b].
Proof. clear - HN Hb. apply (inode_is_make MCSFS1_MODE_FILE 0); unfold MCSFS1_MODE_FILE; cbn; lia. Qed.

Lemma blk_at_ok lba : 0 <= lba < N -> block_ok (blk M lba).
Proof. intros. apply (img_full_blk N); [apply HR|done]. Qed.

Lemma created_bmaps_full : img_full N created_bmaps.
Proof. clear - HN HR.
  unfold created_bmaps.
  repeat apply img_full_insert; try apply bm_set_ok; try apply blk_at_ok; [apply HR|lia..].
Qed.

Lemma created_full : img_full N created.
Proof.
  destruct created_inode_is as (Hl & Hbt & _). destruct Hn as [Hn1 Hn2].
  apply img_full_insert.
  - apply (img_full_put_inode N); [lia|apply created_bmaps_full|lia|done..].
  - apply fill_dirent_ok; [done|lia|done|apply blk_at_ok; lia].
Qed.

Lemma created_blk lba : lba <= 0 \/ 8 <= lba -> blk created lba = blk M lba.
Proof.
  intros. unfold created, created_bmaps.
  rewrite blk_insert_ne, blk_put_inode, !blk_insert_ne by lia. done.
Qed.

Lemma created_bb : blk created 2 = bm_set (blk M 2) b.
Proof.
  unfold created, created_bmaps. by rewrite blk_insert_ne, blk_put_inode, blk_insert by lia.
Qed.

Lemma created_ib : blk created 1 = bm_set (blk M 1) ino.
Proof.
  unfold created, created_bmaps.
  by rewrite blk_insert_ne, blk_put_inode, blk_insert_ne, blk_insert by lia.
Qed.

Lemma created_inode_same : inode_of created ino = created_inode.
Proof.
  unfold created. rewrite inode_of_insert by lia.
  apply (inode_of_put_same N); [lia|apply created_bmaps_full|lia|apply created_inode_is].
Qed.

Lemma created_inode_other j : 1 <= j <= 32 -> j <> ino -> inode_of created j = inode_of M j.
Proof.
  intros. unfold created. rewrite inode_of_insert by lia.
  rewrite (inode_of_put_other N); [|lia|apply created_bmaps_full|lia|lia|done|apply created_inode_is].
  unfold created_bmaps. by rewrite !inode_of_insert by lia.
Qed.

Definition created_slot : slot := mk_slot n ino [b] 0.

Lemma bm_get_bb_set k : 0 <= k < 4096 ->
  bm_get (bm_set (blk M 2) b) k = if b =? k then true else bm_get (blk M 2) k.
Proof. clear - HN HR Hb. intros. apply (bm_get_set _ 4096); [apply bm_fits_4096; [apply blk_at_ok; lia|done]|lia..]. Qed.

Lemma bm_get_ib_set k : 0 <= k < 4096 ->
  bm_get (bm_set (blk M 1) ino) k = if ino =? k then true else bm_get (blk M 1) k.
Proof. clear - HN HR Hino. intros. apply (bm_get_set _ 4096); [apply bm_fits_4096; [apply blk_at_ok; lia|done]|lia..]. Qed.

(** A used inode or block is marked, so the ones taken are fresh. *)
Lemma fresh_ino s : Some s ∈ slots -> sl_ino s <> ino.
Proof. clear - HR Hic.
  intros Hs E. rewrite <- E in Hic. pose proof (rep_ino _ _ _ _ HR Hs).
  assert (bm_get (blk M 1) (sl_ino s) = true) by (apply (rep_ib _ _ _ HR); [lia|right; by exists s]).
  congruence.
Qed.

Lemma fresh_block s x : Some s ∈ slots -> x ∈ sl_blocks s -> x <> b.
Proof. clear - HR Hbc. intros Hs Hx ->. rewrite (so_bits _ _ _ (rep_slot _ _ _ HR s Hs) b Hx) in Hbc. done. Qed.

Lemma used_range s x : Some s ∈ slots -> x ∈ sl_blocks s -> 8 <= x < N.
Proof.
  intros Hs. pose proof (so_range _ _ _ (rep_slot _ _ _ HR s Hs)) as H.
  rewrite Forall_forall in H. apply H.
Qed.

Lemma created_rep :
  wrep dev created (<[i := Some created_slot]> slots) /\
  forall j t, j <> i -> slots !! j = Some (Some t) -> file_of created t = file_of M t.
Proof.
  apply rep_update; [done|done|apply created_full|apply created_blk; lia| | | | | |].
  - apply created_inode_other; lia.
  - unfold created. rewrite blk_insert.
    apply (dir_is_set (blk M 7) slots i created_slot); [apply HR|done..].
  - intros k Hk. rewrite created_bb, bm_get_bb_set by lia.
    rewrite (rep_meta _ _ _ HR) by done. by case_if.
  - intros j t Hne Hj. assert (Ht : Some t ∈ slots) by (by eapply list_elem_of_lookup_2).
    pose proof (rep_ino _ _ _ _ HR Ht). split_all.
    + apply created_inode_other; [lia|by apply fresh_ino].
    + intros x Hx. pose proof (used_range t x Ht Hx). split; [apply created_blk; lia|].
      rewrite created_bb, bm_get_bb_set by lia.
      rewrite (so_bits _ _ _ (rep_slot _ _ _ HR t Ht) x Hx). by case_if.
    + intros s [= <-]. unfold slot_disj. split_all; cbn [created_slot sl_ino sl_name sl_blocks].
      * intros E. by apply (fresh_ino t).
      * intros E. by apply (Hnew t).
      * intros x ->%list_elem_of_singleton Hx. by apply (fresh_block t b).
  - intros s [= <-]. split; cbn [created_slot sl_ino sl_name sl_blocks sl_size].
    + rewrite created_inode_same. apply created_inode_is.
    + by apply Forall_singleton.
    + done.
    + lia.
    + apply NoDup_singleton.
    + intros x ->%list_elem_of_singleton. rewrite created_bb, bm_get_bb_set by lia.
      by rewrite Z.eqb_refl.
  - intros k Hk Hu. rewrite created_ib, bm_get_ib_set by lia.
    assert (length slots = 16%nat) by apply (rep_dir _ _ _ HR).
    destruct (Z.eqb_spec ino k) as [<-|Hne]; [done|]. apply (rep_ib _ _ _ HR); [done|].
    destruct Hu as [?|(s & [[= <-]|(j & _ & Hj)]%elem_of_slots_insert & Hs)]; [by left|done| |lia].
    right. exists s. split; [by eapply list_elem_of_lookup_2|done].
Qed.

Lemma created_exact : inodes_exact M slots -> inodes_exact created (<[i := Some created_slot]> slots).
Proof.
  intros He k Hk. rewrite created_ib, bm_get_ib_set by lia.
  assert (length slots = 16%nat) by apply (rep_dir _ _ _ HR).
  destruct (Z.eqb_spec ino k) as [<-|Hne].
  - intros _. right. exists created_slot. split; [|done]. apply elem_of_slots_insert; [lia|by left].
  - intros [?|(s & [j Hj]%list_elem_of_lookup & Hs)]%He; [by left| |done]. right. exists s.
    split; [|done]. apply elem_of_slots_insert; [lia|]. right. exists j. split; [congruence|done].
Qed.

End created.

(** ** Writing *)

Lemma blocks_needed_spec len :
  (len <= 4096)%nat ->
  blocks_needed (Z.of_nat len) = Z.of_nat (a_need len) /\ (1 <= a_need len <= 8)%nat /\
  (512 * (a_need len - 1) <= len <= 512 * a_need len)%nat.
Proof.
  intros Hl. unfold blocks_needed, MCSFS1_BLOCK_SIZE, a_need.
  rewrite u32_id by lia. pose proof (Nat.div_mod (len + 511) 512 ltac:(done)) as E.
  pose proof (Nat.mod_upper_bound (len + 511) 512 ltac:(done)) as Hm.
  replace ((Z.of_nat len + 512 - 1) / 512) with (Z.of_nat ((len + 511) / 512))
    by (rewrite Nat2Z.inj_div; f_equal; lia).
  case_if; zbool; lia.
Qed.

Section grab.
Context (bb' new : list Z) (Hg : grabbed N (blk M 2) bb' new).

Lemma grab_mono x : 0 <= x < N -> bm_get (blk M 2) x = true -> bm_get bb' x = true.
Proof. destruct Hg as (_ & _ & _ & Hget & _). intros Hx E. by rewrite Hget, E by lia. Qed.

Lemma grab_meta : meta_set bb'.
Proof. intros i Hi. apply grab_mono; [lia|]. by apply (rep_meta _ _ _ HR). Qed.

Lemma grab_fresh s x : Some s ∈ slots -> x ∈ sl_blocks s -> x ∉ new.
Proof.
  intros Hs Hx Hn. destruct Hg as (_ & _ & Hnew & _). destruct (Hnew x Hn) as [_ Hf].
  rewrite (so_bits _ _ _ (rep_slot _ _ _ HR s Hs) x Hx) in Hf. done.
Qed.

(** A failed write keeps the files; the blocks it took are lost. *)
Lemma grab_rep :
  wrep dev (<[2 := bb']> M) slots /\
  forall s, Some s ∈ slots -> file_of (<[2 := bb']> M) s = file_of M s.
Proof.
  destruct Hg as (Hok & _).
  assert (Hblk : forall x, x <> 2 -> blk (<[2 := bb']> M) x = blk M x)
    by (intros; by apply blk_insert_ne).
  split.
  - apply (wrep_frame dev M); try done; try (by apply Hblk); try lia.
    + apply img_full_insert; [apply HR|done].
    + by rewrite inode_of_insert by lia.
    + intros s Hs. pose proof (rep_ino _ _ _ _ HR Hs). by rewrite inode_of_insert by lia.
    + intros i _. by rewrite Hblk.
    + intros i Hi. rewrite blk_insert. by apply grab_mono.
  - intros s Hs. unfold file_of. f_equal. apply content_ext. intros b Hb.
    pose proof (used_range s b Hs Hb). apply Hblk. lia.
Qed.

(** Rewriting a slot under its name and inode number. *)
Lemma dir_is_same dir slots0 j s s' :
  dir_is dir slots0 -> slots0 !! j = Some (Some s) ->
  sl_name s' = sl_name s -> sl_ino s' = sl_ino s -> dir_is dir (<[j := Some s']> slots0).
Proof.
  intros (Hl & Hls & Hd) Hj Hn Hino. unfold dir_is. rewrite length_insert. split_all; try done.
  intros i o Hi. destruct (decide (i = j)) as [->|Hne].
  - rewrite list_lookup_insert_eq in Hi by (by eapply lookup_lt_Some). simplify_eq.
    specialize (Hd j _ Hj). unfold entry_is in *. by rewrite Hn, Hino.
  - rewrite list_lookup_insert_ne in Hi by done. by apply Hd.
Qed.

Lemma same_inos (slots0 : list (option slot)) j s s' k :
  slots0 !! j = Some (Some s) -> sl_ino s' = sl_ino s ->
  (exists t, Some t ∈ slots0 /\ sl_ino t = k) <->
  (exists t, Some t ∈ <[j := Some s']> slots0 /\ sl_ino t = k).
Proof.
  intros Hj Hino. assert (j < length slots0)%nat by (by eapply lookup_lt_Some). split.
  - intros (t & [i Hi]%list_elem_of_lookup & Hk). destruct (decide (i = j)) as [->|Hne].
    + exists s'. split; [apply elem_of_slots_insert; [done|by left]|congruence].
    + exists t. split; [apply elem_of_slots_insert; [done|right; by exists i]|done].
  - intros (t & [[= <-]|(i & Hne & Hi)]%elem_of_slots_insert & Hk); [| |done].
    + exists s. split; [by eapply list_elem_of_lookup_2|congruence].
    + exists t. split; [by eapply list_elem_of_lookup_2|done].
Qed.

(** A write to the file in slot [j] that found its blocks. *)
Context (j : nat) (s : slot) (data inode' : list Z).
Context (Hj : slots !! j = Some (Some s)) (Hdata : Forall is_byte data).
Local Abbreviation need := (a_need (length data)).
Local Abbreviation blocks' := (sl_blocks s ++ new).
Context (Hlen : (length data <= 4096)%nat) (Hneed : (need <= length blocks')%nat).
Context (Hinode : inode_is inode' MCSFS1_MODE_FILE (sl_size s) blocks').

Definition written_data : image :=
  put_chunks 0 (take need blocks') (padded need data) (<[2 := bb']> M).
Definition written_inode : list Z := set_i_size (Z.of_nat (length data)) inode'.
Definition written : image := put_inode (sl_ino s) written_inode written_data.
Definition written_slot : slot := mk_slot (sl_name s) (sl_ino s) blocks' (length data).

Lemma s_in : Some s ∈ slots.
Proof. by eapply list_elem_of_lookup_2. Qed.

Lemma blocks'_range : Forall (fun b => 8 <= b < N) blocks'.
Proof.
  apply Forall_app. split; [apply (so_range _ _ _ (rep_slot _ _ _ HR s s_in))|].
  destruct Hg as (_ & _ & Hnew & _). apply Forall_forall. intros b Hb. by apply Hnew.
Qed.

Lemma blocks'_nodup : NoDup blocks'.
Proof.
  apply NoDup_app. split_all; [apply (so_nodup _ _ _ (rep_slot _ _ _ HR s s_in))| |apply Hg].
  intros x Hx. apply (grab_fresh s); [apply s_in|done].
Qed.

Lemma written_data_blk x : x ∉ blocks' -> x <> 2 -> blk written_data x = blk M x.
Proof.
  intros Hx H2. unfold written_data. rewrite blk_put_chunks; [by apply blk_insert_ne|].
  intros Ht. apply Hx. rewrite <- (take_drop need blocks'), elem_of_app. by left.
Qed.

Lemma low_not_block x : x < 8 -> x ∉ blocks'.
Proof. clear Hlen Hneed. intros Hx Hin. pose proof blocks'_range as H. rewrite Forall_forall in H. specialize (H x Hin). lia. Qed.

Lemma written_data_bb : blk written_data 2 = bb'.
Proof.
  unfold written_data. rewrite blk_put_chunks, blk_insert; [done|].
  intros Ht. apply (low_not_block 2); [lia|].
  rewrite <- (take_drop need blocks'), elem_of_app. by left.
Qed.

Lemma written_inode_is : inode_is written_inode MCSFS1_MODE_FILE (length data) blocks'.
Proof. apply (inode_is_resize _ _ (sl_size s)); [done|lia]. Qed.

Lemma written_data_full : img_full N written_data.
Proof.
  destruct Hg as (Hok & _). apply img_full_put_chunks.
  - apply img_full_insert; [apply HR|done].
  - apply Forall_app. auto with mcsos.
  - destruct (blocks_needed_spec _ Hlen) as (_ & _ & ?).
    rewrite length_padded, length_take by lia. lia.
Qed.

Lemma written_full : img_full N written.
Proof.
  destruct written_inode_is as (Hl & Hb & _). pose proof (rep_ino _ _ _ _ HR s_in).
  apply (img_full_put_inode N); [lia|apply written_data_full|lia|done..].
Qed.

Lemma written_blk x : x < 3 \/ 6 < x -> blk written x = blk written_data x.
Proof. intros. pose proof (rep_ino _ _ _ _ HR s_in). apply blk_put_inode; lia. Qed.

Lemma written_inode_same : inode_of written (sl_ino s) = written_inode.
Proof.
  pose proof (rep_ino _ _ _ _ HR s_in).
  apply (inode_of_put_same N); [lia|apply written_data_full|lia|apply written_inode_is].
Qed.

Lemma written_inode_other i : 1 <= i <= 32 -> i <> sl_ino s -> inode_of written i = inode_of M i.
Proof.
  intros Hi Hne. pose proof (rep_ino _ _ _ _ HR s_in). unfold written.
  rewrite (inode_of_put_other N); [|lia|apply written_data_full|lia|lia|done|apply written_inode_is].
  unfold inode_of. rewrite written_data_blk; [done|apply low_not_block|];
    pose proof (inode_lba_bounds i Hi); lia.
Qed.

Lemma written_file : file_of written written_slot = mk_fs_file data (length blocks').
Proof.
  unfold file_of, written_slot. cbn [sl_blocks sl_size]. f_equal.
  assert (E : content written blocks' (length data) = content written_data blocks' (length data)).
  { apply content_ext. intros b Hb. pose proof blocks'_range as H. rewrite Forall_forall in H.
    apply written_blk. specialize (H b Hb). lia. }
  rewrite E. unfold written_data.
  assert (Ht : length (take need blocks') = need) by (rewrite length_take; lia).
  destruct (blocks_needed_spec _ Hlen) as (_ & _ & ?).
  pose proof (content_put_chunks (take need blocks') (drop need blocks') data (<[2 := bb']> M)) as Hc.
  rewrite take_drop, Ht in Hc. apply Hc; [apply blocks'_nodup|lia].
Qed.

Lemma written_bb : blk written 2 = bb'.
Proof. rewrite written_blk by lia. apply written_data_bb. Qed.

Lemma written_slot_ok : slot_ok dev written written_slot.
Proof.
  destruct (rep_slot _ _ _ HR s s_in) as [_ _ Hsome _ _ Hbits].
  split; cbn [written_slot sl_ino sl_name sl_blocks sl_size].
  - rewrite written_inode_same. apply written_inode_is.
  - apply blocks'_range.
  - rewrite length_app. lia.
  - destruct (blocks_needed_spec _ Hlen) as (_ & _ & ?). lia.
  - apply blocks'_nodup.
  - intros b Hb. pose proof blocks'_range as Hr. rewrite Forall_forall in Hr. specialize (Hr b Hb).
    rewrite written_bb. destruct Hg as (_ & _ & _ & Hget & _). rewrite Hget by lia.
    apply elem_of_app in Hb as [Hs|Hn].
    + by rewrite Hbits.
    + rewrite (bool_decide_eq_true_2 _ Hn). apply orb_true_r.
Qed.

Lemma written_rep :
  wrep dev written (<[j := Some written_slot]> slots) /\
  forall k t, k <> j -> slots !! k = Some (Some t) -> file_of written t = file_of M t.
Proof.
  pose proof (rep_ino _ _ _ _ HR s_in) as Hino.
  assert (Hls : length slots = 16%nat) by apply (rep_dir _ _ _ HR).
  assert (Hj16 : (j < 16)%nat) by (apply lookup_lt_Some in Hj; lia).
  assert (Hlow : forall x, x <> 2 -> (x < 3 \/ 6 < x < 8) -> blk written x = blk M x).
  { intros x H2 Hx. rewrite written_blk by lia. apply written_data_blk; [apply low_not_block; lia|done]. }
  pose proof written_bb as Hbb.
  apply rep_update; [done|done|apply written_full|apply Hlow; lia| | | | | |].
  - apply written_inode_other; lia.
  - rewrite Hlow by lia. apply (dir_is_same _ _ j s); [apply HR|done..].
  - rewrite Hbb. apply grab_meta.
  - intros k t Hne Hk. assert (Ht : Some t ∈ slots) by (by eapply list_elem_of_lookup_2).
    destruct (rep_disj _ _ _ HR j k s t Hj Hk ltac:(done)) as (Hd1 & Hd2 & Hd3).
    pose proof (rep_ino _ _ _ _ HR Ht). split_all.
    + apply written_inode_other; [lia|congruence].
    + intros b Hb. pose proof (used_range t b Ht Hb) as Hr.
      assert (b ∉ blocks').
      { rewrite elem_of_app. intros [Hs|Hn]; [by apply (Hd3 b)|].
        by apply (grab_fresh t b). }
      split.
      * rewrite written_blk by lia. apply written_data_blk; [done|lia].
      * rewrite Hbb. apply grab_mono; [lia|].
        by apply (so_bits _ _ _ (rep_slot _ _ _ HR t Ht)).
    + intros ? [= <-]. unfold slot_disj. cbn [written_slot sl_ino sl_name sl_blocks].
      split_all; [done|done|]. intros b Hb Hbt.
      apply elem_of_app in Hb as [Hs|Hn]; [by apply (Hd3 b)|]. by apply (grab_fresh t b).
  - intros ? [= <-]. apply written_slot_ok.
  - intros k Hk Hu. rewrite Hlow by lia. apply (rep_ib _ _ _ HR); [done|].
    destruct Hu as [?|Hu]; [by left|]. right. by apply (same_inos _ j s _ _ Hj) in Hu.
Qed.

Lemma written_exact : inodes_exact M slots -> inodes_exact written (<[j := Some written_slot]> slots).
Proof.
  intros He k Hk. rewrite written_blk, written_data_blk by (lia || apply low_not_block; lia).
  intros [?|Hu]%He; [by left| |done]. right. by apply (same_inos _ j s).
Qed.

End grab.

(** ** Removing *)

Lemma clear_dirent_ok i dir : (i < 16)%nat -> block_ok dir -> block_ok (cleared_dir i dir).
Proof.
  intros Hi [Hl Hb]. unfold cleared_dir. split; [len_solve|]. apply Forall_splice; auto with mcsos.
Qed.

(** The entry in slot [j] is cleared, and the bitmaps [ib'] and [bb'] keep
    what the other files use. *)
Section removed.
Context (j : nat) (s : slot) (ib' bb' : list Z).
Context (Hj : slots !! j = Some (Some s)) (Hib' : block_ok ib') (Hok : block_ok bb').
Context (Hgib : forall i, 0 <= i <= 32 -> i <> sl_ino s ->
  bm_get (blk M 1) i = true -> bm_get ib' i = true).
Context (Hget : forall i, 0 <= i < 4096 -> i ∉ sl_blocks s ->
  bm_get (blk M 2) i = true -> bm_get bb' i = true).

Definition removed_dir : image := <[7 := cleared_dir j (blk M 7)]> M.
Definition removed : image := <[2 := bb']> (<[1 := ib']> removed_dir).

Lemma removed_blk x : x <> 1 -> x <> 2 -> x <> 7 -> blk removed x = blk M x.
Proof. intros. unfold removed, removed_dir. by rewrite !blk_insert_ne by done. Qed.

Lemma removed_rep :
  wrep dev removed (<[j := None]> slots) /\
  forall k t, k <> j -> slots !! k = Some (Some t) -> file_of removed t = file_of M t.
Proof.
  assert (Hs : Some s ∈ slots) by (by eapply list_elem_of_lookup_2).
  pose proof (rep_ino _ _ _ _ HR Hs) as Hino.
  assert (Hls : length slots = 16%nat) by apply (rep_dir _ _ _ HR).
  assert (Hj16 : (j < 16)%nat) by (apply lookup_lt_Some in Hj; lia).
  assert (Hbb : blk removed 2 = bb') by apply blk_insert.
  assert (Hib : blk removed 1 = ib')
    by (unfold removed; by rewrite blk_insert_ne, blk_insert by done).
  assert (Hinode : forall i, 1 <= i <= 32 -> inode_of removed i = inode_of M i)
    by (intros; unfold removed, removed_dir; by rewrite !inode_of_insert by lia).
  apply rep_update; [done|done| |by apply removed_blk|by apply Hinode| | | |done|].
  - unfold removed, removed_dir. repeat apply img_full_insert; try done; [apply HR|].
    apply clear_dirent_ok; [done|apply blk_at_ok; lia].
  - unfold removed, removed_dir. rewrite !blk_insert_ne, blk_insert by done.
    apply dir_is_clear; [apply HR|done].
  - intros i Hi. rewrite Hbb. apply Hget; [lia| |by apply (rep_meta _ _ _ HR)].
    intros Hin. pose proof (used_range s i Hs Hin). lia.
  - intros k t Hne Hk. assert (Ht : Some t ∈ slots) by (by eapply list_elem_of_lookup_2).
    destruct (rep_disj _ _ _ HR j k s t Hj Hk ltac:(done)) as (_ & _ & Hd).
    pose proof (rep_ino _ _ _ _ HR Ht). split_all; [apply Hinode; lia| |done].
    intros b Hb. pose proof (used_range t b Ht Hb). split; [apply removed_blk; lia|].
    rewrite Hbb. apply Hget; [lia| |by apply (so_bits _ _ _ (rep_slot _ _ _ HR t Ht) b Hb)].
    intros Hbs. by apply (Hd b).
  - intros k Hk Hu. rewrite Hib. apply Hgib; [done| |].
    + intros ->.
      destruct Hu as [?|(t & [?|(i & Hij & Hi)]%elem_of_slots_insert & Ht)]; [lia|done| |lia].
      destruct (rep_disj _ _ _ HR j i s t Hj Hi ltac:(done)) as (Hd & _). congruence.
    + apply (rep_ib _ _ _ HR); [done|].
      destruct Hu as [?|(t & [?|(i & _ & Hi)]%elem_of_slots_insert & Ht)]; [by left|done| |lia].
      right. exists t. split; [by eapply list_elem_of_lookup_2|done].
Qed.

Lemma removed_exact :
  ib' = bm_clear (blk M 1) (sl_ino s) -> inodes_exact M slots ->
  inodes_exact removed (<[j := None]> slots).
Proof.
  intros E He k Hk. unfold removed. rewrite blk_insert_ne, blk_insert, E by done.
  assert (Hs : Some s ∈ slots) by (by eapply list_elem_of_lookup_2). pose proof (rep_ino _ _ _ _ HR Hs).
  rewrite (bm_get_clear _ 4096) by (lia || (apply bm_fits_4096; [apply blk_at_ok; lia|lia])).
  destruct (Z.eqb_spec (sl_ino s) k) as [<-|Hne]; [done|].
  intros [?|(t & [i Hi]%list_elem_of_lookup & Ht)]%He; [by left| |done]. right. exists t.
  split; [|done]. apply elem_of_slots_insert; [by eapply lookup_lt_Some|]. right. exists i.
  split; [congruence|done].
Qed.

End removed.

(** The bitmaps of an unlink keep what the other files use. *)
Lemma cleared_ib ino i :
  0 <= i <= 32 -> 2 <= ino <= 32 -> i <> ino ->
  bm_get (blk M 1) i = true -> bm_get (bm_clear (blk M 1) ino) i = true.
Proof.
  intros Hi Hino Hne Hb.
  rewrite (bm_get_clear _ 4096) by (lia || (apply bm_fits_4096; [apply blk_at_ok; lia|lia])).
  rewrite (proj2 (Z.eqb_neq _ _)) by congruence. done.
Qed.

Lemma cleared_bb bb' (blocks : list Z) i :
  (forall i, 0 <= i < 4096 ->
    bm_get bb' i = bm_get (blk M 2) i && negb (bool_decide (i ∈ blocks))) ->
  0 <= i < 4096 -> i ∉ blocks -> bm_get (blk M 2) i = true -> bm_get bb' i = true.
Proof. intros Hg Hi Hn Hb. by rewrite Hg, Hb, bool_decide_eq_false_2 by done. Qed.

End state.
End images.
