(* ===== verification/Mcsfs1Ops.v ===== *)
(** * MCSFS1: the file operations on a consistent image

    Each operation, run on a reliable device whose image represents an
    abstract file system, returns what the abstract operation returns and
    leaves an image that represents its result. *)
From S2P Require Import Prelude Bitmap Mcsfs1 Mcsfs1Dev Mcsfs1Spec Mcsfs1Dir Mcsfs1Disk Mcsfs1Data Mcsfs1Rep Mcsfs1Images.

Section ops.
Context {D : Type} (dev : mcsfs1_blkdev D) `{!ReadDev dev, !ReliableDev dev}.
Context (HN : 16 <= block_count dev <= 4096).
Local Abbreviation N := (block_count dev).

Definition refines (m : em D (option (list Z * Z))) (r : ares * afs) (M : image) : Prop :=
  exists M' slots', sim dev m M r.1 M' /\ rep dev M' slots' /\ absrel dev M' slots' r.2.

Section state.
Context (M : image) (slots : list (option slot)) (S : afs).
Context (HR : rep dev M slots) (HA : absrel dev M slots S).
Let HW : wrep dev M slots := rep_weak _ _ _ HR.
Let HF : files_rel (a_files S) (file_of M) slots := ar_files _ _ _ _ HA.
Let find name := sim_find_dirent dev HN M slots (a_files S) HW HF name.
Let blk_ok lba := blk_at_ok dev M slots HW lba.

Lemma refines_same m r : sim dev m M r M -> refines m (r, S) M.
Proof. intros. by exists M, slots. Qed.

(** ** Reading, mounting and checking *)

Lemma refines_read name buf :
  name_bytes name -> Z.of_nat (length buf) < 2 ^ 32 ->
  refines (c_op dev (OpRead name buf)) (a_read name buf S) M.
Proof.
  intros Hn Hb. replace (a_read name buf S) with ((a_read name buf (mk_afs (a_files S) 0)).1, S).
  - by apply refines_same, (sim_op_read dev HN M slots).
  - unfold a_read. cbn [a_files]. destruct (aname name); [|done].
    destruct (a_files S !! _); [|done]. by case_if.
Qed.

Lemma refines_mount : refines (c_op dev OpMount) (inr None, S) M.
Proof. by apply refines_same, (sim_op_mount dev HN M slots). Qed.

Lemma refines_fsck : refines (c_op dev OpFsck) (inr None, S) M.
Proof. by apply refines_same, (sim_op_fsck dev HN M slots). Qed.

(** ** Creating *)

(** The part of [mcsfs1_create] before the directory is changed. *)
Ltac create_prefix Hv Hf Hfs :=
  eapply sim_bind; [apply Hv|]; cbv beta iota;
  eapply sim_bind; [apply (sim_found _ _ _ _ _ Hf)|]; cbv beta iota;
  eapply sim_bind; [apply (sim_read_blk dev M slots HW); unfold MCSFS1_ROOT_DIR_LBA; lia|];
  unfold MCSFS1_ROOT_DIR_LBA;
  eapply sim_bind; [apply sim_lift, Hfs|]; cbv beta iota.

Lemma refines_create name :
  name_bytes name -> match name with Some n => length n <> 27%nat | None => True end ->
  refines (c_op dev (OpCreate name)) (a_create name S) M.
Proof.
  intros Hn H27. pose proof (find name Hn) as Hf. pose proof (sim_valid_name dev M name Hn) as Hv.
  cbn [c_op]. unfold mcsfs1_create, a_create.
  destruct (aname name) as [n|] eqn:En; [|apply refines_same; by do 2 apply sim_bind_err].
  apply aname_Some in En as [-> Hlen]. destruct (a_files S !! n) as [f|].
  { destruct Hf as (j & s & _ & _ & _ & Hf). apply refines_same, sim_bind_err.
    eapply sim_bind; [apply Hv|]. cbv beta iota.
    eapply sim_bind; [apply (sim_found _ _ _ _ _ Hf)|]. apply sim_fail. }
  destruct Hf as [Hf Hnew].
  pose proof (free_idx_spec _ _ (rep_dir _ _ _ HR)) as Hslot.
  pose proof (free_slot_in (blk M 7) (proj1 (rep_dir _ _ _ HR))) as Hfs.
  pose proof (absrel_full _ _ _ _ HW HA) as Hfull.
  destruct (free_idx (blk M 7)) as [i|].
  2: { apply Hfull in Hslot. rewrite (proj2 (Z.leb_le 16 _)) by lia. cbn [orb].
       apply refines_same, sim_bind_err. create_prefix Hv Hf Hfs. apply sim_fail. }
  destruct Hslot as [Hi Hslot].
  rewrite (proj2 (Z.leb_gt 16 _)) by (apply Z.lt_nge; intros Hle; apply (proj1 Hfull ltac:(lia) _ Hslot)).
  cbn [orb]. rewrite (ar_free _ _ _ _ HA).
  destruct (sim_alloc_inode_block dev HN M (rep_full _ _ _ HR) (rep_meta _ _ _ HR)
    (free_inode_exists _ _ _ HR)) as [(ino & b & Ha & Hino & Hic & Hb & Hbc)|[Ha Hnone]].
  2: { rewrite Hnone, Z.eqb_refl. apply refines_same, sim_bind_err. create_prefix Hv Hf Hfs.
       by apply sim_bind_err. }
  assert (Hok : fname_ok n) by (split; [lia|done]).
  assert (Hcnt := length_free_set (blk M 2) N b). rewrite <- Hcnt;
    [|apply bm_fits_4096; [apply blk_ok; lia|lia]|lia|done].
  rewrite (proj2 (Z.eqb_neq _ 0)) by lia.
  destruct (created_rep dev HN M slots HW (Z.to_nat i) n ino b) as [HR' Hsame]; try done; try lia.
  assert (He' := created_exact dev HN M slots HW (Z.to_nat i) n ino b ltac:(lia) Hslot Hino (rep_exact _ _ _ HR)).
  exists (created M (Z.to_nat i) n ino b), (<[Z.to_nat i := Some (created_slot n ino b)]> slots).
  split_all; [|by split|].
  - eapply sim_bind; [|apply sim_ret]. create_prefix Hv Hf Hfs.
    eapply sim_bind; [apply Ha|]. cbn [fst snd].
    assert (Hil : length (created_inode b) = 60%nat) by done.
    eapply sim_bind; [apply (sim_write_inode dev); [done|by apply (created_bmaps_full dev HN M slots HW)|lia|done]|].
    cbn [default from_option id]. rewrite Nat2Z.id, take_ge by lia.
    eapply sim_bind; [apply sim_lift, fill_dirent_in; [apply blk_ok|..]; lia|].
    eapply sim_bind; [apply (sim_write dev); [lia|apply length_fill_dirent; [lia|lia|apply blk_ok; lia]]|].
    apply (sim_flush dev).
  - cbn [snd]. assert (length slots = 16%nat) by apply (rep_dir _ _ _ HR). split.
    + assert (E : file_of (created M (Z.to_nat i) n ino b) (created_slot n ino b) = mk_fs_file [] 1) by done.
      cbn [a_files]. rewrite <- E.
      apply (files_rel_set (a_files S) (file_of M) _ slots (Z.to_nat i) (created_slot n ino b));
        [exact (ar_files _ _ _ _ HA)|lia|by eapply rep_names|done|].
      intros s' Hs'. congruence.
    + cbn [a_free]. rewrite created_bb by lia. lia.
Qed.

(** A write to a file that exists, with data that fits in an inode. *)
Section write.
Context (name : option (list Z)) (n data : list Z) (j : nat) (s : slot).
Context (Hj : slots !! j = Some (Some s)) (Hsn : sl_name s = n) (Hdata : Forall is_byte data).
Context (Hf : sim dev (find_dirent dev name) M (inr (j, sl_ino s)) M).
Context (Hlen : (length data <= 4096)%nat).
Local Abbreviation need := (a_need (length data)).
Context (new bb' : list Z) (Hg : grabbed N (blk M 2) bb' new).

(** [mcsfs1_write] after its checks. *)
Lemma sim_write_body r M' :
  sim dev (let? inode := alloc_missing dev need 0 (inode_of M (sl_ino s)) in
           write_loop dev need 0 inode data (Z.of_nat (length data)) 0 ;?
           write_inode dev (sl_ino s) (set_i_size (Z.of_nat (length data)) inode) ;?
           dev_flush dev) M r M' ->
  sim dev (mcsfs1_write dev name (Some data) (Z.of_nat (length data))) M r M'.
Proof.
  intros Hbody. unfold mcsfs1_write, MCSFS1_DIRECT_BLOCKS, MCSFS1_BLOCK_SIZE. change (8 * 512) with 4096.
  rewrite (proj2 (Z.ltb_ge _ _)) by lia. eapply sim_bind; [apply Hf|]. cbn [snd].
  eapply sim_bind; [by eapply (sim_read_file dev HN M slots HW), s_in|].
  destruct (rep_slot _ _ _ HR s (s_in slots j s Hj)) as [(_ & _ & _ & -> & _) _ _ _ _ _].
  destruct (blocks_needed_spec _ Hlen) as (-> & _ & _).
  rewrite Z.eqb_refl, Nat2Z.id. exact Hbody.
Qed.

Lemma write_success inode' :
  length new = (need - length (sl_blocks s))%nat ->
  sim dev (alloc_missing dev need 0 (inode_of M (sl_ino s))) M (inr inode') (<[2 := bb']> M) ->
  inode_is inode' MCSFS1_MODE_FILE (sl_size s) (sl_blocks s ++ new) ->
  refines (c_op dev (OpWrite name data))
    (inr None, mk_afs (<[n := mk_fs_file data (length (sl_blocks s ++ new))]> (a_files S))
                      (a_free S - length new)) M.
Proof.
  intros Hnew Ha Hi'. pose proof (rep_ino _ _ _ _ HR (s_in slots j s Hj)) as Hino.
  destruct (blocks_needed_spec _ Hlen) as (_ & Hneed & Hnl).
  assert (Hbl : (need <= length (sl_blocks s ++ new))%nat) by (rewrite length_app; lia).
  destruct (written_rep dev HN M slots HW bb' new Hg j s data inode') as [HR' Hsame]; try done.
  assert (He' := written_exact dev M slots HW bb' new Hg j s data inode' Hj Hlen Hbl (rep_exact _ _ _ HR)).
  exists (written M bb' new s data inode'), (<[j := Some (written_slot new s data)]> slots).
  split_all; [|by split|].
  - eapply sim_bind; [|apply sim_ret]. apply sim_write_body. eapply sim_bind; [apply Ha|].
    eapply sim_bind.
    { apply (sim_write_loop dev _ _ need inode' _ data _ 0 0 _ Hi');
        [done|by eapply (blocks'_range dev M slots HW bb' new Hg j s)|lia|lia|by right]. }
    rewrite drop_0. eapply sim_bind; [|apply (sim_flush dev)].
    apply (sim_write_inode dev); [done|by eapply (written_data_full dev M slots HW bb' new Hg s)|lia|by eapply written_inode_is].
  - split; cbn [snd a_files a_free].
    + rewrite <- (written_file dev M slots HW bb' new Hg j s data inode' Hj Hlen Hbl), <- Hsn.
      apply (files_rel_set (a_files S) (file_of M) _ slots j (written_slot new s data));
        [exact (ar_files _ _ _ _ HA)|by eapply lookup_lt_Some|by eapply rep_names|done|].
      intros s' Hs'. simplify_eq. done.
    + rewrite (written_bb dev M slots HW bb' new Hg j s), (ar_free _ _ _ _ HA) by done.
      destruct Hg as (_ & _ & _ & _ & Hcnt). lia.
Qed.

Lemma write_failure :
  bm_free_list bb' N = [] ->
  sim dev (alloc_missing dev need 0 (inode_of M (sl_ino s))) M (inl MCSFS1_ERR_NOSPC) (<[2 := bb']> M) ->
  refines (c_op dev (OpWrite name data)) (inl MCSFS1_ERR_NOSPC, mk_afs (a_files S) 0) M.
Proof.
  intros Hnone Ha. destruct (grab_rep dev HN M slots HW bb' new Hg) as [HR' Hsame].
  exists (<[2 := bb']> M), slots. split_all; [|split; [done|]; intros i Hi; rewrite blk_insert_ne by done; by apply (rep_exact _ _ _ HR)|].
  - apply sim_bind_err, sim_write_body. by apply sim_bind_err.
  - split; [|cbn [snd a_free]; by rewrite blk_insert, Hnone].
    by apply (files_rel_ext _ (file_of M)).
Qed.
End write.

Lemma refines_write name data :
  name_bytes name -> Forall is_byte data ->
  refines (c_op dev (OpWrite name data)) (a_write name data S) M.
Proof.
  intros Hn Hdata. pose proof (find name Hn) as Hf. unfold a_write.
  assert (Herr : forall rc, sim dev (mcsfs1_write dev name (Some data) (Z.of_nat (length data))) M (inl rc) M ->
    refines (c_op dev (OpWrite name data)) (inl rc, S) M) by (intros rc Hm; by apply refines_same, sim_bind_err).
  case_if; zbool.
  { apply Herr. unfold mcsfs1_write, MCSFS1_DIRECT_BLOCKS, MCSFS1_BLOCK_SIZE. change (8 * 512) with 4096.
    rewrite (proj2 (Z.ltb_lt _ _)) by lia. apply sim_fail. }
  assert (Hfind : forall rc, sim dev (find_dirent dev name) M (inl rc) M ->
    sim dev (mcsfs1_write dev name (Some data) (Z.of_nat (length data))) M (inl rc) M).
  { intros rc Hm. unfold mcsfs1_write, MCSFS1_DIRECT_BLOCKS, MCSFS1_BLOCK_SIZE. change (8 * 512) with 4096.
    rewrite (proj2 (Z.ltb_ge _ _)) by lia. by apply sim_bind_err. }
  destruct (aname name) as [n|]; [|by apply Herr, Hfind].
  destruct (a_files S !! n) as [f|]; [|apply Herr, Hfind; by destruct Hf].
  destruct Hf as (j & s & Hj & Hsn & <- & Hf). assert (Hlen : (length data <= 4096)%nat) by lia.
  destruct (rep_slot _ _ _ HR s (s_in slots j s Hj)) as [Hi Hr _ _ _ _].
  destruct (blocks_needed_spec _ Hlen) as (_ & Hneed & _).
  destruct (sim_alloc_missing dev HN _ _ (a_need (length data)) 0 _ _ M (rep_full _ _ _ HR)
    (rep_meta _ _ _ HR) Hi Hr ltac:(lia) ltac:(lia)) as (new & bb' & Hg & Hres).
  rewrite Nat.add_0_l in Hres. cbn [file_of af_blocks]. rewrite (ar_free _ _ _ _ HA).
  destruct (decide _) as [Hle|Hle].
  - rewrite (proj2 (Z.ltb_ge _ _)) by lia. destruct Hres as (Hnew & inode' & Ha & Hi').
    rewrite <- Hnew, <- length_app, <- (ar_free _ _ _ _ HA). by eapply write_success.
  - rewrite (proj2 (Z.ltb_lt _ _)) by lia. destruct Hres as (Hnone & Ha). by eapply write_failure.
Qed.

Lemma refines_unlink name :
  name_bytes name -> refines (c_op dev (OpUnlink name)) (a_unlink name S) M.
Proof.
  intros Hn. pose proof (find name Hn) as Hf. cbn [c_op].
  unfold mcsfs1_unlink, a_unlink.
  destruct (aname name) as [n|]; [|apply refines_same; by do 2 apply sim_bind_err].
  destruct (a_files S !! n) as [f|] eqn:Ef; [|apply refines_same; by do 2 apply sim_bind_err; destruct Hf].
  destruct Hf as (j & s & Hj & Hsn & <- & Hf).
  assert (Hs : Some s ∈ slots) by (by eapply list_elem_of_lookup_2).
  assert (Hj16 : (j < 16)%nat) by (apply lookup_lt_Some in Hj; destruct (rep_dir _ _ _ HR); lia).
  pose proof (rep_slot _ _ _ HR s Hs) as [Hi Hr _ _ Hnd Hbits]. pose proof (rep_ino _ _ _ _ HR Hs).
  assert (Hfull : img_full N (removed_dir M j)).
  { apply img_full_insert; [apply HR|]. apply clear_dirent_ok; [done|apply blk_ok; lia]. }
  assert (E1 : blk (removed_dir M j) 1 = blk M 1) by (by apply blk_insert_ne).
  assert (E2 : blk (removed_dir M j) 2 = blk M 2) by (by apply blk_insert_ne).
  destruct (sim_free_inode dev HN _ _ (removed_dir M j) (sl_ino s) (inode_of M (sl_ino s)) (sl_blocks s)
    Hfull ltac:(done) Hi Hr Hnd) as (bb' & Hsim & Hok & Hget & Hcnt).
  { intros b Hb. rewrite E2. by apply Hbits. }
  rewrite E1 in Hsim. rewrite E2 in Hget, Hcnt.
  set (ib' := bm_clear (blk M 1) (sl_ino s)) in *.
  destruct (removed_rep dev HN M slots HW j s ib' bb' Hj) as [HR' Hsame]; try done;
    [by apply bm_clear_ok, blk_ok; lia|intros; by apply (cleared_ib dev HN M slots HW)|by intros; eapply cleared_bb|].
  assert (He' := removed_exact dev HN M slots HW j s ib' bb' Hj eq_refl (rep_exact _ _ _ HR)).
  exists (removed M j ib' bb'), (<[j := None]> slots). split_all; [|by split|].
  - eapply sim_bind; [|apply sim_ret]. eapply sim_bind; [apply Hf|]. cbn [fst snd].
    eapply sim_bind; [by apply (sim_read_file dev HN M slots HW)|].
    eapply sim_bind; [apply (sim_read_blk dev M slots HW); unfold MCSFS1_ROOT_DIR_LBA; lia|].
    eapply sim_bind; [apply sim_lift, clear_dirent_in; [apply blk_ok; unfold MCSFS1_ROOT_DIR_LBA; lia|done]|].
    eapply sim_bind; [apply (sim_write dev); [unfold MCSFS1_ROOT_DIR_LBA; lia|]|].
    { apply clear_dirent_ok; [done|apply blk_ok; unfold MCSFS1_ROOT_DIR_LBA; lia]. }
    eapply sim_bind; [apply Hsim|]. apply (sim_flush dev).
  - split; cbn [snd a_files a_free].
    + rewrite <- Hsn. apply (files_rel_clear _ (file_of M) _ slots j s);
        [exact (ar_files _ _ _ _ HA)|done|by eapply rep_names|done].
    + unfold removed. rewrite blk_insert, (ar_free _ _ _ _ HA), Hcnt. done.
Qed.

End state.
End ops.
