(* ===== verification/Mcsfs1Theorems.v ===== *)
(** * MCSFS1: theorems

    Formatting a reliable device gives an empty file system, and from there
    every sequence of operations behaves as the abstract file system of
    [Mcsfs1Spec].  The last theorems show where the code departs from what
    its clients expect: names of exactly 27 bytes, and the blocks of a write
    that failed. *)
From S2P Require Import Prelude Bitmap Mcsfs1 Mcsfs1Dev Mcsfs1Spec Mcsfs1Dir Mcsfs1Disk Mcsfs1Data Mcsfs1Rep Mcsfs1Format Mcsfs1Ops.

Section runs.
Context {D : Type} (dev : mcsfs1_blkdev D) `{!ReadDev dev, !ReliableDev dev}.
Context (HN : 16 <= block_count dev <= 4096).
Local Abbreviation N := (block_count dev).

(** One operation, and any number of them. *)
Lemma op_refines op M slots S :
  rep dev M slots -> absrel dev M slots S -> fop_ok op -> refines dev (c_op dev op) (a_op op S) M.
Proof.
  intros HR HA Hop. destruct op; cbn [fop_ok a_op] in *.
  - destruct Hop. by eapply refines_create.
  - destruct Hop. by eapply refines_write.
  - destruct Hop. by eapply refines_read.
  - by eapply refines_unlink.
  - by eapply refines_mount.
  - by eapply refines_fsck.
Qed.

Lemma run_refines ops : forall d slots S,
  rep dev (dev_img d) slots -> absrel dev (dev_img d) slots S -> Forall fop_ok ops ->
  exists d' slots', c_run dev ops d = Some ((a_run ops S).1, d') /\
    rep dev (dev_img d') slots' /\ absrel dev (dev_img d') slots' (a_run ops S).2.
Proof.
  induction ops as [|op ops IH]; intros d slots S HR HA Hops; cbn [c_run a_run].
  { by exists d, slots. }
  apply Forall_cons in Hops as [Hop Hops].
  destruct (op_refines op _ _ _ HR HA Hop) as (M' & slots' & Hsim & HR' & HA').
  destruct (Hsim d eq_refl) as (d1 & E1 & <-). rewrite E1. cbn [fst snd].
  destruct (IH d1 slots' _ HR' HA' Hops) as (d2 & slots2 & E2 & HR2 & HA2).
  exists d2, slots2. by rewrite E2.
Qed.

End runs.

(** ** Claims *)

(** C2: MCSFS1 implements the abstract file system, as long as no file is
    created with a name of exactly 27 bytes.  On any device that reads back
    what was written and reports no error, with 16 to 4096 blocks,
    [mcsfs1_format] succeeds whatever the device held, and from then on every
    sequence of create, write, read, unlink, mount and fsck calls with
    arguments of their C types ([fop_ok]: bytes, zero-terminated names, buffers
    below 4 GiB) in which no created name has exactly 27 bytes returns, call by
    call, the codes, lengths and bytes of the abstract file system; in
    particular the searches and loops of these calls stay inside their arrays
    and [mcsfs1_fsck] reports no corruption. *)
Theorem mcsfs1_refines_files {D : Type} (dev : mcsfs1_blkdev D) `{!ReadDev dev, !ReliableDev dev}
    (d0 : D) (ops : list fop) :
  16 <= block_count dev <= 4096 -> Forall fop_ok ops ->
  exists d1 d2, mcsfs1_format dev d0 = Some (inr tt, d1) /\
    c_run dev ops d1 = Some ((a_run ops (a_empty (block_count dev))).1, d2).
Proof.
  intros HN Hops. destruct (sim_format dev HN (dev_img d0)) as (M & Hs & HR & HA).
  destruct (Hs d0 eq_refl) as (d1 & E1 & <-).
  destruct (run_refines dev HN ops d1 _ _ HR HA Hops) as (d2 & _ & E2 & _).
  by exists d1, d2.
Qed.

Definition name_a : list Z := [97].
Definition name_b : list Z := [98].
Definition sample_ops : list fop :=
  [OpCreate (Some name_a); OpCreate (Some name_a); OpWrite (Some name_a) (replicate 600 7);
   OpRead (Some name_a) (replicate 601 0); OpUnlink (Some name_a); OpRead (Some name_a) [];
   OpFsck].

Lemma mcsfs1_refines_files_witness :
  exists d1 d2, mcsfs1_format (ram_dev 16) ∅ = Some (inr tt, d1) /\
    c_run (ram_dev 16) sample_ops d1 =
      Some ([inr None; inl MCSFS1_ERR_EXIST; inr None; inr (Some (replicate 600 7 ++ [0], 600));
             inr None; inl MCSFS1_ERR_NOENT; inr None], d2).
Proof.
  destruct (mcsfs1_refines_files (ram_dev 16) ∅ sample_ops) as (d1 & d2 & E1 & E2).
  - cbn. lia.
  - repeat constructor; cbn; try lia; apply Forall_replicate; unfold is_byte; lia.
  - exists d1, d2. split; [exact E1|]. rewrite E2. vm_compute. reflexivity.
Defined.

(** A file reads the same from the same files. *)
Lemma a_read_files name buf s k : (a_read name buf s).1 = (a_read name buf (mk_afs (a_files s) k)).1.
Proof.
  unfold a_read. destruct (aname name) as [n|]; [|done]. cbn [a_files].
  destruct (a_files s !! n) as [f|]; [|done]. by case_if.
Qed.

Lemma a_read_same name buf s : (a_read name buf s).2 = s.
Proof.
  unfold a_read. destruct (aname name) as [n|]; [|done].
  destruct (a_files s !! n) as [f|]; [|done]. by case_if.
Qed.

(** C36: a write that runs out of space leaks every free block.  On a reliable
    device of 16 to 4096 blocks, formatted and after any operations whose
    created names do not have exactly 27 bytes, take a write that fails with
    [NOSPC].  Every file (any name [r], read into any buffer) reads the same
    before the write and after it, and [mcsfs1_fsck] accepts the image; but
    the next [mcsfs1_create] of a new name fails with [NOSPC], however few
    blocks the write was short, although without the write it succeeds as long
    as a block and one of the 16 slots are free. *)
Theorem mcsfs1_failed_write_leaks {D : Type} (dev : mcsfs1_blkdev D) `{!ReadDev dev, !ReliableDev dev}
    (d0 : D) (ops : list fop) (name data n r buf : list Z) (s : afs) :
  16 <= block_count dev <= 4096 -> Forall fop_ok ops ->
  fop_ok (OpWrite (Some name) data) -> fop_ok (OpRead (Some r) buf) -> fname_ok n ->
  (a_run ops (a_empty (block_count dev))).2 = s ->
  (a_write (Some name) data s).1 = inl MCSFS1_ERR_NOSPC -> a_files s !! n = None ->
  exists d1 d2 x, mcsfs1_format dev d0 = Some (inr tt, d1) /\
    c_run dev (ops ++ [OpRead (Some r) buf; OpWrite (Some name) data; OpCreate (Some n);
                       OpFsck; OpRead (Some r) buf]) d1 =
      Some ((a_run ops (a_empty (block_count dev))).1 ++
              [x; inl MCSFS1_ERR_NOSPC; inl MCSFS1_ERR_NOSPC; inr None; x], d2) /\
    ((0 < a_free s)%nat -> (size (a_files s) < 16)%nat ->
     exists d3, c_run dev (ops ++ [OpCreate (Some n)]) d1 =
       Some ((a_run ops (a_empty (block_count dev))).1 ++ [inr None], d3)).
Proof.
  intros HN Hops Hw Hr Hn Hs Hnospc Hnew.
  destruct (sim_format dev HN (dev_img d0)) as (M & Hf & HR & HA).
  destruct (Hf d0 eq_refl) as (d1 & E1 & <-). pose proof Hn as [Hl Hb].
  assert (Hc : fop_ok (OpCreate (Some n))) by (split; [done|lia]).
  destruct (run_refines dev HN (ops ++ [OpRead (Some r) buf; OpWrite (Some name) data;
    OpCreate (Some n); OpFsck; OpRead (Some r) buf]) d1 _ _ HR HA) as (d2 & _ & E2 & _).
  { apply Forall_app. split; [done|]. by rewrite !Forall_cons, Forall_nil. }
  destruct (run_refines dev HN (ops ++ [OpCreate (Some n)]) d1 _ _ HR HA) as (d3 & _ & E3 & _).
  { apply Forall_app. split; [done|]. by rewrite Forall_singleton. }
  exists d1, d2, (a_read (Some r) buf s).1. split_all; [done| |].
  - rewrite E2, a_run_app, Hs. cbn [a_run a_op fst snd]. rewrite a_read_same.
    rewrite (a_write_nospc _ _ _ Hnospc). cbn [fst snd].
    rewrite a_create_nospc by (done || lia). by rewrite <- (a_read_files _ _ s 0).
  - intros Hfree Hroom. exists d3. rewrite E3, a_run_app, Hs. cbn [a_run a_op fst snd].
    unfold a_create, aname, MCSFS1_MAX_NAME.
    rewrite (proj2 (Z.ltb_lt _ _)), (proj2 (Z.leb_le _ _)) by lia. cbn [andb]. rewrite Hnew.
    rewrite (proj2 (Z.leb_gt _ _)), (proj2 (Z.eqb_neq _ _)) by lia. done.
Qed.

(** Two files on the smallest device: the write of eight blocks is one short. *)
Definition leak_ops : list fop := [OpCreate (Some name_a); OpCreate (Some name_b)].

Lemma mcsfs1_failed_write_leaks_witness :
  exists d1 d2 x, mcsfs1_format (ram_dev 16) ∅ = Some (inr tt, d1) /\
    c_run (ram_dev 16) (leak_ops ++ [OpRead (Some name_b) []; OpWrite (Some name_a) (replicate 4096 1);
                                     OpCreate (Some [99]); OpFsck; OpRead (Some name_b) []]) d1 =
      Some ([inr None; inr None; x; inl MCSFS1_ERR_NOSPC; inl MCSFS1_ERR_NOSPC; inr None; x], d2).
Proof.
  destruct (mcsfs1_failed_write_leaks (ram_dev 16) ∅ leak_ops name_a (replicate 4096 1) [99] name_b []
    (a_run leak_ops (a_empty 16)).2) as (d1 & d2 & x & E1 & E2 & _); try reflexivity.
  - cbn. lia.
  - repeat constructor; cbn; lia.
  - split; [repeat constructor; lia|]. apply Forall_replicate. unfold is_byte. lia.
  - split; [repeat constructor; lia|]. cbn. lia.
  - split; [cbn; lia|]. repeat constructor; lia.
  - exists d1, d2, x. split; [exact E1|exact E2].
Defined.

(** ** Names of 27 bytes *)

(** A directory in which slot [i] holds the 27-byte name [n], and every other
    slot is free or holds a shorter name, as in [slots]. *)
Record dir27 (dir : list Z) (slots : list (option slot)) (i : nat) (n : list Z) (ino : Z) : Prop := {
  d27_dir : length dir = 512%nat;
  d27_slots : length slots = 16%nat;
  d27_len : length n = 27%nat;
  d27_bytes : Forall (fun c => 0 < c < 256) n;
  d27_ino : dirent_ino dir i = ino /\ 2 <= ino <= 32;
  d27_name : sub (32 * i + 5) 27 dir = n;
  d27_here : slots !! i = Some None;
  d27_other j o : j <> i -> slots !! j = Some o -> entry_is dir j o
}.

(** It is the block [mcsfs1_create] writes for [n]. *)
Lemma fill_dirent_27 dir slots i n ino dir' :
  dir_is dir slots -> slots !! i = Some None -> length n = 27%nat ->
  Forall (fun c => 0 < c < 256) n -> 2 <= ino <= 32 ->
  fill_dirent i ino n dir = Some dir' -> dir27 dir' slots i n ino.
Proof.
  intros (Hl & Hls & Hd) Hfree Hn Hb Hino.
  assert (i < 16)%nat as Hi by (rewrite <- Hls; by eapply lookup_lt_Some). rewrite fill_dirent_in by (done || lia). intros [= <-].
  split; try done.
  - apply length_fill_dirent; lia.
  - split; [apply d_ino_fill_dirent; lia|done].
  - rewrite name_fill_dirent by (done || lia). by rewrite Hn, app_nil_r.
  - intros j o Hj Ho. apply (entry_is_ext dir); [|by apply Hd].
    apply lookup_lt_Some in Ho. apply sub_fill_dirent_other; lia.
Qed.

(** An entry with another name is passed over. *)
Lemma find_skip dir j o m k :
  length dir = 512%nat -> (j < 16)%nat -> entry_is dir j o ->
  (forall s, o = Some s -> sl_name s <> m) ->
  find_loop (S k) j dir (cmem m) (Z.of_nat (length m)) =
    find_loop k (S j) dir (cmem m) (Z.of_nat (length m)).
Proof.
  intros Hl Hj He Hne. cbn [find_loop]. rewrite d_ino_in by done.
  destruct o as [s|]; [|unfold entry_is in He; by rewrite He].
  destruct (d_name_mem_entry dir j s Hl Hj He) as [t Ht].
  destruct He as (-> & Hino & [Hlen Hs0] & _).
  rewrite (proj2 (Z.eqb_neq _ 0)) by lia. unfold mcsfs_strlen_bound, MCSFS1_MAX_NAME.
  rewrite Ht, strlen_bound_app by (done || lia).
  destruct (Z.eqb_spec (Z.of_nat (length (sl_name s))) (Z.of_nat (length m))) as [Heq|];
    cbn [negb]; [|done].
  rewrite Nat2Z.id. unfold cmem. rewrite mcsfs_memcmp_app by lia.
  by rewrite (bool_decide_eq_false_2 _ (Hne s eq_refl)).
Qed.

(** A string that fills its field: the byte after the field decides. *)
Lemma strlen_bound_next n t :
  Forall (fun c => 0 < c < 256) n ->
  strlen_bound (n ++ t) (length n + 1) =
    match t with
    | [] => None
    | c :: _ => Some (if c =? 0 then Z.of_nat (length n) else Z.of_nat (length n) + 1)
    end.
Proof.
  induction 1 as [|c n Hc _ IH]; cbn [length app Nat.add strlen_bound].
  - destruct t as [|c t]; [done|]. cbn. by destruct (c =? 0).
  - rewrite (proj2 (Z.eqb_neq c 0)) by lia. rewrite IH. destruct t as [|x t]; [done|].
    f_equal. case_if; lia.
Qed.

(** The other entries have shorter names. *)
Lemma d27_not dir slots i n ino :
  dir27 dir slots i n ino -> forall s, Some s ∈ slots -> sl_name s <> n.
Proof.
  intros Hd s (j & Hj)%list_elem_of_lookup Hs.
  destruct (decide (j = i)) as [->|Hne]; [pose proof (d27_here _ _ _ _ _ Hd); congruence|].
  destruct (d27_other _ _ _ _ _ Hd j _ Hne Hj) as (_ & _ & [Hl _] & _).
  pose proof (d27_len _ _ _ _ _ Hd). subst n. lia.
Qed.

(** The byte after the field is the low byte of the next inode number. *)
Lemma next_byte_27 dir slots i n ino :
  dir27 dir slots i n ino -> Forall is_byte dir -> forall o, slots !! S i = Some o ->
  exists c t, drop (32 * S i) dir = c :: t /\
    match o with None => c = 0 | Some _ => c <> 0 end.
Proof.
  intros Hd Hbytes o Ho. pose proof (d27_dir _ _ _ _ _ Hd) as Hl.
  assert (S i < 16)%nat as Hi by (rewrite <- (d27_slots _ _ _ _ _ Hd); by eapply lookup_lt_Some).
  pose proof (d27_other _ _ _ _ _ Hd (S i) o ltac:(lia) Ho) as He.
  destruct (drop (32 * S i) dir) as [|c t] eqn:Et.
  { apply (f_equal length) in Et. rewrite length_drop in Et. cbn in Et. lia. }
  exists c, t. split; [done|]. apply (Forall_drop _ (32 * S i)) in Hbytes. rewrite Et in Hbytes.
  apply Forall_cons in Hbytes as [Hc Ht].
  assert (dirent_ino dir (S i) = c + 256 * le_val (take 3 t)) as Eino
    by (unfold dirent_ino, le_get, sub; by rewrite Et).
  pose proof (le_val_bound (take 3 t) (Forall_take _ _ _ Ht)) as Hv. unfold is_byte in Hc.
  destruct o as [s|]; unfold entry_is in He; [destruct He as (He & ? & _)|]; lia.
Qed.

Section name27.
Context (dir : list Z) (slots : list (option slot)) (i : nat) (n : list Z) (ino : Z).
Context (Hd : dir27 dir slots i n ino).
Context (m : list Z) (Hm : forall s, Some s ∈ slots -> sl_name s <> m).

(** The name with the bytes that follow its field. *)
Lemma name27_mem : d_name_mem dir i = n ++ drop (32 * S i) dir.
Proof.
  unfold d_name_mem. rewrite <- (take_drop 27 (drop (32 * i + 5) dir)).
  change (take 27 (drop (32 * i + 5) dir)) with (sub (32 * i + 5) 27 dir).
  rewrite (d27_name _ _ _ _ _ Hd), drop_drop. do 2 f_equal. lia.
Qed.

(** The search from a slot before [i] comes to [i]. *)
Lemma find_to_27 j k :
  (j <= i)%nat -> (i < 16)%nat ->
  find_loop (i - j + k) j dir (cmem m) (Z.of_nat (length m)) =
    find_loop k i dir (cmem m) (Z.of_nat (length m)).
Proof.
  intros Hj Hi. remember (i - j)%nat as x eqn:Ex. revert j Hj Ex.
  induction x as [|x IH]; intros j Hj Ex; [by replace i with j by lia|].
  destruct (lookup_lt_is_Some_2 slots j) as [o Ho]; [rewrite (d27_slots _ _ _ _ _ Hd); lia|].
  cbn [Nat.add]. rewrite (find_skip dir j o); [apply IH; lia|apply Hd|lia| |].
  - apply (d27_other _ _ _ _ _ Hd); [lia|done].
  - intros s ->. apply Hm. by eapply list_elem_of_lookup_2.
Qed.

(** The search after [i] finds nothing. *)
Lemma find_after_27 k : forall j, (i < j)%nat -> (j + k = 16)%nat ->
  find_loop k j dir (cmem m) (Z.of_nat (length m)) = Some None.
Proof.
  induction k as [|k IH]; intros j Hj Hk; [done|].
  destruct (lookup_lt_is_Some_2 slots j) as [o Ho]; [rewrite (d27_slots _ _ _ _ _ Hd); lia|].
  rewrite (find_skip dir j o); [apply IH; lia|apply Hd|lia| |].
  - apply (d27_other _ _ _ _ _ Hd); [lia|done].
  - intros s ->. apply Hm. by eapply list_elem_of_lookup_2.
Qed.

(** Slot [i] itself: its length is 28 when a byte other than 0 follows, 27 when
    a 0 does, and undefined at the end of the block. *)
Lemma strlen_27 :
  mcsfs_strlen_bound (Some (d_name_mem dir i)) (MCSFS1_MAX_NAME + 1) =
    match drop (32 * S i) dir with
    | [] => None
    | c :: _ => Some (if c =? 0 then 27 else 28)
    end.
Proof.
  unfold mcsfs_strlen_bound. rewrite name27_mem. change (Z.to_nat (MCSFS1_MAX_NAME + 1)) with 28%nat.
  pose proof (d27_len _ _ _ _ _ Hd) as Hl. pose proof (d27_bytes _ _ _ _ _ Hd) as Hb.
  replace 28%nat with (length n + 1)%nat by lia. rewrite strlen_bound_next by done. by rewrite Hl.
Qed.

Lemma find_27 k :
  (i < 16)%nat -> (1 <= length m <= 27)%nat -> (i + S k = 16)%nat ->
  find_loop 16 0 dir (cmem m) (Z.of_nat (length m)) =
    match drop (32 * S i) dir with
    | [] => None
    | c :: _ => if (c =? 0) && bool_decide (n = m) then Some (Some (i, ino)) else Some None
    end.
Proof.
  intros Hi Hlm Hk. pose proof (find_to_27 0 (S k) ltac:(lia) Hi) as E.
  replace (i - 0 + S k)%nat with 16%nat in E by lia. rewrite E. cbn [find_loop]. rewrite d_ino_in by (apply Hd || done).
  destruct (d27_ino _ _ _ _ _ Hd) as [-> Hino]. rewrite (proj2 (Z.eqb_neq _ 0)) by lia.
  rewrite strlen_27. pose proof (find_after_27 k (S i) ltac:(lia) ltac:(lia)) as Hafter.
  destruct (drop (32 * S i) dir) as [|c t] eqn:Et; [done|]. pose proof (d27_len _ _ _ _ _ Hd).
  destruct (c =? 0); cbn [andb].
  - destruct (Z.eqb_spec 27 (Z.of_nat (length m))); cbn [negb].
    + rewrite name27_mem, Nat2Z.id. unfold cmem. rewrite mcsfs_memcmp_app by lia.
      by case_bool_decide.
    + rewrite bool_decide_eq_false_2 by (intros ->; lia). done.
  - by rewrite (proj2 (Z.eqb_neq 28 _)) by lia.
Qed.

End name27.

(** The operations that look for the name [m]. *)
Inductive op_finds (m : list Z) : fop -> Prop :=
  | finds_read buf : op_finds m (OpRead (Some m) buf)
  | finds_write data : (length data <= 4096)%nat -> op_finds m (OpWrite (Some m) data)
  | finds_unlink : op_finds m (OpUnlink (Some m)).

Lemma op_finds_result {D} (dev : mcsfs1_blkdev D) m op d :
  op_finds m op ->
  match find_dirent dev (Some m) d with
  | None => c_op dev op d = None
  | Some (inl rc, d') => c_op dev op d = Some (inl rc, d')
  | Some (inr _, _) => True
  end.
Proof.
  intros Hop.
  destruct Hop as [buf|data Hl|]; cbn [c_op]; unfold mcsfs1_read, mcsfs1_write, mcsfs1_unlink, ebind.
  - cbn [negb]. by destruct (find_dirent dev (Some m) d) as [[[rc|x] d']|].
  - unfold MCSFS1_DIRECT_BLOCKS, MCSFS1_BLOCK_SIZE. rewrite (proj2 (Z.ltb_ge _ _)) by lia.
    by destruct (find_dirent dev (Some m) d) as [[[rc|x] d']|].
  - by destruct (find_dirent dev (Some m) d) as [[[rc|x] d']|].
Qed.

Lemma find_dirent_loop {D} (dev : mcsfs1_blkdev D) m d dir d' :
  Forall (fun c => 0 < c < 256) m -> (1 <= length m <= 27)%nat ->
  dev_read dev MCSFS1_ROOT_DIR_LBA d = Some (inr dir, d') ->
  find_dirent dev (Some m) d =
    match find_loop 16 0 dir (cmem m) (Z.of_nat (length m)) with
    | None => None
    | Some None => Some (inl MCSFS1_ERR_NOENT, d')
    | Some (Some x) => Some (inr x, d')
    end.
Proof.
  intros Hb Hl Hr. unfold find_dirent, check, lift, ebind. rewrite valid_name_spec by done.
  unfold MCSFS1_MAX_NAME. rewrite (proj2 (Z.ltb_lt _ _)), (proj2 (Z.leb_le _ _)) by lia.
  cbn [andb]. rewrite Hr. cbn [default from_option id].
  change (Z.to_nat MCSFS1_DIRENT_COUNT) with 16%nat.
  by destruct (find_loop 16 0 dir (cmem m) (Z.of_nat (length m))) as [[x|]|].
Qed.

(** C37: a name of exactly 27 bytes fills its field and has no terminator.
    Take any directory block of entries with shorter names ([dir_is]) and what
    [mcsfs1_create] makes of it for a 27-byte name in slot [i], or any block
    that holds such an entry beside shorter ones ([dir27]), read back by any
    device.
    - If another byte than 0 follows the entry, as it does when slot [i + 1] is
      in use (inode numbers 2 to 32), the file cannot be read, written (up to
      4096 bytes) or removed: each call fails with [NOENT].
    - If slot [i + 1] is free the search still finds it.
    - In slot 15 the search for this name, and for every other name of 1 to 27
      bytes that no other slot holds, reads beyond the block: it is undefined. *)
Theorem mcsfs1_name27_lost {D : Type} (dev : mcsfs1_blkdev D) (d d' : D) dir slots i n ino :
  dev_read dev MCSFS1_ROOT_DIR_LBA d = Some (inr dir, d') -> Forall is_byte dir ->
  dir27 dir slots i n ino \/
  (exists dir0, dir_is dir0 slots /\ slots !! i = Some None /\ length n = 27%nat /\
     Forall (fun c => 0 < c < 256) n /\ 2 <= ino <= 32 /\ fill_dirent i ino n dir0 = Some dir) ->
  (forall s op, slots !! S i = Some (Some s) -> op_finds n op ->
     c_op dev op d = Some (inl MCSFS1_ERR_NOENT, d')) /\
  (slots !! S i = Some None -> find_dirent dev (Some n) d = Some (inr (i, ino), d')) /\
  (i = 15%nat -> forall m op, Forall (fun c => 0 < c < 256) m -> (1 <= length m <= 27)%nat ->
     (forall s, Some s ∈ slots -> sl_name s <> m) -> op_finds m op -> c_op dev op d = None).
Proof.
  intros Hr Hbytes Hdir.
  assert (Hd : dir27 dir slots i n ino).
  { destruct Hdir as [?|(dir0 & H0 & H1 & H2 & H3 & H4 & H5)]; [done|]. by eapply fill_dirent_27. }
  clear Hdir. pose proof (d27_len _ _ _ _ _ Hd) as Hn. pose proof (d27_bytes _ _ _ _ _ Hd) as Hb.
  pose proof (d27_not _ _ _ _ _ Hd) as Hnot. pose proof (next_byte_27 _ _ _ _ _ Hd Hbytes) as Hnext.
  assert (i < 16)%nat as Hi
    by (rewrite <- (d27_slots _ _ _ _ _ Hd); eapply lookup_lt_Some, (d27_here _ _ _ _ _ Hd)).
  split_all.
  - intros s op Hs Hop. destruct (Hnext _ Hs) as (c & t & Et & Hc).
    pose proof (op_finds_result dev n op d Hop) as H.
    rewrite (find_dirent_loop dev n d dir d' Hb), (find_27 _ _ _ _ _ Hd n Hnot (15 - i)) in H by (done || lia).
    rewrite Et, (proj2 (Z.eqb_neq c 0)) in H by lia. exact H.
  - intros Hs. destruct (Hnext _ Hs) as (c & t & Et & Hc).
    rewrite (find_dirent_loop dev n d dir d' Hb), (find_27 _ _ _ _ _ Hd n Hnot (15 - i)) by (done || lia).
    by rewrite Et, Hc, bool_decide_eq_true_2.
  - intros -> m op Hmb Hml Hm Hop. pose proof (op_finds_result dev m op d Hop) as H.
    rewrite (find_dirent_loop dev m d dir d' Hmb), (find_27 _ _ _ _ _ Hd m Hm 0) in H by (done || lia).
    rewrite drop_ge in H by (rewrite (d27_dir _ _ _ _ _ Hd); lia). exact H.
Qed.

(** ["aaa...a"] in the first slot, with ["b"] in the second one. *)
Definition name27 : list Z := replicate 27 97.
Definition slot_b : slot := mk_slot name_b 3 [9] 0.
Definition lost_slots : list (option slot) := None :: Some slot_b :: replicate 14 None.
Definition plain_dir : list Z := filled_dir 1 3 name_b (replicate 512 0).
Definition lost_dir : list Z := filled_dir 0 2 name27 plain_dir.

Lemma plain_dir_is : dir_is plain_dir lost_slots.
Proof.
  change lost_slots with (<[1%nat := Some slot_b]> (replicate 16 (@None slot))).
  apply (dir_is_set _ _ 1 slot_b); [|lia|cbn; lia|split; [cbn; lia|repeat constructor; lia]].
  split; [reflexivity|]. split; [reflexivity|]. intros j o [-> Hj]%lookup_replicate.
  apply le_get_zero. lia.
Qed.

Lemma mcsfs1_name27_lost_witness :
  c_op (ram_dev 16) (OpUnlink (Some name27)) {[7 := lost_dir]} =
    Some (inl MCSFS1_ERR_NOENT, {[7 := lost_dir]}).
Proof.
  apply (mcsfs1_name27_lost (ram_dev 16) {[7 := lost_dir]} {[7 := lost_dir]} lost_dir lost_slots 0
    name27 2) with (s := slot_b).
  - reflexivity.
  - apply Forall_forall. intros c Hc. revert c Hc. apply Forall_forall. vm_compute. repeat constructor; discriminate.
  - right. exists plain_dir. split; [exact plain_dir_is|]. split; [reflexivity|].
    split; [reflexivity|]. split; [apply Forall_replicate; lia|]. split; [lia|].
    apply fill_dirent_in; [apply plain_dir_is|lia|cbn; lia].
  - reflexivity.
  - constructor.
Defined.
