(* ===== verification/Mcsfs1Fault.v ===== *)
(** * MCSFS1: devices that refuse writes

    A program logic for the monad of [Mcsfs1] on a device any of whose writes
    may fail.  [fwp m M P R] says that [m], started on the image [M], returns:
    with a value and an image that satisfy [P], or with an error code and an
    image that satisfy [R].  As a write that fails changes nothing and every
    routine stops at its first error, [R] is what holds between any two
    writes, so it is also what a power failure leaves behind. *)
From S2P Require Import Prelude Bitmap Mcsfs1 Mcsfs1Dev Mcsfs1Dir Mcsfs1Disk Mcsfs1Data.

(** A write is done or refused; a flush may fail. *)
Class FaultyDev {D : Type} (dev : mcsfs1_blkdev D) `{!ReadDev dev} : Prop := {
  fd_write : exists write, cb_write dev = Some write /\
    forall lba b d, 0 <= lba < block_count dev -> length b = 512%nat ->
      exists rc d', write lba b d = (rc, d') /\
        dev_img d' = if rc =? 0 then <[lba := b]> (dev_img d) else dev_img d;
  fd_flush : exists flush, cb_flush dev = Some flush /\
    forall d, exists rc d', flush d = (rc, d') /\ dev_img d' = dev_img d
}.

#[export] Instance reliable_faulty {D} (dev : mcsfs1_blkdev D) `{!ReadDev dev, !ReliableDev dev} :
  FaultyDev dev.
Proof.
  split.
  - destruct rd_write as (write & E & Hw). exists write. split; [done|]. intros lba b d Hl Hb.
    destruct (Hw lba b d Hl Hb) as (d' & ? & ?). by exists 0, d'.
  - destruct rd_flush as (flush & E & Hf). exists flush. split; [done|]. intros d.
    destruct (Hf d) as (d' & ? & ?). by exists 0, d'.
Qed.

(** ** A disk with a list of faults *)

(** The disk, and for each write or flush to come whether it is refused. *)
Definition flaky_step (d : image * list bool) : bool * list bool :=
  match d.2 with [] => (false, []) | f :: fs => (f, fs) end.

Definition flaky_dev (n : Z) : mcsfs1_blkdev (image * list bool) :=
  mk_blkdev (image * list bool) n
    (Some (fun lba d => (match d.1 !! lba with Some b => inr b | None => inl MCSFS1_ERR_IO end, d)))
    (Some (fun lba b d => let f := flaky_step d in
             if f.1 then (MCSFS1_ERR_IO, (d.1, f.2)) else (0, (<[lba := b]> d.1, f.2))))
    (Some (fun d => let f := flaky_step d in
             (if f.1 then MCSFS1_ERR_IO else 0, (d.1, f.2)))).

#[export, program] Instance flaky_dev_reads n : ReadDev (flaky_dev n) := {| dev_img := fst |}.
Next Obligation.
  intros n. eexists. split; [reflexivity|]. intros lba d b _ Hb. exists d. cbn. by rewrite Hb.
Qed.

#[export] Instance flaky_dev_faulty n : FaultyDev (flaky_dev n).
Proof.
  split; (eexists; split; [reflexivity|]).
  - intros lba b d _ _. cbv beta zeta.
    destruct (flaky_step d).1; do 2 eexists; (split; [reflexivity|done]).
  - intros d. cbv beta zeta. do 2 eexists. split; [reflexivity|done].
Qed.

(** ** The logic *)

Section fwp.
Context {D : Type} (dev : mcsfs1_blkdev D) `{!ReadDev dev}.

Definition fwp {A} (m : em D A) (M : image) (P : A -> image -> Prop) (R : Z -> image -> Prop) : Prop :=
  forall d, dev_img d = M -> exists r d', m d = Some (r, d') /\
    match r with inr x => P x (dev_img d') | inl rc => R rc (dev_img d') end.

Lemma fwp_ret {A} (x : A) M (P : A -> image -> Prop) R : P x M -> fwp (eret x) M P R.
Proof. intros HP d <-. by exists (inr x), d. Qed.

Lemma fwp_fail {A} rc M (P : A -> image -> Prop) (R : Z -> image -> Prop) : R rc M -> fwp (efail rc) M P R.
Proof. intros HR d <-. by exists (inl rc), d. Qed.

Lemma fwp_bind {A B} (m : em D A) (k : A -> em D B) M P R :
  fwp m M (fun x M' => fwp (k x) M' P R) R -> fwp (ebind m k) M P R.
Proof.
  intros Hm d Hd. unfold ebind. destruct (Hm d Hd) as ([rc|x] & d1 & -> & H1).
  - by exists (inl rc), d1.
  - destruct (H1 d1 eq_refl) as (r & d2 & -> & H2). by exists r, d2.
Qed.

(** Computations that cannot fail because of the device. *)
Lemma fwp_sim {A} (m : em D A) M r M' (P : A -> image -> Prop) (R : Z -> image -> Prop) :
  sim dev m M r M' -> match r with inr x => P x M' | inl rc => R rc M' end -> fwp m M P R.
Proof. intros Hm Hr d Hd. destruct (Hm d Hd) as (d' & E & <-). by exists r, d'. Qed.

Lemma fwp_bind_sim {A B} (m : em D A) (k : A -> em D B) M x M' P R :
  sim dev m M (inr x) M' -> fwp (k x) M' P R -> fwp (ebind m k) M P R.
Proof. intros Hm Hk. by apply fwp_bind, (fwp_sim m M (inr x) M'). Qed.

Lemma fwp_bind_err {A B} (m : em D A) (k : A -> em D B) M rc M' P (R : Z -> image -> Prop) :
  sim dev m M (inl rc) M' -> R rc M' -> fwp (ebind m k) M P R.
Proof. intros Hm HR. by apply fwp_bind, (fwp_sim m M (inl rc) M'). Qed.

Context `{!FaultyDev dev}.

Lemma fwp_write lba b M (P : unit -> image -> Prop) (R : Z -> image -> Prop) :
  0 <= lba < block_count dev -> length b = 512%nat ->
  (forall rc, R rc M) -> P tt (<[lba := b]> M) -> fwp (dev_write dev lba b) M P R.
Proof.
  intros Hlba Hb HR HP d <-. unfold dev_write. destruct fd_write as (write & -> & Hwrite).
  rewrite (proj2 (Z.leb_gt _ _)) by lia.
  destruct (Hwrite lba b d Hlba Hb) as (rc & d' & -> & Hd'). cbn [fst snd].
  destruct (rc =? 0); do 2 eexists; (split; [reflexivity|]); cbv iota; rewrite Hd'; [done|apply HR].
Qed.

Lemma fwp_flush M (P : unit -> image -> Prop) (R : Z -> image -> Prop) :
  (forall rc, R rc M) -> P tt M -> fwp (dev_flush dev) M P R.
Proof.
  intros HR HP d <-. unfold dev_flush. destruct fd_flush as (flush & -> & Hflush).
  destruct (Hflush d) as (rc & d' & -> & Hd'). cbn [fst snd].
  destruct (rc =? 0); do 2 eexists; (split; [reflexivity|]); cbv iota; rewrite Hd'; [done|apply HR].
Qed.

(** ** The routines *)

Context (HN : 16 <= block_count dev <= 4096).
Local Abbreviation N := (block_count dev).

Lemma fwp_write_inode M ino inode (P : unit -> image -> Prop) (R : Z -> image -> Prop) :
  img_full N M -> 1 <= ino <= 32 -> length inode = 60%nat ->
  (forall rc, R rc M) -> P tt (put_inode ino inode M) -> fwp (write_inode dev ino inode) M P R.
Proof.
  intros HM Hi Hlen HR HP. unfold write_inode, MCSFS1_MAX_INODES, MCSFS1_DATA_START_LBA.
  pose proof (inode_lba_bounds ino Hi) as Hl.
  rewrite (proj2 (Z.eqb_neq _ _)), (proj2 (Z.ltb_ge _ _)), (proj2 (Z.leb_gt _ _)) by lia.
  cbn [orb]. eapply fwp_bind_sim; [apply sim_read; [lia|apply (img_full_lookup N); [done|lia]]|].
  destruct (inode_blk_ok N M (proj1 HN) HM ino Hi) as [Hb _]. pose proof (ioff_bounds ino) as Ho.
  destruct (write_inode_block ino inode (blk M (inode_lba ino)) Hlen Hb) as (t & Et & E).
  eapply fwp_bind_sim; [apply sim_lift, Et|]. cbv zeta. rewrite E.
  apply fwp_write; [lia|by rewrite length_splice by lia|done|done].
Qed.

Lemma fwp_store_bmaps M ib bb (P : unit -> image -> Prop) (R : Z -> image -> Prop) :
  block_ok ib -> block_ok bb -> (forall rc, R rc M) -> (forall rc, R rc (<[1 := ib]> M)) ->
  P tt (<[2 := bb]> (<[1 := ib]> M)) -> fwp (store_bmaps dev ib bb) M P R.
Proof.
  intros [Hi _] [Hb _] HR HR1 HP. unfold store_bmaps, MCSFS1_INODE_BMAP_LBA, MCSFS1_BLOCK_BMAP_LBA.
  apply fwp_bind, fwp_write; [lia|done|done|]. by apply fwp_write; [lia|..].
Qed.

Lemma fwp_alloc_inode_block M (P : Z * Z -> image -> Prop) (R : Z -> image -> Prop) :
  img_full N M -> meta_set (blk M 2) -> (forall rc, R rc M) ->
  (forall ino b, 2 <= ino <= 32 -> bm_get (blk M 1) ino = false ->
     8 <= b < N -> bm_get (blk M 2) b = false ->
     (forall rc, R rc (<[1 := bm_set (blk M 1) ino]> M)) /\
     P (ino, b) (<[2 := bm_set (blk M 2) b]> (<[1 := bm_set (blk M 1) ino]> M))) ->
  fwp (alloc_inode_block dev) M P R.
Proof.
  intros HM Hmeta HR HP.
  assert (Hib : block_ok (blk M 1)) by (apply (img_full_blk N); [done|lia]).
  assert (Hbb : block_ok (blk M 2)) by (apply (img_full_blk N); [done|lia]).
  unfold alloc_inode_block, MCSFS1_MAX_INODES.
  eapply fwp_bind_sim; [by apply sim_load_bmaps|]. cbn [fst snd].
  eapply fwp_bind_sim; [apply sim_lift, find_clear_spec; [done|lia..]|].
  destruct (first_from _ _ _) as [ino|] eqn:E; [|by apply fwp_fail].
  apply first_from_Some in E as (Hino & Hic%negb_true_iff & _).
  destruct (free_block_spec dev HN _ Hbb Hmeta) as ([b|] & Hfind & Hr).
  - eapply fwp_bind_sim; [apply Hfind|]. destruct Hr as [Hb Hbc].
    do 2 (eapply fwp_bind_sim; [apply sim_lift, bit_set_eq; [done|lia]|]).
    destruct (HP ino b ltac:(lia) Hic Hb Hbc) as [H1 H2].
    apply fwp_bind, fwp_store_bmaps; [by apply bm_set_ok|by apply bm_set_ok|done|done|]. by apply fwp_ret.
  - eapply fwp_bind_sim; [apply Hfind|]. by apply fwp_fail.
Qed.

Lemma fwp_alloc_data_block M (P : Z -> image -> Prop) (R : Z -> image -> Prop) :
  img_full N M -> meta_set (blk M 2) -> (forall rc, R rc M) ->
  (forall b, 8 <= b < N -> bm_get (blk M 2) b = false -> P b (<[2 := bm_set (blk M 2) b]> M)) ->
  fwp (alloc_data_block dev) M P R.
Proof.
  intros HM Hmeta HR HP.
  assert (Hib : block_ok (blk M 1)) by (apply (img_full_blk N); [done|lia]).
  assert (Hbb : block_ok (blk M 2)) by (apply (img_full_blk N); [done|lia]).
  assert (HM1 : <[1 := blk M 1]> M = M) by (apply insert_id, (img_full_lookup N); [done|lia]).
  unfold alloc_data_block. eapply fwp_bind_sim; [by apply sim_load_bmaps|]. cbn [fst snd].
  destruct (free_block_spec dev HN _ Hbb Hmeta) as ([b|] & Hfind & Hr).
  - eapply fwp_bind_sim; [apply Hfind|]. destruct Hr as [Hb Hbc].
    eapply fwp_bind_sim; [apply sim_lift, bit_set_eq; [done|lia]|].
    apply fwp_bind, fwp_store_bmaps; [done|by apply bm_set_ok|done|by rewrite HM1|].
    rewrite HM1. by apply fwp_ret, HP.
  - eapply fwp_bind_sim; [apply Hfind|]. by apply fwp_fail.
Qed.

(** Blocks already taken are lost when a later write is refused. *)
Lemma fwp_alloc_missing mode size n (R : Z -> image -> Prop) : forall k inode cur M
    (P : list Z -> image -> Prop),
  img_full N M -> meta_set (blk M 2) -> inode_is inode mode size cur ->
  Forall (fun b => 8 <= b < N) cur -> (k <= length cur)%nat -> (k + n <= 8)%nat ->
  (forall new bb' rc, grabbed N (blk M 2) bb' new -> R rc (<[2 := bb']> M)) ->
  (forall new bb' inode', grabbed N (blk M 2) bb' new -> inode_is inode' mode size (cur ++ new) ->
     length new = (k + n - length cur)%nat -> P inode' (<[2 := bb']> M)) ->
  fwp (alloc_missing dev n k inode) M P R.
Proof.
  induction n as [|n IH]; intros k inode cur M P HM Hmeta Hino Hcur Hk Hkn HR HP; cbn [alloc_missing].
  all: assert (Hbb : block_ok (blk M 2)) by (apply (img_full_blk N); [done|lia]).
  all: assert (HM2 : <[2 := blk M 2]> M = M)
         by (apply insert_id, (img_full_lookup N); [done|lia]).
  { apply fwp_ret. rewrite <- HM2. apply (HP []); [by apply grabbed_nil|by rewrite app_nil_r|].
    cbn. lia. }
  destruct (decide (k < length cur)%nat) as [Hlt|Hge].
  - eapply fwp_bind_sim; [apply sim_lift, i_direct_in; [apply Hino|lia]|].
    rewrite (proj2 (Z.eqb_neq _ 0)) by (eapply i_direct_used; done).
    apply (IH (S k) inode cur M); try done; try lia.
    intros new bb' inode' Hg Hi' Hl. apply (HP new); [done|done|lia].
  - assert (k = length cur) as -> by lia.
    assert (i_direct inode (length cur) = Some 0) as Hz.
    { rewrite (inode_is_direct _ _ _ _ _ Hino) by lia. by rewrite lookup_ge_None_2. }
    eapply fwp_bind_sim; [apply sim_lift, Hz|]. cbn [Z.eqb]. apply fwp_bind, fwp_alloc_data_block; [done|done| |].
    { intros rc. rewrite <- HM2. apply (HR []). by apply grabbed_nil. }
    intros b Hb Hfree. set (M1 := <[2 := bm_set (blk M 2) b]> M).
    assert (E2 : blk M1 2 = bm_set (blk M 2) b) by apply blk_insert.
    assert (E1 : forall bb', <[2 := bb']> M1 = <[2 := bb']> M) by (intros; apply insert_insert_eq).
    eapply fwp_bind_sim; [apply sim_lift, set_i_direct_in; [apply Hino|lia]|].
    apply (IH (S (length cur)) (with_direct (length cur) b inode) (cur ++ [b]) M1).
    + apply img_full_insert; [done|by apply bm_set_ok].
    + intros i Hi. rewrite E2, (bm_get_set _ 4096) by (lia || by apply bm_fits_4096).
      rewrite Hmeta by done. by destruct (b =? i).
    + apply inode_is_snoc; [done|lia|lia].
    + rewrite Forall_app, Forall_singleton. done.
    + rewrite length_app. cbn. lia.
    + lia.
    + intros new bb' rc Hg. rewrite E1. apply (HR (b :: new)).
      rewrite E2 in Hg. by apply grabbed_cons; [lia|..].
    + intros new bb' inode' Hg Hi' Hl. rewrite E1. rewrite E2 in Hg.
      rewrite <- app_assoc in Hi'. apply (HP (b :: new)); [by apply grabbed_cons; [lia|..]|done|].
      rewrite length_app in Hl. cbn [length] in Hl |- *. lia.
Qed.

(** A refused write leaves a prefix of the blocks rewritten. *)
Lemma fwp_write_loop mode size total inode blocks data n (R : Z -> image -> Prop) : forall k written M
    (P : unit -> image -> Prop),
  inode_is inode mode size blocks -> (total <= length blocks)%nat ->
  Forall (fun b => 8 <= b < N) blocks ->
  (512 * (total - 1) <= length data <= 512 * total)%nat -> (k + n = total)%nat ->
  n = 0%nat \/ written = 512 * Z.of_nat k ->
  (forall m rc, (m < n)%nat -> R rc (put_chunks k (take m (drop k blocks)) (padded total data) M)) ->
  P tt (put_chunks k (take n (drop k blocks)) (padded total data) M) ->
  fwp (write_loop dev n k inode data (Z.of_nat (length data)) written) M P R.
Proof.
  induction n as [|n IH]; intros k written M P Hi Ht Hbs Hl Hkn Hw HR HP; cbn [write_loop].
  { rewrite take_0 in HP. by apply fwp_ret. }
  destruct Hw as [?| ->]; [done|].
  destruct (write_chunk total data k) as [Hcopy Hnext]; [lia|done|].
  unfold MCSFS1_BLOCK_SIZE. set (chunk := if 512 <? _ then _ else _) in *.
  eapply fwp_bind_sim.
  { apply sim_lift. replace (Z.to_nat (512 * Z.of_nat k)) with (512 * k)%nat by lia.
    change (mcsfs_memset 512 0) with (replicate 512 0). apply Hcopy. }
  destruct (lookup_lt_is_Some_2 blocks k) as [b Hb]; [lia|].
  eapply fwp_bind_sim; [by eapply sim_lift, inode_is_block|].
  rewrite (drop_S _ b) in HP, HR by done. cbn [take put_chunks] in HP.
  rewrite Forall_lookup in Hbs. pose proof (Hbs k b Hb). rewrite <- Forall_lookup in Hbs.
  apply fwp_bind, fwp_write; [lia| |intros rc; apply (HR 0%nat); lia|].
  - apply length_sub. unfold padded. rewrite length_app, length_replicate. lia.
  - apply IH; try done; try lia. intros m rc Hm. apply (HR (S m)). lia.
Qed.

Lemma fwp_free_inode mode size M ino inode blocks (P : unit -> image -> Prop) (R : Z -> image -> Prop) :
  img_full N M -> 2 <= ino <= 32 ->
  inode_is inode mode size blocks -> Forall (fun b => 8 <= b < N) blocks -> NoDup blocks ->
  (forall b, b ∈ blocks -> bm_get (blk M 2) b = true) ->
  (forall rc, R rc M) -> (forall rc, R rc (<[1 := bm_clear (blk M 1) ino]> M)) ->
  (forall bb', block_ok bb' ->
     (forall i, 0 <= i < 4096 ->
        bm_get bb' i = bm_get (blk M 2) i && negb (bool_decide (i ∈ blocks))) ->
     P tt (<[2 := bb']> (<[1 := bm_clear (blk M 1) ino]> M))) ->
  fwp (free_inode_and_blocks dev ino inode) M P R.
Proof.
  intros HM Hino Hi Hbs Hnd Hset HR HR1 HP.
  assert (Hib : block_ok (blk M 1)) by (apply (img_full_blk N); [done|lia]).
  assert (Hbb : block_ok (blk M 2)) by (apply (img_full_blk N); [done|lia]).
  destruct (clear_direct_spec dev HN mode size inode blocks 8 0 (blk M 2)) as (bb' & E & Hok & Hg & _); try done.
  unfold free_inode_and_blocks. eapply fwp_bind_sim; [by apply sim_load_bmaps|]. cbn [fst snd].
  eapply fwp_bind_sim; [apply sim_lift, bit_clear_eq; [done|lia]|].
  eapply fwp_bind_sim; [apply sim_lift, E|].
  apply fwp_store_bmaps; [by apply bm_clear_ok|done|done|done|]. by apply HP.
Qed.

Lemma fwp_erase_blocks n (R : Z -> image -> Prop) : forall lba M (P : unit -> image -> Prop),
  0 <= lba -> lba + Z.of_nat n <= N -> (forall rc M', R rc M') ->
  (forall M', (forall x, lba <= x < lba + Z.of_nat n -> M' !! x = Some (replicate 512 0)) ->
     (forall x, x < lba -> M' !! x = M !! x) -> P tt M') ->
  fwp (erase_blocks dev n lba) M P R.
Proof.
  induction n as [|n IH]; intros lba M P Hlba Hn HR HP; cbn [erase_blocks].
  { apply fwp_ret, HP; [lia|done]. }
  apply fwp_bind, fwp_write; [lia|done|done|]. apply IH; [lia|lia|done|].
  intros M' H1 H2. apply HP.
  - intros x Hx. destruct (decide (x = lba)) as [->|Hne]; [|apply H1; lia].
    rewrite H2 by lia. apply lookup_insert_eq.
  - intros x Hx. rewrite H2 by lia. apply lookup_insert_ne. lia.
Qed.

End fwp.
