(* ===== verification/Mcsfs1FaultOps.v ===== *)
(** * MCSFS1: the file operations on a device that refuses writes

    [f_step] is what a client may rely on when any write or flush can fail:
    an operation that succeeds has its exact effect, one that fails has its
    whole effect, none, or (a write) has replaced some leading blocks of the
    file it names; no other file is touched.  The lemmas below show it of each
    operation, from any sound image. *)
From S2P Require Import Prelude Bitmap Mcsfs1 Mcsfs1Dev Mcsfs1Spec Mcsfs1Dir Mcsfs1Disk Mcsfs1Data Mcsfs1Rep Mcsfs1Images Mcsfs1Fault.

(** ** The specification *)

Abbreviation filemap := (gmap (list Z) fs_file).

(** The contents of a file whose first [i] blocks hold the data of a write
    that was not completed: its length is the old one. *)
Definition overwritten (i : nat) (data old : list Z) : list Z :=
  take (length old) (take (512 * i) (padded (a_need (length data)) data) ++ drop (512 * i) old).

Definition mutating (op : fop) : Prop :=
  match op with OpCreate _ | OpWrite _ _ | OpUnlink _ => True | _ => False end.

(** The size of the pool is not known to the client: blocks that a failed
    operation took are lost. *)
Inductive f_step : fop -> filemap -> ares -> filemap -> Prop :=
  | f_exact op m k :
      f_step op m (a_op op (mk_afs m k)).1 (a_files (a_op op (mk_afs m k)).2)
  | f_nothing op m k rc :
      mutating op -> (a_op op (mk_afs m k)).1 = inr None -> f_step op m (inl rc) m
  | f_late op m k rc :
      mutating op -> (a_op op (mk_afs m k)).1 = inr None ->
      f_step op m (inl rc) (a_files (a_op op (mk_afs m k)).2)
  | f_partial n data m f i rc :
      aname (Some n) = Some n -> m !! n = Some f -> (length data <= 4096)%nat ->
      f_step (OpWrite (Some n) data) m (inl rc)
        (<[n := mk_fs_file (overwritten i data (af_data f)) (af_blocks f)]> m).

Inductive f_run : list fop -> filemap -> list ares -> filemap -> Prop :=
  | f_run_nil m : f_run [] m [] m
  | f_run_cons op ops m r m1 rs m2 :
      f_step op m r m1 -> f_run ops m1 rs m2 -> f_run (op :: ops) m (r :: rs) m2.

Section ops.
Context {D : Type} (dev : mcsfs1_blkdev D) `{!ReadDev dev, !FaultyDev dev}.
Context (HN : 16 <= block_count dev <= 4096).
Local Abbreviation N := (block_count dev).

(** A sound image that holds the files [m]. *)
Definition fholds (M : image) (m : filemap) : Prop :=
  exists slots, wrep dev M slots /\ files_rel m (file_of M) slots.

Definition fspec (op : fop) (m : filemap) (r : ares) (M' : image) : Prop :=
  exists m', f_step op m r m' /\ fholds M' m'.

Definition tolerates (op : fop) (m : filemap) (M : image) : Prop :=
  fwp dev (c_op dev op) M (fun x => fspec op m (inr x)) (fun rc => fspec op m (inl rc)).

Lemma fspec_exact op m k M' :
  fholds M' (a_files (a_op op (mk_afs m k)).2) -> fspec op m (a_op op (mk_afs m k)).1 M'.
Proof. intros HM'. eexists. split; [apply f_exact|done]. Qed.

Lemma fspec_nothing op m k rc M' :
  mutating op -> (a_op op (mk_afs m k)).1 = inr None -> fholds M' m -> fspec op m (inl rc) M'.
Proof. intros Hop Hk HM'. eexists. split; [by eapply f_nothing|done]. Qed.

Lemma fspec_late op m k rc M' :
  mutating op -> (a_op op (mk_afs m k)).1 = inr None ->
  fholds M' (a_files (a_op op (mk_afs m k)).2) -> fspec op m (inl rc) M'.
Proof. intros Hop Hk HM'. eexists. split; [by eapply f_late|done]. Qed.

Section state.
Context (M : image) (slots : list (option slot)) (m : filemap).
Context (HR : wrep dev M slots) (HA : files_rel m (file_of M) slots).
Let find name := sim_find_dirent dev HN M slots m HR HA name.
Let blk_ok lba := blk_at_ok dev M slots HR lba.

Lemma fholds_here : fholds M m.
Proof. by exists slots. Qed.

(** Images in which the files are untouched. *)
Lemma fholds_frame M' :
  wrep dev M' slots -> (forall s b, Some s ∈ slots -> b ∈ sl_blocks s -> blk M' b = blk M b) ->
  fholds M' m.
Proof.
  intros HR' Hb. exists slots. split; [done|]. apply (files_rel_ext _ (file_of M)); [done|].
  intros s Hs. unfold file_of. f_equal. apply content_ext. intros b Hin. by apply (Hb s).
Qed.

(** An operation the device does not see fail. *)
Lemma tolerates_sim op k r :
  sim dev (c_op dev op) M r M -> a_op op (mk_afs m k) = (r, mk_afs m k) -> tolerates op m M.
Proof.
  intros Hs Hr. apply (fwp_sim dev _ _ _ _ _ _ Hs).
  pose proof (fspec_exact op m k M) as He. rewrite Hr in He. specialize (He fholds_here).
  by destruct r.
Qed.

Lemma tolerates_read name buf :
  name_bytes name -> Z.of_nat (length buf) < 2 ^ 32 -> tolerates (OpRead name buf) m M.
Proof.
  intros Hn Hb. apply (tolerates_sim _ 0 (a_read name buf (mk_afs m 0)).1).
  - by apply (sim_op_read dev HN M slots).
  - cbn [a_op]. unfold a_read. cbn [a_files]. destruct (aname name); [|done].
    destruct (m !! _); [|done]. by case_if.
Qed.

Lemma tolerates_mount : tolerates OpMount m M.
Proof. by apply (tolerates_sim _ 0 (inr None)); [apply (sim_op_mount dev HN M slots)|]. Qed.

Lemma tolerates_fsck : tolerates OpFsck m M.
Proof. by apply (tolerates_sim _ 0 (inr None)); [apply (sim_op_fsck dev HN M slots)|]. Qed.

(** ** Creating *)

Section create.
Context (n : list Z) (ino b : Z) (Hino : 2 <= ino <= 32) (Hic : bm_get (blk M 1) ino = false).
Context (Hb : 8 <= b < N).

(** The images up to the one in which the directory names the file. *)
Lemma create_frame M' :
  img_full N M' -> (forall x, x <= 0 \/ 7 <= x -> blk M' x = blk M x) ->
  (forall j, 1 <= j <= 32 -> j <> ino -> inode_of M' j = inode_of M j) ->
  blk M' 1 = bm_set (blk M 1) ino -> blk M' 2 = blk M 2 \/ blk M' 2 = bm_set (blk M 2) b ->
  fholds M' m.
Proof.
  intros Hf Hblk Hin H1 H2. apply fholds_frame.
  - apply (wrep_frame dev M); try done; try (apply Hblk; lia); try lia.
    + apply Hin; lia.
    + intros s Hs. pose proof (rep_ino _ _ _ _ HR Hs). apply Hin; [lia|].
      by apply (fresh_ino dev M slots HR ino Hic).
    + intros i Hi Hbit. rewrite H1, (bm_get_ib_set dev HN M slots HR) by lia. by case_if.
    + intros i Hi Hbit. destruct H2 as [->| ->]; [done|].
      rewrite (bm_get_bb_set dev HN M slots HR) by lia. by case_if.
  - intros s x Hs Hx. pose proof (used_range dev M slots HR s x Hs Hx). apply Hblk. lia.
Qed.

Lemma bmaps_holds : fholds (<[1 := bm_set (blk M 1) ino]> M) m /\ fholds (created_bmaps M ino b) m.
Proof.
  split; apply create_frame.
  - apply img_full_insert; [apply HR|apply bm_set_ok, blk_ok; lia].
  - intros x Hx. apply blk_insert_ne. lia.
  - intros j Hj _. by rewrite inode_of_insert by lia.
  - apply blk_insert.
  - left. by rewrite blk_insert_ne.
  - by apply (created_bmaps_full dev HN M slots HR).
  - intros x Hx. unfold created_bmaps. by rewrite !blk_insert_ne by lia.
  - intros j Hj _. unfold created_bmaps. by rewrite !inode_of_insert by lia.
  - unfold created_bmaps. by rewrite blk_insert_ne, blk_insert.
  - right. apply blk_insert.
Qed.

Lemma inode_holds : fholds (put_inode ino (created_inode b) (created_bmaps M ino b)) m.
Proof.
  pose proof (created_bmaps_full dev HN M slots HR ino b) as Hfull.
  destruct (created_inode_is dev HN b Hb) as (Hl & Hbt & _).
  apply create_frame.
  - apply (img_full_put_inode N); (done || lia).
  - intros x Hx. rewrite blk_put_inode by lia. unfold created_bmaps. by rewrite !blk_insert_ne by lia.
  - intros j Hj Hne. rewrite (inode_of_put_other N) by (done || lia).
    unfold created_bmaps. by rewrite !inode_of_insert by lia.
  - rewrite blk_put_inode by lia. unfold created_bmaps. by rewrite blk_insert_ne, blk_insert.
  - right. rewrite blk_put_inode by lia. apply blk_insert.
Qed.
Context (i : nat) (Hi : (i < 16)%nat) (Hslot : slots !! i = Some None) (Hn : fname_ok n).
Context (Hnew : forall s, Some s ∈ slots -> sl_name s <> n) (Hbc : bm_get (blk M 2) b = false).

Lemma created_holds : fholds (created M i n ino b) (<[n := mk_fs_file [] 1]> m).
Proof.
  destruct (created_rep dev HN M slots HR i n ino b) as [HR' Hsame]; try done.
  exists (<[i := Some (created_slot n ino b)]> slots). split; [done|].
  assert (length slots = 16%nat) by apply (rep_dir _ _ _ HR).
  assert (E : file_of (created M i n ino b) (created_slot n ino b) = mk_fs_file [] 1) by done.
  rewrite <- E. apply (files_rel_set m (file_of M) _ slots i (created_slot n ino b));
    [done|lia|by eapply rep_names|done|]. intros s' Hs'. congruence.
Qed.
End create.

Lemma room_left i : slots !! i = Some None -> (size m < 16)%nat.
Proof.
  intros Hi. rewrite (files_rel_size (file_of M) slots m) by (done || by eapply rep_names).
  destruct (length_omap_id slots) as [H1 H2].
  assert (length slots = 16%nat) by apply (rep_dir _ _ _ HR).
  destruct (decide (length (omap id slots) = length slots)) as [E|E]; [|lia].
  by destruct (proj1 H2 E i).
Qed.

Lemma tolerates_create name :
  name_bytes name -> match name with Some n => length n <> 27%nat | None => True end ->
  tolerates (OpCreate name) m M.
Proof.
  intros Hn H27. pose proof (find name Hn) as Hf. pose proof (sim_valid_name dev M name Hn) as Hv.
  destruct (aname name) as [n|] eqn:En.
  2: { apply (tolerates_sim _ 0 (inl MCSFS1_ERR_NAMETOOLONG)); [by do 2 apply sim_bind_err|].
       cbn. unfold a_create. by rewrite En. }
  pose proof En as [-> Hlen]%aname_Some. destruct (m !! n) as [f|] eqn:Em.
  { destruct Hf as (j & s & _ & _ & _ & Hf).
    apply (tolerates_sim _ 0 (inl MCSFS1_ERR_EXIST)).
    - apply sim_bind_err. eapply sim_bind; [apply Hv|]. cbv beta iota.
      eapply sim_bind; [apply (sim_found _ _ _ _ _ Hf)|]. apply sim_fail.
    - cbn. unfold a_create. rewrite En. cbn [a_files]. by rewrite Em. }
  destruct Hf as [Hf Hnew]. pose proof (free_idx_spec _ _ (rep_dir _ _ _ HR)) as Hslot.
  assert (Hnospc : a_op (OpCreate (Some n)) (mk_afs m 0) = (inl MCSFS1_ERR_NOSPC, mk_afs m 0)).
  { cbn. apply a_create_nospc; [lia|done]. }
  unfold tolerates. cbn [c_op]. unfold mcsfs1_create, MCSFS1_ROOT_DIR_LBA.
  apply fwp_bind. eapply fwp_bind_sim; [apply Hv|].
  eapply fwp_bind_sim; [apply (sim_found _ _ _ _ _ Hf)|]. cbv beta iota.
  eapply fwp_bind_sim; [apply (sim_read_blk dev M slots HR); lia|].
  assert (Hfull : fspec (OpCreate (Some n)) m (inl MCSFS1_ERR_NOSPC) M).
  { pose proof (fspec_exact (OpCreate (Some n)) m 0 M) as He. rewrite Hnospc in He. apply He, fholds_here. }
  eapply fwp_bind_sim; [apply sim_lift, free_slot_in, (rep_dir _ _ _ HR)|].
  destruct (free_idx (blk M 7)) as [i|]; [|by apply fwp_fail].
  destruct Hslot as [Hi Hslot]. pose proof (room_left _ Hslot) as Hroom.
  assert (Hok : a_op (OpCreate (Some n)) (mk_afs m 1) = (inr None, mk_afs (<[n := mk_fs_file [] 1]> m) 0)).
  { cbn. unfold a_create. rewrite En. cbn [a_files a_free]. rewrite Em.
    by rewrite (proj2 (Z.leb_gt 16 _)) by lia. }
  assert (Hno : forall rc M', fholds M' m -> fspec (OpCreate (Some n)) m (inl rc) M').
  { intros. apply (fspec_nothing _ _ 1); [done|by rewrite Hok|done]. }
  apply fwp_bind, (fwp_alloc_inode_block dev HN); [apply HR|apply HR| |].
  { intros rc. apply Hno, fholds_here. }
  intros ino b Hino Hic Hb Hbc. destruct (bmaps_holds ino b Hino Hic Hb) as [H1 H2].
  split; [intros rc; by apply Hno|]. cbn [fst snd default from_option id].
  pose proof (created_bmaps_full dev HN M slots HR ino b) as Hcf.
  apply fwp_bind, (fwp_write_inode dev HN); [done|lia|done|intros rc; by apply Hno|].
  rewrite Nat2Z.id, take_ge by lia.
  assert (Hfin : fholds (created M (Z.to_nat i) n ino b) (<[n := mk_fs_file [] 1]> m)).
  { apply created_holds; try done; [lia|]. by split; [lia|]. }
  eapply fwp_bind_sim; [apply sim_lift, fill_dirent_in; [apply blk_ok|..]; lia|].
  apply fwp_bind, (fwp_write dev); [lia|apply length_fill_dirent; [lia|lia|apply blk_ok; lia]| |].
  { intros rc. apply Hno. by apply inode_holds. }
  apply (fwp_flush dev).
  - intros rc. apply (fspec_late _ _ 1); [done|by rewrite Hok|by rewrite Hok].
  - apply fwp_ret. pose proof (fspec_exact (OpCreate (Some n)) m 1) as He. rewrite Hok in He. by apply He.
Qed.
(** ** Writing *)

Section write.
Context (n data : list Z) (j : nat) (s : slot).
Context (Hn : aname (Some n) = Some n) (Hj : slots !! j = Some (Some s)) (Hsn : sl_name s = n).
Context (Hdata : Forall is_byte data) (Hlen : (length data <= 4096)%nat).
Local Abbreviation need := (a_need (length data)).
Local Abbreviation op := (OpWrite (Some n) data).
Context (bb' new : list Z) (Hg : grabbed N (blk M 2) bb' new).
Local Abbreviation blocks' := (sl_blocks s ++ new).

(** The image after [i] blocks of data. *)
Definition partly (i : nat) : image :=
  put_chunks 0 (take i blocks') (padded need data) (<[2 := bb']> M).

Lemma partly_blk i x : x ∉ blocks' -> x <> 2 -> blk (partly i) x = blk M x.
Proof.
  intros Hx H2. unfold partly. rewrite blk_put_chunks; [by apply blk_insert_ne|].
  intros Ht. apply Hx. rewrite <- (take_drop i blocks'), elem_of_app. by left.
Qed.

Lemma partly_low i x : x < 8 -> x <> 2 -> blk (partly i) x = blk M x.
Proof. intros. apply partly_blk; [|done]. by apply (low_not_block dev M slots HR bb' new Hg j s Hj). Qed.

Lemma partly_wrep i : (i <= need)%nat -> wrep dev (partly i) slots.
Proof.
  intros Hi. pose proof (proj1 Hg) as Hok. destruct (blocks_needed_spec _ Hlen) as (_ & _ & Hn1).
  assert (Hino : forall k, 1 <= k <= 32 -> inode_of (partly i) k = inode_of M k).
  { intros k Hk. unfold inode_of. pose proof (inode_lba_bounds k Hk). by rewrite partly_low by lia. }
  apply (wrep_frame dev M); try done; try (apply partly_low; lia); try lia.
  - apply img_full_put_chunks; [by apply img_full_insert; [apply HR|]| |].
    + apply Forall_app. auto with mcsos.
    + rewrite length_padded, length_take by lia. lia.
  - apply Hino. lia.
  - intros t Ht. pose proof (rep_ino _ _ _ _ HR Ht). apply Hino. lia.
  - intros k _. by rewrite partly_low by lia.
  - intros k Hk Hbit. unfold partly. rewrite blk_put_chunks, blk_insert; [by eapply grab_mono|].
    intros Ht. apply (low_not_block dev M slots HR bb' new Hg j s Hj 2); [lia|].
    rewrite <- (take_drop i blocks'), elem_of_app. by left.
Qed.

Lemma partly_other i k t : k <> j -> slots !! k = Some (Some t) -> file_of (partly i) t = file_of M t.
Proof.
  intros Hne Hk. assert (Ht : Some t ∈ slots) by (by eapply list_elem_of_lookup_2).
  destruct (rep_disj _ _ _ HR j k s t Hj Hk ltac:(done)) as (_ & _ & Hd).
  unfold file_of. f_equal. apply content_ext. intros b Hb.
  pose proof (used_range dev M slots HR t b Ht Hb). apply partly_blk; [|lia].
  rewrite elem_of_app. intros [Hs|Hnew]; [by apply (Hd b)|].
  by apply (grab_fresh dev M slots HR bb' new Hg t b).
Qed.

Lemma partly_file i :
  (i <= need)%nat ->
  file_of (partly i) s = mk_fs_file
    (overwritten (Nat.min i (length (sl_blocks s))) data (af_data (file_of M s)))
    (af_blocks (file_of M s)).
Proof.
  intros Hi. assert (Hs : Some s ∈ slots) by (by eapply list_elem_of_lookup_2).
  destruct (rep_slot _ _ _ HR s Hs) as [_ Hr _ _ _ _]. pose proof (proj1 Hg) as Hok.
  destruct (blocks_needed_spec _ Hlen) as (_ & _ & Hn1).
  unfold file_of, partly, overwritten. cbn [af_data af_blocks]. f_equal.
  rewrite (length_content dev M slots HR s Hs).
  rewrite (content_put_prefix N); [|by apply img_full_insert; [apply HR|]|done
    |by apply (blocks'_nodup dev M slots HR bb' new Hg j)|rewrite length_padded; lia].
  f_equal. do 2 f_equal. apply content_ext. intros b Hb.
  pose proof (used_range dev M slots HR s b Hs Hb). apply blk_insert_ne. lia.
Qed.

Lemma partly_spec i rc : (i <= need)%nat -> fspec op m (inl rc) (partly i).
Proof.
  intros Hi. assert (Hs : Some s ∈ slots) by (by eapply list_elem_of_lookup_2). eexists. split.
  - apply (f_partial n data m (file_of M s) (Nat.min i (length (sl_blocks s)))); [done| |done].
    apply HA. by exists s.
  - exists slots. split; [by apply partly_wrep|]. rewrite <- partly_file, <- Hsn by done.
    rewrite <- (list_insert_id slots j (Some s)) by done.
    apply (files_rel_set m (file_of M) _ slots j s); [done|by eapply lookup_lt_Some| |by apply partly_other|].
    + rewrite list_insert_id by done. by eapply rep_names.
    + intros s' Hs'. by simplify_eq.
Qed.

Context (inode' : list Z) (Hnew : length new = (need - length (sl_blocks s))%nat).
Context (Hi' : inode_is inode' MCSFS1_MODE_FILE (sl_size s) blocks').

Lemma written_spec :
  exists k, a_op op (mk_afs m k) = (inr None, mk_afs (<[n := mk_fs_file data (length blocks')]> m) 0) /\
  fholds (written M bb' new s data inode') (<[n := mk_fs_file data (length blocks')]> m).
Proof.
  assert (Hs : Some s ∈ slots) by (by eapply list_elem_of_lookup_2).
  assert (Hbl : (need <= length blocks')%nat) by (rewrite length_app; lia).
  assert (Em : m !! n = Some (file_of M s)) by (apply HA; by exists s).
  exists (need - length (sl_blocks s))%nat. split.
  - cbn [a_op]. unfold a_write. rewrite (proj2 (Z.ltb_ge _ _)), Hn by lia. cbn [a_files a_free].
    rewrite Em. cbn [file_of af_blocks]. rewrite (proj2 (Z.ltb_ge _ _)), length_app, Hnew by lia.
    do 3 f_equal. lia.
  - destruct (written_rep dev HN M slots HR bb' new Hg j s data inode') as [HR' Hsame]; try done.
    exists (<[j := Some (written_slot new s data)]> slots). split; [done|].
    rewrite <- (written_file dev M slots HR bb' new Hg j s data inode' Hj Hlen Hbl), <- Hsn.
    apply (files_rel_set m (file_of M) _ slots j (written_slot new s data));
      [done|by eapply lookup_lt_Some|by eapply rep_names|done|].
    intros s' Hs'. by simplify_eq.
Qed.
End write.

(** The write of a file that exists. *)
Lemma tolerates_write_file n data j s :
  aname (Some n) = Some n -> slots !! j = Some (Some s) -> sl_name s = n ->
  Forall is_byte data -> (length data <= 4096)%nat ->
  sim dev (find_dirent dev (Some n)) M (inr (j, sl_ino s)) M ->
  tolerates (OpWrite (Some n) data) m M.
Proof.
  intros Hn Hj Hsn Hdata Hlen Hf. assert (Hs : Some s ∈ slots) by (by eapply list_elem_of_lookup_2).
  destruct (rep_slot _ _ _ HR s Hs) as [Hi Hr _ _ _ _]. pose proof (rep_ino _ _ _ _ HR Hs) as Hino.
  destruct (Hi) as (_ & _ & _ & Hmode & _). destruct (blocks_needed_spec _ Hlen) as (Hbn & Hneed & Hnl).
  unfold tolerates. cbn [c_op].
  unfold mcsfs1_write, MCSFS1_DIRECT_BLOCKS, MCSFS1_BLOCK_SIZE. change (8 * 512) with 4096.
  rewrite (proj2 (Z.ltb_ge _ _)) by lia. apply fwp_bind. eapply fwp_bind_sim; [apply Hf|]. cbn [snd].
  eapply fwp_bind_sim; [by apply (sim_read_file dev HN M slots HR)|].
  rewrite Hmode, Z.eqb_refl, Hbn, Nat2Z.id. cbn [negb default from_option id].
  apply fwp_bind, (fwp_alloc_missing dev HN MCSFS1_MODE_FILE (sl_size s) _ _ 0 _ (sl_blocks s));
    [apply HR|apply HR|done|done|lia|lia| |].
  { intros new bb' rc Hg. by apply (partly_spec n data j s Hn Hj Hsn Hdata Hlen bb' new Hg 0); [lia|..]. }
  intros new bb' inode' Hg Hi' Hnew. rewrite Nat.add_0_l in Hnew.
  assert (Hbl : (a_need (length data) <= length (sl_blocks s ++ new))%nat) by (rewrite length_app; lia).
  pose proof (fun i rc => partly_spec n data j s Hn Hj Hsn Hdata Hlen bb' new Hg i rc) as Hpart.
  apply fwp_bind, (fwp_write_loop dev MCSFS1_MODE_FILE (sl_size s) (a_need (length data)) inode'
    (sl_blocks s ++ new)); [done|done|by apply (blocks'_range dev M slots HR bb' new Hg j)|lia|lia|by right| |].
  { intros i rc Hlt. rewrite drop_0. apply Hpart. lia. }
  rewrite drop_0. destruct (written_spec n data j s Hn Hj Hsn Hdata Hlen bb' new Hg inode' Hnew Hi')
    as (k & Hk & Hfin).
  apply fwp_bind, (fwp_write_inode dev HN);
    [by apply (written_data_full dev M slots HR bb' new Hg s)|lia|by eapply written_inode_is| |].
  { intros rc. by apply Hpart. }
  apply (fwp_flush dev).
  - intros rc. apply (fspec_late _ _ k); [done|by rewrite Hk|by rewrite Hk].
  - apply fwp_ret. pose proof (fspec_exact (OpWrite (Some n) data) m k) as He. rewrite Hk in He. by apply He.
Qed.

Lemma tolerates_write name data :
  name_bytes name -> Forall is_byte data -> tolerates (OpWrite name data) m M.
Proof.
  intros Hn Hdata. pose proof (find name Hn) as Hf.
  destruct (4096 <? Z.of_nat (length data)) eqn:El.
  { apply (tolerates_sim _ 0 (inl MCSFS1_ERR_RANGE)); cbn [a_op c_op].
    - apply sim_bind_err. unfold mcsfs1_write, MCSFS1_DIRECT_BLOCKS, MCSFS1_BLOCK_SIZE.
      change (8 * 512) with 4096. rewrite El. apply sim_fail.
    - unfold a_write. by rewrite El. }
  assert (Herr : forall rc, sim dev (find_dirent dev name) M (inl rc) M ->
    a_write name data (mk_afs m 0) = (inl rc, mk_afs m 0) -> tolerates (OpWrite name data) m M).
  { intros rc Hm Ha. apply (tolerates_sim _ 0 (inl rc)); [|done]. cbn [c_op].
    apply sim_bind_err. unfold mcsfs1_write, MCSFS1_DIRECT_BLOCKS, MCSFS1_BLOCK_SIZE.
    change (8 * 512) with 4096. rewrite El. by apply sim_bind_err. }
  unfold a_write in Herr. rewrite El in Herr. cbn [a_files] in Herr.
  destruct (aname name) as [n|] eqn:En; [|by eapply Herr].
  pose proof En as [-> _]%aname_Some.
  destruct (m !! n) as [f|] eqn:Em; [|destruct Hf; by eapply Herr].
  destruct Hf as (j & s & Hj & Hsn & _ & Hf). zbool. by apply (tolerates_write_file n data j s); try lia.
Qed.

(** ** Removing *)

(** The images after the directory entry is gone. *)
Lemma removed_holds j s ib' bb' :
  slots !! j = Some (Some s) ->
  ib' = blk M 1 \/ ib' = bm_clear (blk M 1) (sl_ino s) ->
  block_ok bb' ->
  (forall i, 0 <= i < 4096 -> i ∉ sl_blocks s -> bm_get (blk M 2) i = true -> bm_get bb' i = true) ->
  fholds (removed M j ib' bb') (delete (sl_name s) m).
Proof.
  intros Hj Hib Hok Hget. assert (Hs : Some s ∈ slots) by (by eapply list_elem_of_lookup_2).
  pose proof (rep_ino _ _ _ _ HR Hs).
  destruct (removed_rep dev HN M slots HR j s ib' bb' Hj) as [HR' Hsame]; try done.
  - destruct Hib as [->| ->]; [|apply bm_clear_ok]; apply blk_ok; lia.
  - intros i Hi Hne Hbit. destruct Hib as [->| ->]; [done|]. by apply (cleared_ib dev HN M slots HR).
  - exists (<[j := None]> slots). split; [done|].
    apply (files_rel_clear m (file_of M) _ slots j s); [done|done|by eapply rep_names|done].
Qed.

(** Nothing but the directory is written, and the inode bitmap besides. *)
Lemma removed_id j ib' :
  <[1 := ib']> (removed_dir M j) = removed M j ib' (blk M 2) /\
  removed_dir M j = removed M j (blk M 1) (blk M 2).
Proof.
  assert (Hat : forall lba, 0 <= lba < N -> M !! lba = Some (blk M lba))
    by (intros; apply (img_full_lookup N); [apply HR|done]).
  unfold removed, removed_dir. split.
  - symmetry. apply insert_id. rewrite !lookup_insert_ne by done. apply Hat. lia.
  - rewrite (insert_id _ 1) by (rewrite lookup_insert_ne by done; apply Hat; lia).
    symmetry. apply insert_id. rewrite lookup_insert_ne by done. apply Hat. lia.
Qed.

Lemma tolerates_unlink_file n j s :
  aname (Some n) = Some n -> slots !! j = Some (Some s) -> sl_name s = n ->
  sim dev (find_dirent dev (Some n)) M (inr (j, sl_ino s)) M -> tolerates (OpUnlink (Some n)) m M.
Proof.
  intros En Hj Hsn Hf. assert (Hs : Some s ∈ slots) by (by eapply list_elem_of_lookup_2).
  assert (Hj16 : (j < 16)%nat) by (apply lookup_lt_Some in Hj; destruct (rep_dir _ _ _ HR); lia).
  pose proof (rep_slot _ _ _ HR s Hs) as [Hi Hr _ _ Hnd Hbits]. pose proof (rep_ino _ _ _ _ HR Hs) as Hino.
  assert (Em : m !! n = Some (file_of M s)) by (apply HA; by exists s).
  assert (exists k, a_op (OpUnlink (Some n)) (mk_afs m 0) = (inr None, mk_afs (delete n m) k)) as [k Hok].
  { cbn. unfold a_unlink. rewrite En. cbn [a_files a_free]. rewrite Em. by eexists. }
  assert (Hlate : forall rc M', fholds M' (delete n m) -> fspec (OpUnlink (Some n)) m (inl rc) M').
  { intros. apply (fspec_late _ _ 0); [done|by rewrite Hok|by rewrite Hok]. }
  assert (Hfull : img_full N (removed_dir M j)).
  { apply img_full_insert; [apply HR|]. apply clear_dirent_ok; [done|apply blk_ok; lia]. }
  assert (E1 : blk (removed_dir M j) 1 = blk M 1) by (by apply blk_insert_ne).
  assert (E2 : blk (removed_dir M j) 2 = blk M 2) by (by apply blk_insert_ne).
  assert (Hbb : block_ok (blk M 2)) by (apply blk_ok; lia).
  unfold tolerates. cbn [c_op]. unfold mcsfs1_unlink, MCSFS1_ROOT_DIR_LBA.
  apply fwp_bind. eapply fwp_bind_sim; [apply Hf|]. cbn [fst snd].
  eapply fwp_bind_sim; [by apply (sim_read_file dev HN M slots HR)|].
  eapply fwp_bind_sim; [apply (sim_read_blk dev M slots HR); lia|].
  eapply fwp_bind_sim; [apply sim_lift, clear_dirent_in; [apply blk_ok; lia|done]|].
  apply fwp_bind, (fwp_write dev); [lia|by apply clear_dirent_ok, blk_ok; lia| |].
  { intros rc. apply (fspec_nothing _ _ 0); [done|by rewrite Hok|by exists slots]. }
  fold (removed_dir M j). apply fwp_bind, (fwp_free_inode dev HN MCSFS1_MODE_FILE (sl_size s) _ _ _ (sl_blocks s));
    [done|done|done|done|done|by rewrite E2| | |].
  - intros rc. apply Hlate. rewrite <- Hsn, (proj2 (removed_id j (blk M 1))).
    by apply removed_holds; [|left|..].
  - intros rc. apply Hlate. rewrite E1, <- Hsn, (proj1 (removed_id j _)).
    by apply removed_holds; [|right|..].
  - intros bb' Hb' Hget. rewrite E1. rewrite E2 in Hget.
    assert (Hfin : fholds (removed M j (bm_clear (blk M 1) (sl_ino s)) bb') (delete n m)).
    { rewrite <- Hsn. apply removed_holds; [done|by right|done|]. intros. by eapply cleared_bb. }
    apply (fwp_flush dev); [intros rc; by apply Hlate|]. apply fwp_ret.
    pose proof (fspec_exact (OpUnlink (Some n)) m 0) as He. rewrite Hok in He. by apply He.
Qed.

Lemma tolerates_unlink name : name_bytes name -> tolerates (OpUnlink name) m M.
Proof.
  intros Hn. pose proof (find name Hn) as Hf.
  assert (Herr : forall rc, sim dev (find_dirent dev name) M (inl rc) M ->
    a_unlink name (mk_afs m 0) = (inl rc, mk_afs m 0) -> tolerates (OpUnlink name) m M).
  { intros rc Hm Ha. apply (tolerates_sim _ 0 (inl rc)); [|done]. cbn [c_op].
    by apply sim_bind_err, sim_bind_err. }
  unfold a_unlink in Herr. cbn [a_files] in Herr.
  destruct (aname name) as [n|] eqn:En; [|by eapply Herr].
  pose proof En as [-> _]%aname_Some.
  destruct (m !! n) as [f|] eqn:Em; [|destruct Hf; by eapply Herr].
  destruct Hf as (j & s & Hj & Hsn & _ & Hf). by apply (tolerates_unlink_file n j s).
Qed.

End state.

(** ** Any operation, and formatting *)

Lemma op_tolerates op M m : fholds M m -> fop_ok op -> tolerates op m M.
Proof.
  intros (slots & HR & HA) Hop. destruct op; cbn [fop_ok] in Hop.
  - destruct Hop. by eapply tolerates_create.
  - destruct Hop. by eapply tolerates_write.
  - destruct Hop. by eapply tolerates_read.
  - by eapply tolerates_unlink.
  - by eapply tolerates_mount.
  - by eapply tolerates_fsck.
Qed.
End ops.
