(* ===== verification/Mcsfs1FaultTheorems.v ===== *)
(** * MCSFS1: theorems about write faults

    On a device that may refuse any write or flush, formatting and every
    sequence of file operations return, and the files follow [f_step]: what
    fails leaves the other files alone and the image sound. *)
From S2P Require Import Prelude Bitmap Mcsfs1 Mcsfs1Dev Mcsfs1Spec Mcsfs1Dir Mcsfs1Disk Mcsfs1Data Mcsfs1Rep Mcsfs1Format Mcsfs1Images Mcsfs1Fault Mcsfs1FaultOps.

(** ** Facts about the specification *)

(** The operations that may change the file [n]. *)
Definition touches (n : list Z) (op : fop) : bool :=
  match op with
  | OpCreate (Some n') | OpWrite (Some n') _ | OpUnlink (Some n') => bool_decide (n' = n)
  | _ => false
  end.

Lemma a_op_other op s n :
  touches n op = false -> a_files (a_op op s).2 !! n = a_files s !! n.
Proof.
  assert (Hname : forall name n', aname name = Some n' -> name = Some n').
  { intros name n' H. by apply aname_Some in H as [-> _]. }
  destruct op as [name|name data|name buf|name| |]; cbn [a_op touches]; try done;
    unfold a_create, a_write, a_read, a_unlink; intros Ht;
    repeat (case_if || case_match); try done; cbn [snd a_files];
    match goal with H : aname ?nm = Some _ |- _ => apply Hname in H end; simplify_eq;
    apply bool_decide_eq_false in Ht; (by apply lookup_insert_ne) || (by apply lookup_delete_ne).
Qed.

Lemma f_step_other op m r m' n : f_step op m r m' -> touches n op = false -> m' !! n = m !! n.
Proof.
  intros Hs Ht. destruct Hs as [op m k|op m k rc|op m k rc|n' data m f i rc]; try done.
  - by apply (a_op_other op (mk_afs m k)).
  - by apply (a_op_other op (mk_afs m k)).
  - cbn [touches] in Ht. apply bool_decide_eq_false in Ht. by apply lookup_insert_ne.
Qed.

Lemma f_run_other ops m rs m' n :
  f_run ops m rs m' -> Forall (fun op => touches n op = false) ops -> m' !! n = m !! n.
Proof.
  induction 1 as [m|op ops m r m1 rs m2 Hs _ IH]; [done|]. intros [Ht Hts]%Forall_cons.
  rewrite IH by done. by eapply f_step_other.
Qed.

Lemma f_run_cons_inv op ops m rs m' :
  f_run (op :: ops) m rs m' ->
  exists r m1 rs', rs = r :: rs' /\ f_step op m r m1 /\ f_run ops m1 rs' m'.
Proof. intros H. inversion H; subst. eauto 10. Qed.

Lemma f_run_app_inv ops1 ops2 m rs m' :
  f_run (ops1 ++ ops2) m rs m' ->
  exists rs1 m1 rs2, rs = rs1 ++ rs2 /\ f_run ops1 m rs1 m1 /\ f_run ops2 m1 rs2 m' /\
    length rs1 = length ops1.
Proof.
  revert m rs. induction ops1 as [|op ops1 IH]; intros m rs H.
  { exists [], m, rs. split_all; [done|constructor|done|done]. }
  apply f_run_cons_inv in H as (r & m1 & rs' & -> & Hs & Hr).
  destruct (IH _ _ Hr) as (rs1 & m2 & rs2 & -> & H1 & H2 & Hl).
  exists (r :: rs1), m2, rs2. split_all; [done|by econstructor|done|cbn; lia].
Qed.

(** Reads and checks are exact. *)
Lemma f_step_read n buf m r m' :
  f_step (OpRead n buf) m r m' -> r = (a_read n buf (mk_afs m 0)).1 /\ m' = m.
Proof.
  intros H. inversion H; subst; try done. cbn [a_op]. unfold a_read. cbn [a_files].
  by repeat (case_if || case_match).
Qed.

Lemma f_step_fsck m r m' : f_step OpFsck m r m' -> r = inr None /\ m' = m.
Proof. intros H. by inversion H. Qed.

Lemma a_read_ext n buf m m' :
  m !! n = m' !! n -> (a_read (Some n) buf (mk_afs m 0)).1 = (a_read (Some n) buf (mk_afs m' 0)).1.
Proof.
  intros E. unfold a_read. destruct (aname (Some n)) as [n'|] eqn:En; [|done].
  apply aname_Some in En as [[= ->] _]. cbn [a_files]. rewrite E.
  by repeat (case_if || case_match).
Qed.

Section runs.
Context {D : Type} (dev : mcsfs1_blkdev D) `{!ReadDev dev, !FaultyDev dev}.
Context (HN : 16 <= block_count dev <= 4096).
Local Abbreviation N := (block_count dev).
Local Abbreviation zeros := (replicate 512 0).

Lemma fresh_holds bb M0 :
  img_full N M0 -> block_ok bb -> (forall i, 0 <= i < 4096 -> bm_get bb i = (i <? 8)) ->
  fholds dev (fresh_img dev bb M0) ∅.
Proof.
  intros HM0 Hbb Hbits. exists (replicate 16 None). split.
  - by apply fresh_wrep.
  - intros n f. rewrite lookup_empty. split; [done|]. by intros (s & []%no_slot & _).
Qed.

Lemma fwp_format M :
  fwp dev (mcsfs1_format dev) M (fun _ M' => fholds dev M' ∅) (fun _ _ => True).
Proof.
  destruct (fresh_bits) as (bb & Eb & Hbb & Hbits).
  unfold mcsfs1_format, MCSFS1_MIN_BLOCKS, MCSFS1_BLOCK_SIZE.
  rewrite (proj2 (Z.ltb_ge _ _)), (proj2 (Z.ltb_ge _ _)) by lia. cbn [orb].
  apply fwp_bind, (fwp_erase_blocks dev); [lia|lia|done|]. intros M0 Hz _.
  assert (Hfull : img_full N M0).
  { intros x Hx. exists zeros. split; [apply Hz; lia|apply zeros_ok]. }
  apply fwp_bind, (fwp_write dev); [unfold MCSFS1_SB_LBA; lia|apply super_image_ok|done|].
  change (mcsfs_memset 512 0) with zeros.
  eapply fwp_bind_sim; [apply sim_lift, bit_set_eq; [apply zeros_ok|lia]|].
  eapply fwp_bind_sim; [apply sim_lift, bit_set_eq; [apply bm_set_ok, zeros_ok|unfold MCSFS1_ROOT_INO; lia]|].
  destruct (set_bits _ _ zeros) as [bb0|] eqn:E0; [|done].
  eapply fwp_bind_sim; [by apply sim_lift|]. eapply fwp_bind_sim; [apply sim_lift, Eb|].
  apply fwp_bind, (fwp_store_bmaps dev HN); [apply fresh_ib_ok|done|done|done|].
  apply fwp_bind, (fwp_write_inode dev HN); [by apply fresh_meta_full|unfold MCSFS1_ROOT_INO; lia|apply root_inode_is|done|].
  apply fwp_bind, (fwp_write dev); [unfold MCSFS1_ROOT_DIR_LBA; lia|done|done|].
  apply (fwp_flush dev); [done|]. by apply fresh_holds.
Qed.

Lemma run_tolerates ops : forall d m,
  fholds dev (dev_img d) m -> Forall fop_ok ops ->
  exists rs d' m', c_run dev ops d = Some (rs, d') /\ f_run ops m rs m' /\ fholds dev (dev_img d') m'.
Proof.
  induction ops as [|op ops IH]; intros d m HM Hops; cbn [c_run].
  { exists [], d, m. split_all; [done|constructor|done]. }
  apply Forall_cons in Hops as [Hop Hops].
  destruct (op_tolerates dev HN op _ m HM Hop d eq_refl) as (r & d1 & -> & Hr).
  assert (fspec dev op m r (dev_img d1)) as (m1 & Hs & HM1) by (by destruct r).
  destruct (IH d1 m1 HM1 Hops) as (rs & d2 & m2 & E & Hrun & HM2). cbn [snd fst]. rewrite E.
  exists (r :: rs), d2, m2. split_all; [done|by econstructor|done].
Qed.

(** C4: on a device of 16 to 4096 blocks that reads back what was written but
    may refuse any write or flush, [mcsfs1_format] returns; once it succeeded,
    every sequence of operations with arguments of their C types in which no
    created name has exactly 27 bytes ([fop_ok]) returns, and the results and
    the files are those of [f_step]: a success has its exact effect, a failure
    the whole effect, none, or (a write) an overwritten prefix of the one file
    it names. *)
Theorem mcsfs1_fault_tolerant d :
  exists r d1, mcsfs1_format dev d = Some (r, d1) /\
    (r = inr tt -> forall ops, Forall fop_ok ops ->
       exists rs d2 m, c_run dev ops d1 = Some (rs, d2) /\ f_run ops ∅ rs m).
Proof.
  destruct (fwp_format (dev_img d) d eq_refl) as (r & d1 & E & Hr). exists r, d1. split; [done|].
  intros -> ops Hops. destruct (run_tolerates ops d1 ∅ Hr Hops) as (rs & d2 & m & Hc & Hf & _). eauto.
Qed.

(** C23: on a device of 16 to 4096 blocks that reads back what was written,
    whatever writes and flushes it refuses, a file reads the same before and
    after any operations that do not name it, and [mcsfs1_fsck] then accepts
    the image.  The operations, those before the first read too, have arguments
    of their C types and create no name of exactly 27 bytes ([fop_ok]). *)
Theorem mcsfs1_bystander d d1 ops1 ops2 n buf :
  mcsfs1_format dev d = Some (inr tt, d1) ->
  Forall fop_ok ops1 -> Forall fop_ok ops2 -> fop_ok (OpRead (Some n) buf) ->
  Forall (fun op => touches n op = false) ops2 ->
  exists rs1 x rs2 d2,
    c_run dev (ops1 ++ OpRead (Some n) buf :: ops2 ++ [OpFsck; OpRead (Some n) buf]) d1
      = Some (rs1 ++ x :: rs2 ++ [inr None; x], d2) /\
    length rs1 = length ops1 /\ length rs2 = length ops2.
Proof.
  intros Hfmt H1 H2 Hread Ht.
  destruct (fwp_format (dev_img d) d eq_refl) as (r & d1' & E & Hr). simplify_eq.
  assert (Hall : Forall fop_ok (ops1 ++ OpRead (Some n) buf :: ops2 ++ [OpFsck; OpRead (Some n) buf])).
  { apply Forall_app_2, Forall_cons_2, Forall_app_2, Forall_cons_2, Forall_cons_2; [done..|by apply Forall_nil_2]. }
  destruct (run_tolerates _ d1 ∅ Hr Hall) as (rs & d2 & m & Hc & Hf & _).
  apply f_run_app_inv in Hf as (rs1 & m1 & rs' & -> & _ & Hf & Hl1).
  apply f_run_cons_inv in Hf as (x & ? & rs0 & -> & [-> ->]%f_step_read & Hf').
  apply f_run_app_inv in Hf' as (rs2 & m2 & rs3 & -> & Hf2 & Hf3 & Hl2).
  apply f_run_cons_inv in Hf3 as (? & ? & ? & -> & [-> ->]%f_step_fsck & Hf4).
  apply f_run_cons_inv in Hf4 as (? & ? & ? & -> & [-> ->]%f_step_read & Hf5). inversion Hf5; subst.
  rewrite (a_read_ext n buf m m1) in Hc by (by eapply f_run_other).
  by exists rs1, (a_read (Some n) buf (mk_afs m1 0)).1, rs2, d2.
Qed.

End runs.

(** ** Witnesses *)

(** Formatting takes 22 writes and flushes.  Of the seven operations the
    creation of [b] is stopped before its directory entry, and the write of
    [a] after one of its two blocks. *)
Definition fault_list : list bool :=
  replicate 22 false ++ replicate 5 false ++ replicate 3 false ++ [false; false; false; true]
  ++ [false; false; false; true].
Definition file_a : list Z := [97].
Definition file_b : list Z := [98].
Definition fault_ops : list fop :=
  [OpCreate (Some file_a); OpWrite (Some file_a) (replicate 300 1); OpCreate (Some file_b);
   OpWrite (Some file_a) (replicate 600 2); OpRead (Some file_a) (replicate 600 0);
   OpRead (Some file_b) []; OpFsck].

(** The results of the run: the failed write replaced the 300 bytes there were. *)
Definition fault_results : list ares :=
  [inr None; inr None; inl MCSFS1_ERR_IO; inl MCSFS1_ERR_IO;
   inr (Some (replicate 300 2 ++ replicate 300 0, 300)); inl MCSFS1_ERR_NOENT; inr None].

Lemma fault_format : fst <$> mcsfs1_format (flaky_dev 16) (∅, fault_list) = Some (inr tt).
Proof. vm_compute. reflexivity. Qed.

Lemma fault_run :
  (let* r := mcsfs1_format (flaky_dev 16) (∅, fault_list) in
   fst <$> c_run (flaky_dev 16) fault_ops r.2) = Some fault_results.
Proof. vm_compute. reflexivity. Qed.

Lemma mcsfs1_fault_tolerant_witness :
  exists d1 d2 m, mcsfs1_format (flaky_dev 16) (∅, fault_list) = Some (inr tt, d1) /\
    c_run (flaky_dev 16) fault_ops d1 = Some (fault_results, d2) /\
    f_run fault_ops ∅ fault_results m.
Proof.
  destruct (mcsfs1_fault_tolerant (flaky_dev 16) ltac:(cbn; lia) (∅, fault_list)) as (r & d1 & E & Hrun).
  assert (Er : r = inr tt).
  { pose proof fault_format as H. rewrite E in H. by injection H. }
  assert (Hok : Forall fop_ok fault_ops).
  { repeat constructor; cbn; try lia; apply Forall_replicate; unfold is_byte; lia. }
  destruct (Hrun Er fault_ops Hok) as (rs & d2 & m & Hc & Hf). subst r.
  assert (Hrs : rs = fault_results).
  { pose proof fault_run as H. rewrite E in H. cbn [snd] in H. rewrite Hc in H. by injection H. }
  subst rs. exists d1, d2, m. split; [exact E|]. split; [exact Hc|exact Hf].
Defined.

(** The reads of [a] around the failed creation of [b]. *)
Lemma mcsfs1_bystander_witness :
  exists d1 rs1 x rs2 d2, mcsfs1_format (flaky_dev 16) (∅, fault_list) = Some (inr tt, d1) /\
    c_run (flaky_dev 16)
      ([OpCreate (Some file_a); OpWrite (Some file_a) (replicate 300 1)] ++
       OpRead (Some file_a) (replicate 300 0) :: [OpCreate (Some file_b)] ++
       [OpFsck; OpRead (Some file_a) (replicate 300 0)]) d1
      = Some (rs1 ++ x :: rs2 ++ [inr None; x], d2) /\
    length rs1 = 2%nat /\ length rs2 = 1%nat.
Proof.
  pose proof fault_format as E. destruct (mcsfs1_format _ _) as [[r d1]|] eqn:Ef; [|discriminate E].
  injection E as ->. exists d1.
  destruct (mcsfs1_bystander (flaky_dev 16) ltac:(cbn; lia) (∅, fault_list) d1
    [OpCreate (Some file_a); OpWrite (Some file_a) (replicate 300 1)] [OpCreate (Some file_b)]
    file_a (replicate 300 0)) as (rs1 & x & rs2 & d2 & Hc & H1 & H2).
  - exact Ef.
  - repeat constructor; cbn; try lia; apply Forall_replicate; unfold is_byte; lia.
  - repeat constructor; cbn; lia.
  - repeat constructor; cbn; lia.
  - repeat constructor.
  - exists rs1, x, rs2, d2. split; [reflexivity|]. split; [exact Hc|]. split; [exact H1|exact H2].
Defined.

(** ** A read that fails *)

(** The disk, and whether the next read of the directory fails. *)
Definition blink_dev (n : Z) : mcsfs1_blkdev (image * bool) :=
  mk_blkdev (image * bool) n
    (Some (fun lba d =>
       if (lba =? MCSFS1_ROOT_DIR_LBA) && d.2 then (inl MCSFS1_ERR_IO, (d.1, false))
       else (match d.1 !! lba with Some b => inr b | None => inl MCSFS1_ERR_IO end, d)))
    (Some (fun lba b d => (0, (<[lba := b]> d.1, d.2))))
    (Some (fun d => (0, d))).

(** [mcsfs1_create] takes any error of [find_dirent] for a missing name: after
    one read error it creates a second file of the same name, and the name is
    still there when it was removed. *)
Theorem mcsfs1_create_duplicate :
  (let* r := mcsfs1_format (blink_dev 16) (∅, false) in
   let* s := c_run (blink_dev 16) [OpCreate (Some file_a); OpCreate (Some file_a)] r.2 in
   let* t := c_run (blink_dev 16)
     [OpCreate (Some file_a); OpUnlink (Some file_a); OpRead (Some file_a) []; OpFsck] (s.2.1, true) in
   Some (s.1 ++ t.1)) =
  Some [inr None; inl MCSFS1_ERR_EXIST; inr None; inr None; inr (Some ([], 0)); inr None].
Proof. vm_compute. reflexivity. Qed.
