(* ===== verification/Mcsfs1Total.v ===== *)
(** * MCSFS1: hostile devices

    The device may fail at any call and answer any read with any block.  The
    file system still never leaves an array: every operation returns, a read
    stays inside the caller's buffer.  Two things are needed, and the last
    theorems show why: the bitmaps must cover the device, and the last name of
    the directory must end inside its field. *)
From S2P Require Import Prelude Bitmap Mcsfs1 Mcsfs1Dev Mcsfs1Spec Mcsfs1Dir Mcsfs1Disk Mcsfs1Data.

(** ** Strings in a directory *)

Lemma strlen_bound_defined k : forall mem,
  (k <= length mem)%nat \/ 0 ∈ mem ->
  exists n, strlen_bound mem k = Some n /\ 0 <= n <= Z.of_nat (length mem).
Proof.
  induction k as [|k IH]; intros mem Hm; cbn [strlen_bound]; [exists 0; split; [done|lia]|].
  destruct mem as [|c mem]; [destruct Hm as [Hm|Hm]; [cbn in Hm; lia|by apply elem_of_nil in Hm]|].
  destruct (Z.eqb_spec c 0) as [->|Hc]; [exists 0; cbn [length]; split; [done|lia]|].
  destruct (IH mem) as (n & -> & Hn).
  - destruct Hm as [Hm|[Hm|Hm]%elem_of_cons]; [left; cbn in Hm; lia|by subst|by right].
  - exists (1 + n). cbn [length]. split; [done|lia].
Qed.

Lemma memcmp_defined n : forall a b,
  (n <= length a)%nat -> (n <= length b)%nat -> exists r, mcsfs_memcmp a b n = Some r.
Proof.
  induction n as [|n IH]; intros [|x a] [|y b] Ha Hb; cbn in *; try (eauto; lia).
  destruct (x =? y); [|eauto]. apply IH; lia.
Qed.

(** The last name of the directory is terminated. *)
Definition dir_ends (dir : list Z) : Prop := 0 ∈ drop 485 dir.

Lemma find_loop_defined dir name len n : forall i,
  block_ok dir -> dir_ends dir -> 0 <= len <= Z.of_nat (length name) -> (i + n = 16)%nat ->
  exists r, find_loop n i dir name len = Some r /\
    forall j ino, r = Some (j, ino) -> (j < 16)%nat /\ 0 <= ino.
Proof.
  induction n as [|n IH]; intros i Hd He Hl Hi; cbn [find_loop]; [by eexists|].
  destruct (IH (S i)) as (r & E & Hr); [done|done|done|lia|]. rewrite E.
  rewrite d_ino_in by (apply Hd || lia). case_if; [eauto|].
  destruct (strlen_bound_defined 28 (d_name_mem dir i)) as (m & Em & Hm).
  { unfold d_name_mem. destruct (decide (i = 15%nat)) as [->|Hne]; [by right|left].
    rewrite length_drop, (proj1 Hd). lia. }
  unfold mcsfs_strlen_bound. change (Z.to_nat (MCSFS1_MAX_NAME + 1)) with 28%nat. rewrite Em.
  destruct (Z.eqb_spec m len) as [->|Hne]; cbn [negb]; [|eauto].
  destruct (memcmp_defined (Z.to_nat len) (d_name_mem dir i) name) as (eq & ->); [lia|lia|].
  destruct eq; [|eauto]. eexists. split; [done|]. intros j ino [= <- <-].
  split; [lia|]. apply le_get_bound; [apply Hd|rewrite (proj1 Hd); lia].
Qed.

(** ** Computations that always return *)

Section hostile.
Context {D : Type} (dev : mcsfs1_blkdev D).
Context (HN : block_count dev <= 4096).
Context (Hread : forall read lba d b d', cb_read dev = Some read -> read lba d = (inr b, d') ->
  block_ok b /\ (lba = MCSFS1_ROOT_DIR_LBA -> dir_ends b)).
Local Abbreviation N := (block_count dev).

Definition total {A} (m : em D A) (Q : A -> Prop) : Prop :=
  forall d, exists r d', m d = Some (r, d') /\ match r with inr x => Q x | inl _ => True end.

Lemma total_ret {A} (x : A) (Q : A -> Prop) : Q x -> total (eret x) Q.
Proof. intros Hx d. by exists (inr x), d. Qed.

Lemma total_fail {A} rc (Q : A -> Prop) : total (efail rc) Q.
Proof. intros d. by exists (inl rc), d. Qed.

Lemma total_bind {A B} (m : em D A) (k : A -> em D B) (Q : A -> Prop) (R : B -> Prop) :
  total m Q -> (forall x, Q x -> total (k x) R) -> total (ebind m k) R.
Proof.
  intros Hm Hk d. unfold ebind. destruct (Hm d) as ([rc|x] & d1 & -> & H1).
  - by exists (inl rc), d1.
  - by apply Hk.
Qed.

Lemma total_seq {B} (m : em D unit) (k : em D B) (R : B -> Prop) :
  total m (fun _ => True) -> total k R -> total (m ;? k) R.
Proof. intros Hm Hk. by eapply total_bind. Qed.

Lemma total_lift {A} (m : option A) x (Q : A -> Prop) : m = Some x -> Q x -> total (lift m) Q.
Proof. intros -> Hx d. by exists (inr x), d. Qed.

Lemma total_any {A} (m : option A) x : m = Some x -> total (lift m) (fun _ => True).
Proof. intros. by eapply total_lift. Qed.

Lemma total_check {A} (m : option (Z + A)) r (Q : A -> Prop) :
  m = Some r -> (forall x, r = inr x -> Q x) -> total (check m) Q.
Proof. intros -> Hx d. exists r, d. split; [done|]. destruct r; [done|by apply Hx]. Qed.

Lemma total_read lba :
  total (dev_read dev lba) (fun b => block_ok b /\ (lba = MCSFS1_ROOT_DIR_LBA -> dir_ends b)).
Proof.
  intros d. unfold dev_read. destruct (cb_read dev) as [read|] eqn:E; [|by do 2 eexists].
  case_if; [by do 2 eexists|]. destruct (read lba d) as [[rc|b] d'] eqn:Er; [by do 2 eexists|].
  exists (inr b), d'. split; [done|]. by eapply Hread.
Qed.

Lemma total_block lba : total (dev_read dev lba) block_ok.
Proof. intros d. destruct (total_read lba d) as (r & d' & E & Hr). exists r, d'. destruct r; naive_solver. Qed.

Lemma total_write lba b : total (dev_write dev lba b) (fun _ => True).
Proof.
  intros d. unfold dev_write. destruct (cb_write dev) as [w|]; [|by do 2 eexists].
  case_if; [by do 2 eexists|]. cbv zeta. case_if; by do 2 eexists.
Qed.

Lemma total_flush : total (dev_flush dev) (fun _ => True).
Proof.
  intros d. unfold dev_flush. destruct (cb_flush dev) as [f|]; [|by do 2 eexists].
  cbv zeta. case_if; by do 2 eexists.
Qed.

Lemma total_found m : total m (fun _ => True) -> total (found m) (fun _ => True).
Proof.
  intros Hm d. unfold found. destruct (Hm d) as ([rc|x] & d' & -> & _); by do 2 eexists.
Qed.

(** ** The routines *)

Definition inode_ok (inode : list Z) : Prop := length inode = 60%nat /\ Forall is_byte inode.

Lemma i_direct_nonneg inode k : inode_ok inode -> (k < 8)%nat -> 0 <= direct_lba inode k.
Proof. intros [Hl Hb] Hk. apply le_get_bound; [done|lia]. Qed.

Lemma inode_ok_set k lba inode : inode_ok inode -> (k < 8)%nat -> inode_ok (with_direct k lba inode).
Proof.
  intros [Hl Hb] Hk. unfold with_direct. split; [rewrite length_le_put; lia|by apply le_put_bytes].
Qed.

Lemma total_i_direct inode k :
  inode_ok inode -> (k < 8)%nat -> total (lift (i_direct inode k)) (fun b => 0 <= b).
Proof.
  intros Hi Hk. eapply total_lift; [apply i_direct_in; [apply Hi|done]|].
  by apply i_direct_nonneg.
Qed.

Lemma total_set_i_direct k lba inode :
  inode_ok inode -> (k < 8)%nat -> total (lift (set_i_direct k lba inode)) inode_ok.
Proof.
  intros Hi Hk. eapply total_lift; [apply set_i_direct_in; [apply Hi|done]|].
  by apply inode_ok_set.
Qed.

Lemma inode_block ino : (Z.to_nat (itable_off ino) + 60 <= 512)%nat.
Proof. apply (ioff_bounds ino). Qed.

Lemma total_read_inode ino :
  0 <= ino -> total (read_inode dev ino) (fun inode => inode_ok inode /\ 1 <= ino <= 32).
Proof.
  intros Hi. unfold read_inode, MCSFS1_MAX_INODES. case_if; [apply total_fail|]. zbool.
  case_if; [apply total_fail|]. eapply total_bind; [apply total_block|]. intros b [Hl Hb].
  pose proof (inode_block ino). eapply total_lift.
  - apply copy_loop_spec; [rewrite length_replicate|rewrite length_drop, Hl]; change (Z.to_nat INODE_SIZE) with 60%nat; lia.
  - change (Z.to_nat INODE_SIZE) with 60%nat. rewrite drop_replicate, app_nil_r.
    split; [split; [rewrite length_take, length_drop; lia|by apply Forall_take, Forall_drop]|lia].
Qed.

Lemma total_write_inode ino inode :
  inode_ok inode -> total (write_inode dev ino inode) (fun _ => True).
Proof.
  intros [Hil _]. unfold write_inode. case_if; [apply total_fail|]. case_if; [apply total_fail|].
  eapply total_bind; [apply total_block|]. intros b [Hl Hb]. pose proof (inode_block ino).
  eapply total_bind; [|intros t _; apply total_write]. eapply total_any.
  apply copy_loop_spec; rewrite ?length_drop; change (Z.to_nat INODE_SIZE) with 60%nat; lia.
Qed.

Lemma total_load_bmaps : total (load_bmaps dev) (fun bm => block_ok bm.1 /\ block_ok bm.2).
Proof.
  unfold load_bmaps. eapply total_bind; [apply total_block|]. intros ib Hib.
  eapply total_bind; [apply total_block|]. intros bb Hbb. by apply total_ret.
Qed.

Lemma total_store_bmaps ib bb : total (store_bmaps dev ib bb) (fun _ => True).
Proof. apply total_seq; apply total_write. Qed.

(** A name of the caller. *)
Lemma total_valid_name name :
  name_bytes name ->
  total (check (valid_name name))
    (fun len => 0 <= len <= 27 /\ len = Z.of_nat (length (default [] name))).
Proof.
  intros Hn. destruct name as [n|].
  - eapply total_check; [by apply valid_name_spec|]. unfold MCSFS1_MAX_NAME. intros x. case_if; [|done].
    intros [= <-]. zbool. cbn. lia.
  - by eapply total_check.
Qed.

Lemma total_find_dirent name :
  name_bytes name -> total (find_dirent dev name) (fun e => (e.1 < 16)%nat /\ 0 <= e.2).
Proof.
  intros Hn. unfold find_dirent. eapply total_bind; [by apply total_valid_name|].
  intros len [Hlen Hl]. eapply total_bind; [apply total_read|]. intros b [Hb He].
  destruct (find_loop_defined b (cmem (default [] name)) len 16 0) as (r & E & Hr); try done.
  { by apply He. }
  { unfold cmem. rewrite length_app. cbn [length]. lia. }
  apply (total_bind _ _ (fun x => x = r)); [by eapply total_lift|]. intros r' ->.
  destruct r as [[j ino]|]; [by apply total_ret, Hr|apply total_fail].
Qed.

Lemma total_find_free_block bb :
  block_ok bb -> total (find_free_block dev bb) (fun r => forall b, r = Some b -> 0 <= b < 4096).
Proof.
  intros Hbb. unfold find_free_block, MCSFS1_DATA_START_LBA. eapply total_lift.
  - apply find_clear_spec; [done|lia|lia].
  - intros b (Hb & _)%first_from_Some. lia.
Qed.

Lemma total_alloc_inode_block : total (alloc_inode_block dev) (fun _ => True).
Proof.
  unfold alloc_inode_block, MCSFS1_MAX_INODES. eapply total_bind; [apply total_load_bmaps|].
  intros [ib bb] [Hib Hbb]. cbn [fst snd] in *.
  apply (total_bind _ _ (fun r => forall ino, r = Some ino -> 2 <= ino <= 32)).
  { eapply total_lift; [apply find_clear_spec; [done|lia|lia]|]. intros ino (Hi & _)%first_from_Some. lia. }
  intros [ino|] Hino; [|apply total_fail]. specialize (Hino ino eq_refl).
  eapply total_bind; [by apply total_find_free_block|]. intros [b|] Hb; [|apply total_fail].
  specialize (Hb b eq_refl).
  eapply total_bind; [eapply total_any, bit_set_eq; [done|lia]|]. intros ib' _.
  eapply total_bind; [eapply total_any, bit_set_eq; [done|lia]|]. intros bb' _.
  apply total_seq; [apply total_store_bmaps|by apply total_ret].
Qed.

Lemma total_alloc_data_block : total (alloc_data_block dev) (fun _ => True).
Proof.
  unfold alloc_data_block. eapply total_bind; [apply total_load_bmaps|].
  intros [ib bb] [Hib Hbb]. cbn [fst snd] in *.
  eapply total_bind; [by apply total_find_free_block|]. intros [b|] Hb; [|apply total_fail].
  specialize (Hb b eq_refl).
  eapply total_bind; [eapply total_any, bit_set_eq; [done|lia]|]. intros bb' _.
  apply total_seq; [apply total_store_bmaps|by apply total_ret].
Qed.

Lemma clear_direct_defined inode n : forall k bb,
  inode_ok inode -> (k + n = 8)%nat -> block_ok bb -> exists bb', clear_direct dev n k inode bb = Some bb'.
Proof.
  induction n as [|n IH]; intros k bb Hi Hk Hbb; cbn [clear_direct]; [by eexists|].
  pose proof (i_direct_nonneg inode k Hi ltac:(lia)). rewrite i_direct_in by (apply Hi || lia). case_if; [|apply IH; (done || lia)]. zbool.
  rewrite bit_clear_eq by (done || lia). apply IH; [done|lia|by apply bm_clear_ok].
Qed.

Lemma total_free_inode ino inode :
  inode_ok inode -> 1 <= ino <= 32 -> total (free_inode_and_blocks dev ino inode) (fun _ => True).
Proof.
  intros Hi Hino. unfold free_inode_and_blocks. eapply total_bind; [apply total_load_bmaps|].
  intros [ib bb] [Hib Hbb]. cbn [fst snd] in *.
  eapply total_bind; [eapply total_any, bit_clear_eq; [done|lia]|]. intros ib' _.
  destruct (clear_direct_defined inode 8 0 bb) as [bb' E]; [done|done|done|].
  eapply total_bind; [eapply total_any, E|]. intros bb'' _. apply total_store_bmaps.
Qed.

(** ** The operations *)

Lemma total_erase_blocks n : forall lba, total (erase_blocks dev n lba) (fun _ => True).
Proof.
  induction n as [|n IH]; intros lba; cbn [erase_blocks]; [by apply total_ret|].
  apply total_seq; [apply total_write|apply IH].
Qed.

Lemma total_create name : name_bytes name -> total (mcsfs1_create dev name) (fun _ => True).
Proof.
  intros Hn. unfold mcsfs1_create. eapply total_bind; [by apply total_valid_name|]. intros len [Hlen _].
  apply (total_bind _ _ (fun _ => True)).
  { apply total_found. intros d. destruct (total_find_dirent name Hn d) as (r & d' & E & _).
    exists r, d'. by destruct r. }
  intros [|] _; [apply total_fail|]. eapply total_bind; [apply total_block|]. intros dir Hdir.
  apply (total_bind _ _ (fun r => r = free_idx dir)); [by eapply total_lift; [apply free_slot_in, Hdir|]|].
  intros slot ->. destruct (free_idx dir) as [i|] eqn:Ei; [|apply total_fail].
  apply first_from_Some in Ei as (Hi16 & _).
  eapply total_bind; [apply total_alloc_inode_block|]. intros a _.
  apply total_seq; [apply total_write_inode|].
  2: { eapply total_bind; [eapply total_any, fill_dirent_in; [apply Hdir|lia|]|intros dir' _].
       { rewrite length_take. lia. }
       apply total_seq; [apply total_write|apply total_flush]. }
  split; [done|]. unfold make_inode, with_direct, set_i_size.
  repeat apply le_put_bytes. apply zero_is_byte.
Qed.

Lemma total_alloc_missing n : forall k inode,
  inode_ok inode -> (k + n <= 8)%nat -> total (alloc_missing dev n k inode) inode_ok.
Proof.
  induction n as [|n IH]; intros k inode Hi Hk; cbn [alloc_missing]; [by apply total_ret|].
  eapply total_bind; [apply total_i_direct; (done || lia)|]. intros lba _.
  case_if; [|apply IH; (done || lia)].
  eapply total_bind; [apply total_alloc_data_block|]. intros b _.
  eapply total_bind; [apply total_set_i_direct; (done || lia)|]. intros inode' Hi'.
  apply IH; (done || lia).
Qed.

Lemma total_write_loop buf n : forall k inode written,
  0 <= written <= Z.of_nat (length buf) -> inode_ok inode -> (k + n <= 8)%nat ->
  total (write_loop dev n k inode buf (Z.of_nat (length buf)) written) (fun _ => True).
Proof.
  induction n as [|n IH]; intros k inode written Hw Hi Hk; cbn [write_loop]; [by apply total_ret|].
  unfold MCSFS1_BLOCK_SIZE. set (chunk := if 512 <? _ then _ else _).
  assert (Hc : 0 <= chunk <= 512 /\ written + chunk <= Z.of_nat (length buf))
    by (unfold chunk; case_if; zbool; lia).
  eapply total_bind; [eapply total_any, copy_loop_spec|intros b _].
  - change (length (mcsfs_memset 512 0)) with 512%nat. lia.
  - rewrite length_drop. lia.
  - eapply total_bind; [apply total_i_direct; (done || lia)|]. intros lba _.
    apply total_seq; [apply total_write|apply IH; (done || lia)].
Qed.

Lemma blocks_needed_le len : 0 <= len <= 4096 -> (Z.to_nat (blocks_needed len) <= 8)%nat.
Proof.
  intros Hl. unfold blocks_needed, MCSFS1_BLOCK_SIZE. rewrite u32_id by lia.
  assert ((len + 512 - 1) / 512 <= 8) by (apply Z.lt_succ_r, Z.div_lt_upper_bound; lia).
  case_if; lia.
Qed.

Lemma total_write_file name data :
  name_bytes name ->
  total (mcsfs1_write dev name (Some data) (Z.of_nat (length data))) (fun _ => True).
Proof.
  intros Hn. unfold mcsfs1_write, MCSFS1_DIRECT_BLOCKS. change (8 * MCSFS1_BLOCK_SIZE) with 4096.
  case_if; [apply total_fail|]. zbool.
  eapply total_bind; [by apply total_find_dirent|]. intros [j ino] [_ Hino].
  eapply total_bind; [by apply total_read_inode|]. intros inode [Hi _]. cbn [snd].
  case_if; [apply total_fail|].
  eapply total_bind; [apply total_alloc_missing; [done|cbn; apply blocks_needed_le; lia]|].
  intros inode' [Hil Hib]. apply total_seq.
  { apply total_write_loop; [lia|done|cbn; apply blocks_needed_le; lia]. }
  apply total_seq; [apply total_write_inode|apply total_flush].
  unfold set_i_size. split; [rewrite length_le_put; lia|by apply le_put_bytes].
Qed.

(** A read loop fills the buffer in place. *)
Lemma total_read_loop n : forall k inode buf copied remain,
  inode_ok inode -> (k + n <= 8)%nat -> 0 <= copied -> 0 <= remain ->
  copied + remain <= Z.of_nat (length buf) ->
  total (read_loop dev n k inode buf copied remain) (fun b => length b = length buf).
Proof.
  induction n as [|n IH]; intros k inode buf copied remain Hi Hk Hc Hr Hl; cbn [read_loop];
    [by apply total_ret|].
  case_if; [by apply total_ret|].
  eapply total_bind; [apply total_i_direct; (done || lia)|]. intros lba _.
  case_if; [apply total_fail|]. zbool.
  eapply total_bind; [apply total_block|]. intros b [Hb _]. unfold MCSFS1_BLOCK_SIZE.
  set (chunk := if 512 <? remain then 512 else remain).
  assert (0 <= chunk <= 512 /\ chunk <= remain) by (unfold chunk; case_if; zbool; lia).
  eapply (total_bind _ _ (fun b => length b = length buf)).
  - eapply total_lift; [apply copy_at_splice; lia|]. apply length_splice. rewrite length_take. lia.
  - intros buf' Hbuf. rewrite <- Hbuf. apply IH; (done || lia).
Qed.

(** What a read returns to its caller. *)
Definition read_fits (buf : list Z) (r : list Z * Z) : Prop :=
  length r.1 = length buf /\ 0 <= r.2 <= Z.of_nat (length buf).

Lemma total_read_file name buf :
  name_bytes name ->
  total (mcsfs1_read dev name (Some buf) (Z.of_nat (length buf)) true) (read_fits buf).
Proof.
  intros Hn. unfold mcsfs1_read. cbn [negb].
  eapply total_bind; [by apply total_find_dirent|]. intros [j ino] [_ Hino].
  eapply total_bind; [by apply total_read_inode|]. intros inode [Hi _]. cbn [snd].
  case_if; [apply total_fail|]. case_if; [apply total_fail|]. zbool.
  assert (0 <= i_size inode) by (destruct Hi; apply le_get_bound; [done|lia]).
  eapply total_bind; [apply total_read_loop; [done|done|lia|lia|lia]|].
  intros b Hb. apply total_ret. split; [done|]. cbn [snd]. lia.
Qed.

Lemma total_unlink name : name_bytes name -> total (mcsfs1_unlink dev name) (fun _ => True).
Proof.
  intros Hn. unfold mcsfs1_unlink.
  eapply total_bind; [by apply total_find_dirent|]. intros [j ino] [Hj Hino].
  eapply total_bind; [by apply total_read_inode|]. intros inode [Hi Hr]. cbn [fst snd] in *.
  eapply total_bind; [apply total_block|]. intros dir Hdir.
  eapply total_bind; [eapply total_any, clear_dirent_in; [apply Hdir|done]|]. intros dir' _.
  apply total_seq; [apply total_write|]. apply total_seq; [by apply total_free_inode|apply total_flush].
Qed.

Lemma total_load_super : total (load_super dev) (fun _ => True).
Proof.
  unfold load_super. eapply total_bind; [apply total_block|]. intros sb _.
  case_if; [by apply total_ret|apply total_fail].
Qed.

Lemma total_mount : total (mcsfs1_mount dev) (fun _ => True).
Proof.
  unfold mcsfs1_mount. eapply total_bind; [apply total_load_super|]. intros sb _.
  eapply total_bind; [by apply total_read_inode|]. intros root [Hroot _].
  eapply total_bind; [apply total_i_direct; (done || lia)|]. intros lba _.
  case_if; [apply total_fail|by apply total_ret].
Qed.

Lemma total_corrupt_unless b : total (corrupt_unless (D := D) b) (fun _ => True).
Proof. destruct b; [by apply total_ret|apply total_fail]. Qed.

Lemma fsck_loop_defined dir ib n : forall i,
  block_ok dir -> block_ok ib -> (i + n = 16)%nat -> exists b, fsck_loop n i dir ib = Some b.
Proof.
  induction n as [|n IH]; intros i Hd Hib Hi; cbn [fsck_loop]; [by eexists|].
  destruct (IH (S i) Hd Hib ltac:(lia)) as [b ->]. unfold MCSFS1_MAX_INODES.
  assert (0 <= dirent_ino dir i) by (destruct Hd; apply le_get_bound; [done|lia]).
  rewrite d_ino_in by (apply Hd || lia).
  case_if; [by eexists|]. case_if; [by eexists|]. zbool.
  rewrite bit_test_eq by (done || lia). by case_if; eexists.
Qed.

Lemma all_set_defined bb n : forall lo,
  block_ok bb -> 0 <= lo -> lo + Z.of_nat n <= 4096 -> exists b, all_set n lo bb = Some b.
Proof.
  induction n as [|n IH]; intros lo Hb Hlo Hn; cbn [all_set]; [by eexists|].
  rewrite bit_test_eq by (done || lia). case_if; [apply IH; (done || lia)|by eexists].
Qed.

Lemma total_fsck : total (mcsfs1_fsck dev) (fun _ => True).
Proof.
  unfold mcsfs1_fsck. eapply total_bind; [apply total_load_super|]. intros sb _.
  eapply total_bind; [by apply total_read_inode|]. intros root [Hroot _].
  apply total_seq; [apply total_corrupt_unless|].
  eapply total_bind; [apply total_i_direct; (done || lia)|]. intros lba _.
  do 4 (apply total_seq; [apply total_corrupt_unless|]).
  eapply total_bind; [apply total_block|]. intros ib Hib.
  eapply total_bind; [apply total_block|]. intros bb Hbb.
  destruct (all_set_defined bb 8 0) as [b1 E1]; [done|lia|lia|].
  eapply total_bind; [eapply total_any, E1|]. intros meta _. apply total_seq; [apply total_corrupt_unless|].
  eapply total_bind; [apply total_block|]. intros dir Hdir.
  destruct (fsck_loop_defined dir ib 16 0) as [b2 E2]; [done|done|done|].
  eapply total_bind; [eapply total_any, E2|]. intros ok _. apply total_corrupt_unless.
Qed.

Lemma total_format : total (mcsfs1_format dev) (fun _ => True).
Proof.
  assert (Hz : block_ok (replicate 512 0)) by (split; [done|apply zero_is_byte]).
  unfold mcsfs1_format. case_if; [apply total_fail|]. zbool.
  change (mcsfs_memset MCSFS1_BLOCK_SIZE 0) with (replicate 512 0).
  apply total_seq; [apply total_erase_blocks|]. apply total_seq; [apply total_write|].
  apply (total_bind _ _ block_ok).
  { eapply total_lift; [apply bit_set_eq; [done|lia]|by apply bm_set_ok]. }
  intros ib Hib. eapply total_bind; [eapply total_any, bit_set_eq; [done|unfold MCSFS1_ROOT_INO; lia]|].
  intros ib' _. destruct (set_bits_spec 8 0 (replicate 512 0) Hz) as (bb & E & Hbb & _); [lia|lia|].
  apply (total_bind _ _ block_ok); [by eapply total_lift|]. intros bb1 Hbb1.
  eapply total_bind; [eapply total_any, bit_set_eq; [done|unfold MCSFS1_ROOT_DIR_LBA; lia]|].
  intros bb2 _. apply total_seq; [apply total_store_bmaps|].
  apply total_seq; [apply total_write_inode; split; [done|]|apply total_seq; [apply total_write|apply total_flush]].
  unfold make_inode, with_direct, set_i_size. repeat apply le_put_bytes. apply zero_is_byte.
Qed.

(** What the caller of an operation may rely on. *)
Definition op_result (op : fop) (r : option (list Z * Z)) : Prop :=
  match op with
  | OpRead _ buf => exists p, r = Some p /\ read_fits buf p
  | _ => r = None
  end.

Definition op_name (op : fop) : option (list Z) :=
  match op with
  | OpCreate n | OpWrite n _ | OpRead n _ | OpUnlink n => n
  | OpMount | OpFsck => None
  end.

Lemma op_total op : name_bytes (op_name op) -> total (c_op dev op) (op_result op).
Proof.
  intros Hn. destruct op; cbn [c_op op_name op_result] in *;
    (eapply total_bind;
     [first [by apply total_create | by apply total_write_file | by apply total_read_file
            | by apply total_unlink | apply total_mount | apply total_fsck]|intros x Hx]);
    apply total_ret; [done|done|by exists x|done..].
Qed.

End hostile.

(** ** Claims *)

(** C28: on a device of at most 4096 blocks that may fail at any call and answer
    any read with any 512 bytes, as long as a directory block it returns has a
    zero byte in the name of its last entry, formatting and every sequence of
    operations with zero-terminated names (of any length) return: no access
    leaves a block, the direct pointers of an inode or the caller's buffer.  A
    read that succeeds returns a buffer of the caller's size and a length that
    fits it. *)
Theorem mcsfs1_hostile_device {D : Type} (dev : mcsfs1_blkdev D) (ops : list fop) (d : D) :
  block_count dev <= 4096 ->
  (forall read lba d b d', cb_read dev = Some read -> read lba d = (inr b, d') ->
     block_ok b /\ (lba = MCSFS1_ROOT_DIR_LBA -> dir_ends b)) ->
  Forall (fun op => name_bytes (op_name op)) ops ->
  (exists r d', mcsfs1_format dev d = Some (r, d')) /\
  exists rs d', c_run dev ops d = Some (rs, d') /\
    Forall2 (fun op r => match r with inl _ => True | inr x => op_result op x end) ops rs.
Proof.
  intros HN Hread Hops. split.
  { destruct (total_format dev Hread d) as (r & d' & E & _). eauto. }
  revert d. induction Hops as [|op ops Hop _ IH]; intros d; cbn [c_run].
  { exists [], d. split; [done|constructor]. }
  destruct (op_total dev HN Hread op Hop d) as (r & d1 & -> & Hr).
  destruct (IH d1) as (rs & d2 & E & Hrs). cbn [fst snd]. rewrite E.
  exists (r :: rs), d2. split; [done|by constructor].
Qed.

(** A device that answers every read with the same junk and refuses every
    write. *)
Definition junk : list Z := replicate 511 1 ++ [0].
Definition junk_dev : mcsfs1_blkdev unit :=
  mk_blkdev unit 64 (Some (fun _ d => (inr junk, d))) (Some (fun _ _ d => (MCSFS1_ERR_IO, d)))
    (Some (fun d => (MCSFS1_ERR_IO, d))).
Definition junk_ops : list fop :=
  [OpMount; OpFsck; OpCreate (Some [97]); OpWrite (Some [97]) [1; 2; 3];
   OpRead (Some (replicate 27 1)) []; OpUnlink (Some (replicate 27 1))].

Lemma mcsfs1_hostile_device_witness :
  exists rs, c_run junk_dev junk_ops tt = Some (rs, tt) /\ length rs = 6%nat.
Proof.
  destruct (mcsfs1_hostile_device junk_dev junk_ops tt) as [_ (rs & [] & E & Hrs)].
  - cbn. lia.
  - intros read lba [] b [] [= <-] [= <-]. split.
    + split; [reflexivity|]. apply Forall_app. split; [apply Forall_replicate|repeat constructor]; unfold is_byte; lia.
    + intros _. unfold dir_ends, junk. apply list_elem_of_lookup. exists 26%nat. reflexivity.
  - repeat constructor; cbn; try lia; apply Forall_replicate; lia.
  - exists rs. split; [exact E|]. apply Forall2_length in Hrs. symmetry. exact Hrs.
Defined.

(** ** Why the hypotheses are there *)

(** An image of 5000 blocks with every block marked: mounting and checking
    accept it, and the search for a free block then leaves the bitmap. *)
Definition large_dev : mcsfs1_blkdev image := ram_dev 5000.
Definition large_image : image :=
  <[0 := super_image large_dev]> (<[1 := replicate 512 0]> (<[2 := replicate 512 255]>
  (<[3 := splice 0 (make_inode MCSFS1_MODE_DIR 512 7) (replicate 512 0)]> {[7 := replicate 512 0]}))).

Theorem mcsfs1_large_device_overrun :
  fst <$> c_run large_dev [OpMount; OpFsck] large_image = Some [inr None; inr None] /\
  c_op large_dev (OpCreate (Some [97])) large_image = None.
Proof. split; vm_compute; reflexivity. Qed.

(** A file whose inode claims 5000 bytes passes the check; a read reports
    5000 bytes although only the 4096 bytes of the eight blocks were copied,
    and the rest is what the caller's buffer held. *)
Definition long_file : option image :=
  let* r := mcsfs1_format (ram_dev 16) ∅ in
  let* t := c_run (ram_dev 16) [OpCreate (Some [97]); OpWrite (Some [97]) (replicate 4096 1)] r.2 in
  let* b := t.2 !! 3 in
  Some (<[3 := le_put 64 4 5000 b]> t.2).

Theorem mcsfs1_read_stale :
  (let* img := long_file in
   fst <$> c_run (ram_dev 16) [OpFsck; OpRead (Some [97]) (replicate 5000 9)] img) =
  Some [inr None; inr (Some (replicate 4096 1 ++ replicate 904 9, 5000))].
Proof. vm_compute. reflexivity. Qed.
