(* ===== verification/Memory.v ===== *)
(** * Memory routines ([kernel/lib/memory.c])

    Byte-addressed memory: a finite map from the addresses that are mapped to
    their bytes.  An access to another address is undefined ([None]).  The
    reference definition of a copy reads all the source bytes before it
    writes. *)
From S2P Require Import Prelude.

Abbreviation bytes_at := (gmap Z Z).

Definition load (p : Z) (mem : bytes_at) : option Z := mem !! p.
Definition store (p v : Z) (mem : bytes_at) : option bytes_at :=
  let* _old := mem !! p in Some (<[p := v]> mem).

(** [while (count-- != 0u) *d++ = v]. *)
Fixpoint memset_loop (count : nat) (d v : Z) (mem : bytes_at) : option bytes_at :=
  match count with
  | O => Some mem
  | S count => let* mem := store d v mem in memset_loop count (d + 1) v mem
  end.

(** [while (count-- != 0u) *d++ = *s++]. *)
Fixpoint copy_up (count : nat) (d s : Z) (mem : bytes_at) : option bytes_at :=
  match count with
  | O => Some mem
  | S count =>
      let* b := load s mem in
      let* mem := store d b mem in
      copy_up count (d + 1) (s + 1) mem
  end.

(** [while (count-- != 0u) *--d = *--s]. *)
Fixpoint copy_down (count : nat) (d s : Z) (mem : bytes_at) : option bytes_at :=
  match count with
  | O => Some mem
  | S count =>
      let* b := load (s - 1) mem in
      let* mem := store (d - 1) b mem in
      copy_down count (d - 1) (s - 1) mem
  end.

(** The routines return [dest] besides. *)
Definition memset (dest value : Z) (count : nat) (mem : bytes_at) : option (Z * bytes_at) :=
  let* mem := memset_loop count dest (u8 value) mem in Some (dest, mem).

Definition memcpy (dest src : Z) (count : nat) (mem : bytes_at) : option (Z * bytes_at) :=
  let* mem := copy_up count dest src mem in Some (dest, mem).

Definition memmove (dest src : Z) (count : nat) (mem : bytes_at) : option (Z * bytes_at) :=
  if (dest =? src) || Nat.eqb count 0 then Some (dest, mem) else
  if dest <? src then let* mem := copy_up count dest src mem in Some (dest, mem)
  else let* mem := copy_down count (dest + Z.of_nat count) (src + Z.of_nat count) mem in
       Some (dest, mem).

(** ** Reference *)

(** [count] bytes from [p] on are mapped. *)
Definition mem_mapped (p : Z) (count : nat) (mem : bytes_at) : Prop :=
  forall i, p <= i < p + Z.of_nat count -> is_Some (mem !! i).

(** What a copy of [count] bytes from [src] to [dest] leaves at address [i]. *)
Definition copied (dest src : Z) (count : nat) (mem : bytes_at) (i : Z) : option Z :=
  if decide (dest <= i < dest + Z.of_nat count) then mem !! (i - dest + src) else mem !! i.

(** ** Facts *)

Lemma store_mem_mapped p v mem : is_Some (mem !! p) -> store p v mem = Some (<[p := v]> mem).
Proof. intros [x E]. unfold store. by rewrite E. Qed.

Lemma mem_mapped_insert p n mem q v : mem_mapped p n mem -> mem_mapped p n (<[q := v]> mem).
Proof.
  intros Hm i Hi. destruct (decide (q = i)) as [->|]; [by rewrite lookup_insert_eq|].
  rewrite lookup_insert_ne by done. by apply Hm.
Qed.

Lemma copy_up_spec n : forall d s mem,
  mem_mapped d n mem -> mem_mapped s n mem -> d <= s \/ s + Z.of_nat n <= d ->
  exists mem', copy_up n d s mem = Some mem' /\ forall i, mem' !! i = copied d s n mem i.
Proof.
  induction n as [|n IH]; intros d s mem Hd Hs Hds; cbn [copy_up].
  { exists mem. split; [done|]. intros i. unfold copied. by rewrite decide_False by lia. }
  destruct (Hs s ltac:(lia)) as [b Hb]. unfold load. rewrite Hb, store_mem_mapped by (apply Hd; lia).
  destruct (IH (d + 1) (s + 1) (<[d := b]> mem)) as (mem' & E & Hm).
  - apply mem_mapped_insert. intros i Hi. apply Hd. lia.
  - apply mem_mapped_insert. intros i Hi. apply Hs. lia.
  - lia.
  - exists mem'. split; [done|]. intros i. rewrite Hm. unfold copied.
    destruct (decide (i = d)) as [->|Hne].
    + rewrite decide_False, decide_True, lookup_insert_eq by lia.
      rewrite Z.sub_diag. by rewrite Z.add_0_l.
    + destruct (decide (d <= i < d + Z.of_nat (S n))).
      * rewrite decide_True, lookup_insert_ne by lia. f_equal. lia.
      * rewrite decide_False, lookup_insert_ne by lia. done.
Qed.

Lemma copy_down_spec n : forall d s mem,
  mem_mapped (d - Z.of_nat n) n mem -> mem_mapped (s - Z.of_nat n) n mem -> s <= d ->
  exists mem', copy_down n d s mem = Some mem' /\
    forall i, mem' !! i = copied (d - Z.of_nat n) (s - Z.of_nat n) n mem i.
Proof.
  induction n as [|n IH]; intros d s mem Hd Hs Hds; cbn [copy_down].
  { exists mem. split; [done|]. intros i. unfold copied. by rewrite decide_False by lia. }
  destruct (Hs (s - 1) ltac:(lia)) as [b Hb]. unfold load. rewrite Hb, store_mem_mapped by (apply Hd; lia).
  destruct (IH (d - 1) (s - 1) (<[d - 1 := b]> mem)) as (mem' & E & Hm).
  - apply mem_mapped_insert. intros i Hi. apply Hd. lia.
  - apply mem_mapped_insert. intros i Hi. apply Hs. lia.
  - lia.
  - exists mem'. split; [done|]. intros i. rewrite Hm. unfold copied.
    destruct (decide (i = d - 1)) as [->|Hne].
    + rewrite decide_False, decide_True, lookup_insert_eq by lia.
      rewrite <- Hb. f_equal. lia.
    + destruct (decide (d - Z.of_nat (S n) <= i < d - Z.of_nat (S n) + Z.of_nat (S n))).
      * rewrite decide_True, lookup_insert_ne by lia. f_equal. lia.
      * rewrite decide_False, lookup_insert_ne by lia. done.
Qed.

Lemma memset_loop_spec n : forall d v mem,
  mem_mapped d n mem ->
  exists mem', memset_loop n d v mem = Some mem' /\
    forall i, mem' !! i = if decide (d <= i < d + Z.of_nat n) then Some v else mem !! i.
Proof.
  induction n as [|n IH]; intros d v mem Hd; cbn [memset_loop].
  { exists mem. split; [done|]. intros i. by rewrite decide_False by lia. }
  rewrite store_mem_mapped by (apply Hd; lia).
  destruct (IH (d + 1) v (<[d := v]> mem)) as (mem' & E & Hm).
  - apply mem_mapped_insert. intros i Hi. apply Hd. lia.
  - exists mem'. split; [done|]. intros i. rewrite Hm. destruct (decide (i = d)) as [->|].
    + by rewrite decide_False, decide_True, lookup_insert_eq by lia.
    + rewrite lookup_insert_ne by done. repeat case_decide; (done || lia).
Qed.

(** ** Claims *)

(** C31: on mapped memory [memmove] is the reference copy for every overlap of
    source and destination; [memcpy] is too unless the destination starts
    inside the source, above its start; [memset] fills exactly its range.  No
    byte outside the destination changes and each returns [dest]. *)
Theorem memory_routines_exact (dest src value : Z) (count : nat) (mem : bytes_at) :
  mem_mapped dest count mem -> mem_mapped src count mem ->
  (exists mem', memmove dest src count mem = Some (dest, mem') /\
     forall i, mem' !! i = copied dest src count mem i) /\
  (dest <= src \/ src + Z.of_nat count <= dest ->
   exists mem', memcpy dest src count mem = Some (dest, mem') /\
     forall i, mem' !! i = copied dest src count mem i) /\
  (exists mem', memset dest value count mem = Some (dest, mem') /\
     forall i, mem' !! i = if decide (dest <= i < dest + Z.of_nat count) then Some (u8 value) else mem !! i).
Proof.
  intros Hd Hs. split_all.
  - unfold memmove. destruct (Z.eqb_spec dest src) as [->|Hne]; cbn [orb].
    { exists mem. split; [done|]. intros i. unfold copied. case_decide; [f_equal; lia|done]. }
    destruct (Nat.eqb_spec count 0) as [->|Hnz].
    { exists mem. split; [done|]. intros i. unfold copied. by rewrite decide_False by lia. }
    case_if; zbool.
    + destruct (copy_up_spec count dest src mem) as (mem' & -> & Hm); [done|done|lia|by exists mem'].
    + destruct (copy_down_spec count (dest + Z.of_nat count) (src + Z.of_nat count) mem)
        as (mem' & -> & Hm); rewrite ?Z.add_simpl_r in *; [done|done|lia|by exists mem'].
  - intros Hov. unfold memcpy.
    destruct (copy_up_spec count dest src mem) as (mem' & -> & Hm); [done..|by exists mem'].
  - unfold memset. destruct (memset_loop_spec count dest (u8 value) mem Hd) as (mem' & -> & Hm).
    by exists mem'.
Qed.

(** Bytes 1 to 5 at the addresses 10 to 14, moved up by one: all overlap but
    the last. *)
Definition sample_mem : bytes_at := list_to_map (zip (seqZ 10 6) [1; 2; 3; 4; 5; 6]).

Lemma memory_routines_exact_witness :
  exists mem', memmove 11 10 5 sample_mem = Some (11, mem') /\
    ((fun i => mem' !! i) <$> seqZ 10 6) = [Some 1; Some 1; Some 2; Some 3; Some 4; Some 5].
Proof.
  assert (Hm : forall p, 10 <= p -> p + 5 <= 16 -> mem_mapped p 5 sample_mem).
  { intros p H1 H2 i Hi. assert (Hin : i ∈ seqZ 10 6) by (apply elem_of_seqZ; lia).
    assert (E : forallb (fun i => bool_decide (is_Some (sample_mem !! i))) (seqZ 10 6) = true)
      by (vm_compute; reflexivity).
    rewrite forallb_forall in E. apply list_elem_of_In in Hin. specialize (E i Hin).
    by apply bool_decide_eq_true in E. }
  destruct (memory_routines_exact 11 10 0 5 sample_mem) as [(mem' & E & Hc) _]; [apply Hm; lia..|].
  exists mem'. split; [exact E|].
  assert (Ef : ((fun i => mem' !! i) <$> seqZ 10 6) = (copied 11 10 5 sample_mem <$> seqZ 10 6))
    by (apply list_fmap_ext; intros; apply Hc).
  rewrite Ef. vm_compute. reflexivity.
Defined.
