(* ===== verification/Machine.v ===== *)
(** * The machine: ports, interrupt flag, locks

    The state the low-level code of [kernel/core] and [kernel/arch/x86_64]
    works on.  The hardware is a parameter: what a port reads is a function of
    all the port accesses before.  The code runs on one processor, so an
    attempt to take a lock that is taken never ends: its holder is the code the
    attempt interrupted, which goes on only after the handler returns.  (The
    gate of vector 3 leaves the interrupt flag as it is, the others clear it;
    an interrupt served while a handler spins does not free the lock either.) *)
From S2P Require Import Prelude.
From Stdlib Require Import Strings.Ascii Strings.String.

Inductive io :=
  | IoIn (port value : Z)
  | IoOut (port value : Z)
  | IoCli
  | IoSti
  | IoLidt (limit base : Z).

#[export] Instance io_eq_dec : EqDecision io.
Proof. solve_decision. Defined.

(** The interrupt flag, clear at first: the last [cli] or [sti] decides. *)
Definition interrupts_on (t : list io) : bool :=
  foldl (fun b e => match e with IoSti => true | IoCli => false | _ => b end) false t.

(** One 16-byte gate of the interrupt descriptor table. *)
Record x86_64_idt_entry := mk_gate {
  offset_low : Z; selector : Z; ist : Z; type_attributes : Z;
  offset_mid : Z; offset_high : Z; gate_reserved : Z
}.

Record x86_64_idtr := mk_idtr { idtr_limit : Z; idtr_base : Z }.

(** The frame a trap stub pushes ([idt.h]). *)
Record x86_64_trap_frame := mk_frame {
  tf_r15 : Z; tf_r14 : Z; tf_r13 : Z; tf_r12 : Z; tf_r11 : Z; tf_r10 : Z; tf_r9 : Z; tf_r8 : Z;
  tf_rsi : Z; tf_rdi : Z; tf_rbp : Z; tf_rdx : Z; tf_rcx : Z; tf_rbx : Z; tf_rax : Z;
  tf_vector : Z; tf_error_code : Z; tf_rip : Z; tf_cs : Z; tf_rflags : Z
}.

(** What the linker, the assembly files and the processor provide; [hw_irq]
    are the timer interrupts that are pending at a point of the history, each
    with the registers it interrupts. *)
Record hardware := mk_hardware {
  hw_in : list io -> Z -> Z;
  hw_rflags : list io -> Z;
  hw_cr2 : list io -> Z;
  hw_irq : list io -> list x86_64_trap_frame;
  exception_stub : Z -> Z;
  int80_stub : Z;
  idt_addr : Z;
  kernel_start : Z;
  kernel_end : Z
}.

Record machine := mk_machine {
  trace : list io;
  log_lock : bool;
  serial_lock : bool;
  g_ticks : Z;
  trap_count : Z;
  idt : list x86_64_idt_entry;
  idtr : x86_64_idtr
}.

Definition set_log_lock (b : bool) (s : machine) : machine :=
  mk_machine (trace s) b (serial_lock s) (g_ticks s) (trap_count s) (idt s) (idtr s).
Definition set_serial_lock (b : bool) (s : machine) : machine :=
  mk_machine (trace s) (log_lock s) b (g_ticks s) (trap_count s) (idt s) (idtr s).
Definition set_ticks (n : Z) (s : machine) : machine :=
  mk_machine (trace s) (log_lock s) (serial_lock s) n (trap_count s) (idt s) (idtr s).
Definition set_trap_count (n : Z) (s : machine) : machine :=
  mk_machine (trace s) (log_lock s) (serial_lock s) (g_ticks s) n (idt s) (idtr s).
Definition set_idt (t : list x86_64_idt_entry) (s : machine) : machine :=
  mk_machine (trace s) (log_lock s) (serial_lock s) (g_ticks s) (trap_count s) t (idtr s).
Definition set_idtr (r : x86_64_idtr) (s : machine) : machine :=
  mk_machine (trace s) (log_lock s) (serial_lock s) (g_ticks s) (trap_count s) (idt s) r.
Definition add_trace (t : list io) (s : machine) : machine :=
  mk_machine (trace s ++ t) (log_lock s) (serial_lock s) (g_ticks s) (trap_count s) (idt s) (idtr s).

(** ** Outcomes *)

(** A call returns, stops the processor for good, spins forever on a taken
    lock, or is undefined. *)
Inductive outcome (A : Type) :=
  | Ret (x : A)
  | Halted
  | Spinning
  | Undefined.
Arguments Ret {A}.
Arguments Halted {A}.
Arguments Spinning {A}.
Arguments Undefined {A}.

Definition km (A : Type) : Type := machine -> outcome A * machine.

Definition kret {A} (x : A) : km A := fun s => (Ret x, s).
Definition kbind {A B} (m : km A) (k : A -> km B) : km B := fun s =>
  match m s with
  | (Ret x, s) => k x s
  | (Halted, s) => (Halted, s)
  | (Spinning, s) => (Spinning, s)
  | (Undefined, s) => (Undefined, s)
  end.
Notation "'do!' x '<-' m ';' k" := (kbind m (fun x => k))
  (at level 10, x name, m at level 100, k at level 200).
Notation "m ';!' k" := (kbind m (fun _ => k)) (at level 60, right associativity).

Definition kmodify (f : machine -> machine) : km unit := fun s => (Ret tt, f s).
Definition kget {A} (f : machine -> A) : km A := fun s => (Ret (f s), s).
Definition kwhen (b : bool) (m : km unit) : km unit := if b then m else kret tt.
Definition kundef {A} : km A := fun s => (Undefined, s).

(** ** Instructions *)

Definition outb (port value : Z) : km unit := kmodify (add_trace [IoOut port (u8 value)]).
Definition io_wait : km unit := outb 0x80 0.
Definition cpu_cli : km unit := kmodify (add_trace [IoCli]).
Definition cpu_sti : km unit := kmodify (add_trace [IoSti]).
(** [cli], then [hlt] in an endless loop. *)
Definition cpu_halt_forever {A} : km A := fun s => (Halted, add_trace [IoCli] s).

Section hw.
Context (H : hardware).
Definition inb (port : Z) : km Z := fun s =>
  let v := u8 (hw_in H (trace s) port) in (Ret v, add_trace [IoIn port v] s).
Definition cpu_read_rflags : km Z := kget (fun s => u64 (hw_rflags H (trace s))).
Definition vmm_read_cr2 : km Z := kget (fun s => u64 (hw_cr2 H (trace s))).
End hw.

(** ** Strings *)

(** The bytes of a string literal, terminator excluded. *)
Definition bytes_of (s : string) : list Z :=
  (fun c => Z.of_nat (nat_of_ascii c)) <$> list_ascii_of_string s.
