(* ===== verification/Console.v ===== *)
(** * Serial port, log and panic ([kernel/core/serial.c], [log.c], [panic.c])

    A C string is the list of its bytes; a null pointer is [None]. *)
From S2P Require Import Prelude Machine.
From Stdlib Require Import Strings.String.

Definition COM1_PORT : Z := 0x3F8.

Section console.
Context (H : hardware).

(** ** [serial.c] *)

Definition serial_tx_ready : km bool :=
  do! v <- inb H (COM1_PORT + 5); kret (negb (v .& 0x20 =? 0)).

Definition serial_init : km unit :=
  outb (COM1_PORT + 1) 0x00 ;! outb (COM1_PORT + 3) 0x80 ;! outb (COM1_PORT + 0) 0x03 ;!
  outb (COM1_PORT + 1) 0x00 ;! outb (COM1_PORT + 3) 0x03 ;! outb (COM1_PORT + 2) 0xC7 ;!
  outb (COM1_PORT + 4) 0x0B.

(** [timeout] counts down from 1000000: the poll after which it is 0 gives
    up.  [n] is the timeout left; the byte is sent when the port is ready. *)
Fixpoint putc_loop (n : nat) (c : Z) : km unit :=
  do! ready <- serial_tx_ready;
  if ready : bool then outb COM1_PORT c else
  match n with
  | O => kret tt
  | S n => putc_loop n c
  end.

Definition serial_timeout : nat := Z.to_nat 1000000.
Definition serial_putc (c : Z) : km unit := putc_loop serial_timeout c.

Fixpoint serial_chars (s : list Z) : km unit :=
  match s with
  | [] => kret tt
  | c :: s =>
      kwhen (c =? 10) (serial_putc 13) ;! serial_putc c ;! serial_chars s
  end.

(** [while (__atomic_test_and_set(l)) {}] and [__atomic_clear]. *)
Definition acquire (get : machine -> bool) (set : bool -> machine -> machine) : km unit := fun s =>
  if get s then (Spinning, s) else (Ret tt, set true s).
Definition release (set : bool -> machine -> machine) : km unit := kmodify (set false).

Definition serial_write (s : option (list Z)) : km unit :=
  match s with
  | None => kret tt
  | Some s =>
      acquire serial_lock set_serial_lock ;!
      serial_chars s ;!
      release set_serial_lock
  end.

(** ** [log.c] *)

Definition log_init : km unit := serial_init.

Definition log_write (s : option (list Z)) : km unit :=
  match s with
  | None => kret tt
  | Some _ =>
      acquire log_lock set_log_lock ;! serial_write s ;! release set_log_lock
  end.

Definition log_writeln (s : option (list Z)) : km unit :=
  match s with
  | None => kret tt
  | Some _ =>
      acquire log_lock set_log_lock ;!
      serial_write s ;! serial_write (Some [13; 10]) ;!
      release set_log_lock
  end.

Definition log_putc (c : Z) : km unit := serial_putc c.

Definition digits : list Z := bytes_of "0123456789abcdef".

(** The digits at the shifts [4 (n - 1)], ..., 4, 0. *)
Fixpoint hex_loop (n : nat) (value : Z) : km unit :=
  match n with
  | O => kret tt
  | S n =>
      let nibble := u8 ((value .>> (4 * Z.of_nat n)) .& 0xF) in
      match digits !! Z.to_nat nibble with
      | Some d => log_putc d ;! hex_loop n value
      | None => kundef
      end
  end.

Definition log_hex64 (value : Z) : km unit :=
  log_write (Some (bytes_of "0x")) ;! hex_loop 16 value.

Definition log_key_value_hex64 (key : option (list Z)) (value : Z) : km unit :=
  log_write key ;! log_write (Some (bytes_of "=")) ;! log_hex64 value ;! log_putc 10.

(** String literals. *)
Definition writeln (s : string) : km unit := log_writeln (Some (bytes_of s)).
Definition write (s : string) : km unit := log_write (Some (bytes_of s)).
Definition key_hex (key : string) (v : Z) : km unit := log_key_value_hex64 (Some (bytes_of key)) v.

(** ** [panic.c] *)

(** The digits of [value], last first, in at most [fuel] array elements. *)
Fixpoint dec_digits (fuel : nat) (value : Z) : list Z :=
  match fuel with
  | O => []
  | S fuel => if value =? 0 then [] else 48 + value mod 10 :: dec_digits fuel (value / 10)
  end.

Fixpoint put_all (cs : list Z) : km unit :=
  match cs with [] => kret tt | c :: cs => log_putc c ;! put_all cs end.

Definition log_dec_u32 (value : Z) : km unit :=
  if value =? 0 then log_putc 48 else put_all (reverse (dec_digits 11 value)).

Definition MCSOS_NAME : string := "MCSOS".
Definition MCSOS_VERSION : string := "260502".
Definition MCSOS_MILESTONE : string := "M4".

Definition kernel_panic_at {A} (file : option (list Z)) (line : Z) (reason : option (list Z))
    (code : Z) : km A :=
  do! rflags <- cpu_read_rflags H;
  cpu_cli ;!
  writeln "" ;!
  writeln "================ MCSOS KERNEL PANIC ================" ;!
  write "system=" ;! write MCSOS_NAME ;!
  write " version=" ;! write MCSOS_VERSION ;!
  write " milestone=" ;! writeln MCSOS_MILESTONE ;!
  write "reason=" ;!
  log_writeln (match reason with Some _ => reason | None => Some (bytes_of "<null>") end) ;!
  write "location=" ;!
  log_write (match file with Some _ => file | None => Some (bytes_of "<unknown>") end) ;!
  write ":" ;!
  log_dec_u32 (u32 line) ;! log_putc 10 ;!
  key_hex "panic_code" code ;! key_hex "rflags_before_cli" rflags ;!
  writeln "state=halted" ;!
  writeln "====================================================" ;!
  cpu_halt_forever.

(** [KERNEL_PANIC] and [KERNEL_ASSERT] at a source line. *)
Definition KERNEL_PANIC {A} (file : string) (line : Z) (reason : string) (code : Z) : km A :=
  kernel_panic_at (Some (bytes_of file)) line (Some (bytes_of reason)) (u64 code).
Definition KERNEL_ASSERT (file : string) (line : Z) (expr : string) (b : bool) : km unit :=
  if b then kret tt
  else KERNEL_PANIC file line (String.append "assertion failed: " expr) 0xA55E4710.

End console.
