(* ===== verification/ConsoleFacts.v ===== *)
(** * What the console writes

    [emits m bs]: started with both locks free, [m] returns for any hardware,
    only polls and writes the serial port, leaves the rest of the machine and
    the locks alone, and on a port that is always ready sends exactly [bs].
    One lemma per construct; the log functions follow by composition. *)
From S2P Require Import Prelude Machine Console.

Definition console_event (e : io) : Prop :=
  match e with
  | IoIn p _ => p = COM1_PORT + 5
  | IoOut p _ => p = COM1_PORT
  | _ => False
  end.

(** The bytes sent to the data port. *)
Definition sent (t : list io) : list Z :=
  omap (fun e => match e with IoOut p v => if p =? COM1_PORT then Some v else None | _ => None end) t.

Lemma sent_app t1 t2 : sent (t1 ++ t2) = sent t1 ++ sent t2.
Proof. apply omap_app. Qed.

Lemma add_trace_app t1 t2 s : add_trace t2 (add_trace t1 s) = add_trace (t1 ++ t2) s.
Proof. unfold add_trace. cbn. by rewrite app_assoc. Qed.

Lemma add_trace_nil s : add_trace [] s = s.
Proof. destruct s. unfold add_trace. cbn. by rewrite app_nil_r. Qed.

Create HintDb console.

Section facts.
Context (H : hardware).

(** The transmitter is always ready. *)
Definition tx_ready : Prop := forall t, Z.land (u8 (hw_in H t (COM1_PORT + 5))) 0x20 <> 0.

(** Like [emits], for code that runs while the given locks may be held. *)
Definition sends (m : km unit) (bs : list Z) : Prop :=
  forall s, exists t, m s = (Ret tt, add_trace t s) /\ Forall console_event t /\
    (tx_ready -> sent t = bs).

Definition emits (m : km unit) (bs : list Z) : Prop :=
  forall s, log_lock s = false -> serial_lock s = false ->
    exists t, m s = (Ret tt, add_trace t s) /\ Forall console_event t /\ (tx_ready -> sent t = bs).

Lemma sends_ret : sends (kret tt) [].
Proof. intros s. exists []. by rewrite add_trace_nil. Qed.

Lemma sends_seq m1 m2 b1 b2 : sends m1 b1 -> sends m2 b2 -> sends (m1 ;! m2) (b1 ++ b2).
Proof.
  intros H1 H2 s. destruct (H1 s) as (t1 & E1 & F1 & S1).
  destruct (H2 (add_trace t1 s)) as (t2 & E2 & F2 & S2). exists (t1 ++ t2).
  unfold kbind. rewrite E1, E2, add_trace_app. split_all; [done|by apply Forall_app|].
  intros Hr. by rewrite sent_app, S1, S2.
Qed.

Lemma emits_sends m bs : sends m bs -> emits m bs.
Proof. intros Hm s _ _. apply Hm. Qed.

Lemma emits_seq m1 m2 b1 b2 : emits m1 b1 -> emits m2 b2 -> emits (m1 ;! m2) (b1 ++ b2).
Proof.
  intros H1 H2 s Hl Hs. destruct (H1 s Hl Hs) as (t1 & E1 & F1 & S1).
  destruct (H2 (add_trace t1 s) Hl Hs) as (t2 & E2 & F2 & S2). exists (t1 ++ t2).
  unfold kbind. rewrite E1, E2, add_trace_app. split_all; [done|by apply Forall_app|].
  intros Hr. by rewrite sent_app, S1, S2.
Qed.

(** ** The serial port *)

Definition poll_event (s : machine) : io :=
  IoIn (COM1_PORT + 5) (u8 (hw_in H (trace s) (COM1_PORT + 5))).

Lemma putc_loop_eq n c s :
  putc_loop H n c s =
    if u8 (hw_in H (trace s) (COM1_PORT + 5)) .& 0x20 =? 0
    then match n with
         | O => (Ret tt, add_trace [poll_event s] s)
         | S n => putc_loop H n c (add_trace [poll_event s] s)
         end
    else (Ret tt, add_trace [poll_event s; IoOut COM1_PORT (u8 c)] s).
Proof.
  assert (E : add_trace [poll_event s; IoOut COM1_PORT (u8 c)] s =
    add_trace [IoOut COM1_PORT (u8 c)] (add_trace [poll_event s] s)) by (by rewrite add_trace_app).
  rewrite E. destruct n; cbn [putc_loop]; unfold serial_tx_ready, inb, kbind, kret, poll_event; cbv beta iota zeta;
    by destruct (_ =? 0).
Qed.

(** The wait is bounded: the character is sent or dropped. *)
Lemma sends_putc_loop n c : 0 <= c < 256 -> sends (putc_loop H n c) [c].
Proof.
  intros Hc. assert (Hu : u8 c = c) by (by apply wrap_id).
  induction n as [|n IH]; intros s; rewrite putc_loop_eq, Hu;
    (destruct (Z.eqb_spec (u8 (hw_in H (trace s) (COM1_PORT + 5)) .& 0x20) 0) as [E|E];
      [|exists [poll_event s; IoOut COM1_PORT c]; split_all; [done|by repeat constructor|done]]).
  - exists [poll_event s]. split_all; [done|by repeat constructor|].
    intros Hr. by destruct (Hr (trace s)).
  - destruct (IH (add_trace [poll_event s] s)) as (t & -> & Ft & _).
    exists (poll_event s :: t). rewrite add_trace_app. split_all; [done|by constructor|].
    intros Hr. by destruct (Hr (trace s)).
Qed.

Lemma sends_putc c : 0 <= c < 256 -> sends (serial_putc H c) [c].
Proof. apply sends_putc_loop. Qed.

(** Line feeds are sent as carriage return, line feed. *)
Definition crlf (s : list Z) : list Z := s ≫= fun c => if c =? 10 then [13; 10] else [c].

Lemma sends_chars s : Forall is_byte s -> sends (serial_chars H s) (crlf s).
Proof.
  induction 1 as [|c s Hc _ IH]; cbn [serial_chars]; [apply sends_ret|].
  change (crlf (c :: s)) with ((if c =? 10 then [13; 10] else [c]) ++ crlf s).
  destruct (Z.eqb_spec c 10) as [->|]; cbn [kwhen].
  - apply (sends_seq _ _ [13]); [apply sends_putc; lia|].
    apply (sends_seq _ _ [10]); [apply sends_putc; lia|done].
  - apply (sends_seq _ _ []); [apply sends_ret|].
    apply (sends_seq _ _ [c]); [by apply sends_putc|done].
Qed.

(** A section between [acquire] and [release] of a free lock. *)
Lemma serial_write_sends s st :
  Forall is_byte s -> serial_lock st = false ->
  exists t, serial_write H (Some s) st = (Ret tt, add_trace t st) /\ Forall console_event t /\
    (tx_ready -> sent t = crlf s).
Proof.
  intros Hs Hl. unfold serial_write, acquire, release, kbind, kmodify. rewrite Hl.
  destruct (sends_chars s Hs (set_serial_lock true st)) as (t & -> & Ht & Hb).
  exists t. split_all; [|done|done]. unfold set_serial_lock, add_trace. cbn.
  destruct st. cbn in *. by rewrite Hl.
Qed.

Lemma emits_log_write s : Forall is_byte s -> emits (log_write H (Some s)) (crlf s).
Proof.
  intros Hs st Hl Hsl. unfold log_write, acquire, kbind. rewrite Hl.
  destruct (serial_write_sends s (set_log_lock true st) Hs Hsl) as (t & -> & Ht & Hb).
  exists t. split_all; [|done|done]. unfold release, kmodify, set_log_lock, add_trace. cbn.
  destruct st. cbn in *. by rewrite Hl.
Qed.

Lemma emits_log_writeln s :
  Forall is_byte s -> emits (log_writeln H (Some s)) (crlf s ++ [13; 13; 10]).
Proof.
  intros Hs st Hl Hsl. unfold log_writeln, acquire, kbind. rewrite Hl.
  destruct (serial_write_sends s (set_log_lock true st) Hs Hsl) as (t1 & -> & Ht1 & Hb1).
  destruct (serial_write_sends [13; 10] (add_trace t1 (set_log_lock true st))) as (t2 & -> & Ht2 & Hb2).
  { repeat constructor; unfold is_byte; lia. }
  { done. }
  exists (t1 ++ t2). rewrite add_trace_app. split_all; [|by apply Forall_app|].
  - unfold release, kmodify, set_log_lock, add_trace. cbn. destruct st. cbn in *. by rewrite Hl.
  - intros Hr. by rewrite sent_app, Hb1, Hb2.
Qed.

(** ** Numbers *)

Definition hex_digit (d : Z) : Z := if d <? 10 then 48 + d else 87 + d.

(** The [n] low hexadecimal digits, highest first. *)
Fixpoint hex_out (n : nat) (v : Z) : list Z :=
  match n with
  | O => []
  | S n => hex_digit ((v / 16 ^ Z.of_nat n) mod 16) :: hex_out n v
  end.

Lemma digits_lookup d : 0 <= d < 16 -> digits !! Z.to_nat d = Some (hex_digit d).
Proof.
  intros Hd. assert (E : forallb (fun d => bool_decide (digits !! Z.to_nat d = Some (hex_digit d)))
    (seqZ 0 16) = true) by (vm_compute; reflexivity).
  rewrite forallb_forall in E. specialize (E d). rewrite bool_decide_eq_true in E.
  apply E, list_elem_of_In, elem_of_seqZ. lia.
Qed.

Lemma nibble_eq v n : u8 ((v .>> (4 * Z.of_nat n)) .& 0xF) = (v / 16 ^ Z.of_nat n) mod 16.
Proof.
  rewrite Z.shiftr_div_pow2 by lia.
  replace (2 ^ (4 * Z.of_nat n)) with (16 ^ Z.of_nat n) by (rewrite Z.pow_mul_r by lia; done).
  change 0xF with (2 ^ 4 - 1). rewrite land_ones by lia. change (2 ^ 4) with 16.
  apply wrap_id. pose proof (Z.mod_pos_bound (v / 16 ^ Z.of_nat n) 16). unfold in_u. lia.
Qed.

Lemma hex_digit_byte d : 0 <= d < 16 -> 0 <= hex_digit d < 256.
Proof. intros. unfold hex_digit. case_if; zbool; lia. Qed.

Lemma sends_hex_loop n v : sends (hex_loop H n v) (hex_out n v).
Proof.
  induction n as [|n IH]; cbn [hex_loop hex_out]; [apply sends_ret|].
  rewrite nibble_eq.
  pose proof (Z.mod_pos_bound (v / 16 ^ Z.of_nat n) 16 ltac:(lia)) as Hd.
  rewrite digits_lookup by done. unfold log_putc.
  apply (sends_seq _ _ [hex_digit _]); [by apply sends_putc, hex_digit_byte|done].
Qed.

(** Reading the digits back. *)
Definition digit_val (c : Z) : Z := if c <? 58 then c - 48 else c - 87.
Definition hex_val (ds : list Z) : Z := foldl (fun a c => a * 16 + digit_val c) 0 ds.

Lemma digit_val_hex d : 0 <= d < 16 -> digit_val (hex_digit d) = d.
Proof. intros. unfold digit_val, hex_digit. repeat case_if; zbool; lia. Qed.

Lemma hex_val_out n v : hex_val (hex_out n v) = v mod 16 ^ Z.of_nat n.
Proof.
  unfold hex_val.
  assert (Hacc : forall a, foldl (fun a c => a * 16 + digit_val c) a (hex_out n v)
    = a * 16 ^ Z.of_nat n + v mod 16 ^ Z.of_nat n).
  { induction n as [|n IH]; intros a; cbn [hex_out foldl].
    - change (16 ^ Z.of_nat 0) with 1. rewrite Z.mod_1_r. lia.
    - pose proof (Z.mod_pos_bound (v / 16 ^ Z.of_nat n) 16 ltac:(lia)) as Hd.
      rewrite digit_val_hex, IH by done.
      replace (16 ^ Z.of_nat (S n)) with (16 ^ Z.of_nat n * 16)
        by (rewrite Nat2Z.inj_succ, Z.pow_succ_r by lia; lia).
      rewrite Z.rem_mul_r by (try apply Z.pow_nonzero; lia). lia. }
  rewrite Hacc. lia.
Qed.

Lemma emits_log_hex64 v : emits (log_hex64 H v) ([48; 120] ++ hex_out 16 v).
Proof.
  unfold log_hex64. apply emits_seq.
  - apply (emits_log_write [48; 120]). repeat constructor; unfold is_byte; lia.
  - apply emits_sends, sends_hex_loop.
Qed.

Lemma emits_key_value key v :
  Forall is_byte key ->
  emits (log_key_value_hex64 H (Some key) v) (crlf key ++ [61; 48; 120] ++ hex_out 16 v ++ [10]).
Proof.
  intros Hk. unfold log_key_value_hex64. apply emits_seq; [by apply emits_log_write|].
  apply (emits_seq _ _ [61]); [apply (emits_log_write [61]); repeat constructor; unfold is_byte; lia|].
  apply (emits_seq _ _ ([48; 120] ++ hex_out 16 v)); [apply emits_log_hex64|].
  apply emits_sends, sends_putc. lia.
Qed.

(** The decimal digits of [log_dec_u32], lowest first. *)
Lemma dec_digits_bytes fuel v : 0 <= v -> Forall (fun c => 48 <= c < 58) (dec_digits fuel v).
Proof.
  revert v. induction fuel as [|fuel IH]; intros v Hv; cbn [dec_digits]; [constructor|].
  case_if; [constructor|]. constructor; [pose proof (Z.mod_pos_bound v 10); lia|].
  apply IH, Z.div_pos; lia.
Qed.

Definition dec_val (ds : list Z) : Z := foldr (fun c a => (c - 48) + 10 * a) 0 (reverse ds).

Lemma dec_val_digits fuel v :
  0 <= v < 10 ^ Z.of_nat fuel -> dec_val (reverse (dec_digits fuel v)) = v.
Proof.
  unfold dec_val. rewrite reverse_involutive. revert v.
  induction fuel as [|fuel IH]; intros v Hv; cbn [dec_digits].
  - change (10 ^ Z.of_nat 0) with 1 in Hv. cbn. lia.
  - case_if; zbool; [done|]. cbn [foldr]. rewrite IH.
    + pose proof (Z.div_mod v 10). lia.
    + rewrite Nat2Z.inj_succ, Z.pow_succ_r in Hv by lia.
      split; [apply Z.div_pos; lia|apply Z.div_lt_upper_bound; lia].
Qed.

Lemma sends_put_all cs : Forall is_byte cs -> sends (put_all H cs) cs.
Proof.
  induction 1 as [|c cs Hc _ IH]; cbn [put_all]; [apply sends_ret|].
  apply (sends_seq _ _ [c]); [by apply sends_putc|done].
Qed.

Definition dec_out (v : Z) : list Z := if v =? 0 then [48] else reverse (dec_digits 11 v).

Lemma sends_log_dec v : 0 <= v -> sends (log_dec_u32 H v) (dec_out v).
Proof.
  intros Hv. unfold log_dec_u32, dec_out. case_if; [apply sends_putc; lia|].
  apply sends_put_all, Forall_reverse. eapply Forall_impl; [by apply dec_digits_bytes|].
  unfold is_byte. cbn. lia.
Qed.

(** ** Programs that log *)

(** [acts P m r]: started with both locks free, [m] ends with [r] for any
    hardware, and all it does to the machine is to add events of [P]. *)
Definition acts (P : io -> Prop) (m : km unit) (r : outcome unit) : Prop :=
  forall s, log_lock s = false -> serial_lock s = false ->
    exists t, m s = (r, add_trace t s) /\ Forall P t.

Local Abbreviation logs m := (acts console_event m (Ret tt)).

Lemma acts_seq P m1 m2 r : acts P m1 (Ret tt) -> acts P m2 r -> acts P (m1 ;! m2) r.
Proof.
  intros H1 H2 s Hl Hs. destruct (H1 s Hl Hs) as (t1 & E1 & F1).
  destruct (H2 (add_trace t1 s) Hl Hs) as (t2 & E2 & F2). exists (t1 ++ t2).
  unfold kbind. rewrite E1, E2, add_trace_app. split; [done|by apply Forall_app].
Qed.

Lemma acts_impl (P Q : io -> Prop) m r : (forall e, P e -> Q e) -> acts P m r -> acts Q m r.
Proof.
  intros HPQ Hm s Hl Hs. destruct (Hm s Hl Hs) as (t & E & F). exists t. split; [done|].
  by eapply Forall_impl.
Qed.

Lemma emits_logs m bs : emits m bs -> logs m.
Proof. intros Hm s Hl Hs. destruct (Hm s Hl Hs) as (t & E & F & _). by exists t. Qed.

Lemma bytes_of_ok s : Forall is_byte (bytes_of s).
Proof.
  unfold bytes_of. apply Forall_fmap, Forall_true. intros c. unfold is_byte. cbn.
  pose proof (Ascii.nat_ascii_bounded c). lia.
Qed.

Lemma logs_ret : logs (kret tt).
Proof. eapply emits_logs, emits_sends, sends_ret. Qed.

Lemma logs_write s : logs (write H s).
Proof. eapply emits_logs, emits_log_write, bytes_of_ok. Qed.

Lemma logs_writeln s : logs (writeln H s).
Proof. eapply emits_logs, emits_log_writeln, bytes_of_ok. Qed.

Lemma logs_key_hex key v : logs (key_hex H key v).
Proof. eapply emits_logs, emits_key_value, bytes_of_ok. Qed.

Lemma logs_putc c : 0 <= c < 256 -> logs (log_putc H c).
Proof. intros. by eapply emits_logs, emits_sends, sends_putc. Qed.

Definition panic_event (e : io) : Prop := console_event e \/ e = IoCli.

Lemma logs_panic m : logs m -> acts panic_event m (Ret tt).
Proof. apply acts_impl. intros e He. by left. Qed.

Lemma acts_halt : acts panic_event cpu_halt_forever Halted.
Proof. intros s _ _. exists [IoCli]. split; [done|]. apply Forall_singleton. by right. Qed.

Lemma acts_cli : acts panic_event cpu_cli (Ret tt).
Proof. intros s _ _. exists [IoCli]. split; [done|]. apply Forall_singleton. by right. Qed.

#[local] Hint Resolve logs_ret logs_write logs_writeln logs_key_hex acts_seq : console.

Lemma panic_halts file line reason code :
  Forall is_byte file -> Forall is_byte reason ->
  acts panic_event (kernel_panic_at H (Some file) line (Some reason) code) Halted.
Proof.
  intros Hf Hr s Hl Hs. unfold kernel_panic_at. unfold kbind at 1. unfold cpu_read_rflags, kget.
  revert s Hl Hs. intros s. generalize (u64 (hw_rflags H (trace s))). intros rflags. revert s.
  apply (acts_seq _ cpu_cli); [apply acts_cli|].
  repeat (apply acts_seq; [apply logs_panic|]); auto with console; try apply acts_halt.
  - by eapply emits_logs, emits_log_writeln.
  - by eapply emits_logs, emits_log_write.
  - eapply emits_logs, emits_sends, sends_log_dec. pose proof (u32_bounds line). lia.
  - apply logs_putc. lia.
Qed.

Lemma KERNEL_PANIC_halts file line reason code :
  acts panic_event (KERNEL_PANIC H file line reason code) Halted.
Proof. apply panic_halts; apply bytes_of_ok. Qed.

End facts.

Abbreviation logs m := (acts console_event m (Ret tt)).

#[export] Hint Resolve logs_ret logs_write logs_writeln logs_key_hex acts_seq : console.
