(* ===== verification/Interrupt.v ===== *)
(** * Interrupts ([kernel/arch/x86_64/idt.c], [syscall_arch.c],
      [kernel/core/pic.c], [pit.c], [trap.c]) and boot ([kmain.c], [entry.c])

    [__FILE__] is the path the Makefile compiles. *)
From S2P Require Import Prelude Machine Console.
From Stdlib Require Import Strings.String.

Definition X86_64_IDT_VECTOR_COUNT : Z := 256.
Definition X86_64_KERNEL_CODE_SELECTOR : Z := 0x28.
Definition X86_64_IDT_GATE_INTERRUPT : Z := 0x8E.
Definition X86_64_IDT_GATE_TRAP : Z := 0x8F.
Definition IDT_ENTRY_SIZE : Z := 16.

(** ** [idt.c] *)

Definition make_gate (handler attributes : Z) : x86_64_idt_entry :=
  mk_gate (u16 (handler .& 0xFFFF)) (u16 X86_64_KERNEL_CODE_SELECTOR) 0 attributes
    (u16 ((handler .>> 16) .& 0xFFFF)) (u32 ((handler .>> 32) .& 0xFFFFFFFF)) 0.

Definition x86_64_idt_set_gate (vector handler attributes : Z) : km unit :=
  kmodify (fun s => set_idt (<[Z.to_nat vector := make_gate handler attributes]> (idt s)) s).

(** The [n] vectors from [v] on. *)
Fixpoint clear_gates (n : nat) (v : Z) : km unit :=
  match n with
  | O => kret tt
  | S n => x86_64_idt_set_gate (u8 v) 0 0 ;! clear_gates n (v + 1)
  end.

Section interrupt.
Context (H : hardware).

Definition gate_type (vector : Z) : Z :=
  if vector =? 3 then X86_64_IDT_GATE_TRAP else X86_64_IDT_GATE_INTERRUPT.

Fixpoint install_gates (n : nat) (v : Z) : km unit :=
  match n with
  | O => kret tt
  | S n => x86_64_idt_set_gate v (exception_stub H v) (gate_type v) ;! install_gates n (v + 1)
  end.

Definition lidt : km unit := fun s =>
  (Ret tt, add_trace [IoLidt (idtr_limit (idtr s)) (idtr_base (idtr s))] s).

Definition x86_64_idt_init : km unit :=
  clear_gates (Z.to_nat X86_64_IDT_VECTOR_COUNT) 0 ;!
  install_gates 48 0 ;!
  kmodify (fun s => set_idtr (mk_idtr (u16 (X86_64_IDT_VECTOR_COUNT * IDT_ENTRY_SIZE - 1)) (idt_addr H)) s) ;!
  do! limit <- kget (fun s => idtr_limit (idtr s));
  KERNEL_ASSERT H "kernel/arch/x86_64/idt.c" 51 "sizeof(x86_64_idt_entry_t) == 16u" (IDT_ENTRY_SIZE =? 16) ;!
  KERNEL_ASSERT H "kernel/arch/x86_64/idt.c" 53
    "idtr.limit == (uint16_t)((X86_64_IDT_VECTOR_COUNT * sizeof(x86_64_idt_entry_t)) - 1u)"
    (limit =? u16 (X86_64_IDT_VECTOR_COUNT * IDT_ENTRY_SIZE - 1)) ;!
  lidt ;!
  key_hex H "idt_base" (idt_addr H) ;! key_hex H "idt_limit" limit ;!
  writeln H "[M4] IDT loaded".

Definition x86_64_idt_base_for_test : km Z := kget (fun s => idtr_base (idtr s)).
Definition x86_64_idt_limit_for_test : km Z := kget (fun s => idtr_limit (idtr s)).

(** ** [syscall_arch.c] *)

Definition syscall_arch_init : km unit := x86_64_idt_set_gate 0x80 (int80_stub H) 0x8F.

(** ** [pic.c] *)

Definition PIC1_COMMAND : Z := 0x20.
Definition PIC1_DATA : Z := 0x21.
Definition PIC2_COMMAND : Z := 0xA0.
Definition PIC2_DATA : Z := 0xA1.
Definition PIC_EOI : Z := 0x20.
Definition PIC1_OFFSET : Z := 0x20.
Definition PIC2_OFFSET : Z := 0x28.

Definition pic_remap (offset1 offset2 : Z) : km unit :=
  do! master_mask <- inb H PIC1_DATA;
  do! slave_mask <- inb H PIC2_DATA;
  outb PIC1_COMMAND 0x11 ;! io_wait ;! outb PIC2_COMMAND 0x11 ;! io_wait ;!
  outb PIC1_DATA offset1 ;! io_wait ;! outb PIC2_DATA offset2 ;! io_wait ;!
  outb PIC1_DATA 4 ;! io_wait ;! outb PIC2_DATA 2 ;! io_wait ;!
  outb PIC1_DATA 0x01 ;! io_wait ;! outb PIC2_DATA 0x01 ;! io_wait ;!
  outb PIC1_DATA master_mask ;! outb PIC2_DATA slave_mask.

Definition pic_mask_all : km unit := outb PIC1_DATA 0xFF ;! outb PIC2_DATA 0xFF.

(** [1 << irq] is an [int]: a shift of 31 or more is undefined. *)
Definition int_bit (irq : Z) : option Z := if irq <? 31 then Some (1 .<< irq) else None.

Definition pic_unmask_irq (irq : Z) : km unit :=
  let port := if irq <? 8 then PIC1_DATA else PIC2_DATA in
  let irq := if irq <? 8 then irq else u8 (irq - 8) in
  do! v <- inb H port;
  match int_bit irq with
  | None => kundef
  | Some bit => outb port (u8 (v .& Z.lnot bit))
  end.

Definition pic_send_eoi (irq : Z) : km unit :=
  kwhen (8 <=? irq) (outb PIC2_COMMAND PIC_EOI) ;! outb PIC1_COMMAND PIC_EOI.

(** ** [pit.c] *)

Definition PIT_COMMAND : Z := 0x43.
Definition PIT_CHANNEL0 : Z := 0x40.
Definition PIT_BASE_FREQUENCY : Z := 1193182.

Definition pit_configure_hz (hz : Z) : km unit :=
  if hz =? 0 then kundef else
  let divisor := u16 (PIT_BASE_FREQUENCY / hz) in
  outb PIT_COMMAND 0x36 ;!
  outb PIT_CHANNEL0 (divisor .& 0xFF) ;!
  outb PIT_CHANNEL0 ((divisor .>> 8) .& 0xFF).

Definition timer_on_irq0 : km unit :=
  kmodify (fun s => set_ticks (u64 (g_ticks s + 1)) s) ;!
  do! ticks <- kget g_ticks;
  kwhen (ticks mod 100 =? 0) (serial_write H (Some (bytes_of "[MCSOS:TIMER] tick" ++ [10]))) ;!
  outb 0x20 0x20.

(** ** [trap.c] *)

Definition exception_names : list string :=
  ["#DE Divide Error"; "#DB Debug"; "NMI Interrupt"; "#BP Breakpoint"; "#OF Overflow";
   "#BR Bound Range Exceeded"; "#UD Invalid Opcode"; "#NM Device Not Available";
   "#DF Double Fault"; "Coprocessor Segment Overrun"; "#TS Invalid TSS";
   "#NP Segment Not Present"; "#SS Stack Segment Fault"; "#GP General Protection Fault";
   "#PF Page Fault"; "Reserved"; "#MF x87 Floating-Point Exception"; "#AC Alignment Check";
   "#MC Machine Check"; "#XM SIMD Floating-Point Exception"; "#VE Virtualization Exception";
   "#CP Control Protection Exception"; "Reserved"; "Reserved"; "Reserved"; "Reserved";
   "Reserved"; "Reserved"; "#HV Hypervisor Injection Exception";
   "#VC VMM Communication Exception"; "#SX Security Exception"; "Reserved"]%string.

(** A vector below 32 that is not in the table would be undefined. *)
Definition trap_name (vector : Z) : option string :=
  if vector <? 32 then exception_names !! Z.to_nat vector
  else Some "external-or-user-defined-interrupt"%string.

Definition b2z (b : bool) : Z := if b then 1 else 0.

Definition page_fault_dump (error_code : Z) (tf : x86_64_trap_frame) : km unit :=
  do! cr2 <- vmm_read_cr2 H;
  writeln H "#PF page fault" ;!
  key_hex H "cr2" cr2 ;! key_hex H "error" error_code ;! key_hex H "rip" (tf_rip tf) ;!
  key_hex H "present_protection" (b2z (negb (error_code .& 1 =? 0))) ;!
  key_hex H "write" (b2z (negb (error_code .& 2 =? 0))) ;!
  key_hex H "user" (b2z (negb (error_code .& 4 =? 0))) ;!
  key_hex H "reserved" (b2z (negb (error_code .& 8 =? 0))) ;!
  key_hex H "instruction_fetch" (b2z (negb (error_code .& 16 =? 0))).

Definition m4_trap_count_for_test : km Z := kget trap_count.

Definition log_trap_frame (f : x86_64_trap_frame) : km unit :=
  key_hex H "trap_vector" (tf_vector f) ;! key_hex H "trap_error" (tf_error_code f) ;!
  key_hex H "trap_rip" (tf_rip f) ;! key_hex H "trap_cs" (tf_cs f) ;!
  key_hex H "trap_rflags" (tf_rflags f) ;! key_hex H "trap_rax" (tf_rax f) ;!
  key_hex H "trap_rbx" (tf_rbx f) ;! key_hex H "trap_rcx" (tf_rcx f) ;!
  key_hex H "trap_rdx" (tf_rdx f).

Definition trap_file : string := "kernel/core/trap.c".

Definition x86_64_trap_dispatch (frame : option x86_64_trap_frame) : km unit :=
  match frame with
  | None => KERNEL_ASSERT H trap_file 88 "frame != (x86_64_trap_frame_t *)0" false
  | Some f =>
      kmodify (fun s => set_trap_count (u64 (trap_count s + 1)) s) ;!
      write H "[M4] trap dispatch: " ;!
      match trap_name (tf_vector f) with
      | None => kundef
      | Some name =>
          writeln H name ;!
          log_trap_frame f ;!
          if (32 <=? tf_vector f) && (tf_vector f <=? 47) then
            kwhen (tf_vector f =? 32) timer_on_irq0 ;!
            pic_send_eoi (u8 (tf_vector f - 32))
          else if tf_vector f =? 14 then
            page_fault_dump (tf_error_code f) f ;!
            KERNEL_PANIC H trap_file 107 "page fault" (tf_error_code f)
          else if tf_vector f =? 3 then
            writeln H "[M4] breakpoint handled; returning with iretq"
          else KERNEL_PANIC H trap_file 115 "unrecoverable CPU exception" (tf_vector f)
      end
  end.

(** The address a gate sends the processor to. *)
Definition gate_handler (g : x86_64_idt_entry) : Z :=
  offset_low g .| (offset_mid g .<< 16) .| (offset_high g .<< 32).

(** The frame the stub of a vector without error code builds: the saved
    registers, the vector, error code 0. *)
Definition stub_frame (vector : Z) (regs : x86_64_trap_frame) : x86_64_trap_frame :=
  mk_frame (tf_r15 regs) (tf_r14 regs) (tf_r13 regs) (tf_r12 regs) (tf_r11 regs) (tf_r10 regs)
    (tf_r9 regs) (tf_r8 regs) (tf_rsi regs) (tf_rdi regs) (tf_rbp regs) (tf_rdx regs) (tf_rcx regs)
    (tf_rbx regs) (tf_rax regs) vector 0 (tf_rip regs) (tf_cs regs) (tf_rflags regs).

(** The processor takes a trap with the frame [f] that the stub of its vector
    builds: the handler of the gate is entered if the gate is present; any code
    but the stub is undefined. *)
Definition through_gate (f : x86_64_trap_frame) : km unit :=
  do! gate <- kget (fun s => idt s !! Z.to_nat (tf_vector f));
  match gate with
  | Some g =>
      if negb (type_attributes g .& 0x80 =? 0) && (gate_handler g =? exception_stub H (tf_vector f))
      then x86_64_trap_dispatch (Some f) else kundef
  | None => kundef
  end.

(** [int3], with the processor's registers [regs]. *)
Definition x86_64_trigger_breakpoint_for_test (regs : x86_64_trap_frame) : km unit :=
  through_gate (stub_frame 3 regs).

(** The timer interrupts that are pending, one after the other: each handler
    runs with interrupts off and returns to the same point.  Line 0 is the
    only one that is not masked. *)
Fixpoint take_irqs (pending : list x86_64_trap_frame) : km unit :=
  match pending with
  | [] => kret tt
  | regs :: pending => through_gate (stub_frame 32 regs) ;! take_irqs pending
  end.

Definition serve_irqs : km unit := fun s =>
  if interrupts_on (trace s) then take_irqs (hw_irq H (trace s)) s else (Ret tt, s).

(** ** [kmain.c] *)

Definition kmain_file : string := "kernel/core/kmain.c".

Definition m4_selftest : km unit :=
  KERNEL_ASSERT H kmain_file 26 "__kernel_end > __kernel_start" (kernel_start H <? kernel_end H) ;!
  KERNEL_ASSERT H kmain_file 27 "sizeof(uintptr_t) == 8u" true ;!
  KERNEL_ASSERT H kmain_file 28 "sizeof(x86_64_idt_entry_t) == 16u" (IDT_ENTRY_SIZE =? 16) ;!
  do! base <- x86_64_idt_base_for_test;
  KERNEL_ASSERT H kmain_file 29 "x86_64_idt_base_for_test() != 0u" (negb (base =? 0)) ;!
  do! limit <- x86_64_idt_limit_for_test;
  KERNEL_ASSERT H kmain_file 30 "x86_64_idt_limit_for_test() == 4095u" (limit =? 4095) ;!
  writeln H "[M4] selftest: IDT invariants passed".

(** The part of [kmain] up to [cpu_sti]; the whole is in [Boot]. *)
Definition kmain_setup : km unit :=
  log_init ;!
  write H MCSOS_NAME ;! write H " " ;! write H MCSOS_VERSION ;! write H " " ;!
  write H MCSOS_MILESTONE ;! writeln H " kernel entered" ;!
  key_hex H "kernel_start" (kernel_start H) ;!
  key_hex H "kernel_end" (kernel_end H) ;!
  do! rflags <- cpu_read_rflags H;
  key_hex H "rflags_before_idt" rflags ;!
  x86_64_idt_init ;!
  cpu_cli ;!
  pic_remap PIC1_OFFSET PIC2_OFFSET ;!
  pic_mask_all ;!
  pic_unmask_irq 0 ;!
  pit_configure_hz 100.

End interrupt.
