(* ===== verification/InterruptFacts.v ===== *)
(** * Facts about gates, the interrupt controller, the timer and traps *)
From Stdlib Require Import Strings.String.
From S2P Require Import Prelude Bitmap Machine Console ConsoleFacts Interrupt.

(** ** Gates *)

Lemma gate_handler_make h a : in_u 64 h -> gate_handler (make_gate h a) = h.
Proof.
  intros Hh. unfold gate_handler, make_gate. cbn [offset_low offset_mid offset_high].
  apply Z.bits_inj'. intros i Hi. rewrite !Z.lor_spec, !Z.shiftl_spec by done.
  unfold u16, u32, wrap. change 0xFFFF with (2 ^ 16 - 1). change 0xFFFFFFFF with (2 ^ 32 - 1).
  rewrite !land_ones by lia. rewrite !Z.mod_mod by lia.
  destruct (Z.ltb_spec i 16); [|destruct (Z.ltb_spec i 32); [|destruct (Z.ltb_spec i 64)]].
  - rewrite Z.mod_pow2_bits_low, (Z.testbit_neg_r _ (i - 16)), (Z.testbit_neg_r _ (i - 32)) by lia.
    by rewrite !orb_false_r.
  - rewrite Z.mod_pow2_bits_high, Z.mod_pow2_bits_low, (Z.testbit_neg_r _ (i - 32)) by lia.
    rewrite Z.shiftr_spec, orb_false_l, orb_false_r by lia. f_equal. lia.
  - rewrite !Z.mod_pow2_bits_high, Z.mod_pow2_bits_low by lia.
    rewrite Z.shiftr_spec, !orb_false_l by lia. f_equal. lia.
  - rewrite !Z.mod_pow2_bits_high by lia. symmetry. by apply (in_u_testbit 64).
Qed.

(** The table after the gates of a list were set, in order. *)
Definition gates_at (n : nat) (v : Z) (g : Z -> x86_64_idt_entry) (t : list x86_64_idt_entry) : Prop :=
  length t = 256%nat /\ forall i, v <= i < v + Z.of_nat n -> t !! Z.to_nat i = Some (g i).

Lemma set_gate_eq v h a s :
  x86_64_idt_set_gate v h a s = (Ret tt, set_idt (<[Z.to_nat v := make_gate h a]> (idt s)) s).
Proof. done. Qed.

Section install.
Context (f : nat -> Z -> km unit) (g : Z -> x86_64_idt_entry).
Context (Hf0 : forall v s, f 0 v s = (Ret tt, s)).
Context (Hf : forall n v s, 0 <= v < 256 ->
  f (S n) v s = f n (v + 1) (set_idt (<[Z.to_nat v := g v]> (idt s)) s)).

(** A loop that sets the gates [v], [v + 1], ... to [g]. *)
Lemma gate_loop n : forall v s,
  0 <= v -> v + Z.of_nat n <= 256 -> length (idt s) = 256%nat ->
  exists t, f n v s = (Ret tt, set_idt t s) /\ gates_at n v g t /\
    forall i, 0 <= i -> (i < v \/ v + Z.of_nat n <= i) -> t !! Z.to_nat i = idt s !! Z.to_nat i.
Proof.
  induction n as [|n IH]; intros v s Hv Hn Hl.
  { exists (idt s). rewrite Hf0. split_all; [by destruct s|split; [done|lia]|done]. }
  rewrite Hf by lia.
  destruct (IH (v + 1) (set_idt (<[Z.to_nat v := g v]> (idt s)) s)) as (t & E & (Hlt & Hg) & Ho);
    [lia|lia|cbn; by rewrite length_insert|].
  exists t. rewrite E. cbn [set_idt idt] in Ho. split_all; [done| |].
  - split; [done|]. intros i Hi. destruct (decide (i = v)) as [->|].
    + rewrite Ho by lia. rewrite list_lookup_insert_eq by lia. done.
    + apply Hg. lia.
  - intros i H0 Hi. rewrite Ho by lia. by rewrite list_lookup_insert_ne by lia.
Qed.
End install.

Lemma clear_gates_spec s :
  length (idt s) = 256%nat ->
  exists t, clear_gates 256 0 s = (Ret tt, set_idt t s) /\ gates_at 256 0 (fun _ => make_gate 0 0) t.
Proof.
  intros Hl. destruct (gate_loop clear_gates (fun _ => make_gate 0 0)) with (n := 256%nat) (v := 0) (s := s)
    as (t & E & Hg & _); try done; [|by exists t].
  intros n v s' Hv. cbn [clear_gates]. unfold kbind. rewrite set_gate_eq.
  replace (u8 v) with v by (symmetry; by apply wrap_id). done.
Qed.

Lemma install_gates_spec H s :
  length (idt s) = 256%nat ->
  exists t, install_gates H 48 0 s = (Ret tt, set_idt t s) /\
    gates_at 48 0 (fun v => make_gate (exception_stub H v) (gate_type v)) t /\
    forall i, 48 <= i -> t !! Z.to_nat i = idt s !! Z.to_nat i.
Proof.
  intros Hl.
  destruct (gate_loop (install_gates H) (fun v => make_gate (exception_stub H v) (gate_type v)))
    with (n := 48%nat) (v := 0) (s := s) as (t & E & Hg & Ho); try done.
  exists t. split_all; [done|done|]. intros i Hi. apply Ho; lia.
Qed.

(** The table with all gates of the kernel. *)
Definition kernel_gate (H : hardware) (v : Z) : x86_64_idt_entry :=
  if v <? 48 then make_gate (exception_stub H v) (gate_type v) else make_gate 0 0.

Lemma idt_init_spec H s :
  log_lock s = false -> serial_lock s = false -> length (idt s) = 256%nat ->
  exists t t1, x86_64_idt_init H s =
      (Ret tt, add_trace (IoLidt 4095 (idt_addr H) :: t)
         (set_idtr (mk_idtr 4095 (idt_addr H)) (set_idt t1 s))) /\
    Forall console_event t /\ gates_at 256 0 (kernel_gate H) t1.
Proof.
  intros Hl Hs Hlen. unfold x86_64_idt_init. change (Z.to_nat X86_64_IDT_VECTOR_COUNT) with 256%nat.
  unfold kbind at 1. destruct (clear_gates_spec s Hlen) as (t0 & -> & Hg0).
  unfold kbind at 1. destruct (install_gates_spec H (set_idt t0 s)) as (t1 & -> & Hg1 & Ho); [apply Hg0|].
  set (s1 := set_idtr (mk_idtr 4095 (idt_addr H)) (set_idt t1 s)).
  assert (Hlog : logs (key_hex H "idt_base" (idt_addr H) ;! key_hex H "idt_limit" 4095 ;!
    writeln H "[M4] IDT loaded")) by auto with console.
  destruct (Hlog (add_trace [IoLidt 4095 (idt_addr H)] s1) Hl Hs) as (t & E & Ht).
  exists t, t1. split_all.
  - change (IoLidt 4095 (idt_addr H) :: t) with ([IoLidt 4095 (idt_addr H)] ++ t).
    rewrite <- add_trace_app. exact E.
  - done.
  - split; [apply Hg1|]. intros i Hi. unfold kernel_gate. case_if; zbool.
    + apply Hg1. lia.
    + rewrite Ho by lia. apply Hg0. lia.
Qed.

(** ** Interrupt controller and timer *)

Definition pic_port (p : Z) : bool := (p =? 0x20) || (p =? 0x21) || (p =? 0xA0) || (p =? 0xA1).

(** The writes to the two controllers. *)
Definition pic_writes (t : list io) : list (Z * Z) :=
  omap (fun e => match e with IoOut p v => if pic_port p then Some (p, v) else None | _ => None end) t.

Lemma pic_writes_app t1 t2 : pic_writes (t1 ++ t2) = pic_writes t1 ++ pic_writes t2.
Proof. apply omap_app. Qed.

Lemma pic_writes_panic t : Forall panic_event t -> pic_writes t = [].
Proof.
  induction 1 as [|e t He _ IH]; [done|]. destruct He as [He| ->]; [|done].
  destruct e as [p v|p v| | |]; try done. cbn in He. by rewrite He.
Qed.

Lemma pic_writes_console t : Forall console_event t -> pic_writes t = [].
Proof. intros. apply pic_writes_panic. eapply Forall_impl; [done|]. intros e He. by left. Qed.

(** Exactly one bit of the mask is cleared. *)
Lemma pic_unmask_eq H irq s :
  0 <= irq < 16 ->
  let port := if irq <? 8 then PIC1_DATA else PIC2_DATA in
  let v := u8 (hw_in H (trace s) port) in
  pic_unmask_irq H irq s =
    (Ret tt, add_trace [IoIn port v; IoOut port (Z.ldiff v (2 ^ (irq mod 8)))] s).
Proof.
  intros Hi port v. unfold pic_unmask_irq. fold port. cbv zeta.
  set (k := if irq <? 8 then irq else u8 (irq - 8)).
  assert (Hk : k = irq mod 8 /\ 0 <= k < 8).
  { unfold k. case_if; zbool; [split; [symmetry; apply Z.mod_small; lia|lia]|].
    rewrite (wrap_id 8) by (unfold in_u; lia). Z.div_mod_to_equations. lia. }
  destruct Hk as [<- Hk]. unfold kbind, inb. fold v. unfold int_bit.
  rewrite (proj2 (Z.ltb_lt k 31)) by lia.
  unfold outb, kmodify. rewrite add_trace_app. do 5 f_equal.
  assert (Hv : in_u 8 v) by apply wrap_bounds, Z.leb_le, eq_refl.
  rewrite Z.shiftl_1_l, <- Z.ldiff_land. unfold u8.
  assert (in_u 8 (Z.ldiff v (2 ^ k))) by (by apply ldiff_in_u).
  by rewrite !wrap_id by (rewrite ?wrap_id by done; done).
Qed.

(** ** Traps *)

Definition trap_branch (H : hardware) (f : x86_64_trap_frame) : km unit :=
  if (32 <=? tf_vector f) && (tf_vector f <=? 47) then
    kwhen (tf_vector f =? 32) (timer_on_irq0 H) ;!
    pic_send_eoi (u8 (tf_vector f - 32))
  else if tf_vector f =? 14 then
    page_fault_dump H (tf_error_code f) f ;!
    KERNEL_PANIC H trap_file 107 "page fault" (tf_error_code f)
  else if tf_vector f =? 3 then
    writeln H "[M4] breakpoint handled; returning with iretq"
  else KERNEL_PANIC H trap_file 115 "unrecoverable CPU exception" (tf_vector f).

Section trap.
Context (H : hardware).

Lemma trap_name_some v : 0 <= v -> exists name, trap_name v = Some name.
Proof.
  intros Hv. unfold trap_name. case_if; zbool; [|by eexists].
  destruct (lookup_lt_is_Some_2 exception_names (Z.to_nat v)) as [name ->]; [cbn; lia|by eexists].
Qed.

(** Every trap is logged first. *)
Lemma dispatch_prefix f s :
  0 <= tf_vector f -> log_lock s = false -> serial_lock s = false ->
  exists t, Forall console_event t /\
    x86_64_trap_dispatch H (Some f) s =
      trap_branch H f (add_trace t (set_trap_count (u64 (trap_count s + 1)) s)).
Proof.
  intros Hv Hl Hs. destruct (trap_name_some _ Hv) as [name Hn].
  unfold x86_64_trap_dispatch. rewrite Hn. unfold kbind at 1, kmodify at 1.
  set (s0 := set_trap_count _ s).
  destruct (logs_write H "[M4] trap dispatch: " s0 Hl Hs) as (t1 & E1 & F1).
  unfold kbind at 1. rewrite E1. unfold kbind at 1.
  destruct (logs_writeln H name (add_trace t1 s0) Hl Hs) as (t2 & E2 & F2). rewrite E2.
  assert (Hlog : logs (log_trap_frame H f)) by (unfold log_trap_frame; auto 20 with console).
  destruct (Hlog (add_trace t2 (add_trace t1 s0)) Hl Hs) as (t3 & E3 & F3).
  unfold kbind at 1. rewrite E3, !add_trace_app.
  exists (t1 ++ t2 ++ t3). split; [by rewrite !Forall_app|done].
Qed.

Lemma logs_page_fault err f : logs (page_fault_dump H err f).
Proof.
  intros s. unfold page_fault_dump. unfold kbind at 1, vmm_read_cr2, kget.
  generalize (u64 (hw_cr2 H (trace s))). intros cr2. revert s.
  apply (acts_seq _ (writeln H "#PF page fault")); auto 20 with console.
Qed.

(** The end-of-interrupt commands a vector gets. *)
Definition eoi_writes (v : Z) : list (Z * Z) :=
  if (32 <=? v) && (v <=? 47) then
    (if v =? 32 then [(0x20, 0x20)] else []) ++ (if 40 <=? v then [(0xA0, 0x20)] else []) ++ [(0x20, 0x20)]
  else [].

Definition trap_returns (v : Z) : bool := ((32 <=? v) && (v <=? 47)) || (v =? 3).
Definition trap_ticks (v ticks : Z) : Z := if v =? 32 then u64 (ticks + 1) else ticks.

Lemma timer_eq s :
  log_lock s = false -> serial_lock s = false ->
  exists t, timer_on_irq0 H s = (Ret tt, add_trace (t ++ [IoOut 0x20 0x20]) (set_ticks (u64 (g_ticks s + 1)) s))
    /\ Forall console_event t.
Proof.
  intros Hl Hs. unfold timer_on_irq0. unfold kbind at 1, kmodify at 1. unfold kbind at 1, kget.
  set (s1 := set_ticks _ s).
  assert (Hw : exists t, kwhen (g_ticks s1 mod 100 =? 0)
      (serial_write H (Some (bytes_of "[MCSOS:TIMER] tick" ++ [10]))) s1 = (Ret tt, add_trace t s1)
      /\ Forall console_event t).
  { destruct (g_ticks s1 mod 100 =? 0); cbn [kwhen].
    - destruct (serial_write_sends H (bytes_of "[MCSOS:TIMER] tick" ++ [10]) s1) as (t & E & F & _);
        [apply Forall_app; split; [apply bytes_of_ok|by repeat constructor]|done|by exists t].
    - exists []. by rewrite add_trace_nil. }
  destruct Hw as (t & E & F). exists t. unfold kbind. rewrite E.
  unfold outb, kmodify. by rewrite add_trace_app.
Qed.

Lemma branch_exact f s :
  0 <= tf_vector f -> log_lock s = false -> serial_lock s = false ->
  exists t, trap_branch H f s =
      (if trap_returns (tf_vector f) then Ret tt else Halted,
       add_trace t (set_ticks (trap_ticks (tf_vector f) (g_ticks s)) s)) /\
    pic_writes t = eoi_writes (tf_vector f).
Proof.
  intros Hv Hl Hs. unfold trap_branch, trap_returns, eoi_writes, trap_ticks.
  assert (Hid : set_ticks (g_ticks s) s = s) by by destruct s.
  destruct ((32 <=? tf_vector f) && (tf_vector f <=? 47)) eqn:Eirq; cbn [orb].
  - apply andb_true_iff in Eirq as [E1%Z.leb_le E2%Z.leb_le].
    assert (Hu : u8 (tf_vector f - 32) = tf_vector f - 32) by (apply wrap_id; unfold in_u; lia).
    assert (Heoi : forall s, pic_send_eoi (u8 (tf_vector f - 32)) s =
      (Ret tt, add_trace ((if 40 <=? tf_vector f then [IoOut 0xA0 0x20] else []) ++ [IoOut 0x20 0x20]) s)).
    { intros s0. rewrite Hu. unfold pic_send_eoi, kbind.
      destruct (Z.leb_spec 8 (tf_vector f - 32)), (Z.leb_spec 40 (tf_vector f)); try lia;
        cbn [kwhen]; unfold outb, kmodify, kret; [by rewrite add_trace_app|done]. }
    destruct (Z.eqb_spec (tf_vector f) 32) as [E|E]; cbn [kwhen]; unfold kbind.
    + destruct (timer_eq s Hl Hs) as (t & -> & F). rewrite Heoi, add_trace_app, E.
      eexists. split; [reflexivity|]. rewrite !pic_writes_app, pic_writes_console by done. done.
    + unfold kret. rewrite Heoi, Hid. eexists. split; [reflexivity|]. by case_if.
  - destruct (Z.eqb_spec (tf_vector f) 14) as [E|E]; [|destruct (Z.eqb_spec (tf_vector f) 3) as [E3|E3]].
    + rewrite E. cbn [Z.eqb Pos.eqb]. rewrite Hid.
      destruct (acts_seq _ _ _ _ (logs_panic _ (logs_page_fault (tf_error_code f) f))
        (KERNEL_PANIC_halts H trap_file 107 "page fault" (tf_error_code f)) s Hl Hs) as (t & -> & F).
      exists t. split; [done|by apply pic_writes_panic].
    + rewrite E3. cbn [Z.eqb Pos.eqb]. rewrite Hid.
      destruct (logs_writeln H "[M4] breakpoint handled; returning with iretq" s Hl Hs) as (t & -> & F).
      exists t. split; [done|by apply pic_writes_console].
    + destruct (Z.eqb_spec (tf_vector f) 32) as [E32|E32]; [by rewrite E32 in Eirq|]. rewrite Hid.
      destruct (KERNEL_PANIC_halts H trap_file 115 "unrecoverable CPU exception" (tf_vector f) s Hl Hs)
        as (t & -> & F).
      exists t. split; [done|by apply pic_writes_panic].
Qed.
End trap.
