(* ===== verification/BootFacts.v ===== *)
(** * Boot: what the parts of [kmain] do

    Ordering and typing facts about the code that runs before and after
    interrupts are enabled. *)
From Stdlib Require Import Strings.String.
From S2P Require Import Prelude Bitmap Machine Console ConsoleFacts Interrupt InterruptFacts.

(** Port accesses that do not concern the interrupt controllers. *)
Definition plain_event (e : io) : Prop :=
  match e with IoIn _ _ => True | IoOut p _ => pic_port p = false | _ => False end.

Lemma console_plain e : console_event e -> plain_event e.
Proof. destruct e; try done. cbn. by intros ->. Qed.

Lemma logs_plain m : logs m -> acts plain_event m (Ret tt).
Proof. apply acts_impl, console_plain. Qed.

Lemma plain_no_sti t : Forall plain_event t -> IoSti ∉ t.
Proof. intros Ht Hin. rewrite Forall_forall in Ht. by specialize (Ht _ Hin). Qed.

Lemma plain_pic t : Forall plain_event t -> pic_writes t = [].
Proof.
  induction 1 as [|e t He _ IH]; [done|]. destruct e as [p v|p v| | |]; try done.
  unfold pic_writes. cbn [omap list_omap]. unfold plain_event in He. by rewrite He.
Qed.

Section boot.
Context (H : hardware).

Definition kmain_banner : km unit :=
  log_init ;!
  write H MCSOS_NAME ;! write H " " ;! write H MCSOS_VERSION ;! write H " " ;!
  write H MCSOS_MILESTONE ;! writeln H " kernel entered" ;!
  key_hex H "kernel_start" (kernel_start H) ;!
  key_hex H "kernel_end" (kernel_end H) ;!
  do! rflags <- cpu_read_rflags H;
  key_hex H "rflags_before_idt" rflags.

Lemma serial_init_eq s : exists t, serial_init s = (Ret tt, add_trace t s) /\ Forall plain_event t.
Proof.
  unfold serial_init, outb, kmodify, kbind. rewrite !add_trace_app.
  eexists. split; [reflexivity|]. by repeat constructor.
Qed.

Lemma acts_rflags : acts plain_event ((do! rflags <- cpu_read_rflags H; key_hex H "rflags_before_idt" rflags)) (Ret tt).
Proof.
  intros s. unfold kbind, cpu_read_rflags, kget. apply (logs_plain _ (logs_key_hex H _ _)).
Qed.

Lemma banner_acts : acts plain_event kmain_banner (Ret tt).
Proof.
  unfold kmain_banner. apply acts_seq.
  { intros s _ _. unfold log_init. destruct (serial_init_eq s) as (t & E & F). by exists t. }
  repeat (apply acts_seq; [apply logs_plain; auto with console|]). apply acts_rflags.
Qed.

Definition kmain_irqs : km unit :=
  cpu_cli ;! pic_remap H PIC1_OFFSET PIC2_OFFSET ;! pic_mask_all ;! pic_unmask_irq H 0 ;!
  pit_configure_hz 100.

(** The controllers are given the vectors 0x20 and 0x28, cascaded on line 2,
    their old masks back, then everything is masked and line 0 opened. *)
Definition pic_boot_writes (m1 m2 m : Z) : list (Z * Z) :=
  [(0x20, 0x11); (0xA0, 0x11); (0x21, 0x20); (0xA1, 0x28); (0x21, 4); (0xA1, 2); (0x21, 1); (0xA1, 1);
   (0x21, m1); (0xA1, m2); (0x21, 0xFF); (0xA1, 0xFF); (0x21, m)].

Definition pit_writes (t : list io) : list (Z * Z) :=
  omap (fun e => match e with IoOut p v => if (p =? 0x43) || (p =? 0x40) then Some (p, v) else None | _ => None end) t.

(** Outside an initialisation sequence the data port reads the mask back. *)
Definition mask_reads_back : Prop :=
  forall t, hw_in H (t ++ [IoOut 0x21 0xFF; IoOut 0xA1 0xFF]) 0x21 = 0xFF.

Lemma u8_u8 x : u8 (u8 x) = u8 x.
Proof. apply wrap_id, wrap_bounds. lia. Qed.

Lemma mask_all_eq s :
  pic_mask_all s = (Ret tt, add_trace [IoOut 0x21 0xFF; IoOut 0xA1 0xFF] s).
Proof. unfold pic_mask_all, outb, kmodify, kbind. by rewrite add_trace_app. Qed.

Lemma pit_100_eq s :
  pit_configure_hz 100 s = (Ret tt, add_trace [IoOut 0x43 0x36; IoOut 0x40 0x9B; IoOut 0x40 0x2E] s).
Proof. unfold pit_configure_hz, outb, kmodify, kbind. cbn [Z.eqb]. by rewrite !add_trace_app. Qed.

Lemma irqs_eq s :
  mask_reads_back ->
  exists t m1 m2, kmain_irqs s = (Ret tt, add_trace ([IoCli] ++ t) s) /\
    pic_writes t = pic_boot_writes m1 m2 0xFE /\ (IoSti ∉ t) /\
    pit_writes t = [(0x43, 0x36); (0x40, 0x9B); (0x40, 0x2E)].
Proof.
  intros Hmask. unfold kmain_irqs. unfold kbind at 1, cpu_cli, kmodify at 1. set (s0 := add_trace [IoCli] s).
  assert (Hremap : exists t m1 m2, pic_remap H PIC1_OFFSET PIC2_OFFSET s0 = (Ret tt, add_trace t s0) /\
    pic_writes t = take 10 (pic_boot_writes m1 m2 0) /\ (IoSti ∉ t) /\ pit_writes t = []).
  { unfold pic_remap, inb, io_wait, outb, kmodify, kbind. rewrite !add_trace_app. cbn [app].
    do 3 eexists. split; [reflexivity|]. split; [reflexivity|]. split; [|reflexivity].
    rewrite !not_elem_of_cons. by repeat split; try apply not_elem_of_nil. }
  destruct Hremap as (t & m1 & m2 & E & Hp & Hn & Ht).
  unfold kbind at 1. rewrite E. unfold kbind at 1. rewrite mask_all_eq.
  set (s2 := add_trace [IoOut 0x21 0xFF; IoOut 0xA1 0xFF] (add_trace t s0)).
  assert (Hv : u8 (hw_in H (trace s2) 0x21) = 0xFF) by (apply (f_equal u8 (Hmask _))).
  unfold kbind at 1. rewrite pic_unmask_eq by lia. cbv zeta.
  change (if 0 <? 8 then PIC1_DATA else PIC2_DATA) with 0x21. rewrite Hv, pit_100_eq.
  unfold s2, s0. rewrite !add_trace_app, <- ?app_assoc.
  eexists (t ++ _), m1, m2. split; [reflexivity|]. split_all.
  - rewrite pic_writes_app, Hp. reflexivity.
  - rewrite !elem_of_app, !elem_of_cons, elem_of_nil. intuition congruence.
  - unfold pit_writes in *. rewrite omap_app, Ht. reflexivity.
Qed.

(** [kmain] up to [cpu_sti] is these three parts. *)
Lemma kbind_assoc {A B C} (m : km A) (k : A -> km B) (l : B -> km C) s :
  kbind (kbind m k) l s = kbind m (fun x => kbind (k x) l) s.
Proof. unfold kbind. by destruct (m s) as [[x| | |] s1]. Qed.

Lemma kbind_ext {A B} (m : km A) (k l : A -> km B) s :
  (forall x s, k x s = l x s) -> kbind m k s = kbind m l s.
Proof. intros E. unfold kbind. destruct (m s) as [[x| | |] s1]; [apply E|done..]. Qed.

Lemma kmain_setup_eq s : kmain_setup H s = (kmain_banner ;! x86_64_idt_init H ;! kmain_irqs) s.
Proof.
  unfold kmain_setup, kmain_banner.
  do 9 (rewrite kbind_assoc; apply kbind_ext; intros [] ?).
  rewrite kbind_assoc. apply kbind_ext. intros rflags ?. apply kbind_ext. intros [] ?.
  apply kbind_ext. by intros [] ?.
Qed.

(** [kmain] up to [cpu_sti]: the table is loaded, then with interrupts off the
    controllers and the timer are set up. *)
Lemma kmain_setup_spec s :
  log_lock s = false -> serial_lock s = false -> length (idt s) = 256%nat -> mask_reads_back ->
  exists t0 t1 t2 m1 m2 s',
    kmain_setup H s = (Ret tt, s') /\ log_lock s' = false /\ serial_lock s' = false /\
    idtr s' = mk_idtr 4095 (idt_addr H) /\
    trace s' = trace s ++ t0 ++ [IoLidt 4095 (idt_addr H)] ++ t1 ++ [IoCli] ++ t2 /\
    (IoSti ∉ t0 ++ t1 ++ t2) /\
    pic_writes (t0 ++ t1) = [] /\ pic_writes t2 = pic_boot_writes m1 m2 0xFE /\
    pit_writes t2 = [(0x43, 0x36); (0x40, 0x9B); (0x40, 0x2E)] /\
    (forall v, 0 <= v < 256 -> idt s' !! Z.to_nat v = Some (kernel_gate H v)) /\
    trap_count s' = trap_count s /\ g_ticks s' = g_ticks s.
Proof.
  intros Hl Hs Hlen Hmask. destruct (banner_acts s Hl Hs) as (t0 & E0 & F0).
  destruct (idt_init_spec H (add_trace t0 s) Hl Hs Hlen) as (t1 & g & E1 & F1 & Hg).
  set (s1 := add_trace (IoLidt 4095 (idt_addr H) :: t1) _) in E1.
  destruct (irqs_eq s1 Hmask) as (t2 & m1 & m2 & E2 & Hp & Hn & Ht).
  exists t0, t1, t2, m1, m2, (add_trace ([IoCli] ++ t2) s1). split.
  { rewrite kmain_setup_eq. unfold kbind at 1. rewrite E0. unfold kbind at 1. by rewrite E1, E2. }
  apply Forall_impl with (Q := plain_event) in F1; [|apply console_plain].
  split_all; try done.
  - unfold s1. cbn [trace add_trace set_idt set_idtr]. by rewrite <- !app_assoc.
  - rewrite !elem_of_app. pose proof (plain_no_sti _ F0). pose proof (plain_no_sti _ F1). tauto.
  - by rewrite pic_writes_app, !plain_pic.
  - intros v Hv. apply Hg. lia.
Qed.

End boot.

(** ** After interrupts are enabled *)

Lemma KASSERT_true H file line expr : KERNEL_ASSERT H file line expr true = kret tt.
Proof. done. Qed.

(** With the table loaded the assertions hold, and the self test logs. *)
Lemma m4_selftest_eq H s :
  kernel_start H < kernel_end H -> idt_addr H <> 0 -> idtr s = mk_idtr 4095 (idt_addr H) ->
  m4_selftest H s = writeln H "[M4] selftest: IDT invariants passed" s.
Proof.
  intros Hk Ha Hr. unfold m4_selftest. rewrite (proj2 (Z.ltb_lt _ _)) by done.
  change (IDT_ENTRY_SIZE =? 16) with true. rewrite !KASSERT_true.
  unfold x86_64_idt_base_for_test, x86_64_idt_limit_for_test, kget.
  unfold kbind, kret. cbv beta iota. rewrite Hr. cbn [idtr_base idtr_limit].
  rewrite (proj2 (Z.eqb_neq _ _)) by done. cbn [negb Z.eqb Pos.eqb]. rewrite !KASSERT_true.
  unfold kret. cbv beta iota. rewrite Hr. cbn [idtr_limit]. change (4095 =? 4095) with true.
  by rewrite KASSERT_true.
Qed.
