(* ===== verification/MachineTheorems.v ===== *)
(** * Console, interrupts and boot: theorems *)
From Stdlib Require Import Strings.String.
From S2P Require Import Prelude Bitmap Machine Console ConsoleFacts Interrupt InterruptFacts BootFacts.

Definition unlocked (s : machine) : Prop := log_lock s = false /\ serial_lock s = false.

Lemma length_hex_out n v : length (hex_out n v) = n.
Proof. induction n; cbn [hex_out length]; congruence. Qed.

(** A ready serial port, both masks all ones, and a table of handlers. *)
Definition hw0 : hardware :=
  mk_hardware (fun _ p => if p =? 0x3FD then 0x20 else 0xFF) (fun _ => 2) (fun _ => 0xDEAD) (fun _ => [])
    (fun v => 0xFFFFFFFF80100000 + 16 * (v mod 256)) 0xFFFFFFFF80200000 0xFFFFFFFF80300000
    0xFFFFFFFF80000000 0xFFFFFFFF80400000.
Definition machine0 : machine :=
  mk_machine [] false false 0 0 (replicate 256 (make_gate 0 0)) (mk_idtr 0 0).

(** ** Claims *)

(** C16: trap dispatch, for every vector, any hardware and free locks: the
    interrupt vectors 32 to 47 and the breakpoint return, every other vector
    stops the processor; the trap counter is incremented (modulo 2^64) and the
    tick counter exactly for vector 32; nothing else of the machine changes but
    its port history, in which the writes to the interrupt controllers are the
    end-of-interrupt commands: one to the master, preceded by one to the slave
    from vector 40 on, and for the timer a second one to the master. *)
Theorem trap_dispatch_exact (H : hardware) (f : x86_64_trap_frame) (s : machine) :
  unlocked s -> 0 <= tf_vector f ->
  exists t, x86_64_trap_dispatch H (Some f) s =
      (if trap_returns (tf_vector f) then Ret tt else Halted,
       add_trace t (set_ticks (trap_ticks (tf_vector f) (g_ticks s))
                      (set_trap_count (u64 (trap_count s + 1)) s))) /\
    pic_writes t = eoi_writes (tf_vector f).
Proof.
  intros [Hl Hs] Hv. destruct (dispatch_prefix H f s Hv Hl Hs) as (t1 & F1 & ->).
  destruct (branch_exact H f (add_trace t1 (set_trap_count (u64 (trap_count s + 1)) s)) Hv Hl Hs)
    as (t2 & -> & Hp).
  exists (t1 ++ t2). split; [by rewrite <- add_trace_app|].
  by rewrite pic_writes_app, pic_writes_console, Hp.
Qed.

Definition frame0 (vector : Z) : x86_64_trap_frame :=
  mk_frame 0 0 0 0 0 0 0 0 0 0 0 0 0 0 0 vector 0 0xFFFFFFFF80000010 0x28 0x202.

Lemma trap_dispatch_exact_witness :
  exists t, x86_64_trap_dispatch hw0 (Some (frame0 32)) machine0 =
      (Ret tt, add_trace t (set_ticks 1 (set_trap_count 1 machine0))) /\
    pic_writes t = [(0x20, 0x20); (0x20, 0x20)].
Proof. apply (trap_dispatch_exact hw0 (frame0 32) machine0); [by split|cbn; lia]. Defined.

(** C35: the console locks are not safe against interrupts.  Inside the
    critical section of [log_write] or [log_writeln], after any string was
    written, the log lock is held, and a trap of whatever vector that arrives
    there never returns: its handler spins on the lock its own processor
    holds. *)
Theorem trap_during_log_spins (H : hardware) (str : list Z) (f : x86_64_trap_frame) (s : machine) :
  unlocked s -> Forall is_byte str ->
  exists s1, (acquire log_lock set_log_lock ;! serial_write H (Some str)) s = (Ret tt, s1) /\
    (x86_64_trap_dispatch H (Some f) s1).1 = Spinning.
Proof.
  intros [Hl Hs] Hstr. unfold kbind at 1, acquire at 1. rewrite Hl.
  destruct (serial_write_sends H str (set_log_lock true s) Hstr Hs) as (t & -> & _).
  eexists. split; [reflexivity|]. done.
Qed.

Lemma trap_during_log_spins_witness :
  exists s1, (acquire log_lock set_log_lock ;! serial_write hw0 (Some [79; 75])) machine0 = (Ret tt, s1) /\
    (x86_64_trap_dispatch hw0 (Some (frame0 32)) s1).1 = Spinning.
Proof.
  apply (trap_during_log_spins hw0 [79; 75] (frame0 32) machine0); [by split|].
  repeat constructor; unfold is_byte; lia.
Defined.

(** C32: the interrupt table after [x86_64_idt_init] and [syscall_arch_init]:
    the gates of the vectors 0 to 47 and 0x80 decode to exactly the addresses
    of their stubs, in the kernel code segment, as trap gates for the
    breakpoint and the system call and interrupt gates otherwise; all other
    gates are not present; the table register holds the table's address and
    its size minus one. *)
Theorem idt_complete (H : hardware) (s : machine) :
  unlocked s -> length (idt s) = 256%nat ->
  (forall v, in_u 64 (exception_stub H v)) -> in_u 64 (int80_stub H) ->
  exists s', (x86_64_idt_init H ;! syscall_arch_init H) s = (Ret tt, s') /\
    idtr s' = mk_idtr 4095 (idt_addr H) /\
    forall v, 0 <= v < 256 -> exists g, idt s' !! Z.to_nat v = Some g /\
      (gate_handler g, selector g, type_attributes g) =
        if v <? 48 then (exception_stub H v, 0x28, if v =? 3 then 0x8F else 0x8E)
        else if v =? 0x80 then (int80_stub H, 0x28, 0x8F) else (0, 0x28, 0).
Proof.
  intros [Hl Hs] Hlen Hstub Hint. destruct (idt_init_spec H s Hl Hs Hlen) as (t & t1 & E & _ & Hlt & Hg).
  eexists. split; [unfold kbind; rewrite E; reflexivity|]. split; [done|]. intros v Hv.
  cbn [idt set_idt add_trace set_idtr]. change (Z.to_nat 0x80) with 128%nat.
  destruct (Z.eqb_spec v 0x80) as [->|Hne].
  - exists (make_gate (int80_stub H) 0x8F). rewrite list_lookup_insert_eq by lia.
    split; [done|]. cbn [Z.ltb]. by rewrite gate_handler_make.
  - rewrite list_lookup_insert_ne by lia. exists (kernel_gate H v). split; [apply Hg; lia|].
    unfold kernel_gate. case_if.
    + rewrite gate_handler_make by done. unfold gate_type. by case_if.
    + by rewrite gate_handler_make by done.
Qed.

Lemma idt_complete_witness :
  exists s', (x86_64_idt_init hw0 ;! syscall_arch_init hw0) machine0 = (Ret tt, s') /\
    exists g, idt s' !! 14%nat = Some g /\ gate_handler g = 0xFFFFFFFF801000E0.
Proof.
  destruct (idt_complete hw0 machine0) as (s' & E & _ & Hg).
  - by split.
  - reflexivity.
  - intros v. cbn [hw0 exception_stub]. pose proof (Z.mod_pos_bound v 256). unfold in_u. lia.
  - split; by vm_compute.
  - exists s'. split; [exact E|]. destruct (Hg 14) as (g & E1 & E2); [lia|].
    exists g. split; [exact E1|]. by injection E2.
Defined.

(** [pit_configure_hz].  From 19 Hz up to the base frequency the two
    bytes sent to the channel are the quotient of the base frequency, which
    then is between 1 and 65535; for 1 to 18 Hz the 16-bit divisor is cut
    off and a different, higher frequency is programmed; 0 Hz divides by
    zero. *)
Theorem pit_divisor_exact (hz : Z) (s : machine) :
  0 <= hz < 2 ^ 32 ->
  let q := PIT_BASE_FREQUENCY / hz in
  (hz = 0 -> pit_configure_hz hz s = (Undefined, s)) /\
  (hz <> 0 -> exists lo hi,
     pit_configure_hz hz s =
       (Ret tt, add_trace [IoOut 0x43 0x36; IoOut 0x40 lo; IoOut 0x40 hi] s) /\
     0 <= lo < 256 /\ 0 <= hi < 256 /\ lo + 256 * hi = q mod 65536 /\
     (19 <= hz <= PIT_BASE_FREQUENCY -> lo + 256 * hi = q /\ 1 <= q <= 65535) /\
     (hz < 19 -> lo + 256 * hi < q)).
Proof.
  intros Hhz q. split; [by intros ->|]. intros Hnz.
  set (d := u16 q). assert (Hd : 0 <= d < 65536) by (apply wrap_bounds; lia).
  assert (Hlo : u8 (d .& 0xFF) = d mod 256).
  { change 0xFF with (2 ^ 8 - 1). rewrite land_ones by lia. apply wrap_id, Z.mod_pos_bound. lia. }
  assert (Hhi : u8 ((d .>> 8) .& 0xFF) = d / 256).
  { change 0xFF with (2 ^ 8 - 1). rewrite land_ones, Z.shiftr_div_pow2 by lia. change (2 ^ 8) with 256.
    rewrite (Z.mod_small (d / 256)) by (split; [apply Z.div_pos|apply Z.div_lt_upper_bound]; lia).
    apply wrap_id. split; [apply Z.div_pos; lia|apply Z.div_lt_upper_bound; lia]. }
  exists (d mod 256), (d / 256). pose proof (Z.div_mod d 256 ltac:(lia)) as Ed.
  assert (Edq : d = q mod 65536) by done. assert (HB : PIT_BASE_FREQUENCY = 1193182) by done.
  assert (0 <= q) by (apply Z.div_pos; lia).
  pose proof (Z.div_mod PIT_BASE_FREQUENCY hz Hnz) as E.
  pose proof (Z.mod_pos_bound PIT_BASE_FREQUENCY hz ltac:(lia)) as Hm. fold q in E.
  split_all; try (apply Z.mod_pos_bound; lia); try (apply Z.div_pos; lia);
    try (apply Z.div_lt_upper_bound; lia); [|lia| |].
  - unfold pit_configure_hz. rewrite (proj2 (Z.eqb_neq hz 0)) by done.
    cbv zeta. fold q. fold d. unfold outb, kmodify, kbind.
    rewrite !add_trace_app, Hlo, Hhi. done.
  - intros Hr. assert (1 <= q <= 65535) by nia. rewrite (Z.mod_small q) in Edq by lia. lia.
  - intros Hr. assert (65536 <= q) by nia. pose proof (Z.mod_pos_bound q 65536). lia.
Qed.

Lemma pit_divisor_exact_witness :
  exists lo hi, pit_configure_hz 18 machine0 =
      (Ret tt, add_trace [IoOut 0x43 0x36; IoOut 0x40 lo; IoOut 0x40 hi] machine0) /\
    lo + 256 * hi < PIT_BASE_FREQUENCY / 18.
Proof.
  destruct (pit_divisor_exact 18 machine0) as [_ Hnz]; [lia|].
  destruct (Hnz ltac:(discriminate)) as (lo & hi & E & _ & _ & _ & _ & Hlt).
  exists lo, hi. split; [exact E|apply Hlt; lia].
Defined.

(** C33: what the log sends.  With both locks free, a call of [log_writeln] on
    a string and of [log_key_value_hex64] on a key and a 64-bit value returns
    on any hardware, a port that is never ready included, with the locks free
    again, having touched nothing but the status and data port of the serial
    line.  If the port is always ready, [log_writeln] sends the string with a
    carriage return before each of its line feeds and then a doubled carriage
    return and a line feed, and [log_key_value_hex64] sends the key in the same
    way, [=0x], sixteen digits from which the value reads back exactly, and a
    bare line feed. *)
Theorem console_bytes (H : hardware) (str key : list Z) (v : Z) (s : machine) :
  unlocked s -> Forall is_byte str -> Forall is_byte key -> in_u 64 v ->
  (exists t, log_writeln H (Some str) s = (Ret tt, add_trace t s) /\ Forall console_event t /\
     (tx_ready H -> sent t = crlf str ++ [13; 13; 10])) /\
  (exists t ds, log_key_value_hex64 H (Some key) v s = (Ret tt, add_trace t s) /\ Forall console_event t /\
     (tx_ready H -> sent t = crlf key ++ [61; 48; 120] ++ ds ++ [10]) /\
     length ds = 16%nat /\ hex_val ds = v).
Proof.
  intros [Hl Hs] Hstr Hkey Hv. split; [by apply (emits_log_writeln H str Hstr s)|].
  destruct (emits_key_value H key v Hkey s Hl Hs) as (t & E & F & Hb). exists t, (hex_out 16 v).
  split_all; [done|done|done|apply length_hex_out|].
  rewrite hex_val_out. change (16 ^ Z.of_nat 16) with (2 ^ 64). by apply Z.mod_small.
Qed.

Lemma console_bytes_witness :
  exists t ds, log_key_value_hex64 hw0 (Some [107; 10]) 0xBEEF machine0 = (Ret tt, add_trace t machine0) /\
    sent t = [107; 13; 10; 61; 48; 120] ++ ds ++ [10] /\ hex_val ds = 0xBEEF.
Proof.
  destruct (console_bytes hw0 [79; 75] [107; 10] 0xBEEF machine0) as [_ (t & ds & E & _ & Hs & _ & Hv)].
  - by split.
  - repeat constructor; unfold is_byte; lia.
  - repeat constructor; unfold is_byte; lia.
  - split; by vm_compute.
  - exists t, ds. split; [exact E|]. split; [|exact Hv]. apply Hs. intros t'. discriminate.
Defined.
