(* ===== verification/Boot.v ===== *)
(** * Boot: the self tests and [kmain]
      ([kernel/core/kmain.c], [entry.c], [kernel/user/m11_kernel_integration.c],
      [kernel/sync/m12_selftest.c], [kernel/vfs/m13_kernel_selftest.c],
      [kernel/block/block_demo.c])

    The static objects of the components that [kmain] reaches, the monad of
    code that works on them and on the machine, and the boot sequence in
    each of its build configurations.  Before every action of this code (a
    call, an assignment, a line that is logged) the timer interrupts that are
    pending are taken, if interrupts are on. *)
From Stdlib Require Import Strings.String.
From S2P Require Import Prelude Syscall Elf Sync Vfs Block Machine Console Interrupt.

(** ** The static objects *)

(** [kg_m13] holds [kernel_proc_m13] and [kernel_ramfs]; [kg_ram] holds
    [g_m14_ramdisk] under its address. *)
Record kglobals := mk_globals {
  kg_syscall : sys_state unit;
  m11_synthetic_image : list Z;
  boot_stats_lock : mcs_spinlock;
  boot_lockdep : mcs_lockdep_state;
  boot_counter : Z;
  kg_m13 : proc_state;
  kg_blk : blk_registry;
  g_m14_ramdisk_dev : mcsos_blk_device;
  g_m14_ramdisk_storage : list Z;
  kg_ram : ram_map
}.

Definition set_kg_syscall (x : sys_state unit) (g : kglobals) : kglobals :=
  mk_globals x (m11_synthetic_image g) (boot_stats_lock g) (boot_lockdep g) (boot_counter g)
    (kg_m13 g) (kg_blk g) (g_m14_ramdisk_dev g) (g_m14_ramdisk_storage g) (kg_ram g).
Definition set_image (x : list Z) (g : kglobals) : kglobals :=
  mk_globals (kg_syscall g) x (boot_stats_lock g) (boot_lockdep g) (boot_counter g)
    (kg_m13 g) (kg_blk g) (g_m14_ramdisk_dev g) (g_m14_ramdisk_storage g) (kg_ram g).
Definition set_boot_lock (x : mcs_spinlock) (g : kglobals) : kglobals :=
  mk_globals (kg_syscall g) (m11_synthetic_image g) x (boot_lockdep g) (boot_counter g)
    (kg_m13 g) (kg_blk g) (g_m14_ramdisk_dev g) (g_m14_ramdisk_storage g) (kg_ram g).
Definition set_lockdep (x : mcs_lockdep_state) (g : kglobals) : kglobals :=
  mk_globals (kg_syscall g) (m11_synthetic_image g) (boot_stats_lock g) x (boot_counter g)
    (kg_m13 g) (kg_blk g) (g_m14_ramdisk_dev g) (g_m14_ramdisk_storage g) (kg_ram g).
Definition set_counter (x : Z) (g : kglobals) : kglobals :=
  mk_globals (kg_syscall g) (m11_synthetic_image g) (boot_stats_lock g) (boot_lockdep g) x
    (kg_m13 g) (kg_blk g) (g_m14_ramdisk_dev g) (g_m14_ramdisk_storage g) (kg_ram g).
Definition set_m13 (x : proc_state) (g : kglobals) : kglobals :=
  mk_globals (kg_syscall g) (m11_synthetic_image g) (boot_stats_lock g) (boot_lockdep g)
    (boot_counter g) x (kg_blk g) (g_m14_ramdisk_dev g) (g_m14_ramdisk_storage g) (kg_ram g).
Definition set_blk (x : blk_registry) (g : kglobals) : kglobals :=
  mk_globals (kg_syscall g) (m11_synthetic_image g) (boot_stats_lock g) (boot_lockdep g)
    (boot_counter g) (kg_m13 g) x (g_m14_ramdisk_dev g) (g_m14_ramdisk_storage g) (kg_ram g).
Definition set_ramdisk (dev : mcsos_blk_device) (ram : ram_map) (g : kglobals) : kglobals :=
  mk_globals (kg_syscall g) (m11_synthetic_image g) (boot_stats_lock g) (boot_lockdep g)
    (boot_counter g) (kg_m13 g) (kg_blk g) dev (g_m14_ramdisk_storage g) ram.

(** ** Code over the static objects and the machine *)

Definition gm (A : Type) : Type := kglobals * machine -> outcome A * (kglobals * machine).

Definition gret {A} (x : A) : gm A := fun w => (Ret x, w).
Definition gbind {A B} (m : gm A) (k : A -> gm B) : gm B := fun w =>
  match m w with
  | (Ret x, w) => k x w
  | (Halted, w) => (Halted, w)
  | (Spinning, w) => (Spinning, w)
  | (Undefined, w) => (Undefined, w)
  end.
Notation "'do#' x '<-' m ';' k" := (gbind m (fun x => k))
  (at level 10, x name, m at level 100, k at level 200).
Notation "m ';#' k" := (gbind m (fun _ => k)) (at level 60, right associativity).

Section boot.
Context (H : hardware).

Definition gserve : gm unit := fun w =>
  let '(o, s) := serve_irqs H w.2 in (o, (w.1, s)).

(** Code that only touches the machine. *)
Definition klift {A} (m : km A) : gm A := gserve ;# fun w =>
  let '(o, s) := m w.2 in (o, (w.1, s)).
(** A call into a component; [None] is undefined behaviour. *)
Definition gcall {A} (f : kglobals -> option (A * kglobals)) : gm A := gserve ;# fun w =>
  match f w.1 with
  | Some (x, g) => (Ret x, (g, w.2))
  | None => (Undefined, w)
  end.
Definition gmodify (f : kglobals -> kglobals) : gm unit := gcall (fun g => Some (tt, f g)).

(** The lock routine [p] on [boot_stats_lock], which no other code shares: with
    this fuel it returns unless the lock is taken, and then it never does. *)
Definition spin_fuel : nat := 3.
Definition on_lock (p : prog) : gm unit := gserve ;# fun w =>
  let l := boot_stats_lock w.1 in
  match run spin_fuel p (s_cells l) with
  | Some (_, c) => (Ret tt, (set_boot_lock (mk_spinlock c (s_class_id l) (s_name l)) w.1, w.2))
  | None => (Spinning, w)
  end.

Definition on_m13 {A} (m : em proc_state A) : gm (Z + A) := gcall (fun g =>
  let* r := m (kg_m13 g) in Some (r.1, set_m13 r.2 g)).

(** The C integer a wrapper returns. *)
Definition int_of (r : Z + Z) : Z := match r with inl rc => rc | inr n => n end.
Definition status_of (r : Z + unit) : Z := match r with inl rc => rc | inr _ => MCS_OK end.
Definition count_of (r : Z + (Z * list Z)) : Z := match r with inl rc => rc | inr p => p.1 end.

(** What the linker and the stack provide: the address of the string
    [boot_stats], of [g_m14_ramdisk_dev] and [g_m14_ramdisk], the plan
    [m11_kernel_selftest] has on its stack before it is written, and the
    registers of the processor at [int3]. *)
Record layout := mk_layout {
  boot_stats_name : Z;
  ramdisk_dev_addr : Z;
  ramdisk_addr : Z;
  stack_plan : m11_process_image_plan;
  int3_regs : x86_64_trap_frame
}.

(** The two macros that [kmain] tests. *)
Record build := mk_build {
  MCSOS_M4_TRIGGER_BREAKPOINT : bool;
  MCSOS_M4_TRIGGER_PANIC : bool
}.
Definition default_build : build := mk_build false false.

(** ** M11: the ELF loader on a synthetic image *)

(** [for (i = 0; i < n; i++) p[i] = (unsigned char)val]. *)
Fixpoint m11_memset_local (dst : list Z) (val : Z) (n : nat) : option (list Z) :=
  match n, dst with
  | O, _ => Some dst
  | S _, [] => None
  | S n, _ :: dst => cons (u8 val) <$> m11_memset_local dst val n
  end.

Definition synthetic_size : Z := 4096 * 3.

(** The stores through [eh] and [ph]: the header at 0, the program header at
    [e_phoff]. *)
Definition write_ehdr (img : list Z) : list Z :=
  le_put 56 2 1 (le_put 54 2 sizeof_phdr (le_put 52 2 sizeof_ehdr (le_put 32 8 sizeof_ehdr
  (le_put 24 8 0x401000 (le_put 20 4 M11_EV_CURRENT (le_put 18 2 M11_EM_X86_64
  (le_put 16 2 M11_ET_EXEC (le_put 6 1 M11_EV_CURRENT (le_put 5 1 M11_ELFDATA2LSB
  (le_put 4 1 M11_ELFCLASS64 (le_put 3 1 M11_ELFMAG3 (le_put 2 1 M11_ELFMAG2
  (le_put 1 1 M11_ELFMAG1 (le_put 0 1 M11_ELFMAG0 img)))))))))))))).

Definition write_phdr (img : list Z) : list Z :=
  let o := Z.to_nat (le_get 32 8 img) in
  le_put (o + 48) 8 4096 (le_put (o + 40) 8 4096 (le_put (o + 32) 8 16
  (le_put (o + 16) 8 0x400000 (le_put (o + 8) 8 0x1000
  (le_put (o + 4) 4 (M11_PF_R .| M11_PF_X) (le_put o 4 M11_PT_LOAD img)))))).

Context (L : layout).

Definition say (line : string) : gm unit := klift (writeln H line).

Definition m11_kernel_selftest : gm unit :=
  say "[M11] elf loader integration selftest" ;#
  gcall (fun g => let* img := m11_memset_local (m11_synthetic_image g) 0 (Z.to_nat synthetic_size) in
                  Some (tt, set_image img g)) ;#
  gmodify (fun g => set_image (write_phdr (write_ehdr (m11_synthetic_image g))) g) ;#
  do# rc <- gcall (fun g =>
    let* r := m11_elf64_plan_load (Some (m11_synthetic_image g)) synthetic_size
                (mk_uregion 0x400000 0x8000000000) (Some (stack_plan L)) in
    Some (r.1, g));
  if negb (rc =? M11_OK) then
    klift (write H "[M11] plan_load FAILED: ") ;# say (m11_error_name rc)
  else
    say "[M11] elf: ident ok" ;#
    say "[M11] elf: phnum=1" ;#
    say "[M11] elf: load segment vaddr=0x400000 filesz=16 memsz=4096 flags=0x5" ;#
    say "[M11] elf: plan ok entry=0x401000" ;#
    say "[M11] user image plan ready".

(** ** M12: a spin lock under the lock-order checker *)

Definition m12_file : string := "kernel/sync/m12_selftest.c".

Definition m12_sync_selftest : gm unit :=
  gmodify (set_lockdep mcs_lockdep_init) ;#
  gmodify (set_boot_lock (mcs_spin_init 10 (Some (boot_stats_name L)))) ;#
  do# rc <- gcall (fun g =>
    let '(rc, d) := mcs_lockdep_before_acquire (boot_lockdep g) 10 (Some (boot_stats_name L)) in
    Some (rc, set_lockdep d g));
  (if negb (rc =? MCS_SYNC_OK) then klift (KERNEL_PANIC H m12_file 14 "M12 lockdep acquire failed" 0)
   else gret tt) ;#
  on_lock mcs_spin_lock ;#
  gmodify (fun g => set_counter (u64 (boot_counter g + 1)) g) ;#
  on_lock (mcs_spin_unlock false) ;#
  do# rc <- gcall (fun g =>
    let '(rc, d) := mcs_lockdep_after_release (boot_lockdep g) 10 (Some (boot_stats_name L)) in
    Some (rc, set_lockdep d g));
  (if negb (rc =? MCS_SYNC_OK) then klift (KERNEL_PANIC H m12_file 22 "M12 lockdep release failed" 0)
   else gret tt) ;#
  say "M12 sync selftest passed".

(** ** M13: the RAM file system and the descriptor table *)

Definition str (s : string) : option (list Z) := Some (bytes_of s).

(** [for (i = 0; i < 16; i++) buf[i] = 0]. *)
Definition m13_buf : list Z := replicate 16 0.

Definition set_ramfs (f : mcs_ramfs -> mcs_ramfs) (g : kglobals) : kglobals :=
  set_m13 (Vfs.mk_sys (proc (kg_m13 g)) (f (sys_fs (kg_m13 g)))) g.
Definition set_proc (f : mcs_process -> mcs_process) (g : kglobals) : kglobals :=
  set_m13 (Vfs.mk_sys (f <$> proc (kg_m13 g)) (sys_fs (kg_m13 g))) g.

(** The part from the creation of [/log.txt] on. *)
Definition m13_log_txt : gm unit :=
  do# fd <- on_m13 (mcs_sys_open true (str "/log.txt") (MCS_O_CREAT .| MCS_O_RDWR .| MCS_O_TRUNC));
  if int_of fd <? 0 then say "[M13] create log.txt FAILED" else
  do# n <- on_m13 (mcs_sys_write (int_of fd) (str "OK13") 4);
  if negb (int_of n =? 4) then say "[M13] write log.txt FAILED" else
  do# off <- on_m13 (mcs_sys_lseek (int_of fd) 0 MCS_SEEK_SET);
  if negb (int_of off =? 0) then say "[M13] lseek log.txt FAILED" else
  do# n <- on_m13 (mcs_sys_read (int_of fd) (Some m13_buf) 4);
  if negb (count_of n =? 4) then say "[M13] read back log.txt FAILED" else
  on_m13 (mcs_sys_close (int_of fd)) ;#
  say "[M13] create/write/lseek/read /log.txt: OK" ;#
  say "[M13] VFS/RAMFS kernel selftest: PASS".

(** The part from the first [mcs_sys_open] on. *)
Definition m13_hello_txt : gm unit :=
  do# fd <- on_m13 (mcs_sys_open true (str "/hello.txt") MCS_O_RDONLY);
  if int_of fd <? 0 then say "[M13] sys_open FAILED" else
  say "[M13] sys_open /hello.txt: OK" ;#
  do# n <- on_m13 (mcs_sys_read (int_of fd) (Some m13_buf) 5);
  if negb (count_of n =? 5) then say "[M13] sys_read FAILED" else
  say "[M13] sys_read 5 bytes: OK" ;#
  do# rc <- on_m13 (mcs_sys_close (int_of fd));
  if negb (status_of rc =? MCS_OK) then say "[M13] sys_close FAILED" else
  say "[M13] sys_close: OK" ;#
  let buf := match n with inr (_, b) => b | inl _ => m13_buf end in
  do# n <- on_m13 (mcs_sys_read (int_of fd) (Some buf) 1);
  if negb (count_of n =? MCS_EBADF) then say "[M13] EBADF check FAILED" else
  say "[M13] EBADF after close: OK" ;#
  do# fd <- on_m13 (mcs_sys_open true (str "/missing.txt") MCS_O_RDONLY);
  if negb (int_of fd =? MCS_ENOENT) then say "[M13] ENOENT check FAILED" else
  say "[M13] ENOENT missing file: OK" ;#
  m13_log_txt.

Definition m13_vfs_kernel_selftest : gm unit :=
  say "[M13] VFS/RAMFS kernel selftest begin" ;#
  gmodify (set_ramfs mcs_ramfs_init) ;#
  say "[M13] ramfs init: OK" ;#
  do# rc <- gcall (fun g =>
    let* r := mcs_ramfs_seed_file (sys_fs (kg_m13 g)) (str "/hello.txt") (str "hello-mcsos") 11 in
    Some (r.1, set_ramfs (fun _ => r.2) g));
  if negb (rc =? MCS_OK) then say "[M13] seed_file FAILED" else
  say "[M13] seed_file /hello.txt: OK" ;#
  gmodify (set_proc (fun _ => mk_process 0xD mcs_fd_table_init)) ;#
  m13_hello_txt.

(** ** M14: the RAM disk *)

Definition m14_block_demo_init : gm unit :=
  gmodify (set_blk mcsos_blk_registry_reset) ;#
  do# st <- gcall (fun g =>
    match mcsos_ramblk_init (Some (g_m14_ramdisk_dev g)) (Some (ramdisk_addr L)) (str "ram0")
            (Some (g_m14_ramdisk_storage g)) (512 * 64) 512 with
    | inl st => Some (st, g)
    | inr (dev, ram) =>
        Some (MCSOS_BLK_OK, set_ramdisk dev (<[ramdisk_addr L := ram]> (kg_ram g)) g)
    end);
  if negb (st =? MCSOS_BLK_OK) then say "[M14] block layer init FAILED" else
  gmodify (fun g =>
    set_blk (mcsos_blk_register (Some (ramdisk_dev_addr L, g_m14_ramdisk_dev g)) (kg_blk g)).2 g) ;#
  say "[M14] block layer initialized" ;#
  say "[M14] ram0: 64 blocks x 512 bytes registered" ;#
  say "[M15] mcsfs1 linked into kernel" ;#
  say "[M15] ready for integration" ;#
  say "[M16] mcsfs1j linked into kernel" ;#
  say "[M16] journal recovery support available".

(** ** [kmain.c] and [entry.c] *)

Definition kmain_syscall : gm unit :=
  gmodify (fun g => set_kg_syscall (mcsos_syscall_init None (kg_syscall g)) g) ;#
  gcall (fun g =>
    let* r := mcsos_syscall_dispatch MCSOS_SYS_PING 0 0 0 0 0 0 (kg_syscall g) in
    Some (tt, set_kg_syscall r.2 g)).

Definition kmain_selftests : gm unit :=
  m11_kernel_selftest ;# m12_sync_selftest ;# m13_vfs_kernel_selftest ;# m14_block_demo_init.

Definition kmain_breakpoint (B : build) : gm unit :=
  if MCSOS_M4_TRIGGER_BREAKPOINT B then
    say "[M4] triggering intentional breakpoint exception" ;#
    klift (x86_64_trigger_breakpoint_for_test H (int3_regs L)) ;#
    say "[M4] returned from breakpoint handler"
  else gret tt.

Definition kmain_end (B : build) : gm unit :=
  if MCSOS_M4_TRIGGER_PANIC B then
    klift (KERNEL_PANIC H kmain_file 85 "intentional M4 panic test" 0x4D43534F533034)
  else
    say "[M4] IDT and exception dispatch path installed" ;#
    say "[M4] ready for QEMU smoke test and GDB audit" ;#
    kmain_selftests ;#
    klift cpu_halt_forever.

Definition kmain (B : build) : gm unit :=
  klift (kmain_setup H) ;#
  klift cpu_sti ;#
  say "[M5] PIC/PIT initialized; interrupts enabled" ;#
  klift (syscall_arch_init H) ;#
  kmain_syscall ;#
  klift (m4_selftest H) ;#
  kmain_breakpoint B ;#
  kmain_end B.

Definition _start (B : build) : gm unit := kmain B ;# klift cpu_halt_forever.

End boot.
