(* ===== verification/BootRules.v ===== *)
(** * Boot: rules for code that logs while interrupts arrive

    [advance n t s]: the machine [s] after [n] timer interrupts and the
    accesses [t].  [gemits m g g' lines]: from the static objects [g], free
    locks and the kernel's timer gate, [m] returns on any hardware with the
    static objects [g'], what it does to the machine is to advance it, and if
    no interrupt came it sends the given lines. *)
From Stdlib Require Import Strings.String.
From S2P Require Import Prelude Sync Vfs Machine Console ConsoleFacts Interrupt InterruptFacts BootFacts MachineTheorems Boot.

(** The bytes a ready port sends for a line that holds no line feed. *)
Definition line_bytes (l : string) : list Z := crlf (bytes_of l) ++ [13; 13; 10].
Definition lines_bytes (ls : list string) : list Z := ls ≫= line_bytes.

(** One timer interrupt: a tick and a trap are counted. *)
Definition tick (s : machine) : machine :=
  set_ticks (u64 (g_ticks s + 1)) (set_trap_count (u64 (trap_count s + 1)) s).

Fixpoint ticks (n : nat) (s : machine) : machine :=
  match n with O => s | S n => tick (ticks n s) end.

(** [n] timer interrupts and the accesses [t]. *)
Definition advance (n : nat) (t : list io) (s : machine) : machine := add_trace t (ticks n s).

Lemma ticks_trace n t s : ticks n (add_trace t s) = add_trace t (ticks n s).
Proof. induction n as [|n IH]; [done|]. cbn [ticks]. by rewrite IH. Qed.

Lemma ticks_add n m s : ticks (n + m) s = ticks n (ticks m s).
Proof. induction n as [|n IH]; [done|]. cbn [ticks Nat.add]. by rewrite IH. Qed.

Lemma advance_advance n1 t1 n2 t2 s :
  advance n2 t2 (advance n1 t1 s) = advance (n2 + n1) (t1 ++ t2) s.
Proof. unfold advance. by rewrite ticks_trace, add_trace_app, ticks_add. Qed.

Lemma advance_0 t s : advance 0 t s = add_trace t s.
Proof. done. Qed.

Lemma advance_nil s : advance 0 [] s = s.
Proof. apply add_trace_nil. Qed.

(** What interrupts do not touch. *)
Lemma advance_keeps n t s :
  log_lock (advance n t s) = log_lock s /\ serial_lock (advance n t s) = serial_lock s /\
  idt (advance n t s) = idt s /\ idtr (advance n t s) = idtr s /\
  trace (advance n t s) = trace s ++ t.
Proof.
  unfold advance. cbn [log_lock serial_lock idt idtr trace add_trace].
  induction n as [|n (H1 & H2 & H3 & H4 & H5)]; [done|]. cbn [ticks]. by split_all.
Qed.

(** The end-of-interrupt commands of [n] timer interrupts. *)
Definition timer_eois (n : nat) : list (Z * Z) := mjoin (replicate n [(0x20, 0x20); (0x20, 0x20)]).

Lemma timer_eois_add n m : timer_eois (n + m) = timer_eois n ++ timer_eois m.
Proof. unfold timer_eois. by rewrite replicate_add, join_app. Qed.

Section rules.
Context (H : hardware).

Definition quiet : Prop := forall t, hw_irq H t = [].

(** Accesses of boot code during which [n] interrupts were taken. *)
Record boot_trace (n : nat) (t : list io) : Prop := {
  bt_sti : IoSti ∉ t;
  bt_pic : pic_writes t = timer_eois n;
  bt_console : n = 0%nat -> Forall console_event t;
  bt_quiet : quiet -> n = 0%nat
}.

Lemma console_trace t : Forall console_event t -> boot_trace 0 t.
Proof.
  intros F. pose proof (Forall_impl _ _ _ F console_plain) as P.
  split; [by apply plain_no_sti|by apply plain_pic|done..].
Qed.

Lemma boot_trace_app n1 t1 n2 t2 :
  boot_trace n1 t1 -> boot_trace n2 t2 -> boot_trace (n2 + n1) (t1 ++ t2).
Proof.
  intros [A1 A2 A3 A4] [B1 B2 B3 B4]. split.
  - rewrite elem_of_app. tauto.
  - rewrite pic_writes_app, A2, B2, <- timer_eois_add. f_equal. lia.
  - intros Hn. apply Forall_app. split; [apply A3|apply B3]; lia.
  - intros Hq. rewrite A4, B4 by done. done.
Qed.

(** Both locks are free and the timer's gate is the kernel's. *)
Definition irq_ready (s : machine) : Prop :=
  unlocked s /\ idt s !! 32%nat = Some (kernel_gate H 32) /\ in_u 64 (exception_stub H 32).

Lemma irq_ready_advance n t s : irq_ready s -> irq_ready (advance n t s).
Proof.
  intros ([Hl Hs] & Hg & Hx). destruct (advance_keeps n t s) as (E1 & E2 & E3 & _).
  split; [by split; rewrite ?E1, ?E2|]. by rewrite E3.
Qed.

Lemma timer_interrupt regs s :
  irq_ready s ->
  exists t, through_gate H (stub_frame 32 regs) s = (Ret tt, advance 1 t s) /\
    (IoSti ∉ t) /\ pic_writes t = timer_eois 1.
Proof.
  intros ([Hl Hs] & Hg & Hx). set (f := stub_frame 32 regs).
  destruct (dispatch_prefix H f s) as (t1 & F1 & E1); [cbn; lia|done|done|].
  destruct (timer_eq H (add_trace t1 (set_trap_count (u64 (trap_count s + 1)) s))) as (t2 & E2 & F2);
    [done|done|].
  exists (t1 ++ t2 ++ [IoOut 0x20 0x20; IoOut 0x20 0x20]). split_all.
  - unfold through_gate, kbind, kget. change (Z.to_nat (tf_vector f)) with 32%nat. rewrite Hg.
    change (tf_vector f) with 32. unfold kernel_gate. change (32 <? 48) with true. cbv iota.
    rewrite gate_handler_make, Z.eqb_refl by done.
    change (negb (type_attributes (make_gate (exception_stub H 32) (gate_type 32)) .& 0x80 =? 0) && true) with true.
    cbv iota. rewrite E1. unfold trap_branch. change (tf_vector f) with 32.
    change ((32 <=? 32) && (32 <=? 47)) with true. cbv iota. change (32 =? 32) with true. cbn [kwhen].
    unfold kbind. rewrite E2. unfold pic_send_eoi. change (8 <=? u8 (32 - 32)) with false. cbn [kwhen].
    unfold kbind, kret, outb, kmodify. cbv beta iota.
    change (set_ticks ?x (add_trace t1 ?y)) with (add_trace t1 (set_ticks x y)).
    rewrite !add_trace_app, <- !app_assoc. reflexivity.
  - pose proof (plain_no_sti _ (Forall_impl _ _ _ F1 console_plain)).
    pose proof (plain_no_sti _ (Forall_impl _ _ _ F2 console_plain)).
    rewrite !elem_of_app, !elem_of_cons, elem_of_nil. intuition congruence.
  - rewrite !pic_writes_app, !pic_writes_console by done. reflexivity.
Qed.

Lemma take_irqs_spec pending s :
  irq_ready s ->
  exists t, take_irqs H pending s = (Ret tt, advance (length pending) t s) /\
    (IoSti ∉ t) /\ pic_writes t = timer_eois (length pending) /\ (pending = [] -> t = []).
Proof.
  revert s. induction pending as [|regs pending IH]; intros s Hs.
  { exists []. cbn [take_irqs length]. rewrite advance_nil. split_all; try done. apply not_elem_of_nil. }
  destruct (timer_interrupt regs s Hs) as (t1 & E1 & N1 & P1).
  destruct (IH (advance 1 t1 s)) as (t2 & E2 & N2 & P2 & _); [by apply irq_ready_advance|].
  exists (t1 ++ t2). cbn [take_irqs length]. unfold kbind. rewrite E1, E2, advance_advance.
  split_all; [by rewrite Nat.add_1_r|rewrite elem_of_app; tauto| |done].
  by rewrite pic_writes_app, P1, P2, <- timer_eois_add.
Qed.

Lemma serve_spec s :
  irq_ready s -> exists n t, serve_irqs H s = (Ret tt, advance n t s) /\ boot_trace n t /\ (n = 0%nat -> t = []).
Proof.
  intros Hs. unfold serve_irqs. destruct (interrupts_on (trace s)).
  - destruct (take_irqs_spec (hw_irq H (trace s)) s Hs) as (t & E & N & P & Z).
    exists (length (hw_irq H (trace s))), t. assert (Hz : length (hw_irq H (trace s)) = 0%nat -> t = [])
      by (intros Hn; by apply Z, nil_length_inv).
    split_all; try done. split; try done; [intros Hn; by rewrite Hz|].
    intros Hq. by rewrite Hq.
  - exists 0%nat, []. rewrite advance_nil. split_all; try done. by apply console_trace.
Qed.

Definition gemits (m : gm unit) (g g' : kglobals) (lines : list string) : Prop :=
  forall s, irq_ready s -> exists n t, m (g, s) = (Ret tt, (g', advance n t s)) /\
    boot_trace n t /\ (n = 0%nat -> tx_ready H -> sent t = lines_bytes lines).

Lemma gemits_ret g : gemits (gret tt) g g [].
Proof. intros s _. exists 0%nat, []. rewrite advance_nil. split_all; try done. by apply console_trace. Qed.

Lemma writeln_emits l s :
  unlocked s -> exists t, writeln H l s = (Ret tt, add_trace t s) /\ Forall console_event t /\
    (tx_ready H -> sent t = lines_bytes [l]).
Proof.
  intros [Hl Hs]. destruct (emits_log_writeln H _ (bytes_of_ok l) s Hl Hs) as (t & E & F & S).
  exists t. split_all; [exact E|done|]. intros Hr. rewrite (S Hr). cbn. by rewrite app_nil_r.
Qed.

(** An action: first the pending interrupts, then [act]. *)
Lemma gserve_then {A} (act : gm A) g s :
  irq_ready s -> exists n t, (gserve H ;# act) (g, s) = act (g, advance n t s) /\
    irq_ready (advance n t s) /\ boot_trace n t /\ (n = 0%nat -> t = []).
Proof.
  intros Hs. destruct (serve_spec s Hs) as (n & t & E & B & Z). exists n, t.
  unfold gbind, gserve. cbn [fst snd]. rewrite E. split_all; try done. by apply irq_ready_advance.
Qed.

Lemma klift_then {A} (m : km A) g s :
  irq_ready s -> exists n t,
    klift H m (g, s) = ((m (advance n t s)).1, (g, (m (advance n t s)).2)) /\
    irq_ready (advance n t s) /\ boot_trace n t /\ (n = 0%nat -> t = []).
Proof.
  intros Hs. destruct (gserve_then (fun w => let '(o, s) := m w.2 in (o, (w.1, s))) g s Hs)
    as (n & t & E & Ht). exists n, t. split; [|done]. unfold klift. rewrite E. cbn [fst snd].
  by destruct (m (advance n t s)).
Qed.

Lemma gemits_say l g : gemits (say H l) g g [l].
Proof.
  intros s Hs. unfold say. destruct (klift_then (writeln H l) g s Hs) as (n & t1 & -> & Hs1 & B1 & Z1).
  destruct (writeln_emits l (advance n t1 s) (proj1 Hs1)) as (t2 & E & F & S).
  exists (0 + n)%nat, (t1 ++ t2). cbn [fst snd]. rewrite E, <- advance_0, advance_advance.
  split_all; [done|by apply boot_trace_app, console_trace|].
  intros Hn Hr. rewrite Z1 by done. by apply S.
Qed.

Lemma gemits_seq m k g g1 g2 l1 l2 :
  gemits m g g1 l1 -> gemits k g1 g2 l2 -> gemits (m ;# k) g g2 (l1 ++ l2).
Proof.
  intros H1 H2 s Hs. destruct (H1 s Hs) as (n1 & t1 & E1 & B1 & S1).
  destruct (H2 (advance n1 t1 s)) as (n2 & t2 & E2 & B2 & S2); [by apply irq_ready_advance|].
  exists (n2 + n1)%nat, (t1 ++ t2). unfold gbind. rewrite E1, E2, advance_advance.
  split_all; [done|by apply boot_trace_app|]. intros Hn Hr. unfold lines_bytes.
  rewrite sent_app, S1, S2, bind_app by (done || lia). done.
Qed.

Lemma gemits_line l k g g' ls : gemits k g g' ls -> gemits (say H l ;# k) g g' (l :: ls).
Proof. apply (gemits_seq _ _ _ _ _ [l]), gemits_say. Qed.

(** An action on the static objects, then the rest. *)
Lemma gemits_act {A} (act : gm A) x g1 (k : A -> gm unit) g g' ls :
  (forall s, act (g, s) = (Ret x, (g1, s))) -> gemits (k x) g1 g' ls ->
  gemits (gbind (gserve H ;# act) k) g g' ls.
Proof.
  intros Ha Hk s Hs.
  destruct (gserve_then act g s Hs) as (n1 & t1 & E & Hs1 & B1 & Z1).
  destruct (Hk (advance n1 t1 s) Hs1) as (n2 & t2 & E2 & B2 & S2).
  exists (n2 + n1)%nat, (t1 ++ t2). unfold gbind at 1. rewrite E, Ha, E2, advance_advance.
  split_all; [done|by apply boot_trace_app|]. intros Hn Hr. rewrite Z1 by lia. apply S2; [lia|done].
Qed.

Lemma gemits_call {A} (f : kglobals -> option (A * kglobals)) x g1 k g g' ls :
  f g = Some (x, g1) -> gemits (k x) g1 g' ls -> gemits (do# y <- gcall H f; k y) g g' ls.
Proof. intros E. apply gemits_act. intros s. cbn [fst snd]. by rewrite E. Qed.

Lemma gemits_last (f : kglobals -> option (unit * kglobals)) g g' :
  f g = Some (tt, g') -> gemits (gcall H f) g g' [].
Proof.
  intros E s Hs. unfold gcall.
  destruct (gserve_then (fun w => match f w.1 with
      | Some (x, g) => (Ret x, (g, w.2)) | None => (Undefined, w) end) g s Hs) as (n & t & -> & _ & B & Z).
  exists n, t. cbn [fst snd]. rewrite E. split_all; try done. intros Hn _. by rewrite Z.
Qed.

Lemma gemits_skip k g g' ls : gemits k g g' ls -> gemits (gret tt ;# k) g g' ls.
Proof. done. Qed.

Lemma gemits_lock p z c k g g' ls :
  run spin_fuel p (s_cells (boot_stats_lock g)) = Some (z, c) ->
  gemits k (set_boot_lock (mk_spinlock c (s_class_id (boot_stats_lock g)) (s_name (boot_stats_lock g))) g) g' ls ->
  gemits (on_lock H p ;# k) g g' ls.
Proof.
  intros E Hk. eapply (gemits_act _ tt _ (fun _ => k)); [|exact Hk]. intros s. cbn [fst snd]. by rewrite E.
Qed.

End rules.

(** The accesses of a sequence of parts. *)
Ltac join_traces :=
  repeat first [assumption | apply console_trace; assumption | apply boot_trace_app].
