(* ===== verification/BootTheorems.v ===== *)
(** * Boot: theorems

    The self tests and the boot sequence, one after the other by the rules of
    [BootRules]. *)
From Stdlib Require Import Strings.String.
From S2P Require Import Prelude Bitmap Syscall Elf Sync Vfs VfsSpec VfsFacts VfsSys Block Machine Console ConsoleFacts Interrupt InterruptFacts BootFacts MachineTheorems Boot BootRules.

(** ** The self tests *)

Section selftests.
Context (H : hardware) (L : layout).

Definition m11_lines : list string :=
  ["[M11] elf loader integration selftest"; "[M11] elf: ident ok"; "[M11] elf: phnum=1";
   "[M11] elf: load segment vaddr=0x400000 filesz=16 memsz=4096 flags=0x5";
   "[M11] elf: plan ok entry=0x401000"; "[M11] user image plan ready"]%string.

Lemma memset_all dst val n :
  length dst = n -> m11_memset_local dst val n = Some (replicate n (u8 val)).
Proof.
  revert dst. induction n as [|n IH]; intros [|x dst] Hl; try done. cbn.
  by rewrite IH by (cbn in Hl; lia).
Qed.

Definition synthetic : list Z := write_phdr (write_ehdr (replicate (Z.to_nat synthetic_size) 0)).

Lemma synthetic_accepted plan :
  exists pl, m11_elf64_plan_load (Some synthetic) synthetic_size (mk_uregion 0x400000 0x8000000000)
    (Some plan) = Some (M11_OK, pl).
Proof. eexists. vm_compute. reflexivity. Qed.

Lemma m11_emits g :
  length (m11_synthetic_image g) = Z.to_nat synthetic_size ->
  gemits H (m11_kernel_selftest H L) g (set_image synthetic g) m11_lines.
Proof.
  intros Hl. destruct (synthetic_accepted (stack_plan L)) as (pl & E). apply gemits_line.
  apply (gemits_call H _ tt (set_image (replicate (Z.to_nat synthetic_size) 0) g)).
  { rewrite (memset_all _ _ _ Hl). reflexivity. }
  apply (gemits_call H _ tt (set_image synthetic g)); [reflexivity|].
  apply (gemits_call H _ M11_OK (set_image synthetic g)).
  { cbn [m11_synthetic_image set_image]. rewrite E. reflexivity. }
  do 4 apply gemits_line. apply gemits_say.
Qed.

Definition after_m12 (g : kglobals) : kglobals :=
  set_counter (u64 (boot_counter g + 1))
    (set_boot_lock (mcs_spin_init 10 (Some (boot_stats_name L))) (set_lockdep mcs_lockdep_init g)).

Lemma m12_emits g : gemits H (m12_sync_selftest H L) g (after_m12 g) ["M12 sync selftest passed"%string].
Proof.
  do 3 (eapply gemits_call; [reflexivity|]). apply gemits_skip.
  eapply gemits_lock; [reflexivity|]. eapply gemits_call; [reflexivity|].
  eapply gemits_lock; [reflexivity|]. eapply gemits_call; [reflexivity|]. apply gemits_skip.
  apply gemits_say.
Qed.

(** *** M13, on the abstract file system *)

(** From a process that represents [a], [m] logs the lines, leaves a process
    that represents [a'] and touches no other static object. *)
Definition m13_runs (m : gm unit) (a a' : avfs) (ls : list string) : Prop :=
  forall g, proc_ok 13 a (kg_m13 g) -> exists st, gemits H m g (set_m13 st g) ls /\ proc_ok 13 a' st.

Lemma set_m13_id g : set_m13 (kg_m13 g) g = g.
Proof. by destruct g. Qed.

Lemma m13_runs_say l a : m13_runs (say H l) a a [l].
Proof. intros g Hg. exists (kg_m13 g). rewrite set_m13_id. split; [apply gemits_say|done]. Qed.

Lemma m13_runs_line l k a a' ls : m13_runs k a a' ls -> m13_runs (say H l ;# k) a a' (l :: ls).
Proof. intros Hk g Hg. destruct (Hk g Hg) as (st & He & Hst). exists st. split; [by apply gemits_line|done]. Qed.

Lemma m13_runs_call {A} (c : em proc_state A) (k : Z + A -> gm unit) a r a1 a' ls :
  sys_sim c a r a1 -> m13_runs (k r) a1 a' ls -> m13_runs (do# y <- on_m13 H c; k y) a a' ls.
Proof.
  intros Hc Hk g Hg. destruct (Hc _ _ Hg) as (st1 & E & H1).
  destruct (Hk (set_m13 st1 g) H1) as (st & He & Hst). exists st. split; [|done].
  eapply gemits_call; [by rewrite E|exact He].
Qed.

Definition hello_file : afile :=
  mk_afile (bytes_of "hello.txt") (splice 0 (bytes_of "hello-mcsos") (replicate 256 0)) 11.
Definition log_file : afile :=
  mk_afile (bytes_of "log.txt") (splice 0 (bytes_of "OK13") (replicate 256 0)) 4.
Definition avfs_seeded : avfs := mk_avfs [hello_file] (replicate 16 None).
(** Two files, no open descriptor. *)
Definition avfs_booted : avfs := mk_avfs [hello_file; log_file] (replicate 16 None).

Lemma m13_log_runs :
  m13_runs (m13_log_txt H) avfs_seeded avfs_booted
    ["[M13] create/write/lseek/read /log.txt: OK"; "[M13] VFS/RAMFS kernel selftest: PASS"]%string.
Proof.
  eapply m13_runs_call; [apply sys_open_sim; vm_compute; reflexivity|]. cbn [int_of Z.ltb Z.compare].
  eapply m13_runs_call; [apply sys_write_sim; [cbn; lia|vm_compute; reflexivity]|]. cbn [int_of Z.eqb Pos.eqb negb].
  eapply m13_runs_call; [apply sys_lseek_sim; [lia|vm_compute; reflexivity]|]. cbn [int_of Z.eqb Pos.eqb negb].
  eapply m13_runs_call; [apply sys_read_sim; [cbn; lia|vm_compute; reflexivity]|]. cbn [count_of fst Z.eqb Pos.eqb negb].
  eapply m13_runs_call; [eapply sys_close_sim; vm_compute; reflexivity|].
  apply m13_runs_line. apply m13_runs_say.
Qed.

Lemma m13_hello_runs :
  m13_runs (m13_hello_txt H) avfs_seeded avfs_booted
    ["[M13] sys_open /hello.txt: OK"; "[M13] sys_read 5 bytes: OK"; "[M13] sys_close: OK";
     "[M13] EBADF after close: OK"; "[M13] ENOENT missing file: OK";
     "[M13] create/write/lseek/read /log.txt: OK"; "[M13] VFS/RAMFS kernel selftest: PASS"]%string.
Proof.
  eapply m13_runs_call; [apply sys_open_sim; vm_compute; reflexivity|]. cbn [int_of Z.ltb Z.compare].
  apply m13_runs_line.
  eapply m13_runs_call; [apply sys_read_sim; [cbn; lia|vm_compute; reflexivity]|].
  cbn [count_of fst Z.eqb Pos.eqb negb]. apply m13_runs_line.
  eapply m13_runs_call; [eapply sys_close_sim; vm_compute; reflexivity|].
  cbn [status_of Z.eqb MCS_OK negb]. apply m13_runs_line. cbv zeta.
  eapply m13_runs_call; [apply sys_read_sim; [cbn; lia|vm_compute; reflexivity]|].
  cbn [count_of MCS_EBADF Z.eqb Pos.eqb negb]. apply m13_runs_line.
  eapply m13_runs_call; [apply sys_open_sim; vm_compute; reflexivity|].
  cbn [int_of MCS_ENOENT Z.eqb Pos.eqb negb]. apply m13_runs_line. apply m13_log_runs.
Qed.

Definition m13_lines : list string :=
  ["[M13] VFS/RAMFS kernel selftest begin"; "[M13] ramfs init: OK"; "[M13] seed_file /hello.txt: OK";
   "[M13] sys_open /hello.txt: OK"; "[M13] sys_read 5 bytes: OK"; "[M13] sys_close: OK";
   "[M13] EBADF after close: OK"; "[M13] ENOENT missing file: OK";
   "[M13] create/write/lseek/read /log.txt: OK"; "[M13] VFS/RAMFS kernel selftest: PASS"]%string.

Lemma m13_emits g :
  ramfs_object (sys_fs (kg_m13 g)) -> is_Some (proc (kg_m13 g)) ->
  exists st, gemits H (m13_vfs_kernel_selftest H) g (set_m13 st g) m13_lines /\ proc_ok 13 avfs_booted st.
Proof.
  intros Hobj [p Hp].
  destruct (seed_sim avfs_init _ (bytes_of "/hello.txt") (bytes_of "hello-mcsos") 11
    (vfs_init_ok _ Hobj) ltac:(cbn; lia)) as (fs1 & E & Hs).
  replace (spec_seed _ _ _ _) with (MCS_OK, avfs_seeded) in E, Hs by (vm_compute; reflexivity).
  cbn [fst snd ramfs] in E, Hs.
  destruct (m13_hello_runs (set_m13 (Vfs.mk_sys (Some (mk_process 13 mcs_fd_table_init)) fs1) g))
    as (st & He & Hst).
  { exists mcs_fd_table_init. split; [done|exact Hs]. }
  exists st. split; [|done]. apply gemits_line.
  eapply gemits_call; [reflexivity|]. apply gemits_line.
  eapply gemits_call; [cbn [kg_m13 set_ramfs set_m13 sys_fs]; unfold str; by rewrite E|].
  change (negb (MCS_OK =? MCS_OK)) with false. apply gemits_line. cbn [fst snd].
  eapply gemits_call; [unfold set_proc; cbn [kg_m13 set_ramfs set_m13 proc sys_fs]; rewrite Hp; reflexivity|].
  exact He.
Qed.

Definition m14_lines : list string :=
  ["[M14] block layer initialized"; "[M14] ram0: 64 blocks x 512 bytes registered";
   "[M15] mcsfs1 linked into kernel"; "[M15] ready for integration";
   "[M16] mcsfs1j linked into kernel"; "[M16] journal recovery support available"]%string.

Definition after_m14 (g : kglobals) : kglobals :=
  set_blk (mk_registry (<[0%nat := Some (ramdisk_dev_addr L)]> (replicate 8 None)) 1)
    (set_ramdisk (mk_blk_device (mcsos_copy_name (d_name (g_m14_ramdisk_dev g)) (str "ram0")) 512 64 0
                    (Some g_ramblk_ops) (Some (ramdisk_addr L)))
       (<[ramdisk_addr L := mk_ramblk (g_m14_ramdisk_storage g) 32768]> (kg_ram g)) g).

Lemma m14_emits g :
  d_name (g_m14_ramdisk_dev g) <> [] ->
  gemits H (m14_block_demo_init H L) g (after_m14 g) m14_lines.
Proof.
  intros Hn. eapply gemits_call; [reflexivity|]. eapply gemits_call; [reflexivity|].
  change (negb (MCSOS_BLK_OK =? MCSOS_BLK_OK)) with false. cbv iota.
  assert (mcsos_name_is_nonempty (mcsos_copy_name (d_name (g_m14_ramdisk_dev g)) (str "ram0")) = true) as E.
  { by destruct (d_name (g_m14_ramdisk_dev g)). }
  eapply gemits_call.
  { cbn [g_m14_ramdisk_dev set_ramdisk set_blk kg_blk mcsos_blk_register d_ops op_read op_write
      g_ramblk_ops d_name d_block_count d_block_size]. rewrite E. reflexivity. }
  do 5 apply gemits_line. apply gemits_say.
Qed.

(** *** All of them *)

(** The static objects have the sizes of their C types. *)
Record objects_ok (g : kglobals) : Prop := {
  oo_image : length (m11_synthetic_image g) = Z.to_nat synthetic_size;
  oo_ramfs : ramfs_object (sys_fs (kg_m13 g));
  oo_proc : is_Some (proc (kg_m13 g));
  oo_name : d_name (g_m14_ramdisk_dev g) <> []
}.

Definition selftest_lines : list string :=
  m11_lines ++ ["M12 sync selftest passed"%string] ++ m13_lines ++ m14_lines.

Lemma selftests_emit g :
  objects_ok g ->
  exists st, gemits H (kmain_selftests H L) g
      (after_m14 (set_m13 st (after_m12 (set_image synthetic g)))) selftest_lines /\
    proc_ok 13 avfs_booted st.
Proof.
  intros [Hi Hr Hp Hn]. destruct (m13_emits (after_m12 (set_image synthetic g)) Hr Hp) as (st & He & Hst).
  exists st. split; [|done].
  eapply gemits_seq; [by apply m11_emits|]. eapply gemits_seq; [apply m12_emits|].
  eapply gemits_seq; [exact He|]. by apply m14_emits.
Qed.

Lemma syscall_emits g :
  gemits H (kmain_syscall H) g (set_kg_syscall (mcsos_syscall_init None (kg_syscall g)) g) [].
Proof.
  eapply gemits_call; [reflexivity|]. by apply gemits_last.
Qed.
End selftests.

(** ** The boot sequence *)

Section sequence.
Context (H : hardware) (L : layout).

(** Before interrupts are enabled nothing comes in between. *)
Lemma klift_off {A B} (m : km A) (k : A -> gm B) g s x s' :
  interrupts_on (trace s) = false -> m s = (Ret x, s') -> gbind (klift H m) k (g, s) = k x (g, s').
Proof.
  intros Hoff E. unfold gbind, klift, gbind, gserve, serve_irqs. cbn [fst snd]. rewrite Hoff.
  cbn [fst snd]. by rewrite E.
Qed.

(** A part that returns, then the rest. *)
Lemma klift_next {A} (m : km A) (k : A -> gm unit) g s :
  irq_ready H s -> exists n t, irq_ready H (advance n t s) /\ boot_trace H n t /\ (n = 0%nat -> t = []) /\
    forall x s', m (advance n t s) = (Ret x, s') -> gbind (klift H m) k (g, s) = k x (g, s').
Proof.
  intros Hs. destruct (klift_then H m g s Hs) as (n & t & E & Hr & B & Z). exists n, t.
  split_all; try done. intros x s' Em. unfold gbind. by rewrite E, Em.
Qed.

(** Running a logging part first. *)
Lemma gemits_then m (k : gm unit) g g' ls s :
  gemits H m g g' ls -> irq_ready H s ->
  exists n t, (m ;# k) (g, s) = k (g', advance n t s) /\ irq_ready H (advance n t s) /\ boot_trace H n t /\
    (n = 0%nat -> tx_ready H -> sent t = lines_bytes ls).
Proof.
  intros Hm Hs. destruct (Hm s Hs) as (n & t & E & B & S). exists n, t. unfold gbind. rewrite E.
  split_all; try done. by apply irq_ready_advance.
Qed.

Definition boot_lines : list string :=
  ["[M5] PIC/PIT initialized; interrupts enabled"; "[M4] selftest: IDT invariants passed";
   "[M4] IDT and exception dispatch path installed";
   "[M4] ready for QEMU smoke test and GDB audit"]%string ++ selftest_lines.

(** What boot leaves in the static objects: the default system-call table, a
    free boot lock and an empty lock-order stack, two files and no open
    descriptor, and one registered RAM disk of 64 blocks. *)
Record booted (g g' : kglobals) : Prop := {
  b_syscall : kg_syscall g' = mcsos_syscall_init None (kg_syscall g);
  b_lock : boot_stats_lock g' = mcs_spin_init 10 (Some (boot_stats_name L));
  b_lockdep : boot_lockdep g' = mcs_lockdep_init;
  b_counter : boot_counter g' = u64 (boot_counter g + 1);
  b_files : proc_ok 13 avfs_booted (kg_m13 g');
  b_count : mcsos_blk_count (kg_blk g') = 1;
  b_device : mcsos_blk_get 0 (kg_blk g') = Some (ramdisk_dev_addr L);
  b_geometry : d_block_size (g_m14_ramdisk_dev g') = 512 /\ d_block_count (g_m14_ramdisk_dev g') = 64 /\
    d_ops (g_m14_ramdisk_dev g') = Some g_ramblk_ops /\
    d_driver_data (g_m14_ramdisk_dev g') = Some (ramdisk_addr L);
  b_storage : kg_ram g' !! ramdisk_addr L = Some (mk_ramblk (g_m14_ramdisk_storage g) (64 * 512))
}.

(** A trap is counted. *)
Definition bump (s : machine) : machine := set_trap_count (u64 (trap_count s + 1)) s.

Lemma bump_advance n t s : bump (advance n t s) = advance n t (bump s).
Proof.
  unfold advance. change (bump (add_trace t ?x)) with (add_trace t (bump x)). f_equal.
  induction n as [|n IH]; [done|]. cbn [ticks]. by rewrite <- IH.
Qed.

Lemma set_idt_advance x n t s : set_idt x (advance n t s) = advance n t (set_idt x s).
Proof.
  unfold advance. change (set_idt x (add_trace t ?y)) with (add_trace t (set_idt x y)). f_equal.
  induction n as [|n IH]; [done|]. cbn [ticks]. by rewrite <- IH.
Qed.

Definition bp_count (B : build) (s : machine) : machine :=
  if MCSOS_M4_TRIGGER_BREAKPOINT B then bump s else s.

(** The breakpoint is taken through gate 3 and returns. *)
Lemma breakpoint_trap s :
  irq_ready H s -> idt s !! 3%nat = Some (kernel_gate H 3) -> in_u 64 (exception_stub H 3) ->
  exists t, x86_64_trigger_breakpoint_for_test H (int3_regs L) s = (Ret tt, add_trace t (bump s)) /\
    Forall console_event t.
Proof.
  intros [[Hl Hs] _] Hg Hstub. set (f := stub_frame 3 (int3_regs L)).
  destruct (dispatch_prefix H f s) as (t2 & F2 & E2); [cbn; lia|done|done|].
  destruct (writeln_emits H "[M4] breakpoint handled; returning with iretq" (add_trace t2 (bump s)))
    as (t3 & E3 & F3 & _); [done|].
  exists (t2 ++ t3). split; [|by apply Forall_app].
  unfold x86_64_trigger_breakpoint_for_test, through_gate, kbind, kget. fold f.
  change (Z.to_nat (tf_vector f)) with 3%nat. rewrite Hg. change (tf_vector f) with 3.
  unfold kernel_gate. cbn [Z.ltb Z.compare Pos.compare Pos.compare_cont].
  rewrite gate_handler_make, Z.eqb_refl by done.
  change (negb _ && true) with true. cbv iota. rewrite E2, <- add_trace_app. exact E3.
Qed.

Lemma breakpoint_spec B (k : gm unit) g s :
  irq_ready H s -> idt s !! 3%nat = Some (kernel_gate H 3) -> in_u 64 (exception_stub H 3) ->
  exists n t, (kmain_breakpoint H L B ;# k) (g, s) = k (g, advance n t (bp_count B s)) /\
    irq_ready H (advance n t (bp_count B s)) /\ boot_trace H n t /\
    (MCSOS_M4_TRIGGER_BREAKPOINT B = false -> n = 0%nat -> t = []).
Proof.
  intros Hs Hg Hstub. unfold kmain_breakpoint, bp_count.
  destruct (MCSOS_M4_TRIGGER_BREAKPOINT B).
  2: { exists 0%nat, []. rewrite advance_nil. split_all; try done. by apply console_trace. }
  destruct (gemits_say H "[M4] triggering intentional breakpoint exception" g s Hs) as (n1 & t1 & E1 & B1 & _).
  set (s1 := advance n1 t1 s) in E1.
  assert (Hs1 : irq_ready H s1) by (by apply irq_ready_advance).
  destruct (klift_next (x86_64_trigger_breakpoint_for_test H (int3_regs L))
    (fun _ => say H "[M4] returned from breakpoint handler") g s1 Hs1) as (n2 & t2 & Hs2 & B2 & _ & E2).
  destruct (breakpoint_trap (advance n2 t2 s1)) as (t3 & E3 & F3); [done| |done|].
  { unfold s1. by rewrite !(proj1 (proj2 (proj2 (advance_keeps _ _ _)))). }
  rewrite bump_advance in E3. specialize (E2 _ _ E3).
  assert (Hs3 : irq_ready H (add_trace t3 (advance n2 t2 (bump s1)))) by (rewrite <- bump_advance; exact Hs2).
  destruct (gemits_say H "[M4] returned from breakpoint handler" g _ Hs3) as (n4 & t4 & E4 & B4 & _).
  exists (n4 + (0 + (n2 + n1)))%nat, (((t1 ++ t2) ++ t3) ++ t4).
  assert (Hadv : advance n4 t4 (add_trace t3 (advance n2 t2 (bump s1)))
    = advance (n4 + (0 + (n2 + n1))) (((t1 ++ t2) ++ t3) ++ t4) (bump s)).
  { unfold s1. rewrite bump_advance, <- (advance_0 t3), !advance_advance, <- !app_assoc. f_equal. lia. }
  split_all.
  - unfold gbind at 1. unfold gbind at 1. rewrite E1, E2, E4. by rewrite Hadv.
  - rewrite <- Hadv. by apply irq_ready_advance.
  - by join_traces.
  - done.
Qed.

Definition after_sti (B : build) (k : gm unit) : gm unit :=
  say H "[M5] PIC/PIT initialized; interrupts enabled" ;#
  klift H (syscall_arch_init H) ;#
  kmain_syscall H ;#
  klift H (m4_selftest H) ;#
  kmain_breakpoint H L B ;#
  k.

Definition syscall_ready (g : kglobals) : kglobals :=
  set_kg_syscall (mcsos_syscall_init None (kg_syscall g)) g.

Definition with_int80 (s : machine) : machine :=
  set_idt (<[128%nat := make_gate (int80_stub H) 0x8F]> (idt s)) s.

Lemma with_int80_advance n t s : with_int80 (advance n t s) = advance n t (with_int80 s).
Proof.
  unfold with_int80. rewrite set_idt_advance. by rewrite (proj1 (proj2 (proj2 (advance_keeps n t s)))).
Qed.

Lemma with_int80_gate s v : v <> 128%nat -> idt (with_int80 s) !! v = idt s !! v.
Proof. intros Hv. unfold with_int80. cbn [idt set_idt]. by rewrite list_lookup_insert_ne. Qed.

Lemma irq_ready_int80 s : irq_ready H s -> irq_ready H (with_int80 s).
Proof. intros (Hl & Hg & Hx). split; [done|]. by rewrite with_int80_gate. Qed.

Lemma bp_count_advance B n t s : bp_count B (advance n t s) = advance n t (bp_count B s).
Proof. unfold bp_count. destruct (MCSOS_M4_TRIGGER_BREAKPOINT B); [apply bump_advance|done]. Qed.

Lemma advance_gate n t s v : idt (advance n t s) !! v = idt s !! v.
Proof. by rewrite (proj1 (proj2 (proj2 (advance_keeps n t s)))). Qed.

Lemma advance_idtr n t s : idtr (advance n t s) = idtr s.
Proof. apply advance_keeps. Qed.

Lemma after_sti_spec B k g s :
  irq_ready H s -> idtr s = mk_idtr 4095 (idt_addr H) -> kernel_start H < kernel_end H ->
  idt_addr H <> 0 -> idt s !! 3%nat = Some (kernel_gate H 3) -> in_u 64 (exception_stub H 3) ->
  exists n t, after_sti B k (g, s) = k (syscall_ready g, advance n t (bp_count B (with_int80 s))) /\
    irq_ready H (advance n t (bp_count B (with_int80 s))) /\ boot_trace H n t /\
    (MCSOS_M4_TRIGGER_BREAKPOINT B = false -> n = 0%nat -> tx_ready H ->
     sent t = lines_bytes (take 2 boot_lines)).
Proof.
  intros Hs Hr Hk Ha H3 Hstub. unfold after_sti.
  edestruct gemits_then as (n1 & t1 & -> & Hs1 & B1 & S1); [apply gemits_say|exact Hs|].
  edestruct (klift_next (syscall_arch_init H)) as (n2 & t2 & Hs2 & B2 & Z2 & E2); [exact Hs1|].
  rewrite (E2 tt (with_int80 _) (set_gate_eq _ _ _ _)). clear E2. apply irq_ready_int80 in Hs2.
  edestruct gemits_then as (n3 & t3 & -> & Hs3 & B3 & S3); [apply syscall_emits|exact Hs2|].
  rewrite with_int80_advance, with_int80_advance, !advance_advance in *.
  edestruct (klift_next (m4_selftest H)) as (n4 & t4 & Hs4 & B4 & Z4 & E4); [exact Hs3|].
  destruct (writeln_emits H "[M4] selftest: IDT invariants passed" _ (proj1 Hs4)) as (t5 & E5 & F5 & S5).
  rewrite <- m4_selftest_eq in E5 by (rewrite ?advance_idtr; done). rewrite (E4 _ _ E5). clear E4.
  rewrite <- advance_0, !advance_advance.
  edestruct (breakpoint_spec B k) as (n6 & t6 & -> & Hs6 & B6 & Z6).
  { apply (irq_ready_advance H 0 t5) in Hs4. rewrite !advance_advance in Hs4. exact Hs4. }
  { rewrite advance_gate, with_int80_gate by done. exact H3. }
  { done. }
  rewrite bp_count_advance, advance_advance in *. do 2 eexists. split; [reflexivity|]. split; [done|]. split.
  - by join_traces.
  - intros HB Hn Hx. rewrite !sent_app, S1, S3, S5, Z2, Z4, Z6 by (done || lia). reflexivity.
Qed.

(** The build that does not panic goes through the self tests. *)
Lemma kmain_end_spec B g s :
  MCSOS_M4_TRIGGER_PANIC B = false -> irq_ready H s -> objects_ok g ->
  exists n t g', kmain_end H L B (syscall_ready g, s) = (Halted, (g', add_trace [IoCli] (advance n t s))) /\
    boot_trace H n t /\ (n = 0%nat -> tx_ready H -> sent t = lines_bytes (drop 2 boot_lines)) /\ booted g g'.
Proof.
  intros HB Hs Hobj. unfold kmain_end. rewrite HB.
  edestruct gemits_then as (n3 & t3 & -> & Hs3 & B3 & S3); [apply gemits_say|exact Hs|].
  edestruct gemits_then as (n4 & t4 & -> & Hs4 & B4 & S4); [apply gemits_say|exact Hs3|].
  destruct (selftests_emit H L (syscall_ready g)) as (st & He & Hst); [by destruct Hobj|].
  edestruct gemits_then as (n5 & t5 & -> & Hs5 & B5 & S5); [exact He|exact Hs4|].
  destruct (klift_then H (cpu_halt_forever (A := unit)) 
    (after_m14 L (set_m13 st (after_m12 L (set_image synthetic (syscall_ready g))))) _ Hs5)
    as (n6 & t6 & -> & _ & B6 & Z6).
  rewrite !advance_advance. do 3 eexists. split; [reflexivity|]. split_all.
  - by join_traces.
  - intros Hn Hx. rewrite !sent_app, S3, S4, S5, Z6 by (done || lia). by rewrite app_nil_r.
  - split; try done. cbn. by rewrite lookup_insert_eq.
Qed.
End sequence.

(** ** Claims *)

(** [n] increments of a 64-bit counter. *)
Fixpoint counted (n : nat) (x : Z) : Z :=
  match n with O => x | S n => u64 (counted n x + 1) end.

Lemma counted_add n m x : counted (n + m) x = counted n (counted m x).
Proof. induction n as [|n IH]; [done|]. cbn [counted Nat.add]. by rewrite IH. Qed.

Lemma advance_counts n t s :
  g_ticks (advance n t s) = counted n (g_ticks s) /\ trap_count (advance n t s) = counted n (trap_count s).
Proof.
  unfold advance. cbn [g_ticks trap_count add_trace].
  induction n as [|n [H1 H2]]; [done|]. cbn [ticks counted]. by rewrite <- H1, <- H2.
Qed.

(** The traps of the breakpoint build's own breakpoint. *)
Definition bp_traps (B : build) : nat := if MCSOS_M4_TRIGGER_BREAKPOINT B then 1 else 0.

Lemma interrupts_off t1 t2 : (IoSti ∉ t2) -> interrupts_on (t1 ++ [IoCli] ++ t2) = false.
Proof.
  intros Hn. unfold interrupts_on. rewrite !foldl_app. cbn [foldl].
  induction t2 as [|e t2 IH]; [done|]. apply not_elem_of_cons in Hn as [He Hn].
  cbn [foldl]. destruct e; try done; by apply IH.
Qed.

(** Boot up to the end of [kmain_breakpoint]. *)
Lemma boot_prefix H L B g s :
  interrupts_on (trace s) = false ->
  unlocked s -> length (idt s) = 256%nat -> kernel_start H < kernel_end H -> idt_addr H <> 0 ->
  in_u 64 (exception_stub H 3) -> in_u 64 (exception_stub H 32) -> mask_reads_back H ->
  exists t0 t1 t2 t3 m1 m2 n s1,
    kmain H L B (g, s) = kmain_end H L B (syscall_ready g, s1) /\ irq_ready H s1 /\
    trace s1 = trace s ++ t0 ++ [IoLidt 4095 (idt_addr H)] ++ t1 ++ [IoCli] ++ t2 ++ [IoSti] ++ t3 /\
    (IoSti ∉ t0 ++ t1 ++ t2) /\ boot_trace H n t3 /\
    pic_writes (t0 ++ t1) = [] /\ pic_writes t2 = pic_boot_writes m1 m2 0xFE /\
    pit_writes t2 = [(0x43, 0x36); (0x40, 0x9B); (0x40, 0x2E)] /\
    (forall v, 0 <= v < 256 -> idt s1 !! Z.to_nat v =
       Some (if v =? 0x80 then make_gate (int80_stub H) 0x8F else kernel_gate H v)) /\
    (MCSOS_M4_TRIGGER_BREAKPOINT B = false -> n = 0%nat -> tx_ready H ->
     sent t3 = lines_bytes (take 2 boot_lines)) /\
    g_ticks s1 = counted n (g_ticks s) /\ trap_count s1 = counted (n + bp_traps B) (trap_count s).
Proof.
  intros Hoff [Hl Hs] Hlen Hk Ha Hstub Hstub32 Hmask.
  destruct (kmain_setup_spec H s Hl Hs Hlen Hmask)
    as (t0 & t1 & t2 & m1 & m2 & s1 & E1 & Hl1 & Hs1 & Hr1 & Ht & Hn & Hp1 & Hp2 & Hpit & Hg & Hcnt & Htk).
  destruct (after_sti_spec H L B (kmain_end H L B) g (add_trace [IoSti] s1)) as (n & t3 & E3 & I3 & B3 & S3);
    try done; [split; [done|]; split; [by apply (Hg 32)|done]|by apply (Hg 3)|].
  exists t0, t1, t2, t3, m1, m2, n. eexists. split.
  { unfold kmain. erewrite klift_off by (exact Hoff || exact E1).
    erewrite klift_off; [exact E3| |reflexivity].
    rewrite Ht, !app_assoc. rewrite <- (app_assoc _ [IoCli]). apply interrupts_off.
    rewrite !elem_of_app in Hn. tauto. }
  split; [exact I3|].
  destruct (advance_keeps n t3 (bp_count B (with_int80 H (add_trace [IoSti] s1)))) as (_ & _ & Ki & _ & Kt).
  destruct (advance_counts n t3 (bp_count B (with_int80 H (add_trace [IoSti] s1)))) as [Kg Kc].
  rewrite Ki, Kt, Kg, Kc, counted_add. split_all; try done.
  - transitivity ((trace s1 ++ [IoSti]) ++ t3); [|by rewrite Ht, <- !app_assoc].
    unfold bp_count. by destruct (MCSOS_M4_TRIGGER_BREAKPOINT B).
  - intros v Hv. transitivity (idt (with_int80 H s1) !! Z.to_nat v);
      [unfold bp_count; by destruct (MCSOS_M4_TRIGGER_BREAKPOINT B)|].
    destruct (Z.eqb_spec v 0x80) as [->|Hne].
    + apply list_lookup_insert_eq, lookup_lt_is_Some. specialize (Hg 0x80 Hv).
      change (Z.to_nat 0x80) with 128%nat in Hg. by rewrite Hg.
    + rewrite with_int80_gate by lia. by apply Hg.
  - f_equal. rewrite <- Htk. unfold bp_count. by destruct (MCSOS_M4_TRIGGER_BREAKPOINT B).
  - f_equal. rewrite <- Hcnt. unfold bp_count, bp_traps. by destruct (MCSOS_M4_TRIGGER_BREAKPOINT B).
Qed.

(** C17: the kernel boots, whatever timer interrupts arrive.  On any hardware
    whose masked controllers read their mask back, and from static objects of
    the sizes of their C types whatever they hold, [kmain] built without the
    panic test and entered with interrupts off runs to its final halt, if the
    timer interrupts arrive between its actions (and not inside one, see
    [trap_during_log_spins]).  Interrupts are enabled exactly once, after the
    interrupt table was loaded and, with interrupts off, both controllers were
    moved to the vectors 0x20 and 0x28, all lines were masked but line 0, and
    the timer was set to 100 Hz; the table then holds the gates of the kernel
    and of the system call.  Each of the [n] interrupts taken counts one tick
    and one trap and sends two end-of-interrupt commands, and the controllers
    are not touched otherwise.  The breakpoint of the breakpoint build is taken
    through its gate, counted and returned from.  Every self test passes: the
    static objects are those of [booted] (lock free, lock-order stack empty,
    the files [/hello.txt] and [/log.txt] with their contents and no open
    descriptor, one RAM disk registered), and if no interrupt came the default
    build sends exactly the lines of success on a ready port. *)
Theorem kernel_boots (H : hardware) (L : layout) (B : build) (g : kglobals) (s : machine) :
  MCSOS_M4_TRIGGER_PANIC B = false -> interrupts_on (trace s) = false ->
  unlocked s -> length (idt s) = 256%nat -> kernel_start H < kernel_end H -> idt_addr H <> 0 ->
  in_u 64 (exception_stub H 3) -> in_u 64 (exception_stub H 32) -> mask_reads_back H -> objects_ok g ->
  exists t0 t1 t2 t3 m1 m2 n g' s',
    kmain H L B (g, s) = (Halted, (g', s')) /\
    trace s' = trace s ++ t0 ++ [IoLidt 4095 (idt_addr H)] ++ t1 ++ [IoCli] ++ t2 ++ [IoSti] ++ t3 ++ [IoCli] /\
    (IoSti ∉ t0 ++ t1 ++ t2 ++ t3) /\
    pic_writes (t0 ++ t1) = [] /\ pic_writes t3 = timer_eois n /\
    pic_writes t2 = pic_boot_writes m1 m2 0xFE /\
    pit_writes t2 = [(0x43, 0x36); (0x40, 0x9B); (0x40, 0x2E)] /\
    (forall v, 0 <= v < 256 -> idt s' !! Z.to_nat v =
       Some (if v =? 0x80 then make_gate (int80_stub H) 0x8F else kernel_gate H v)) /\
    (quiet H -> n = 0%nat) /\
    (MCSOS_M4_TRIGGER_BREAKPOINT B = false -> n = 0%nat -> tx_ready H -> sent t3 = lines_bytes boot_lines) /\
    g_ticks s' = counted n (g_ticks s) /\ trap_count s' = counted (n + bp_traps B) (trap_count s) /\
    booted L g g'.
Proof.
  intros HB Hoff Hl Hlen Hk Ha Hstub Hstub32 Hmask Hobj.
  destruct (boot_prefix H L B g s) as
    (t0 & t1 & t2 & t3 & m1 & m2 & n3 & s1 & E1 & U1 & Ht & Hn & B3 & Hp1 & Hp2 & Hpit & Hg & S3 & Hk1 & Hc1);
    try done.
  destruct (kmain_end_spec H L B g s1) as (n4 & t4 & g' & E4 & B4 & S4 & Hb); try done.
  pose proof (boot_trace_app H _ _ _ _ B3 B4) as [T1 T2 T3 T4].
  destruct (advance_keeps n4 t4 s1) as (_ & _ & Ki & _ & Kt), (advance_counts n4 t4 s1) as [Kg Kc].
  exists t0, t1, t2, (t3 ++ t4), m1, m2, (n4 + n3)%nat, g'. eexists. split; [rewrite E1; exact E4|].
  cbn [trace idt g_ticks trap_count add_trace]. rewrite Ki, Kt, Kg, Kc, Hk1, Hc1, <- !counted_add.
  split_all; try done.
  - rewrite Ht. by rewrite <- !app_assoc.
  - rewrite !elem_of_app in *. tauto.
  - intros Hbp Hz Hx. rewrite sent_app, S3, S4 by (done || lia). unfold lines_bytes.
    by rewrite <- bind_app, take_drop.
  - by rewrite Nat.add_assoc.
Qed.

(** The panic build halts after the M4 self test: when no interrupt comes, from
    [cpu_sti] on only the console is used and interrupts are at most turned off
    again, and none of the later self tests has touched its static objects. *)
Theorem kernel_panic_build (H : hardware) (L : layout) (B : build) (g : kglobals) (s : machine) :
  MCSOS_M4_TRIGGER_PANIC B = true -> interrupts_on (trace s) = false -> quiet H ->
  unlocked s -> length (idt s) = 256%nat -> kernel_start H < kernel_end H -> idt_addr H <> 0 ->
  in_u 64 (exception_stub H 3) -> in_u 64 (exception_stub H 32) -> mask_reads_back H ->
  exists t0 t1 s', kmain H L B (g, s) = (Halted, (syscall_ready g, s')) /\
    trace s' = trace s ++ t0 ++ [IoSti] ++ t1 /\ (IoSti ∉ t0) /\ Forall panic_event t1.
Proof.
  intros HB Hoff Hq Hs Hlen Hk Ha Hstub Hstub32 Hmask.
  destruct (boot_prefix H L B g s) as
    (t0 & t1 & t2 & t3 & m1 & m2 & n3 & s1 & E1 & U1 & Ht & Hn & B3 & _); try done.
  destruct (klift_then H (KERNEL_PANIC (A := unit) H kmain_file 85 "intentional M4 panic test" 0x4D43534F533034)
    (syscall_ready g) s1 U1) as (n4 & t4 & E4 & [[U4 U5] _] & B4 & Z4).
  destruct (KERNEL_PANIC_halts H kmain_file 85 "intentional M4 panic test" 0x4D43534F533034 _ U4 U5)
    as (t5 & E5 & F5).
  rewrite Z4 in * by (by apply (bt_quiet _ _ _ B4)).
  exists (t0 ++ [IoLidt 4095 (idt_addr H)] ++ t1 ++ [IoCli] ++ t2), (t3 ++ t5), (add_trace t5 (advance n4 [] s1)).
  split_all.
  - rewrite E1. unfold kmain_end. rewrite HB, E4, E5. done.
  - cbn [trace add_trace]. rewrite (proj2 (proj2 (proj2 (proj2 (advance_keeps n4 [] s1))))), app_nil_r, Ht.
    by rewrite <- !app_assoc.
  - rewrite !elem_of_app, !elem_of_cons, elem_of_nil in *. intuition congruence.
  - apply Forall_app. split; [|done].
    eapply Forall_impl; [apply (bt_console _ _ _ B3), (bt_quiet _ _ _ B3), Hq|]. intros e He. by left.
Qed.

(** The static objects as C initialises them: all bytes 0. *)
Definition globals0 : kglobals :=
  mk_globals (Syscall.mk_sys (mk_ops None None None None) (mk_user_region 0 0) tt)
    (replicate (Z.to_nat synthetic_size) 0) (mk_spinlock (mk_cells 0 0) 0 None)
    (mk_lockdep (replicate 16 0) (replicate 16 None) 0 0) 0
    (Vfs.mk_sys (Some (mk_process 0 (replicate 16 closed_file)))
       (mk_ramfs (replicate 64 (mk_vnode false 0 0 MCS_VNODE_FILE (replicate 32 0) 0 0 0)) 0
          (replicate (Z.to_nat MCS_RAMFS_DATA_BYTES) 0) 0))
    (mk_registry (replicate 8 None) 0) (mk_blk_device (replicate 16 0) 0 0 0 None None)
    (replicate (Z.to_nat (512 * 64)) 0) ∅.
Definition layout0 : layout := mk_layout 0xFFFFFFFF80010000 0xFFFFFFFF80020000 0xFFFFFFFF80020100 m11_zero_plan (frame0 3).

Lemma globals0_ok : objects_ok globals0.
Proof.
  split.
  - apply length_replicate.
  - split; [apply length_replicate|]. apply Forall_replicate. apply length_replicate.
  - by eexists.
  - discriminate.
Qed.

(** A machine on which two timer interrupts are pending when interrupts are
    enabled. *)
Definition hw_timer : hardware :=
  mk_hardware (hw_in hw0) (hw_rflags hw0) (hw_cr2 hw0)
    (fun t => match last t with Some IoSti => [frame0 0; frame0 0] | _ => [] end) (exception_stub hw0)
    (int80_stub hw0) (idt_addr hw0) (kernel_start hw0) (kernel_end hw0).

Lemma kernel_boots_witness :
  exists n g' s', kmain hw_timer layout0 default_build (globals0, machine0) = (Halted, (g', s')) /\
    g_ticks s' = counted n 0 /\ proc_ok 13 avfs_booted (kg_m13 g') /\ boot_counter g' = 1.
Proof.
  destruct (kernel_boots hw_timer layout0 default_build globals0 machine0)
    as (t0 & t1 & t2 & t3 & m1 & m2 & n & g' & s' & E & _ & _ & _ & _ & _ & _ & _ & _ & _ & Hk & _ & Hb).
  - reflexivity.
  - reflexivity.
  - by split.
  - reflexivity.
  - reflexivity.
  - discriminate.
  - split; by vm_compute.
  - split; by vm_compute.
  - intros t. reflexivity.
  - apply globals0_ok.
  - exists n, g', s'. split; [exact E|]. split; [exact Hk|].
    split; [apply Hb|]. etransitivity; [apply Hb|reflexivity].
Defined.

Example boot_two_ticks :
  (fun w : outcome unit * (kglobals * machine) => (w.1, g_ticks w.2.2, trap_count w.2.2, boot_counter w.2.1))
    (kmain hw_timer layout0 default_build (globals0, machine0)) = (Halted, 2, 2, 1).
Proof. vm_compute. reflexivity. Qed.
